(** * Astra: the MoE video diffusion transformer, embedded in Rocq

    A shallow embedding of [diffsynth/models/wan_video_dit_moe.py]:
    rotary position tables, the multi-scale token assembler, the
    deterministic expert router, the mixture-of-experts combiner, the
    attention blocks and the top-level forward pass.

    Conventions of the embedding.
    - A torch tensor is a shape together with an indexing function
      ([Torch.tensor]); two tensors are compared entry by entry inside
      their shape.
    - Python exceptions are values of [Py.exn]; a function that can raise
      returns [Py.result].
    - Floating-point numbers are idealised: code that is generic in the
      dtype is written over a [Scalar] interface, code that needs
      trigonometry, roots or exponentials is written over the real
      numbers.  A dtype conversion ([.to(dtype)], [.float()], [.double()])
      is the identity on idealised numbers. *)

From Stdlib Require Import Reals Lra Lia ZArith QArith.
From stdpp Require Import base gmap strings list pretty.

(* ================================================================== *)
(** * Part I.  Definitions                                             *)
(* ================================================================== *)

(** ** Python exceptions and the result monad *)

Module Py.

Inductive exn_kind :=
| TypeError | ValueError | IndexError | AssertionError
| RuntimeError | AttributeError | UnboundLocalError | EinopsError
| NotImplementedError | ZeroDivisionError.

Record exn := Exn { kind : exn_kind; message : string }.

Inductive result (A : Type) :=
| Ok (a : A)
| Raise (e : exn).
Arguments Ok {A} a.
Arguments Raise {A} e.

#[global] Instance result_ret : MRet result := λ A a, Ok a.
#[global] Instance result_bind : MBind result :=
  λ A B f m, match m with Ok a => f a | Raise e => Raise e end.

#[global] Instance result_fmap : FMap result :=
  λ A B f m, match m with Ok a => Ok (f a) | Raise e => Raise e end.

Definition raise {A} (k : exn_kind) (msg : string) : result A :=
  Raise (Exn k msg).

Definition is_ok {A} (r : result A) : bool :=
  match r with Ok _ => true | Raise _ => false end.

Definition raises {A} (k : exn_kind) (r : result A) : Prop :=
  match r with Ok _ => False | Raise e => kind e = k end.

(** [assert cond, msg] *)
Definition assert (cond : bool) (msg : string) : result unit :=
  if cond then Ok tt else raise AssertionError msg.

(** [l[i]] on a Python list with a non-negative index. *)
Definition getitem {A} (l : list A) (i : nat) : result A :=
  match l !! i with
  | Some a => Ok a
  | None => raise IndexError "list index out of range"
  end.

Fixpoint mapM {A B} (f : A → result B) (l : list A) : result (list B) :=
  match l with
  | [] => Ok []
  | a :: l' => b ← f a; bs ← mapM f l'; Ok (b :: bs)
  end.

(** A [for] loop that updates one variable. *)
Fixpoint foldlM {A B} (f : B → A → result B) (l : list A) (b : B)
  : result B :=
  match l with
  | [] => Ok b
  | a :: l' => b' ← f b a; foldlM f l' b'
  end.

(** Tuple unpacking, [a, b = l] and so on. *)
Definition unpack_error {A} (n : nat) : result A :=
  raise ValueError ("wrong number of values to unpack (expected " +:+ pretty n +:+ ")").

Definition unpack2 {A} (l : list A) : result (A * A) :=
  match l with [a; b] => Ok (a, b) | _ => unpack_error 2 end.

Definition unpack3 {A} (l : list A) : result (A * A * A) :=
  match l with [a; b; c] => Ok (a, b, c) | _ => unpack_error 3 end.

Definition unpack5 {A} (l : list A) : result (A * A * A * A * A) :=
  match l with [a; b; c; d; e] => Ok (a, b, c, d, e) | _ => unpack_error 5 end.

Definition unpack6 {A} (l : list A) : result (A * A * A * A * A * A) :=
  match l with
  | [a; b; c; d; e; f] => Ok (a, b, c, d, e, f)
  | _ => unpack_error 6
  end.

End Py.
Import Py.

(** ** Scalars: the arithmetic a dtype provides *)

Class Scalar (F : Type) := {
  fzero : F;
  fone : F;
  fadd : F → F → F;
  fmul : F → F → F;
  fdiv : F → F → F;
  fof_nat : nat → F;
  (** the literal [1e-8] *)
  f1e_8 : F
}.

#[global] Instance R_scalar : Scalar R := {|
  fzero := 0%R; fone := 1%R;
  fadd := Rplus; fmul := Rmult; fdiv := Rdiv;
  fof_nat := INR;
  f1e_8 := (/ 100000000)%R
|}.

#[global] Instance Q_scalar : Scalar Q := {|
  fzero := 0%Q; fone := 1%Q;
  fadd := Qplus; fmul := Qmult; fdiv := Qdiv;
  fof_nat := λ n, inject_Z (Z.of_nat n);
  f1e_8 := (1 # 100000000)%Q
|}.

(** ** Tensors *)

Module Torch.

Record tensor (A : Type) := Tensor {
  shape : list nat;
  item : list nat → A
}.
Arguments Tensor {A} shape item.
Arguments shape {A} t.
Arguments item {A} t idx.

Definition numel (sh : list nat) : nat := foldr Nat.mul 1 sh.

(** All indices of a shape, in row-major (storage) order. *)
Fixpoint indices (sh : list nat) : list (list nat) :=
  match sh with
  | [] => [[]]
  | n :: sh' => i ← seq 0 n; (cons i) <$> indices sh'
  end.

Definition to_list {A} (x : tensor A) : list A :=
  item x <$> indices (shape x).

Definition in_bounds (sh idx : list nat) : Prop := Forall2 lt idx sh.

(** Entry-wise equality of two tensors. *)
Definition tensor_eq {A} (x y : tensor A) : Prop :=
  shape x = shape y ∧ ∀ idx, in_bounds (shape x) idx → item x idx = item y idx.

(** Row-major offset of an index, and back. *)
Fixpoint ravel (sh idx : list nat) : nat :=
  match sh, idx with
  | _ :: sh', i :: idx' => i * numel sh' + ravel sh' idx'
  | _, _ => 0
  end.

Fixpoint unravel (sh : list nat) (k : nat) : list nat :=
  match sh with
  | [] => []
  | _ :: sh' => (k / numel sh') :: unravel sh' (k mod numel sh')
  end.

(** [torch.full], [torch.zeros], [torch.ones] *)
Definition full {A} (sh : list nat) (v : A) : tensor A := Tensor sh (λ _, v).
Definition zeros `{Scalar F} (sh : list nat) : tensor F := full sh fzero.
Definition ones `{Scalar F} (sh : list nat) : tensor F := full sh fone.

(** A 0-d tensor, [torch.tensor(v)]. *)
Definition scalar_tensor {A} (v : A) : tensor A := Tensor [] (λ _, v).

(** *** Broadcasting *)

Fixpoint broadcast_rev (s1 s2 : list nat) : option (list nat) :=
  match s1, s2 with
  | [], s => Some s
  | s, [] => Some s
  | a :: s1', b :: s2' =>
      r ← broadcast_rev s1' s2';
      if a =? b then Some (a :: r)
      else if a =? 1 then Some (b :: r)
      else if b =? 1 then Some (a :: r)
      else None
  end.

Definition broadcast_shapes (s1 s2 : list nat) : option (list nat) :=
  reverse <$> broadcast_rev (reverse s1) (reverse s2).

(** The index read in an operand of shape [sh] for the index [idx] of
    the broadcast result: axes are aligned on the right, an axis of
    size 1 is read at 0. *)
Definition bindex (sh idx : list nat) : list nat :=
  zip_with (λ n i, if n =? 1 then 0 else i) sh
           (drop (length idx - length sh) idx).

Definition broadcast_error {A} : result A :=
  raise RuntimeError
    "The size of tensor a must match the size of tensor b at a non-singleton dimension".

(** An element-wise binary operation, [x op y]. *)
Definition map2 {A B C} (f : A → B → C) (x : tensor A) (y : tensor B)
  : result (tensor C) :=
  match broadcast_shapes (shape x) (shape y) with
  | Some sh =>
      Ok (Tensor sh (λ idx, f (item x (bindex (shape x) idx))
                              (item y (bindex (shape y) idx))))
  | None => broadcast_error
  end.

(** An in-place binary operation, [x op= y]: the result keeps the
    shape of [x]. *)
Definition imap2 {A B} (f : A → B → A) (x : tensor A) (y : tensor B)
  : result (tensor A) :=
  match broadcast_shapes (shape x) (shape y) with
  | Some sh =>
      if decide (sh = shape x)
      then Ok (Tensor (shape x)
                 (λ idx, f (item x idx) (item y (bindex (shape y) idx))))
      else raise RuntimeError "output with this shape doesn't match the broadcast shape"
  | None => broadcast_error
  end.

Definition tmap {A B} (f : A → B) (x : tensor A) : tensor B :=
  Tensor (shape x) (λ idx, f (item x idx)).

(** [x.expand(sh)], every size given explicitly. *)
Definition expand_to {A} (sh : list nat) (x : tensor A) : result (tensor A) :=
  if decide (broadcast_shapes (shape x) sh = Some sh)
  then Ok (Tensor sh (λ idx, item x (bindex (shape x) idx)))
  else raise RuntimeError "The expanded size of the tensor must match the existing size".

(** *** Indexing and reshaping *)

(** Component [k] of an index. *)
Definition ix (idx : list nat) (k : nat) : nat := nth k idx 0.

Definition insert_at {A} (d : nat) (a : A) (l : list A) : list A :=
  take d l ++ a :: drop d l.

(** [x[..., k, ...]] with an integer [k >= 0] on axis [d]. *)
Definition select {A} (d k : nat) (x : tensor A) : result (tensor A) :=
  match shape x !! d with
  | None => raise IndexError "too many indices for tensor"
  | Some n =>
      if k <? n
      then Ok (Tensor (delete d (shape x)) (λ idx, item x (insert_at d k idx)))
      else raise IndexError "index is out of bounds for this dimension"
  end.

(** [x[..., lo:hi, ...]] on an existing axis [d] of size [n], bounds
    already non-negative. *)
Definition slice_axis {A} (d n lo hi : nat) (x : tensor A) : tensor A :=
  let lo' := lo `min` n in
  let hi' := hi `min` n in
  Tensor (<[d := hi' - lo']> (shape x))
         (λ idx, item x (alter (λ i, i + lo') d idx)).

Definition slice {A} (d lo hi : nat) (x : tensor A) : result (tensor A) :=
  match shape x !! d with
  | None => raise IndexError "too many indices for tensor"
  | Some n => Ok (slice_axis d n lo hi x)
  end.

(** [x[..., lo:, ...]] *)
Definition slice_from {A} (d lo : nat) (x : tensor A) : result (tensor A) :=
  match shape x !! d with
  | None => raise IndexError "too many indices for tensor"
  | Some n => Ok (slice_axis d n lo n x)
  end.

(** A Python slice bound: negative values count from the end. *)
Definition py_bound (n : nat) (i : Z) : nat :=
  if (i <? 0)%Z then Z.to_nat (Z.of_nat n + i) else Z.to_nat i.

Definition py_slice {A} (d : nat) (lo hi : Z) (x : tensor A)
  : result (tensor A) :=
  match shape x !! d with
  | None => raise IndexError "too many indices for tensor"
  | Some n => slice d (py_bound n lo) (py_bound n hi) x
  end.

Definition unsqueeze {A} (d : nat) (x : tensor A) : tensor A :=
  Tensor (insert_at d 1 (shape x)) (λ idx, item x (delete d idx)).

(** [x.squeeze(d)]: drops axis [d] when its size is 1. *)
Definition squeeze {A} (d : nat) (x : tensor A) : tensor A :=
  match shape x !! d with
  | Some 1 => Tensor (delete d (shape x)) (λ idx, item x (insert_at d 0 idx))
  | _ => x
  end.

(** [x.reshape(sh)] / [x.view(sh)] with explicit sizes. *)
Definition reshape {A} (sh : list nat) (x : tensor A) : result (tensor A) :=
  if numel sh =? numel (shape x)
  then Ok (Tensor sh (λ idx, item x (unravel (shape x) (ravel sh idx))))
  else raise RuntimeError "shape is invalid for input of this size".

(** [x.view(pre..., -1)] and [x.reshape(pre..., -1)]: the last size is
    inferred as the number of elements divided by the product of the
    given sizes; it is 0 for a tensor without elements, and ambiguous
    only when the given sizes multiply to 0 as well. *)
Definition reshape_infer_last {A} (pre : list nat) (x : tensor A)
  : result (tensor A) :=
  let n := numel (shape x) in
  if numel pre =? 0
  then
    if n =? 0
    then raise RuntimeError
           "cannot reshape tensor of 0 elements: the unspecified dimension size -1 is ambiguous"
    else raise RuntimeError "shape is invalid for input of this size"
  else if n mod numel pre =? 0
  then reshape (pre ++ [n / numel pre]) x
  else raise RuntimeError "shape is invalid for input of this size".

(** The tensor built by [torch.cat([x, y], dim=d)]: the entries of [x]
    come first along axis [d]. *)
Definition cat_axis {A} (d : nat) (x y : tensor A) : tensor A :=
  Tensor (<[d := ix (shape x) d + ix (shape y) d]> (shape x))
         (λ idx, if ix idx d <? ix (shape x) d then item x idx
                 else item y (<[d := ix idx d - ix (shape x) d]> idx)).

(** [torch.cat([x, y], dim=d)] *)
Definition cat2 {A} (d : nat) (x y : tensor A) : result (tensor A) :=
  if (d <? length (shape x)) && (d <? length (shape y))
  then
    if decide (delete d (shape x) = delete d (shape y))
    then Ok (cat_axis d x y)
    else raise RuntimeError
           "Sizes of tensors must match except in the concatenation dimension"
  else raise IndexError "Dimension out of range".

(** [torch.cat(xs, dim=d)] for a Python list of tensors. *)
Definition cat {A} (d : nat) (xs : list (tensor A)) : result (tensor A) :=
  match xs with
  | [] => raise RuntimeError "torch.cat(): expected a non-empty list of Tensors"
  | x :: rest => foldlM (cat2 d) rest x
  end.

(** [torch.stack(xs, dim=d)]: a new axis [d] indexes the list. *)
Definition stack {A} (d : nat) (xs : list (tensor A)) : result (tensor A) :=
  match xs with
  | [] => raise RuntimeError "stack expects a non-empty TensorList"
  | x :: _ =>
      if forallb (λ y, bool_decide (shape y = shape x)) xs
      then Ok (Tensor (insert_at d (length xs) (shape x))
                 (λ idx, item (nth (nth d idx 0) xs x) (delete d idx)))
      else raise RuntimeError "stack expects each tensor to be equal size"
  end.

(** [torch.gather(input, dim=d, index)] *)
Definition gather {A} (d : nat) (input : tensor A) (index : tensor Z)
  : result (tensor A) :=
  if negb (length (shape input) =? length (shape index))
  then raise RuntimeError "Index tensor must have the same number of dimensions as input tensor"
  else if negb (forallb (λ p, p.1 <=? p.2)
                  (delete d (zip (shape index) (shape input))))
  then raise RuntimeError "Size does not match at a dimension other than the gather dimension"
  else if forallb (λ i, (0 <=? i)%Z && (i <? Z.of_nat (nth d (shape input) 0%nat))%Z)
            (to_list index)
  then Ok (Tensor (shape index)
             (λ idx, item input (<[d := Z.to_nat (item index idx)]> idx)))
  else raise RuntimeError "index out of bounds in gather".

(** [x.chunk(chunks, dim=d)] *)
Definition chunk {A} (chunks d : nat) (x : tensor A)
  : result (list (tensor A)) :=
  match shape x !! d with
  | None => raise IndexError "Dimension out of range"
  | Some n =>
      let split_size := (n + chunks - 1) / chunks in
      if (split_size =? 0) && (n =? 0)
      then Ok (replicate chunks x)
      else Ok ((λ i, slice_axis d n (i * split_size) ((i + 1) * split_size) x)
                 <$> seq 0 ((n + split_size - 1) / split_size))
  end.

(** *** Reductions *)

Definition fsum `{Scalar F} (l : list F) : F := foldr fadd fzero l.

(** [x.sum()] and [x.mean()] over all entries. *)
Definition tsum `{Scalar F} (x : tensor F) : F := fsum (to_list x).
Definition tmean `{Scalar F} (x : tensor F) : F :=
  fdiv (tsum x) (fof_nat (numel (shape x))).

(** *** Strided slices, [expand] and indexing by a tensor *)

(** [x[..., ::step, ...]] on axis [d], for a positive step. *)
Definition stride_axis {A} (d step : nat) (x : tensor A) : tensor A :=
  Tensor (alter (λ n, (n + step - 1) / step) d (shape x))
         (λ idx, item x (alter (λ i, i * step) d idx)).

(** [x.expand(sizes)]: a size of [-1] keeps the size of an existing
    axis; new leading axes need an explicit size. *)
Definition expand {A} (sizes : list Z) (x : tensor A) : result (tensor A) :=
  let k := length sizes - length (shape x) in
  if length sizes <? length (shape x)
  then raise RuntimeError
         "expand: the number of sizes provided must be greater or equal to the number of dimensions in the tensor"
  else
    target ← mapM (λ '(i, s),
                     if (s =? -1)%Z
                     then if i <? k
                          then raise RuntimeError
                                 "expand: -1 is not allowed in a leading, non-existing dimension"
                          else Ok (ix (shape x) (i - k))
                     else if (s <? -1)%Z
                     then raise RuntimeError "expand: invalid size"
                     else Ok (Z.to_nat s))
                  (zip (seq 0 (length sizes)) sizes);
    expand_to target x.

(** [table[index]] for an integer tensor [index]: the rows of [table]
    at the given positions; a negative position counts from the end. *)
Definition index_rows {A} (table : tensor A) (index : tensor Z)
  : result (tensor A) :=
  match shape table with
  | [] => raise IndexError "too many indices for tensor of dimension 0"
  | n :: rest =>
      if forallb (λ i, (- Z.of_nat n <=? i)%Z && (i <? Z.of_nat n)%Z)
           (to_list index)
      then
        let r := length (shape index) in
        Ok (Tensor (shape index ++ rest)
              (λ idx, item table (py_bound n (item index (take r idx))
                                    :: drop r idx)))
      else raise IndexError "index out of range in self"
  end.

End Torch.
Import Torch.


(** ** [nn.Linear] *)

Module Linear.
Section Linear.
Context {F : Type} `{Scalar F}.

Record t := Make {
  in_features : nat;
  out_features : nat;
  (** shape [[out_features; in_features]] *)
  weight : tensor F;
  (** shape [[out_features]] *)
  bias : tensor F
}.

(** [nn.Linear(in_features, out_features)]; the initial parameter
    values are arguments. *)
Definition init (in_features out_features : nat)
    (w : nat → nat → F) (b : nat → F) : t :=
  {| in_features := in_features;
     out_features := out_features;
     weight := Tensor [out_features; in_features]
                 (λ idx, w (nth 0 idx 0) (nth 1 idx 0));
     bias := Tensor [out_features] (λ idx, b (nth 0 idx 0)) |}.

(** One output feature of [x W^T + b] for the row of [x] at [pre]. *)
Definition apply_row (self : t) (x : tensor F) (pre : list nat) (j : nat) : F :=
  fadd (fsum ((λ i, fmul (item x (pre ++ [i])) (item (weight self) [j; i]))
                <$> seq 0 (in_features self)))
       (item (bias self) [j]).

Definition forward (self : t) (x : tensor F) : result (tensor F) :=
  match last (shape x) with
  | None => raise RuntimeError "both arguments to linear need to be at least 1D"
  | Some d =>
      if d =? in_features self
      then
        let r := length (shape x) - 1 in
        Ok (Tensor (take r (shape x) ++ [out_features self])
              (λ idx, apply_row self x (take r idx) (nth r idx 0)))
      else raise RuntimeError "mat1 and mat2 shapes cannot be multiplied"
  end.
End Linear.
Arguments t F : clear implicits.
End Linear.


(** ** Complex numbers, as pairs of reals *)

Module Complex.
Definition C : Type := R * R.
Definition cmul (a b : C) : C :=
  (a.1 * b.1 - a.2 * b.2, a.1 * b.2 + a.2 * b.1)%R.
Definition cconj (a : C) : C := (a.1, - a.2)%R.
Definition cnorm2 (a : C) : R := (a.1 * a.1 + a.2 * a.2)%R.
(** [torch.polar(abs, angle)] *)
Definition polar (abs angle : R) : C := (abs * cos angle, abs * sin angle)%R.
End Complex.
Import Complex.

(** ** Module-level functions of [wan_video_dit_moe.py] *)

(** [torch.arange(lo, hi, step)] *)
Definition arange (lo hi step : nat) : tensor nat :=
  Tensor [(hi - lo + (step - 1)) / step] (λ idx, lo + step * ix idx 0).

(** [torch.outer(a, b)] *)
Definition outer (a b : tensor R) : tensor R :=
  Tensor [ix (shape a) 0; ix (shape b) 0]
         (λ idx, (item a [ix idx 0] * item b [ix idx 1])%R).

Definition modulate (x shift scale : tensor R) : result (tensor R) :=
  xs ← map2 (λ a s, (a * (1 + s))%R) x scale;
  map2 Rplus xs shift.

(** [theta ** e] for a positive base. *)
Definition pow_base (theta e : R) : R := Rpower theta e.

Definition sinusoidal_embedding_1d (dim : nat) (position : tensor R)
  : result (tensor R) :=
  let half := dim / 2 in
  let freqs := tmap (λ a, pow_base 10000 (- (INR a / INR half)))
                    (arange 0 half 1) in
  if length (shape position) =? 1
  then
    let sinusoid := outer position freqs in
    cat2 1 (tmap cos sinusoid) (tmap sin sinusoid)
  else raise RuntimeError "outer: Expected 1-D argument self".

(** 1d rope precompute: the table has [end_] rows and [dim / 2] columns. *)
Definition precompute_freqs_cis (dim end_ : nat) (theta : R) : tensor C :=
  let ar := arange 0 dim 2 in
  let ar := slice_axis 0 (ix (shape ar) 0) 0 (dim / 2) ar in
  let freqs := tmap (λ a, (1 / pow_base theta (INR a / INR dim))%R) ar in
  let freqs := outer (tmap INR (arange 0 end_ 1)) freqs in
  tmap (polar 1) freqs.

(** 3d rope precompute *)
Definition precompute_freqs_cis_3d (dim end_ : nat) (theta : R)
  : tensor C * tensor C * tensor C :=
  let f_freqs_cis := precompute_freqs_cis (dim - 2 * (dim / 3)) end_ theta in
  let h_freqs_cis := precompute_freqs_cis (dim / 3) end_ theta in
  let w_freqs_cis := precompute_freqs_cis (dim / 3) end_ theta in
  (f_freqs_cis, h_freqs_cis, w_freqs_cis).

(** Default arguments [end=1024], [theta=10000.0]. *)
Definition default_end : nat := 1024.
Definition default_theta : R := 10000%R.

(** [rearrange(x, "b s (n d) -> b s n d", n=num_heads)] *)
Definition rearrange_split_heads {A} (x : tensor A) (n : nat)
  : result (tensor A) :=
  match shape x with
  | [b; s; nd] =>
      if (0 <? n) && (nd mod n =? 0)
      then Ok (Tensor [b; s; n; nd / n]
                 (λ idx, item x [ix idx 0; ix idx 1;
                                 ix idx 2 * (nd / n) + ix idx 3]))
      else raise EinopsError "Shape mismatch, can't divide axis"
  | _ => raise EinopsError "Wrong shape: expected 3 dims"
  end.

(** [torch.view_as_complex(x.reshape(x.shape[0], x.shape[1], x.shape[2], -1, 2))] *)
Definition view_as_complex_pairs (x : tensor R) : result (tensor C) :=
  match shape x with
  | [b; s; n; d] =>
      if b * s * n =? 0
      then raise RuntimeError
             "cannot reshape tensor of 0 elements: the unspecified dimension size -1 is ambiguous"
      else if d mod 2 =? 0
      then Ok (Tensor [b; s; n; d / 2]
                 (λ idx, (item x [ix idx 0; ix idx 1; ix idx 2; 2 * ix idx 3],
                          item x [ix idx 0; ix idx 1; ix idx 2; 2 * ix idx 3 + 1])))
      else raise RuntimeError "shape is invalid for input of this size"
  | _ => raise IndexError "tuple index out of range"
  end.

(** [torch.view_as_real(z).flatten(2)] *)
Definition view_as_real_flatten2 (z : tensor C) : result (tensor R) :=
  let sh := shape z ++ [2] in
  if length sh <? 3
  then raise IndexError "Dimension out of range"
  else Ok (Tensor (take 2 sh ++ [numel (drop 2 sh)])
             (λ idx,
                let rest := unravel (drop 2 sh) (ix idx 2) in
                let zi := item z (take 2 idx ++ take (length rest - 1) rest) in
                if ix rest (length rest - 1) =? 0 then zi.1 else zi.2)).

Definition rope_apply (x : tensor R) (freqs : tensor C) (num_heads : nat)
  : result (tensor R) :=
  x ← rearrange_split_heads x num_heads;
  x_out ← view_as_complex_pairs x;
  prod ← map2 cmul x_out freqs;
  view_as_real_flatten2 prod.

(** [rearrange(x, "b s (n d) -> b n s d", n=num_heads)] *)
Definition rearrange_to_heads {A} (x : tensor A) (n : nat)
  : result (tensor A) :=
  match shape x with
  | [b; s; nd] =>
      if (0 <? n) && (nd mod n =? 0)
      then Ok (Tensor [b; n; s; nd / n]
                 (λ idx, item x [ix idx 0; ix idx 2;
                                 ix idx 1 * (nd / n) + ix idx 3]))
      else raise EinopsError "Shape mismatch, can't divide axis"
  | _ => raise EinopsError "Wrong shape: expected 3 dims"
  end.

(** [rearrange(x, "b n s d -> b s (n d)", n=num_heads)] *)
Definition rearrange_from_heads {A} (x : tensor A) (n : nat)
  : result (tensor A) :=
  match shape x with
  | [b; n'; s; d] =>
      if n' =? n
      then Ok (Tensor [b; s; n * d]
                 (λ idx, item x [ix idx 0; ix idx 2 / d; ix idx 1; ix idx 2 mod d]))
      else raise EinopsError "Shape mismatch"
  | _ => raise EinopsError "Wrong shape: expected 4 dims"
  end.

(** [F.scaled_dot_product_attention(q, k, v)] on [[b, n, s, d]] tensors,
    without mask: [softmax(q k^T / sqrt(d)) v].  The batch and head
    axes of the three operands are broadcast against each other, as the
    two matrix products do: an operand whose size on such an axis differs
    from the size of the result has size 1 there and is read at 0. *)
Definition scaled_dot_product_attention (q k v : tensor R)
  : result (tensor R) :=
  match shape q, shape k, shape v with
  | [b; n; l; d], [b2; n2; s; d2], [b3; n3; s3; dv] =>
      match broadcast_shapes [b; n] [b2; n2]
              ≫= (λ bn, broadcast_shapes bn [b3; n3]) with
      | Some [bo; no] =>
          if (d =? d2) && (s =? s3)
          then
            let pick (m i : nat) (out : nat) := if m =? out then i else 0 in
            let score i h a j :=
              (fsum ((λ c, item q [pick b i bo; pick n h no; a; c]
                           * item k [pick b2 i bo; pick n2 h no; j; c])
                       <$> seq 0 d)
               / sqrt (INR d))%R in
            let denom i h a := fsum ((λ j, exp (score i h a j)) <$> seq 0 s) in
            Ok (Tensor [bo; no; l; dv]
                  (λ idx,
                     let i := ix idx 0 in
                     let h := ix idx 1 in
                     let a := ix idx 2 in
                     fsum ((λ j, exp (score i h a j) / denom i h a
                                 * item v [pick b3 i bo; pick n3 h no; j;
                                           ix idx 3]) <$> seq 0 s)%R))
          else raise RuntimeError
                 "scaled_dot_product_attention: shapes do not match"
      | _ => raise RuntimeError
               "The size of tensor a must match the size of tensor b"
      end
  | _, _, _ =>
      raise RuntimeError "scaled_dot_product_attention: expected 4 dims"
  end.

(** Every branch of [flash_attention] splits the heads, calls an
    attention kernel and merges the heads; the kernels compute the same
    function, modelled by the reference one of the last branch. *)
Definition flash_attention (q k v : tensor R) (num_heads : nat)
  : result (tensor R) :=
  q ← rearrange_to_heads q num_heads;
  k ← rearrange_to_heads k num_heads;
  v ← rearrange_to_heads v num_heads;
  x ← scaled_dot_product_attention q k v;
  rearrange_from_heads x num_heads.

(** [x.mean(dim=-1, keepdim=True)] *)
Definition mean_last_keepdim (x : tensor R) : tensor R :=
  let r := length (shape x) - 1 in
  let n := ix (shape x) r in
  Tensor (take r (shape x) ++ [1])
         (λ idx, (fsum ((λ i, item x (take r idx ++ [i])) <$> seq 0 n) / INR n)%R).

Module RMSNorm.
Record t := Make { eps : R; weight : tensor R }.

Definition init (dim : nat) (eps : R) : t :=
  {| eps := eps; weight := ones [dim] |}.

Definition norm (self : t) (x : tensor R) : result (tensor R) :=
  map2 (λ a m, (a * (1 / sqrt (m + eps self)))%R) x
       (mean_last_keepdim (tmap (λ a, (a * a)%R) x)).

Definition forward (self : t) (x : tensor R) : result (tensor R) :=
  y ← norm self x;
  map2 Rmult y (weight self).
End RMSNorm.

(** [nn.LayerNorm(dim, eps, elementwise_affine)] over the last axis. *)
Module LayerNorm.
Record t := Make {
  normalized_shape : nat;
  eps : R;
  (** [None] when [elementwise_affine=False] *)
  affine : option (tensor R * tensor R)
}.

Definition init (dim : nat) (eps : R) (elementwise_affine : bool) : t :=
  {| normalized_shape := dim; eps := eps;
     affine := if elementwise_affine
               then Some (ones [dim], zeros [dim]) else None |}.

Definition forward (self : t) (x : tensor R) : result (tensor R) :=
  if decide (last (shape x) = Some (normalized_shape self))
  then
    centred ← map2 Rminus x (mean_last_keepdim x);
    let var := mean_last_keepdim (tmap (λ a, (a * a)%R) centred) in
    y ← map2 (λ a v, (a / sqrt (v + eps self))%R) centred var;
    match affine self with
    | Some (w, b) => yw ← map2 Rmult y w; map2 Rplus yw b
    | None => Ok y
    end
  else raise RuntimeError "Given normalized_shape, expected input with a matching last dimension".
End LayerNorm.

(** [nn.GELU(approximate='tanh')] and [nn.SiLU] *)
Definition gelu_tanh (x : R) : R :=
  (0.5 * x * (1 + tanh (sqrt (2 / PI) * (x + 0.044715 * (x * x * x)))))%R.
Definition silu (x : R) : R := (x / (1 + exp (- x)))%R.

(** The initial values of the learned parameters, by parameter name. *)
Definition init_params : Type := string → list nat → R.

(** The parameters of the submodule [prefix]. *)
Definition sub_params (params : init_params) (prefix : string) : init_params :=
  λ name, params (prefix +:+ "." +:+ name).

Definition linear_named (params : init_params) (name : string)
    (in_features out_features : nat) : Linear.t R :=
  Linear.init in_features out_features
    (λ j i, params (name +:+ ".weight") [j; i])
    (λ j, params (name +:+ ".bias") [j]).

Module AttentionModule.
Record t := Make { num_heads : nat }.
Definition forward (self : t) (q k v : tensor R) : result (tensor R) :=
  flash_attention q k v (num_heads self).
End AttentionModule.

Module SelfAttention.
Record t := Make {
  dim : nat;
  num_heads : nat;
  head_dim : nat;
  q : Linear.t R; k : Linear.t R; v : Linear.t R; o : Linear.t R;
  norm_q : RMSNorm.t; norm_k : RMSNorm.t;
  attn : AttentionModule.t
}.

Definition init (dim num_heads : nat) (eps : R) (params : init_params) : t :=
  {| dim := dim;
     num_heads := num_heads;
     head_dim := dim / num_heads;
     q := linear_named params "q" dim dim;
     k := linear_named params "k" dim dim;
     v := linear_named params "v" dim dim;
     o := linear_named params "o" dim dim;
     norm_q := RMSNorm.init dim eps;
     norm_k := RMSNorm.init dim eps;
     attn := AttentionModule.Make num_heads |}.

Definition forward (self : t) (x : tensor R) (freqs : tensor C)
  : result (tensor R) :=
  xq ← Linear.forward (q self) x;
  q_ ← RMSNorm.forward (norm_q self) xq;
  xk ← Linear.forward (k self) x;
  k_ ← RMSNorm.forward (norm_k self) xk;
  v_ ← Linear.forward (v self) x;
  q_ ← rope_apply q_ freqs (num_heads self);
  k_ ← rope_apply k_ freqs (num_heads self);
  x ← AttentionModule.forward (attn self) q_ k_ v_;
  Linear.forward (o self) x.
End SelfAttention.

Module CrossAttention.
(** The image branch [k_img], [v_img], [norm_k_img] exists only when
    [has_image_input] holds. *)
Record image_branch := {
  k_img : Linear.t R; v_img : Linear.t R; norm_k_img : RMSNorm.t
}.

Record t := Make {
  dim : nat;
  num_heads : nat;
  head_dim : nat;
  q : Linear.t R; k : Linear.t R; v : Linear.t R; o : Linear.t R;
  norm_q : RMSNorm.t; norm_k : RMSNorm.t;
  has_image_input : bool;
  image : option image_branch;
  attn : AttentionModule.t
}.

Definition init (dim num_heads : nat) (eps : R) (has_image_input : bool)
    (params : init_params) : t :=
  {| dim := dim;
     num_heads := num_heads;
     head_dim := dim / num_heads;
     q := linear_named params "q" dim dim;
     k := linear_named params "k" dim dim;
     v := linear_named params "v" dim dim;
     o := linear_named params "o" dim dim;
     norm_q := RMSNorm.init dim eps;
     norm_k := RMSNorm.init dim eps;
     has_image_input := has_image_input;
     image :=
       if has_image_input
       then Some {| k_img := linear_named params "k_img" dim dim;
                    v_img := linear_named params "v_img" dim dim;
                    norm_k_img := RMSNorm.init dim eps |}
       else None;
     attn := AttentionModule.Make num_heads |}.

(** What [self.k_img] etc. evaluate to. *)
Definition get_image (self : t) : result image_branch :=
  match image self with
  | Some br => Ok br
  | None => raise AttributeError "'CrossAttention' object has no attribute 'k_img'"
  end.

Definition forward (self : t) (x y : tensor R) : result (tensor R) :=
  '(img, ctx) ←
    (if has_image_input self
     then img ← slice 1 0 257 y;
          ctx ← slice_from 1 257 y;
          Ok (Some img, ctx)
     else Ok (None, y));
  xq ← Linear.forward (q self) x;
  q_ ← RMSNorm.forward (norm_q self) xq;
  ck ← Linear.forward (k self) ctx;
  k_ ← RMSNorm.forward (norm_k self) ck;
  v_ ← Linear.forward (v self) ctx;
  x ← AttentionModule.forward (attn self) q_ k_ v_;
  x ← match img with
      | Some img =>
          br ← get_image self;
          ik ← Linear.forward (k_img br) img;
          k_img_ ← RMSNorm.forward (norm_k_img br) ik;
          v_img_ ← Linear.forward (v_img br) img;
          y ← flash_attention q_ k_img_ v_img_ (num_heads self);
          map2 Rplus x y
      | None => Ok x
      end;
  Linear.forward (o self) x.
End CrossAttention.

(** ** [ModalityProcessor] *)

Module ModalityProcessor.
Section ModalityProcessor.
Context {F : Type} `{Scalar F}.

Record t := Make {
  modality_name : string;
  input_dim : nat;
  unified_dim : nat;
  (** [self.projector[0]] *)
  projector : Linear.t F
}.

Definition init (modality_name : string) (input_dim unified_dim : nat)
    (w : nat → nat → F) (b : nat → F) : t :=
  {| modality_name := modality_name;
     input_dim := input_dim;
     unified_dim := unified_dim;
     projector := Linear.init input_dim unified_dim w b |}.

Definition forward (self : t) (x : tensor F) : result (tensor F) :=
  let x := if length (shape x) =? 2 then unsqueeze 1 x else x in
  Linear.forward (projector self) x.
End ModalityProcessor.
Arguments t F : clear implicits.
End ModalityProcessor.

(** ** [MultiModalMoE]: the experts and their weighted combination *)

Module MultiModalMoE.
Section MultiModalMoE.
Context {F : Type} `{Scalar F}.

Record t := Make {
  unified_dim : nat;
  num_experts : nat;
  top_k : nat;
  output_dim : nat;
  modality_to_expert : gmap string nat;
  experts : list (Linear.t F)
}.

(** [self.modality_to_expert] as written in [__init__]. *)
Definition modality_table : gmap string nat :=
  {[ "sekai" := 0; "nuscenes" := 1; "openx" := 2; "unknown" := 0 ]}.

(** [MultiModalMoE(unified_dim, hidden_dim, output_dim, num_experts,
    top_k)]; [w e] and [b e] are the initial parameters of expert [e]. *)
Definition init (unified_dim hidden_dim : nat) (output_dim : option nat)
    (num_experts top_k : nat)
    (w : nat → nat → nat → F) (b : nat → nat → F) : t :=
  let out := match output_dim with
             | Some (S n) => S n
             | _ => unified_dim      (* [output_dim or unified_dim] *)
             end in
  {| unified_dim := unified_dim;
     num_experts := num_experts;
     top_k := top_k;
     output_dim := out;
     modality_to_expert := modality_table;
     experts := (λ e, Linear.init unified_dim out (w e) (b e))
                  <$> seq 0 num_experts |}.

Record ExpertStats := {
  stat_modality_type : string;
  stat_target_expert_id : nat;
  stat_target_expert_usage : F;
  stat_expert_selection_ratio : tensor F;
  stat_avg_expert_weights : tensor F;
  stat_avg_top_k_weights : tensor F;
  stat_num_experts : nat;
  stat_top_k : nat
}.

(** [(x == v).sum()] *)
Definition count_eq (x : tensor Z) (v : Z) : nat :=
  length (filter (λ i, i = v) (to_list x)).

(** [x[mask]] for a boolean mask, as the list of selected entries. *)
Definition masked_select (x : tensor F) (mask : tensor bool)
  : result (list F) :=
  let r := length (shape mask) in
  if decide (take r (shape x) = shape mask)
  then Ok (idx ← filter (λ idx, item mask idx = true) (indices (shape mask));
           (λ rest, item x (idx ++ rest)) <$> indices (drop r (shape x)))
  else raise IndexError
         "The shape of the mask does not match the shape of the indexed tensor".

(** [x.mean(dim=(0, 1))] *)
Definition mean_dims01 (x : tensor F) : result (tensor F) :=
  match shape x with
  | b :: s :: rest =>
      Ok (Tensor rest
            (λ idx, fdiv (fsum ((λ p, item x (p ++ idx)) <$> indices [b; s]))
                         (fof_nat (b * s))))
  | _ => raise IndexError "Dimension out of range"
  end.

Definition collect_expert_statistics (self : t)
    (expert_weights : tensor F) (top_k_indices : tensor Z)
    (modality_type : string) (target_expert_id : nat)
  : result ExpertStats :=
  let expert_selection_count :=
    Tensor [num_experts self]
      (λ idx, fof_nat (count_eq top_k_indices (Z.of_nat (nth 0 idx 0)))) in
  let total_selections := tsum expert_selection_count in
  let expert_selection_ratio :=
    tmap (λ c, fdiv c (fadd total_selections f1e_8)) expert_selection_count in
  avg ← mapM (λ expert_id,
                let mask := tmap (λ i, bool_decide (i = Z.of_nat expert_id))
                                 top_k_indices in
                if 0 <? count_eq top_k_indices (Z.of_nat expert_id)
                then sel ← masked_select expert_weights mask;
                     Ok (fdiv (fsum sel) (fof_nat (length sel)))
                else Ok fzero)
             (seq 0 (num_experts self));
  let avg_expert_weights :=
    Tensor [num_experts self] (λ idx, nth (nth 0 idx 0) avg fzero) in
  avg_top_k_weights ← mean_dims01 expert_weights;
  usage ← select 0 target_expert_id expert_selection_ratio;
  Ok {| stat_modality_type := modality_type;
        stat_target_expert_id := target_expert_id;
        stat_target_expert_usage := item usage [];
        stat_expert_selection_ratio := expert_selection_ratio;
        stat_avg_expert_weights := avg_expert_weights;
        stat_avg_top_k_weights := avg_top_k_weights;
        stat_num_experts := num_experts self;
        stat_top_k := top_k self |}.

(** [expert_idx.unsqueeze(-1).unsqueeze(-1).expand(-1, -1, 1, d)] *)
Definition expand_index (expert_idx : tensor Z) (d : nat)
  : result (tensor Z) :=
  match shape expert_idx with
  | [b; s] => Ok (Tensor [b; s; 1; d] (λ idx, item expert_idx (take 2 idx)))
  | _ => raise RuntimeError
           "expand: the sizes provided do not match the existing dimensions"
  end.

(** One iteration of [for k in range(self.top_k)]. *)
Definition combine_slot (expert_outputs expert_weights : tensor F)
    (top_k_indices : tensor Z) (output : tensor F) (k : nat)
  : result (tensor F) :=
  expert_idx ← select 2 k top_k_indices;
  weight ← slice 2 k (k + 1) expert_weights;
  index ← expand_index expert_idx (default 0 (last (shape expert_outputs)));
  gathered ← gather 2 expert_outputs index;
  let expert_output := squeeze 2 gathered in
  weighted ← map2 fmul weight expert_output;
  imap2 fadd output weighted.

Definition forward (self : t) (x expert_weights : tensor F)
    (top_k_indices : tensor Z) (modality_type : string)
  : result (tensor F * ExpertStats) :=
  '(batch_size, seq_len, input_dim) ← unpack3 (shape x);
  _ ← assert (input_dim =? unified_dim self)
        ("Expected input dim " +:+ pretty (unified_dim self)
           +:+ ", got " +:+ pretty input_dim);
  _ ← getitem (experts self) 0;
  let target_expert_id :=
    default 0 (modality_to_expert self !! modality_type) in
  expert_stats ← collect_expert_statistics self expert_weights top_k_indices
                   modality_type target_expert_id;
  outs ← mapM (λ expert, Linear.forward expert x) (experts self);
  expert_outputs ← stack 2 outs;
  let output := zeros [batch_size; seq_len; output_dim self] in
  output ← foldlM (combine_slot expert_outputs expert_weights top_k_indices)
             (seq 0 (top_k self)) output;
  Ok (output, expert_stats).
End MultiModalMoE.
Arguments t F : clear implicits.
Arguments ExpertStats F : clear implicits.
End MultiModalMoE.


(** ** [nn.Conv3d] with [stride = kernel_size] and no padding *)

Module Conv3d.
Record t := Make {
  in_channels : nat;
  out_channels : nat;
  kernel_size : nat * nat * nat;
  (** shape [[out_channels; in_channels; kt; kh; kw]] *)
  weight : tensor R;
  (** shape [[out_channels]] *)
  bias : tensor R
}.

Definition init (in_channels out_channels : nat) (kernel_size : nat * nat * nat)
    (w : list nat → R) (b : list nat → R) : t :=
  let '(kt, kh, kw) := kernel_size in
  {| in_channels := in_channels;
     out_channels := out_channels;
     kernel_size := kernel_size;
     weight := Tensor [out_channels; in_channels; kt; kh; kw] w;
     bias := Tensor [out_channels] b |}.

(** Number of output positions along one axis. *)
Definition out_size (n k : nat) : nat := (n - k) / k + 1.

Definition forward (self : t) (x : tensor R) : result (tensor R) :=
  let '(kt, kh, kw) := kernel_size self in
  match shape x with
  | [b; c; t; h; w] =>
      if negb (c =? in_channels self)
      then raise RuntimeError "expected input to have in_channels channels"
      else if (kt =? 0) || (kh =? 0) || (kw =? 0)
      then raise RuntimeError "kernel size should be greater than zero"
      else if (t <? kt) || (h <? kh) || (w <? kw)
      then raise RuntimeError "Kernel size can't be greater than actual input size"
      else
        Ok (Tensor [b; out_channels self; out_size t kt; out_size h kh; out_size w kw]
              (λ idx,
                 (item (bias self) [ix idx 1]
                  + fsum ((λ p, item (weight self) (ix idx 1 :: p)
                                * item x [ix idx 0; ix p 0;
                                          (ix idx 2 * kt + ix p 1)%nat;
                                          (ix idx 3 * kh + ix p 2)%nat;
                                          (ix idx 4 * kw + ix p 3)%nat])
                            <$> indices [c; kt; kh; kw]))%R))
  | _ => raise RuntimeError "Expected 5D input to conv3d"
  end.
End Conv3d.

(** [rearrange(x, 'b c f h w -> b (f h w) c')] *)
Definition rearrange_to_tokens {A} (x : tensor A) : result (tensor A) :=
  match shape x with
  | [b; c; f; h; w] =>
      Ok (Tensor [b; f * h * w; c]
            (λ idx, item x [ix idx 0; ix idx 2;
                            ix idx 1 / (h * w);
                            (ix idx 1 mod (h * w)) / w;
                            ix idx 1 mod w]))
  | _ => raise EinopsError "Wrong shape: expected 5 dims"
  end.

(** [rearrange(x, 'b f h w d -> b (f h w) d')] *)
Definition rearrange_spatial {A} (x : tensor A) : result (tensor A) :=
  match shape x with
  | [b; f; h; w; d] =>
      Ok (Tensor [b; f * h * w; d]
            (λ idx, item x [ix idx 0;
                            ix idx 1 / (h * w);
                            (ix idx 1 mod (h * w)) / w;
                            ix idx 1 mod w;
                            ix idx 2]))
  | _ => raise EinopsError "Wrong shape: expected 5 dims"
  end.

(** ** [DiTBlockWithMoE] *)

(** An [Optional[dict]] from modality label to (possibly [None]) tensor;
    a Python dict keeps insertion order. *)
Definition modality_dict : Type := list (string * option (tensor R)).

(** [moe_config.get(key, default)] *)
Definition config_get (moe_config : gmap string nat) (key : string) (d : nat) : nat :=
  default d (moe_config !! key).

(** Truth value of an [Optional[dict]]. *)
Definition dict_truthy {A} `{Countable K} (d : option (gmap K A)) : bool :=
  match d with Some m => negb (bool_decide (m = ∅)) | None => false end.

Module DiTBlockWithMoE.
Record t := Make {
  dim : nat;
  num_heads : nat;
  ffn_dim : nat;
  use_moe : bool;
  self_attn : SelfAttention.t;
  cross_attn : CrossAttention.t;
  norm1 : LayerNorm.t;
  norm2 : LayerNorm.t;
  norm3 : LayerNorm.t;
  (** [nn.Sequential(Linear, GELU(tanh), Linear)] *)
  ffn : Linear.t R * Linear.t R;
  (** shape [[1; 6; dim]] *)
  modulation : tensor R;
  (** set by [__init__] only when [use_moe and moe_config] *)
  moe : option (MultiModalMoE.t R);
  (** attributes that [__init__] does not create *)
  cam_encoder : option (Linear.t R);
  projector : option (Linear.t R);
  expert_stats_buffer : option (list (MultiModalMoE.ExpertStats R))
}.

Definition init (has_image_input : bool) (dim num_heads ffn_dim : nat)
    (eps : R) (use_moe : bool) (moe_config : option (gmap string nat))
    (params : init_params) : t :=
  {| dim := dim;
     num_heads := num_heads;
     ffn_dim := ffn_dim;
     use_moe := use_moe;
     self_attn :=
       SelfAttention.init dim num_heads eps (sub_params params "self_attn");
     cross_attn :=
       CrossAttention.init dim num_heads eps has_image_input
         (sub_params params "cross_attn");
     norm1 := LayerNorm.init dim eps false;
     norm2 := LayerNorm.init dim eps false;
     norm3 := LayerNorm.init dim eps true;
     ffn := (linear_named params "ffn.0" dim ffn_dim,
             linear_named params "ffn.2" ffn_dim dim);
     modulation := Tensor [1; 6; dim] (params "modulation");
     moe :=
       if use_moe && dict_truthy moe_config
       then
         let cfg := default ∅ moe_config in
         Some (MultiModalMoE.init (config_get cfg "unified_dim" 30) 60
                 (Some dim)
                 (config_get cfg "num_experts" 4)
                 (config_get cfg "top_k" 2)
                 (λ e j i, params ("moe.experts." +:+ pretty e +:+ ".0.weight") [j; i])
                 (λ e j, params ("moe.experts." +:+ pretty e +:+ ".0.bias") [j]))
       else None;
     cam_encoder := None;
     projector := None;
     expert_stats_buffer := None |}.

(** The loop that sums the processed modality inputs and records the
    last label. *)
Definition combine_modalities (modality_inputs : modality_dict)
  : result (option (tensor R) * string) :=
  foldlM (λ '(combined, active) '(modality_type, processed_input),
            match combined with
            | None => Ok (processed_input, modality_type)
            | Some c =>
                match processed_input with
                | Some p => s ← map2 Rplus c p; Ok (Some s, modality_type)
                | None => raise TypeError
                            "unsupported operand type(s) for +: 'Tensor' and 'NoneType'"
                end
            end)
         modality_inputs (None, "unknown").

Definition get_projector (self : t) : result (Linear.t R) :=
  match projector self with
  | Some p => Ok p
  | None => raise AttributeError
              "'DiTBlockWithMoE' object has no attribute 'projector'"
  end.

Definition is_truthy (d : option modality_dict) : bool :=
  match d with Some (_ :: _) => true | _ => false end.

(** [self.expert_stats_buffer = buffer] *)
Definition set_buffer (self : t)
    (buffer : option (list (MultiModalMoE.ExpertStats R))) : t :=
  Make (dim self) (num_heads self) (ffn_dim self) (use_moe self)
    (self_attn self) (cross_attn self)
    (norm1 self) (norm2 self) (norm3 self) (ffn self)
    (modulation self) (moe self)
    (cam_encoder self) (projector self) buffer.

Definition forward (self : t) (x : tensor R) (context : option (tensor R))
    (cam_emb : option (tensor R)) (t_mod : tensor R) (freqs : tensor C)
    (modality_inputs : option modality_dict)
    (router_weights : option (tensor R)) (router_indices : option (tensor Z))
  : result (tensor R * t) :=
  m ← map2 Rplus (modulation self) t_mod;
  chunks ← chunk 6 1 m;
  '(shift_msa, scale_msa, gate_msa, shift_mlp, scale_mlp, gate_mlp) ← unpack6 chunks;
  n1 ← LayerNorm.forward (norm1 self) x;
  input_x ← modulate n1 shift_msa scale_msa;
  '(input_x, self) ←
    match (if use_moe self && is_truthy modality_inputs
           then moe self else None), router_weights with
    | Some moe, Some router_weights =>
        '(combined, active_modality) ←
          combine_modalities (default [] modality_inputs);
        match combined with
        | Some combined_modality_input =>
            router_indices ←
              match router_indices with
              | Some i => Ok i
              | None => raise AttributeError
                          "'bool' object has no attribute 'float'"
              end;
            '(moe_output, expert_stats) ←
              MultiModalMoE.forward moe combined_modality_input
                router_weights router_indices active_modality;
            input_x ← map2 Rplus input_x moe_output;
            let buffer := default [] (expert_stats_buffer self) in
            Ok (input_x, set_buffer self (Some (buffer ++ [expert_stats])))
        | None => Ok (input_x, self)
        end
    | _, _ =>
        match cam_emb, cam_encoder self with
        | Some cam_emb, Some enc =>
            cam_emb ← Linear.forward enc cam_emb;
            input_x ← map2 Rplus input_x cam_emb;
            Ok (input_x, self)
        | _, _ => Ok (input_x, self)
        end
    end;
  proj ← get_projector self;
  attn_output ← SelfAttention.forward (self_attn self) input_x freqs;
  pa ← Linear.forward proj attn_output;
  gp ← map2 Rmult gate_msa pa;
  x ← map2 Rplus x gp;
  n3 ← LayerNorm.forward (norm3 self) x;
  context ← match context with
            | Some c => Ok c
            | None => raise TypeError "linear(): argument 'input' must be Tensor, not NoneType"
            end;
  ca ← CrossAttention.forward (cross_attn self) n3 context;
  x ← map2 Rplus x ca;
  n2 ← LayerNorm.forward (norm2 self) x;
  input_x ← modulate n2 shift_mlp scale_mlp;
  h ← Linear.forward (ffn self).1 input_x;
  f ← Linear.forward (ffn self).2 (tmap gelu_tanh h);
  gf ← map2 Rmult gate_mlp f;
  x ← map2 Rplus x gf;
  Ok (x, self).
End DiTBlockWithMoE.

Module Head.
Record t := Make {
  dim : nat;
  patch_size : nat * nat * nat;
  norm : LayerNorm.t;
  head : Linear.t R;
  (** shape [[1; 2; dim]] *)
  modulation : tensor R
}.

Definition prod3 (p : nat * nat * nat) : nat := p.1.1 * p.1.2 * p.2.

Definition init (dim out_dim : nat) (patch_size : nat * nat * nat) (eps : R)
    (params : init_params) : t :=
  {| dim := dim;
     patch_size := patch_size;
     norm := LayerNorm.init dim eps false;
     head := linear_named params "head.head" dim (out_dim * prod3 patch_size);
     modulation := Tensor [1; 2; dim] (params "head.modulation") |}.

Definition forward (self : t) (x t_mod : tensor R) : result (tensor R) :=
  m ← map2 Rplus (modulation self) t_mod;
  chunks ← chunk 2 1 m;
  '(shift, scale) ← unpack2 chunks;
  n ← LayerNorm.forward (norm self) x;
  ns ← map2 (λ a s, (a * (1 + s))%R) n scale;
  y ← map2 Rplus ns shift;
  Linear.forward (head self) y.
End Head.


(** ** [CleanXEmbedder], the class built by [create_clean_x_embedder] *)

Module CleanXEmbedder.
Record t := Make { proj : Conv3d.t; proj_2x : Conv3d.t; proj_4x : Conv3d.t }.

Definition init (inner_dim : nat) (params : init_params) : t :=
  {| proj := Conv3d.init 16 inner_dim (1, 2, 2)
               (params "proj.weight") (params "proj.bias");
     proj_2x := Conv3d.init 16 inner_dim (2, 4, 4)
                  (params "proj_2x.weight") (params "proj_2x.bias");
     proj_4x := Conv3d.init 16 inner_dim (4, 8, 8)
                  (params "proj_4x.weight") (params "proj_4x.bias") |}.

Definition forward (self : t) (x : tensor R) (scale : string)
  : result (tensor R) :=
  if decide (scale = "1x") then Conv3d.forward (proj self) x
  else if decide (scale = "2x") then Conv3d.forward (proj_2x self) x
  else if decide (scale = "4x") then Conv3d.forward (proj_4x self) x
  else raise ValueError ("Unsupported scale: " +:+ scale).
End CleanXEmbedder.

(** ** [WanModelMoe] *)

Module WanModelMoe.

Record t := Make {
  dim : nat;
  freq_dim : nat;
  has_image_input : bool;
  patch_size : nat * nat * nat;
  use_moe : bool;
  (** [moe_config or {}] *)
  moe_config : gmap string nat;
  patch_embedding : Conv3d.t;
  (** [Sequential(Linear, GELU(tanh), Linear)] *)
  text_embedding : Linear.t R * Linear.t R;
  (** [Sequential(Linear, SiLU, Linear)] *)
  time_embedding : Linear.t R * Linear.t R;
  (** [Sequential(SiLU, Linear)] *)
  time_projection : Linear.t R;
  modality_to_expert : gmap string nat;
  top_k : nat;
  blocks : list DiTBlockWithMoE.t;
  head : Head.t;
  freqs : tensor C * tensor C * tensor C;
  (** attributes that [__init__] does not create *)
  clean_x_embedder : option CleanXEmbedder.t;
  sekai_processor : option (ModalityProcessor.t R);
  nuscenes_processor : option (ModalityProcessor.t R);
  openx_processor : option (ModalityProcessor.t R)
}.

(** [WanModelMoe(dim, in_dim, ..., use_moe, moe_config)].  [img_emb],
    created when [has_image_input] holds, is never read by the methods
    below and is left out. *)
Definition init (dim in_dim ffn_dim out_dim text_dim freq_dim : nat) (eps : R)
    (patch_size : nat * nat * nat) (num_heads num_layers : nat)
    (has_image_input use_moe : bool) (moe_config : option (gmap string nat))
    (params : init_params) : t :=
  {| dim := dim;
     freq_dim := freq_dim;
     has_image_input := has_image_input;
     patch_size := patch_size;
     use_moe := use_moe;
     moe_config := default ∅ moe_config;
     patch_embedding :=
       Conv3d.init in_dim dim patch_size
         (params "patch_embedding.weight") (params "patch_embedding.bias");
     text_embedding := (linear_named params "text_embedding.0" text_dim dim,
                        linear_named params "text_embedding.2" dim dim);
     time_embedding := (linear_named params "time_embedding.0" freq_dim dim,
                        linear_named params "time_embedding.2" dim dim);
     time_projection := linear_named params "time_projection.1" dim (dim * 6);
     modality_to_expert := MultiModalMoE.modality_table;
     top_k := 1;
     blocks :=
       (λ i, DiTBlockWithMoE.init has_image_input dim num_heads ffn_dim eps
               use_moe moe_config
               (λ name, params ("blocks." +:+ pretty i +:+ "." +:+ name)))
         <$> seq 0 num_layers;
     head := Head.init dim out_dim patch_size eps params;
     freqs := precompute_freqs_cis_3d (dim / num_heads) default_end default_theta;
     clean_x_embedder := None;
     sekai_processor := None;
     nuscenes_processor := None;
     openx_processor := None |}.

(** The router is not learned: the expert is read off the modality
    label. *)
Definition compute_router_decisions {A} `{Scalar A} (self : t)
    (combined_modality_input : tensor A) (modality_type : string)
  : result (tensor A * tensor Z * tensor R) :=
  '(batch_size, seq_len, _) ← unpack3 (shape combined_modality_input);
  let num_experts := size (modality_to_expert self) in
  let top_k := top_k self in
  let target_expert_id :=
    default 0 (modality_to_expert self !! modality_type) in
  let router_indices :=
    full [batch_size; seq_len; top_k] (Z.of_nat target_expert_id) in
  let router_weights := ones [batch_size; seq_len; top_k] in
  let specialization_loss := scalar_tensor 0%R in
  Ok (router_weights, router_indices, specialization_loss).

Definition patchify (self : t) (x : tensor R)
  : result (tensor R * list nat) :=
  x ← Conv3d.forward (patch_embedding self) x;
  let grid_size := drop 2 (shape x) in
  x ← rearrange_to_tokens x;
  Ok (x, grid_size).

(** [rearrange(x, 'b (f h w) (x y z c) -> b c (f x) (h y) (w z)', ...)] *)
Definition unpatchify (self : t) (x : tensor R) (grid_size : list nat)
  : result (tensor R) :=
  f ← getitem grid_size 0;
  h ← getitem grid_size 1;
  w ← getitem grid_size 2;
  let '(px, py, pz) := patch_size self in
  match shape x with
  | [b; l; d] =>
      if (l =? f * h * w) && (0 <? px * py * pz) && (d mod (px * py * pz) =? 0)
      then
        let c := d / (px * py * pz) in
        Ok (Tensor [b; c; f * px; h * py; w * pz]
              (λ idx,
                 let ti := ix idx 2 in
                 let hi := ix idx 3 in
                 let wi := ix idx 4 in
                 item x [ix idx 0;
                         (ti / px * h + hi / py) * w + wi / pz;
                         ((ti mod px * py + hi mod py) * pz + wi mod pz) * c
                         + ix idx 1]))
      else raise EinopsError "Shape mismatch"
  | _ => raise EinopsError "Wrong shape: expected 3 dims"
  end.

(** [F.pad(x, (0, pad_w, 0, pad_h, 0, pad_t), mode='replicate')] after
    the pad widths are computed from the kernel. *)
Definition pad_for_3d_conv {A} (x : tensor A) (kernel_size : nat * nat * nat)
  : result (tensor A) :=
  let '(pt, ph, pw) := kernel_size in
  match shape x with
  | [b; c; t; h; w] =>
      let pad_t := (pt - t mod pt) mod pt in
      let pad_h := (ph - h mod ph) mod ph in
      let pad_w := (pw - w mod pw) mod pw in
      if (pt =? 0) || (ph =? 0) || (pw =? 0)
      then raise ZeroDivisionError "integer division or modulo by zero"
      else if (c =? 0) || (t =? 0) || (h =? 0) || (w =? 0)
      then raise RuntimeError
             "Expected 4D or 5D tensor with possibly 0 batch size and other non-zero dimensions for input"
      else Ok (Tensor [b; c; t + pad_t; h + pad_h; w + pad_w]
                 (λ idx, item x [ix idx 0; ix idx 1;
                                 ix idx 2 `min` (t - 1);
                                 ix idx 3 `min` (h - 1);
                                 ix idx 4 `min` (w - 1)]))
  | [_; _; _; _; _; _] =>
      (** [b, t, h, w, c = x.shape] with six sizes *)
      unpack_error 5
  | _ => raise ValueError "Unsupported tensor shape"
  end.

Definition truthy {A} (d : option (list A)) : bool :=
  match d with Some (_ :: _) => true | _ => false end.

(** The processor used for a label, when the attribute exists. *)
Definition processor_for (self : t) (modality_type : string)
  : option (ModalityProcessor.t R) :=
  if decide (modality_type = "sekai") then sekai_processor self
  else if decide (modality_type = "nuscenes") then nuscenes_processor self
  else if decide (modality_type = "openx") then openx_processor self
  else None.

(** Returns Python [None] on the first path and a pair on the second. *)
Definition process_modality_inputs (self : t)
    (modality_inputs : option (list (string * tensor R)))
  : result (option (list (string * tensor R) * tensor R)) :=
  if negb (truthy modality_inputs) || negb (use_moe self)
  then Ok None
  else
    '(processed_modality_inputs, processed) ←
      foldlM (λ '(d, processed) '(modality_type, input_data),
                match processor_for self modality_type with
                | Some proc =>
                    p ← ModalityProcessor.forward proc input_data;
                    Ok (d ++ [(modality_type, p)], Some p)
                | None => Ok (d, processed)
                end)
             (default [] modality_inputs) ([], None);
    match processed with
    | Some p => Ok (Some (processed_modality_inputs, p))
    | None => raise UnboundLocalError
                "local variable 'processed' referenced before assignment"
    end.

(** [x.min().item()] and [x.max().item()] *)
Definition tmin (x : tensor Z) : result Z :=
  match to_list x with
  | [] => raise RuntimeError "min(): cannot reduce an empty tensor"
  | a :: l => Ok (foldr Z.min a l)
  end.
Definition tmax (x : tensor Z) : result Z :=
  match to_list x with
  | [] => raise RuntimeError "max(): cannot reduce an empty tensor"
  | a :: l => Ok (foldr Z.max a l)
  end.

(** The values met by [for t_idx in indices[b]], each usable as a
    slice bound. *)
Definition iter_row (indices : tensor Z) (b : nat) : result (list Z) :=
  row ← select 0 b indices;
  match shape row with
  | [] => raise TypeError "iteration over a 0-d tensor"
  | _ :: rest =>
      if numel rest =? 1 then Ok (to_list row)
      else raise TypeError
             "only integer tensors of a single element can be converted to an index"
  end.

(** The body shared by the four RoPE loops: the frequencies of one
    frame at index [t_idx] on an [h] by [w] grid, shape
    [[h * w; total_freq_dim]]. *)
Definition spatial_freqs (self : t) (t_idx : Z) (h w : nat)
  : result (tensor C) :=
  let '(freqs0, freqs1, freqs2) := freqs self in
  f_freq ← py_slice 0 t_idx (t_idx + 1) freqs0;
  h_freq ← slice 0 0 h freqs1;
  w_freq ← slice 0 0 w freqs2;
  fv ← reshape_infer_last [1; 1; 1] f_freq;
  fe ← expand_to [1; h; w; ix (shape fv) 3] fv;
  hv ← reshape_infer_last [1; h; 1] h_freq;
  he ← expand_to [1; h; w; ix (shape hv) 3] hv;
  wv ← reshape_infer_last [1; 1; w] w_freq;
  we ← expand_to [1; h; w; ix (shape wv) 3] wv;
  c ← cat 3 [fe; he; we];
  reshape_infer_last [h * w] c.

(** [torch.stack([torch.cat([spatial_freqs(t) for t in frames(b)])
    for b in range(B)])] *)
Definition rope_for (self : t) (B : nat) (frames : nat → result (list Z))
    (h w : nat) : result (tensor C) :=
  per_batch ← mapM (λ b, ts ← frames b;
                         rows ← mapM (λ t_idx, spatial_freqs self t_idx h w) ts;
                         cat 0 rows)
                   (seq 0 B);
  stack 0 per_batch.

(** [cam.unsqueeze(2).unsqueeze(3).repeat(1, 1, h, w, 1)] followed by
    [rearrange(..., 'b f h w d -> b (f h w) d')] *)
Definition camera_spatial (cam : tensor R) (h w : nat) : result (tensor R) :=
  match shape cam with
  | [b; f; d] =>
      rearrange_spatial
        (Tensor [b; f; h; w; d] (λ idx, item cam [ix idx 0; ix idx 1; ix idx 4]))
  | _ => raise RuntimeError
           "Number of dimensions of repeat dims can not be smaller than number of dimensions of tensor"
  end.

(** [cam[:, lo:hi, :]] *)
Definition camera_slice (cam : tensor R) (lo hi : Z) : result (tensor R) :=
  if length (shape cam) <? 3
  then raise IndexError "too many indices for tensor"
  else py_slice 1 lo hi cam.

(** [cam[:, [i, j], :]] *)
Definition camera_index_list (cam : tensor R) (sel : list Z)
  : result (tensor R) :=
  if length (shape cam) <? 3
  then raise IndexError "too many indices for tensor"
  else
    let n := ix (shape cam) 1 in
    js ← mapM (λ i : Z,
                 if ((- Z.of_nat n <=? i) && (i <? Z.of_nat n))%Z
                 then Ok (py_bound n i)
                 else raise IndexError "index is out of bounds for dimension 1")
              sel;
    Ok (Tensor (<[1 := length sel]> (shape cam))
          (λ idx, item cam (alter (λ k, nth k js 0) 1 idx))).

(** [dst[:, frame_idx, :] = cam[:, cam_idx, :]] *)
Definition camera_assign (dst cam : tensor R) (frame_idx cam_idx : nat)
  : result (tensor R) :=
  match shape dst, shape cam with
  | [b; f; d], [bc; fc; dc] =>
      if ((bc =? b) || (bc =? 1)) && (dc =? d)
      then Ok (Tensor (shape dst)
                 (λ idx, if ix idx 1 =? frame_idx
                         then item cam [if bc =? 1 then 0 else ix idx 0;
                                        cam_idx; ix idx 2]
                         else item dst idx))
      else raise RuntimeError "shape mismatch in assignment"
  | _, _ => raise RuntimeError "shape mismatch in assignment"
  end.

Definition get_clean_x_embedder (self : t) : result CleanXEmbedder.t :=
  match clean_x_embedder self with
  | Some e => Ok e
  | None => raise AttributeError
              "'WanModelMoe' object has no attribute 'clean_x_embedder'"
  end.

(** [torch.cat([new, old], dim=1)] on the camera embeddings. *)
Definition prepend_camera (new : tensor R) (old : option (tensor R))
  : result (option (tensor R)) :=
  match old with
  | Some o => c ← cat2 1 new o; Ok (Some c)
  | None => raise TypeError "expected Tensor as element 1 in argument 0, but got NoneType"
  end.

(** The state the assembler threads through its three prepend steps:
    [hidden_states], [rope_freqs], [combined_modality_embeddings]. *)
Definition assembly : Type := tensor R * tensor C * option (tensor R).

(** The tokens and the RoPE frequencies of the 1x clean latents; the
    grid [h] by [w] is the one of the primary latents. *)
Definition clean_segment_1x (self : t) (B h w : nat)
    (clean_latents : tensor R) (clean_latent_indices : tensor Z)
  : result (tensor R * tensor C) :=
  emb ← get_clean_x_embedder self;
  clean_hidden_states ← CleanXEmbedder.forward emb clean_latents "1x";
  clean_hidden_states ← rearrange_to_tokens clean_hidden_states;
  clean_rope_freqs ← rope_for self B (iter_row clean_latent_indices) h w;
  Ok (clean_hidden_states, clean_rope_freqs).

(** The camera embedding of the 1x clean latents. *)
Definition clean_camera_1x (h w : nat) (start_indice : Z)
    (cam_emb : tensor R) (clean_latent_indices : tensor Z)
  : result (tensor R) :=
  row ← select 0 0 clean_latent_indices;
  lo ← tmin row;
  hi ← tmax row;
  let clean_start := (lo - start_indice)%Z in
  let clean_end := (hi + 1 - start_indice)%Z in
  clean_camera ←
    (if (clean_start =? clean_end)%Z
     then camera_slice cam_emb clean_start (clean_start + 1)
     else camera_index_list cam_emb [clean_start; clean_end]);
  camera_spatial clean_camera h w.

(** The 1x step. *)
Definition prepend_clean_1x (self : t) (B h w : nat) (start_indice : Z)
    (cam_emb : option (tensor R))
    (clean_latents : option (tensor R))
    (clean_latent_indices : option (tensor Z))
    (st : assembly) : result assembly :=
  let '(hidden_states, rope_freqs, combined) := st in
  match clean_latents, clean_latent_indices with
  | Some clean_latents, Some clean_latent_indices =>
      '(clean_hidden_states, clean_rope_freqs) ←
        clean_segment_1x self B h w clean_latents clean_latent_indices;
      combined ←
        match cam_emb with
        | Some cam_emb =>
            sp ← clean_camera_1x h w start_indice cam_emb clean_latent_indices;
            prepend_camera sp combined
        | None => Ok combined
        end;
      hidden_states ← cat2 1 clean_hidden_states hidden_states;
      rope_freqs ← cat2 1 clean_rope_freqs rope_freqs;
      Ok (hidden_states, rope_freqs, combined)
  | _, _ => Ok st
  end.

(** [valid[frame_idx] if frame_idx < len(valid) else valid[-1]] *)
Definition frame_index (valid : list Z) (frame_idx : nat) : Z :=
  match valid !! frame_idx with
  | Some t => t
  | None => default 0%Z (last valid)
  end.

(** [indices[indices >= 0]] *)
Definition valid_indices (indices : tensor Z) : list Z :=
  filter (λ i, (0 ≤ i)%Z) (to_list indices).

(** Whether a 2x or 4x scale is processed at all. *)
Definition scale_enabled (clean_latents : option (tensor R))
    (clean_latent_indices : option (tensor Z)) : bool :=
  match clean_latents, clean_latent_indices with
  | Some _, Some indices =>
      (0 <? numel (shape indices)) && (0 <? length (valid_indices indices))
  | _, _ => false
  end.

(** The tokens and the RoPE frequencies of a 2x or 4x clean latent,
    with the grid [(cf, ch, cw)] of the embedded latent. *)
Definition clean_segment_down (self : t) (scale : string)
    (kernel : nat * nat * nat) (B : nat)
    (clean_latents : tensor R) (valid : list Z)
  : result (tensor R * tensor C * (nat * nat * nat)) :=
  padded ← pad_for_3d_conv clean_latents kernel;
  emb ← get_clean_x_embedder self;
  clean_hidden_states ← CleanXEmbedder.forward emb padded scale;
  '(_, _, cf, ch, cw) ← unpack5 (shape clean_hidden_states);
  clean_hidden_states ← rearrange_to_tokens clean_hidden_states;
  clean_rope_freqs ←
    rope_for self B (λ _, Ok (frame_index valid <$> seq 0 cf)) ch cw;
  Ok (clean_hidden_states, clean_rope_freqs, (cf, ch, cw)).

(** The camera embedding of a 2x or 4x clean latent: zero where no
    valid frame index exists. *)
Definition clean_camera_down (B cf ch cw : nat) (start_indice : Z)
    (cam_emb : tensor R) (valid : list Z) : result (tensor R) :=
  d ← match last (shape cam_emb) with
      | Some d => Ok d
      | None => raise IndexError "tuple index out of range"
      end;
  clean_camera ←
    foldlM (λ cam frame_idx,
              let cam_idx := (frame_index valid frame_idx - start_indice)%Z in
              if ((0 <=? cam_idx)
                  && (cam_idx <? Z.of_nat (ix (shape cam_emb) 1)))%Z
              then camera_assign cam cam_emb frame_idx (Z.to_nat cam_idx)
              else Ok cam)
           (seq 0 (cf `min` length valid))
           (zeros [B; cf; d]);
  camera_spatial clean_camera ch cw.

(** The 2x and the 4x steps, which differ in the scale tag and the
    kernel only. *)
Definition prepend_clean_down (self : t) (scale : string)
    (kernel : nat * nat * nat) (B : nat) (start_indice : Z)
    (cam_emb : option (tensor R))
    (clean_latents : option (tensor R))
    (clean_latent_indices : option (tensor Z))
    (st : assembly) : result assembly :=
  let '(hidden_states, rope_freqs, combined) := st in
  match clean_latents, clean_latent_indices with
  | Some clean_latents, Some clean_latent_indices =>
      let valid := valid_indices clean_latent_indices in
      if (0 <? numel (shape clean_latent_indices)) && (0 <? length valid)
      then
        '(clean_hidden_states, clean_rope_freqs, grid) ←
          clean_segment_down self scale kernel B clean_latents valid;
        let '(cf, ch, cw) := grid in
        combined ←
          match cam_emb with
          | Some cam_emb =>
              sp ← clean_camera_down B cf ch cw start_indice cam_emb valid;
              prepend_camera sp combined
          | None => Ok combined
          end;
        hidden_states ← cat2 1 clean_hidden_states hidden_states;
        rope_freqs ← cat2 1 clean_rope_freqs rope_freqs;
        Ok (hidden_states, rope_freqs, combined)
      else Ok st
  | _, _ => Ok st
  end.

(** [indices[0][0].item()] *)
Definition first_index (indices : tensor Z) : result Z :=
  row ← select 0 0 indices;
  e ← select 0 0 row;
  if numel (shape e) =? 1
  then Ok (item e (replicate (length (shape e)) 0))
  else raise RuntimeError
         "a Tensor with more than one element cannot be converted to Scalar".

(** The camera embedding of the primary latents. *)
Definition target_camera (h w : nat) (start_indice : Z)
    (cam_emb : tensor R) (latent_indices : tensor Z) : result (tensor R) :=
  row ← select 0 0 latent_indices;
  lo ← tmin row;
  hi ← tmax row;
  let target_start := (lo - start_indice)%Z in
  let target_end := (hi + 1 - start_indice)%Z in
  target_camera ← camera_slice cam_emb target_start target_end;
  camera_spatial target_camera h w.

(** [latent_indices], or its default
    [torch.arange(0, f).unsqueeze(0).expand(B, -1)]. *)
Definition default_indices (B f : nat) (latent_indices : option (tensor Z))
  : tensor Z :=
  match latent_indices with
  | Some li => li
  | None => Tensor [B; f] (λ idx, Z.of_nat (ix idx 1))
  end.

Definition process_input_hidden_states (self : t)
    (latents : tensor R) (latent_indices : option (tensor Z))
    (clean_latents : option (tensor R)) (clean_latent_indices : option (tensor Z))
    (clean_latents_2x : option (tensor R))
    (clean_latent_2x_indices : option (tensor Z))
    (clean_latents_4x : option (tensor R))
    (clean_latent_4x_indices : option (tensor Z))
    (cam_emb : option (tensor R))
    (modality_inputs : option (list (string * tensor R)))
  : result (tensor R * tensor C * list nat * option (tensor R)
            * option modality_dict) :=
  '(hidden_states, grid_size) ← patchify self latents;
  '(B, T_patches, C_) ← unpack3 (shape hidden_states);
  '(f, h, w) ← unpack3 grid_size;
  let latent_indices := default_indices B f latent_indices in
  rope_freqs ← rope_for self B (iter_row latent_indices) h w;
  start_indice ←
    match clean_latent_indices with
    | Some cli => first_index cli
    | None => Ok 0%Z
    end;
  combined ←
    match cam_emb with
    | Some cam_emb =>
        sp ← target_camera h w start_indice cam_emb latent_indices;
        Ok (Some sp)
    | None => Ok None
    end;
  st ← prepend_clean_1x self B h w start_indice cam_emb
         clean_latents clean_latent_indices
         (hidden_states, rope_freqs, combined);
  st ← prepend_clean_down self "2x" (2, 4, 4) B start_indice cam_emb
         clean_latents_2x clean_latent_2x_indices st;
  st ← prepend_clean_down self "4x" (4, 8, 8) B start_indice cam_emb
         clean_latents_4x clean_latent_4x_indices st;
  let '(hidden_states, rope_freqs, combined) := st in
  let rope_freqs := unsqueeze 2 rope_freqs in
  let processed_modality_inputs :=
    if truthy modality_inputs && use_moe self
    then Some ((λ kv : string * tensor R, (kv.1, combined))
                 <$> default [] modality_inputs)
    else None in
  Ok (hidden_states, rope_freqs, grid_size, combined, processed_modality_inputs).

(** [x.unflatten(1, (6, dim))] *)
Definition unflatten_6 (dim : nat) (x : tensor R) : result (tensor R) :=
  match shape x with
  | b :: n :: rest =>
      if n =? 6 * dim
      then Ok (Tensor (b :: 6 :: dim :: rest)
                 (λ idx, item x (ix idx 0 :: (ix idx 1 * dim + ix idx 2)
                                   :: drop 3 idx)))
      else raise RuntimeError "unflatten: provided sizes don't multiply up to the size of the dim"
  | _ => raise IndexError "Dimension out of range"
  end.

(** The assertion message of [forward]. *)
Definition rope_mismatch_message (rope_len hidden_len : nat) : string :=
  "RoPE频率序列长度 " +:+ pretty rope_len
    +:+ " 与 hidden_states序列长度 " +:+ pretty hidden_len +:+ " 不匹配".

(** [if hasattr(block, 'expert_stats_buffer'): block.expert_stats_buffer = []] *)
Definition clear_buffer (block : DiTBlockWithMoE.t) : DiTBlockWithMoE.t :=
  match DiTBlockWithMoE.expert_stats_buffer block with
  | Some _ => DiTBlockWithMoE.set_buffer block (Some [])
  | None => block
  end.

Definition set_blocks (self : t) (bs : list DiTBlockWithMoE.t) : t :=
  Make (dim self) (freq_dim self) (has_image_input self) (patch_size self)
    (use_moe self) (moe_config self) (patch_embedding self)
    (text_embedding self) (time_embedding self) (time_projection self)
    (modality_to_expert self) (top_k self) bs (head self) (freqs self)
    (clean_x_embedder self) (sekai_processor self) (nuscenes_processor self)
    (openx_processor self).

(** [self.create_clean_x_embedder()] *)
Definition create_clean_x_embedder (self : t) (params : init_params)
  : CleanXEmbedder.t :=
  CleanXEmbedder.init (dim self) params.

(** [self.clean_x_embedder = e]; no method of the class assigns it. *)
Definition set_clean_x_embedder (self : t) (e : CleanXEmbedder.t) : t :=
  Make (dim self) (freq_dim self) (has_image_input self) (patch_size self)
    (use_moe self) (moe_config self) (patch_embedding self)
    (text_embedding self) (time_embedding self) (time_projection self)
    (modality_to_expert self) (top_k self) (blocks self) (head self)
    (freqs self) (Some e) (sekai_processor self) (nuscenes_processor self)
    (openx_processor self).

(** The router decision, computed once for all blocks. *)
Definition global_router (self : t)
    (processed_modality_inputs : option modality_dict)
  : result (option (tensor R) * option (tensor Z) * tensor R) :=
  if use_moe self && truthy processed_modality_inputs
  then
    '(combined, active_modality) ←
      DiTBlockWithMoE.combine_modalities (default [] processed_modality_inputs);
    match combined with
    | Some combined_modality_input =>
        '(w, i, loss) ← compute_router_decisions self combined_modality_input
                          active_modality;
        Ok (Some w, Some i, loss)
    | None => Ok (None, None, scalar_tensor 0%R)
    end
  else Ok (None, None, scalar_tensor 0%R).

(** The text and time embeddings computed by [forward]:
    [context], [t] and [t_mod]. *)
Definition embed_conditioning (self : t) (context : option (tensor R))
    (timestep : tensor R)
  : result (option (tensor R) * tensor R * tensor R) :=
  context ←
    match context with
    | Some c =>
        c1 ← Linear.forward (text_embedding self).1 c;
        c2 ← Linear.forward (text_embedding self).2 (tmap gelu_tanh c1);
        Ok (Some c2)
    | None => Ok None
    end;
  se ← sinusoidal_embedding_1d (freq_dim self) timestep;
  t1 ← Linear.forward (time_embedding self).1 se;
  t_ ← Linear.forward (time_embedding self).2 (tmap silu t1);
  tp ← Linear.forward (time_projection self) (tmap silu t_);
  t_mod ← unflatten_6 (dim self) tp;
  Ok (context, t_, t_mod).

(** [forward] returns the prediction and the specialization loss; the
    model with its updated statistics buffers is returned as well. *)
Definition forward (self : t)
    (latents timestep : tensor R) (cam_emb : option (tensor R))
    (latent_indices : option (tensor Z))
    (clean_latents : option (tensor R)) (clean_latent_indices : option (tensor Z))
    (clean_latents_2x : option (tensor R))
    (clean_latent_2x_indices : option (tensor Z))
    (clean_latents_4x : option (tensor R))
    (clean_latent_4x_indices : option (tensor Z))
    (modality_inputs : option (list (string * tensor R)))
    (context : option (tensor R))
  : result (tensor R * tensor R * t) :=
  unpacked ← process_modality_inputs self modality_inputs;
  '(modality_inputs, cam_emb) ←
    match unpacked with
    | Some p => Ok p
    | None => raise TypeError "cannot unpack non-iterable NoneType object"
    end;
  let blocks := clear_buffer <$> blocks self in
  '(hidden_states, rope_freqs, grid_size, processed_cam_emb,
    processed_modality_inputs) ←
    process_input_hidden_states self latents latent_indices
      clean_latents clean_latent_indices
      clean_latents_2x clean_latent_2x_indices
      clean_latents_4x clean_latent_4x_indices
      (Some cam_emb) (Some modality_inputs);
  '(batch_size, num_channels, num_frames, height, width) ←
    unpack5 (shape latents);
  let p := (patch_size self).2 in
  let p_t := (patch_size self).1.1 in
  let post_patch_num_frames := num_frames / p_t in
  let post_patch_height := height / p in
  let post_patch_width := width / p in
  let original_context_length :=
    post_patch_num_frames * post_patch_height * post_patch_width in
  '(context, t_, t_mod) ← embed_conditioning self context timestep;
  _ ← assert (ix (shape rope_freqs) 1 =? ix (shape hidden_states) 1)
        (rope_mismatch_message (ix (shape rope_freqs) 1)
           (ix (shape hidden_states) 1));
  '(router_weights, router_indices, total_specialization_loss) ←
    global_router self processed_modality_inputs;
  '(hidden_states, blocks) ←
    foldlM (λ '(hidden_states, done) block,
              '(hidden_states, block) ←
                DiTBlockWithMoE.forward block hidden_states context
                  processed_cam_emb t_mod rope_freqs
                  processed_modality_inputs router_weights router_indices;
              Ok (hidden_states, done ++ [block]))
           blocks (hidden_states, []);
  hidden_states ←
    py_slice 1 (- Z.of_nat original_context_length)
      (Z.of_nat (ix (shape hidden_states) 1)) hidden_states;
  hidden_states ← Head.forward (head self) hidden_states t_;
  hidden_states ← unpatchify self hidden_states grid_size;
  Ok (hidden_states, total_specialization_loss, set_blocks self blocks).

(** [x[:, ::st, ::sh, ::sw, :]] for six axes and
    [x[:, :, ::st, ::sh, ::sw]] for five. *)
Definition center_down_sample_3d {A} (x : tensor A)
    (scale_factor : nat * nat * nat) : result (tensor A) :=
  let '(st, sh, sw) := scale_factor in
  let strided (a : nat) : result (tensor A) :=
    if (st =? 0) || (sh =? 0) || (sw =? 0)
    then raise ValueError "step must be greater than zero"
    else Ok (stride_axis (a + 2) sw
               (stride_axis (a + 1) sh (stride_axis a st x))) in
  if length (shape x) =? 6 then strided 1
  else if length (shape x) =? 5 then strided 2
  else raise ValueError "Unsupported tensor shape".

(** [self.rope(frame_indices, height, width, device)] *)
Definition rope (self : t) (frame_indices : tensor Z) (height width : nat)
  : result (tensor C) :=
  let '(freqs0, freqs1, freqs2) := freqs self in
  batch_size ← getitem (shape frame_indices) 0;
  seq_len ← getitem (shape frame_indices) 1;
  f_freqs ← index_rows freqs0 frame_indices;
  h_positions ←
    expand [Z.of_nat batch_size; Z.of_nat seq_len; (-1)%Z]
      (unsqueeze 0 (unsqueeze 0 (tmap Z.of_nat (arange 0 height 1))));
  w_positions ←
    expand [Z.of_nat batch_size; Z.of_nat seq_len; (-1)%Z]
      (unsqueeze 0 (unsqueeze 0 (tmap Z.of_nat (arange 0 width 1))));
  h_freqs ← index_rows freqs1 h_positions;
  w_freqs ← index_rows freqs2 w_positions;
  f_freqs_expanded ←
    expand [(-1)%Z; (-1)%Z; Z.of_nat height; Z.of_nat width; (-1)%Z]
      (unsqueeze 3 (unsqueeze 2 f_freqs));
  h_freqs_expanded ←
    expand [(-1)%Z; (-1)%Z; (-1)%Z; Z.of_nat width; (-1)%Z]
      (unsqueeze 3 h_freqs);
  w_freqs_expanded ←
    expand [(-1)%Z; (-1)%Z; Z.of_nat height; (-1)%Z; (-1)%Z]
      (unsqueeze 2 w_freqs);
  cat (length (shape f_freqs_expanded) - 1)
    [f_freqs_expanded; h_freqs_expanded; w_freqs_expanded].

End WanModelMoe.

(* ================================================================== *)
(** * The training module of [train_recam.py]                          *)
(* ================================================================== *)

(** [LightningModelForTrain]: the two steps that work on the blocks of
    the denoising model and on the latents.  The model and its data are
    loaded from files; the steps below take them as arguments. *)

Module LightningModelForTrain.

(** [block.cam_encoder = enc; block.projector = proj] *)
Definition set_camera_layers (block : DiTBlockWithMoE.t)
    (enc proj : Linear.t R) : DiTBlockWithMoE.t :=
  DiTBlockWithMoE.Make
    (DiTBlockWithMoE.dim block) (DiTBlockWithMoE.num_heads block)
    (DiTBlockWithMoE.ffn_dim block) (DiTBlockWithMoE.use_moe block)
    (DiTBlockWithMoE.self_attn block) (DiTBlockWithMoE.cross_attn block)
    (DiTBlockWithMoE.norm1 block) (DiTBlockWithMoE.norm2 block)
    (DiTBlockWithMoE.norm3 block) (DiTBlockWithMoE.ffn block)
    (DiTBlockWithMoE.modulation block) (DiTBlockWithMoE.moe block)
    (Some enc) (Some proj) (DiTBlockWithMoE.expert_stats_buffer block).

(** [torch.eye(dim)] as the weight of a layer. *)
Definition eye (j i : nat) : R := if j =? i then 1%R else 0%R.

(** The loop of [__init__] over [self.pipe.dit.blocks]: every block
    receives a camera encoder [nn.Linear(12, dim)] with zero weight and
    bias and a projector [nn.Linear(dim, dim)] with the identity as weight
    and zero bias; [dim] is read off [blocks[0].self_attn.q.weight]. *)
Definition attach_camera_layers (dit : WanModelMoe.t)
  : result WanModelMoe.t :=
  block0 ← getitem (WanModelMoe.blocks dit) 0;
  let dim :=
    ix (shape (Linear.weight
                 (SelfAttention.q (DiTBlockWithMoE.self_attn block0)))) 0 in
  Ok (WanModelMoe.set_blocks dit
        ((λ block,
            set_camera_layers block
              (Linear.init 12 dim (λ _ _, 0%R) (λ _, 0%R))
              (Linear.init dim dim eye (λ _, 0%R)))
           <$> WanModelMoe.blocks dit)).

Definition target_height : nat := 40.
Definition target_width : nat := 70.

(** The centre crop of [training_step]:
    [latents[:, :, :, h_start:h_start+target_height,
             w_start:w_start+target_width]]
    when the height or the width exceeds its target; [//] is the floor
    division of Python. *)
Definition crop_latents {A} (latents : tensor A) : result (tensor A) :=
  if length (shape latents) <? 5
  then raise IndexError "tuple index out of range"
  else
    let current_height := ix (shape latents) 3 in
    let current_width := ix (shape latents) 4 in
    if (target_height <? current_height) || (target_width <? current_width)
    then
      let h_start :=
        ((Z.of_nat current_height - Z.of_nat target_height) / 2)%Z in
      let w_start :=
        ((Z.of_nat current_width - Z.of_nat target_width) / 2)%Z in
      x ← py_slice 3 h_start (h_start + Z.of_nat target_height) latents;
      py_slice 4 w_start (w_start + Z.of_nat target_width) x
    else Ok latents.

End LightningModelForTrain.

(** [TensorDataset]: the latents of a sample, built from the cached
    latents of the target and of the condition video. *)
Module TensorDataset.

(** The part of [__getitem__] between loading the two files and
    [data['latents']]: the first [tgt_len] target frames followed by the
    first [cond_len] condition frames. *)
Definition sample_latents {A} (target_frames condition_frames : Z)
    (lat_tgt_full lat_cond_full : tensor A) : result (tensor A) :=
  T_tgt_avail ←
    match shape lat_tgt_full !! 1 with
    | Some n => Ok n
    | None => raise IndexError "tuple index out of range"
    end;
  T_cond_avail ←
    match shape lat_cond_full !! 1 with
    | Some n => Ok n
    | None => raise IndexError "tuple index out of range"
    end;
  let tgt_len := (target_frames `min` Z.of_nat T_tgt_avail)%Z in
  let cond_len := (condition_frames `min` Z.of_nat T_cond_avail)%Z in
  lat_tgt ← py_slice 1 0 tgt_len lat_tgt_full;
  lat_cond ← py_slice 1 0 cond_len lat_cond_full;
  cat2 1 lat_tgt lat_cond.

End TensorDataset.

(* ================================================================== *)
(** * [WanModelStateDictConverter]                                     *)
(* ================================================================== *)

Module WanModelStateDictConverter.

(** Whether a character is the separator. *)
Definition is_dot (c : Ascii.ascii) : bool :=
  String.eqb (String c EmptyString) ".".

(** [name.split(".")] *)
Fixpoint split_dot (s : string) : list string :=
  match s with
  | EmptyString => [EmptyString]
  | String c s' =>
      if is_dot c
      then EmptyString :: split_dot s'
      else match split_dot s' with
           | w :: ws => String c w :: ws
           | [] => [String c EmptyString]
           end
  end.

(** [".".join(parts)] *)
Fixpoint join_dot (parts : list string) : string :=
  match parts with
  | [] => EmptyString
  | [w] => w
  | w :: ws => w +:+ "." +:+ join_dot ws
  end.

(** [rename_dict], in the order of the source. *)
Definition rename_dict : list (string * string) :=
  [
    ("blocks.0.attn1.norm_k.weight",
     "blocks.0.self_attn.norm_k.weight");
    ("blocks.0.attn1.norm_q.weight",
     "blocks.0.self_attn.norm_q.weight");
    ("blocks.0.attn1.to_k.bias",
     "blocks.0.self_attn.k.bias");
    ("blocks.0.attn1.to_k.weight",
     "blocks.0.self_attn.k.weight");
    ("blocks.0.attn1.to_out.0.bias",
     "blocks.0.self_attn.o.bias");
    ("blocks.0.attn1.to_out.0.weight",
     "blocks.0.self_attn.o.weight");
    ("blocks.0.attn1.to_q.bias",
     "blocks.0.self_attn.q.bias");
    ("blocks.0.attn1.to_q.weight",
     "blocks.0.self_attn.q.weight");
    ("blocks.0.attn1.to_v.bias",
     "blocks.0.self_attn.v.bias");
    ("blocks.0.attn1.to_v.weight",
     "blocks.0.self_attn.v.weight");
    ("blocks.0.attn2.norm_k.weight",
     "blocks.0.cross_attn.norm_k.weight");
    ("blocks.0.attn2.norm_q.weight",
     "blocks.0.cross_attn.norm_q.weight");
    ("blocks.0.attn2.to_k.bias",
     "blocks.0.cross_attn.k.bias");
    ("blocks.0.attn2.to_k.weight",
     "blocks.0.cross_attn.k.weight");
    ("blocks.0.attn2.to_out.0.bias",
     "blocks.0.cross_attn.o.bias");
    ("blocks.0.attn2.to_out.0.weight",
     "blocks.0.cross_attn.o.weight");
    ("blocks.0.attn2.to_q.bias",
     "blocks.0.cross_attn.q.bias");
    ("blocks.0.attn2.to_q.weight",
     "blocks.0.cross_attn.q.weight");
    ("blocks.0.attn2.to_v.bias",
     "blocks.0.cross_attn.v.bias");
    ("blocks.0.attn2.to_v.weight",
     "blocks.0.cross_attn.v.weight");
    ("blocks.0.ffn.net.0.proj.bias",
     "blocks.0.ffn.0.bias");
    ("blocks.0.ffn.net.0.proj.weight",
     "blocks.0.ffn.0.weight");
    ("blocks.0.ffn.net.2.bias",
     "blocks.0.ffn.2.bias");
    ("blocks.0.ffn.net.2.weight",
     "blocks.0.ffn.2.weight");
    ("blocks.0.norm2.bias",
     "blocks.0.norm3.bias");
    ("blocks.0.norm2.weight",
     "blocks.0.norm3.weight");
    ("blocks.0.scale_shift_table",
     "blocks.0.modulation");
    ("condition_embedder.text_embedder.linear_1.bias",
     "text_embedding.0.bias");
    ("condition_embedder.text_embedder.linear_1.weight",
     "text_embedding.0.weight");
    ("condition_embedder.text_embedder.linear_2.bias",
     "text_embedding.2.bias");
    ("condition_embedder.text_embedder.linear_2.weight",
     "text_embedding.2.weight");
    ("condition_embedder.time_embedder.linear_1.bias",
     "time_embedding.0.bias");
    ("condition_embedder.time_embedder.linear_1.weight",
     "time_embedding.0.weight");
    ("condition_embedder.time_embedder.linear_2.bias",
     "time_embedding.2.bias");
    ("condition_embedder.time_embedder.linear_2.weight",
     "time_embedding.2.weight");
    ("condition_embedder.time_proj.bias",
     "time_projection.1.bias");
    ("condition_embedder.time_proj.weight",
     "time_projection.1.weight");
    ("patch_embedding.bias",
     "patch_embedding.bias");
    ("patch_embedding.weight",
     "patch_embedding.weight");
    ("scale_shift_table",
     "head.modulation");
    ("proj_out.bias",
     "head.head.bias");
    ("proj_out.weight",
     "head.head.weight")
  ].

(** [d[k]] guarded by [k in d], for a dictionary given by its items. *)
Fixpoint dict_get (d : list (string * string)) (k : string) : option string :=
  match d with
  | [] => None
  | (k', v) :: d' => if String.eqb k' k then Some v else dict_get d' k
  end.

(** The body of the loop of [from_diffusers]: the new name of a
    parameter, or [None] when the parameter is dropped. *)
Definition rename_key (name : string) : result (option string) :=
  match dict_get rename_dict name with
  | Some v => Ok (Some v)
  | None =>
      let name_ :=
        join_dot (take 1 (split_dot name) ++ ["0"] ++ drop 2 (split_dot name)) in
      match dict_get rename_dict name_ with
      | Some name_ =>
          idx ← getitem (split_dot name) 1;
          Ok (Some (join_dot (take 1 (split_dot name_) ++ [idx]
                              ++ drop 2 (split_dot name_))))
      | None => Ok None
      end
  end.

(** The values of a configuration dictionary. *)
Inductive config_value :=
  | CStr (s : string)
  | CInt (z : Z)
  | CTuple (l : list Z)
  | CBool (b : bool)
  | CFloat (r : R).

Definition config_14B_t2v : list (string * config_value) :=
  [ ("model_type", CStr "t2v");
    ("patch_size", CTuple [1; 2; 2]%Z);
    ("text_len", CInt 512);
    ("in_dim", CInt 16);
    ("dim", CInt 5120);
    ("ffn_dim", CInt 13824);
    ("freq_dim", CInt 256);
    ("text_dim", CInt 4096);
    ("out_dim", CInt 16);
    ("num_heads", CInt 40);
    ("num_layers", CInt 40);
    ("window_size", CTuple [-1; -1]%Z);
    ("qk_norm", CBool true);
    ("cross_attn_norm", CBool true);
    ("eps", CFloat (1 / 1000000)%R) ].

Section from_diffusers.
(** [hash_state_dict_keys] of [.utils], which is not part of this
    module. *)
Context {V : Type} (hash_state_dict_keys : list (string * V) → string).

(** [state_dict] is given by its items; the new dictionary is a map. *)
Definition from_diffusers (state_dict : list (string * V))
  : result (gmap string V * list (string * config_value)) :=
  state_dict_ ←
    foldlM (λ (state_dict_ : gmap string V) '(name, param),
              r ← rename_key name;
              match r with
              | Some name_ => Ok (<[name_ := param]> state_dict_)
              | None => Ok state_dict_
              end)
           state_dict ∅;
  let config :=
    if String.eqb (hash_state_dict_keys state_dict)
         "cb104773c6c2cb6df4f9529ad5c60d0b"
    then config_14B_t2v
    else [] in
  Ok (state_dict_, config).
End from_diffusers.

End WanModelStateDictConverter.

(* ================================================================== *)
(** * Specification-level notions and concrete inputs                  *)
(* ================================================================== *)

(** The Modality-to-Expert Map in the words of the specification. *)
Definition spec_expert_of (label : string) : nat :=
  if decide (label = "sekai") then 0
  else if decide (label = "nuscenes") then 1
  else if decide (label = "openx") then 2
  else 0.

Definition slot_error : exn :=
  Exn IndexError "index is out of bounds for this dimension".

(** What [MultiModalMoE.__init__] establishes. *)
Definition MoE_wf {F} `{Scalar F} (m : MultiModalMoE.t F) : Prop :=
  length (MultiModalMoE.experts m) = MultiModalMoE.num_experts m
  ∧ MultiModalMoE.modality_to_expert m = MultiModalMoE.modality_table
  ∧ Forall (λ e, Linear.in_features e = MultiModalMoE.unified_dim m
                 ∧ Linear.out_features e = MultiModalMoE.output_dim m)
           (MultiModalMoE.experts m).

(** A combiner with two experts, over exact rationals. *)
Definition two_expert_moe : MultiModalMoE.t Q :=
  MultiModalMoE.init 2 60 (Some 3) 2 1
    (λ e j i, inject_Z (Z.of_nat (e * 10 + j + i)))
    (λ e j, inject_Z (Z.of_nat e)).

Definition two_token_input : tensor Q :=
  Tensor [1; 2; 2] (λ idx, inject_Z (Z.of_nat (ravel [1; 2; 2] idx + 1))).

Definition Linear_square (d : nat) (l : Linear.t R) : Prop :=
  Linear.in_features l = d ∧ Linear.out_features l = d.

(** What [CrossAttention.__init__] establishes. *)
Definition CrossAttention_wf (self : CrossAttention.t) : Prop :=
  let d := CrossAttention.dim self in
  0 < CrossAttention.num_heads self
  ∧ d mod CrossAttention.num_heads self = 0
  ∧ AttentionModule.num_heads (CrossAttention.attn self)
    = CrossAttention.num_heads self
  ∧ Linear_square d (CrossAttention.q self)
  ∧ Linear_square d (CrossAttention.k self)
  ∧ Linear_square d (CrossAttention.v self)
  ∧ Linear_square d (CrossAttention.o self)
  ∧ shape (RMSNorm.weight (CrossAttention.norm_q self)) = [d]
  ∧ shape (RMSNorm.weight (CrossAttention.norm_k self)) = [d]
  ∧ (CrossAttention.has_image_input self = true →
     ∃ br, CrossAttention.image self = Some br
           ∧ Linear_square d (CrossAttention.k_img br)
           ∧ Linear_square d (CrossAttention.v_img br)
           ∧ shape (RMSNorm.weight (CrossAttention.norm_k_img br)) = [d]).

(** The tokens and frequencies a clean-latent scale contributes, [None]
    when the scale is skipped. *)
Definition segment : Type := option (tensor R * tensor C).

Definition segment_1x (self : WanModelMoe.t) (B h w : nat)
    (clean_latents : option (tensor R))
    (clean_latent_indices : option (tensor Z)) : result segment :=
  match clean_latents, clean_latent_indices with
  | Some c, Some i =>
      s ← WanModelMoe.clean_segment_1x self B h w c i; Ok (Some s)
  | _, _ => Ok None
  end.

Definition segment_down (self : WanModelMoe.t) (scale : string)
    (kernel : nat * nat * nat) (B : nat)
    (clean_latents : option (tensor R))
    (clean_latent_indices : option (tensor Z)) : result segment :=
  match clean_latents, clean_latent_indices with
  | Some c, Some i =>
      if WanModelMoe.scale_enabled (Some c) (Some i)
      then s ← WanModelMoe.clean_segment_down self scale kernel B c
                 (WanModelMoe.valid_indices i);
           Ok (Some s.1)
      else Ok None
  | _, _ => Ok None
  end.

Definition prepend_tokens (s : segment) (hs : tensor R) : tensor R :=
  match s with Some (t, _) => cat_axis 1 t hs | None => hs end.

Definition prepend_freqs (s : segment) (rope : tensor C) : tensor C :=
  match s with Some (_, r) => cat_axis 1 r rope | None => rope end.

(** Sequence lengths of a segment. *)
Definition seg_tokens (s : segment) : nat :=
  match s with Some (t, _) => ix (shape t) 1 | None => 0 end.
Definition seg_freqs (s : segment) : nat :=
  match s with Some (_, r) => ix (shape r) 1 | None => 0 end.

(** A segment fits in front of a sequence when all axes but the
    sequence axis agree. *)
Definition fits (s : segment) (hs : tensor R) (rope : tensor C) : Prop :=
  match s with
  | Some (t, r) =>
      delete 1 (shape t) = delete 1 (shape hs)
      ∧ delete 1 (shape r) = delete 1 (shape rope)
  | None => True
  end.

(** The scale a sequence position belongs to. *)
Inductive source := Clean4x | Clean2x | Clean1x | Primary.

(** Source and local position of sequence position [i] in a sequence
    laid out as [n4] entries, then [n2], then [n1], then the primary
    ones. *)
Definition locate (n4 n2 n1 i : nat) : source * nat :=
  if i <? n4 then (Clean4x, i)
  else if i - n4 <? n2 then (Clean2x, i - n4)
  else if i - n4 - n2 <? n1 then (Clean1x, i - n4 - n2)
  else (Primary, i - n4 - n2 - n1).

Definition tokens_of (s4 s2 s1 : segment) (tp : tensor R) (src : source)
  : tensor R :=
  match src with
  | Clean4x => default tp (fst <$> s4)
  | Clean2x => default tp (fst <$> s2)
  | Clean1x => default tp (fst <$> s1)
  | Primary => tp
  end.

Definition freqs_of (s4 s2 s1 : segment) (rp : tensor C) (src : source)
  : tensor C :=
  match src with
  | Clean4x => default rp (snd <$> s4)
  | Clean2x => default rp (snd <$> s2)
  | Clean1x => default rp (snd <$> s1)
  | Primary => rp
  end.

(** The frequency tensor [r] of a scale with frame indices [frames] on
    an [h] by [w] grid reads the rotary tables: at position [pos] of
    frame [j] the time columns hold the time table at the frame index,
    the height columns the height table at row [pos / w] and the width
    columns the width table at column [pos mod w]. *)
Definition frequencies_of_frames (self : WanModelMoe.t) (B : nat)
    (frames : nat → result (list Z)) (h w : nat) (r : tensor C) : Prop :=
  ∀ (f0 f1 f2 : tensor C) (E0 E1 E2 F0 F1 F2 : nat),
    WanModelMoe.freqs self = (f0, f1, f2) →
    shape f0 = [E0; F0] → shape f1 = [E1; F1] → shape f2 = [E2; F2] →
    h ≤ E1 → w ≤ E2 →
    ∀ (b : nat) (ts : list Z) (j : nat) (t : Z) (pos q : nat),
      b < B → frames b = Ok ts → ts !! j = Some t →
      (0 ≤ t < Z.of_nat E0)%Z → pos < h * w →
      (q < F0 → item r [b; j * (h * w) + pos; q] = item f0 [Z.to_nat t; q])
      ∧ (q < F1 →
         item r [b; j * (h * w) + pos; F0 + q] = item f1 [pos / w; q])
      ∧ (q < F2 →
         item r [b; j * (h * w) + pos; F0 + F1 + q] = item f2 [pos mod w; q]).

(** A size divided by a kernel size, rounded up. *)
Definition ceil_div (n k : nat) : nat := (n + k - 1) / k.

(** The entries of an index tensor that are not negative, in order. *)
Definition nonnegative_entries (i : tensor Z) : list Z :=
  filter (λ z, (0 ≤ z)%Z) (to_list i).

(** The frame indices of a 2x or 4x scale with [cf] embedded frames:
    the entries of its index tensor that are not negative, the last of
    them being repeated when there are fewer than [cf]. *)
Definition coarse_frames (i : tensor Z) (cf : nat) : list Z :=
  let nn := nonnegative_entries i in
  (λ j, default (default 0%Z (last nn)) (nn !! j)) <$> seq 0 cf.

(** The clean-latent embedder, when the model has one, is the one built
    by [create_clean_x_embedder]. *)
Definition own_embedder (self : WanModelMoe.t) : Prop :=
  ∀ emb, WanModelMoe.clean_x_embedder self = Some emb →
         ∃ params, emb = WanModelMoe.create_clean_x_embedder self params.

(** A valid combination of inputs for the grid [(f, h, w)] of the
    primary latent: [latent_indices], when given, holds one frame index
    per primary frame; the 1x clean latent, when given with its indices,
    has one index per frame and, at the half resolution of its embedder,
    the grid of the primary latent.  Nothing is asked of the 2x and 4x
    scales. *)
Definition valid_combination (f h w : nat)
    (latent_indices : option (tensor Z))
    (clean_latents : option (tensor R))
    (clean_latent_indices : option (tensor Z)) : Prop :=
  (∀ li, latent_indices = Some li → ix (shape li) 1 = f)
  ∧ (∀ c i, clean_latents = Some c → clean_latent_indices = Some i →
       ix (shape i) 1 = ix (shape c) 2
       ∧ ix (shape c) 3 / 2 = h
       ∧ ix (shape c) 4 / 2 = w).

(** What the 1x scale contributes: nothing unless both the latent and
    its indices are given; otherwise the tokens of the embedded latent,
    one half-resolution grid per frame, and the frequencies of its frame
    indices on the primary grid. *)
Definition fine_segment (self : WanModelMoe.t) (B h w : nat)
    (cl : option (tensor R)) (idx : option (tensor Z)) (s : segment) : Prop :=
  match cl, idx with
  | Some c, Some i =>
      ∃ emb y t r ts F,
        WanModelMoe.clean_x_embedder self = Some emb
        ∧ Conv3d.forward (CleanXEmbedder.proj emb) c = Ok y
        ∧ rearrange_to_tokens y = Ok t
        ∧ s = Some (t, r)
        ∧ shape t = [B; ix (shape c) 2 * (ix (shape c) 3 / 2)
                          * (ix (shape c) 4 / 2); WanModelMoe.dim self]
        ∧ WanModelMoe.iter_row i 0 = Ok ts
        ∧ shape r = [B; length ts * (h * w); F]
        ∧ frequencies_of_frames self B (WanModelMoe.iter_row i) h w r
  | _, _ => s = None
  end.

(** What a 2x or 4x scale contributes: nothing unless the latent and
    its indices are given and some index is not negative; otherwise the
    tokens of the latent, padded to a multiple of the kernel and
    embedded by [conv], on the grid of sizes divided by the kernel and
    rounded up, and the frequencies of its frames on that grid. *)
Definition coarse_segment (self : WanModelMoe.t)
    (conv : CleanXEmbedder.t → Conv3d.t) (kernel : nat * nat * nat) (B : nat)
    (cl : option (tensor R)) (idx : option (tensor Z)) (s : segment) : Prop :=
  match cl, idx with
  | Some c, Some i =>
      if decide (nonnegative_entries i = []) then s = None
      else
        let cf := ceil_div (ix (shape c) 2) kernel.1.1 in
        let ch := ceil_div (ix (shape c) 3) kernel.1.2 in
        let cw := ceil_div (ix (shape c) 4) kernel.2 in
        ∃ emb padded y t r F,
          WanModelMoe.clean_x_embedder self = Some emb
          ∧ WanModelMoe.pad_for_3d_conv c kernel = Ok padded
          ∧ Conv3d.forward (conv emb) padded = Ok y
          ∧ rearrange_to_tokens y = Ok t
          ∧ s = Some (t, r)
          ∧ shape t = [B; cf * ch * cw; WanModelMoe.dim self]
          ∧ 0 < cf * ch * cw
          ∧ shape r = [B; cf * ch * cw; F]
          ∧ frequencies_of_frames self B (λ _, Ok (coarse_frames i cf)) ch cw r
  | _, _ => s = None
  end.

(** Concrete inputs. *)
Definition zero_params : init_params := λ _ _, 0%R.

Definition zeros_like (sh : list nat) : tensor R := Tensor sh (λ _, 0%R).

(** The model of the single-scale scenario, with a clean-latent embedder
    attached. *)
Definition model_with_embedder (patch_size : nat * nat * nat) : WanModelMoe.t :=
  let m := WanModelMoe.init 64 16 128 16 4096 256 (1 / 1000000)%R patch_size
             4 1 false false None zero_params in
  WanModelMoe.set_clean_x_embedder m
    (WanModelMoe.create_clean_x_embedder m zero_params).

(** The two sequence lengths of an assembled input. *)
Definition sequence_lengths
    (r : result (tensor R * tensor C * list nat * option (tensor R)
                 * option modality_dict)) : result (nat * nat) :=
  '(hs, rope, _, _, _) ← r; Ok (ix (shape hs) 1, ix (shape rope) 1).

(** A cross-attention layer with image conditioning, of width 4 with two
    heads. *)
Definition image_cross_attention : CrossAttention.t :=
  CrossAttention.init 4 2 (1 / 1000000)%R true (λ _ _, 1%R).


(** A name without separator. *)
Definition dotless (s : string) : Prop := WanModelStateDictConverter.split_dot s = [s].

(** [model.sekai_processor = p]; nothing in the module assigns it. *)
Definition with_sekai_processor (self : WanModelMoe.t)
    (p : ModalityProcessor.t R) : WanModelMoe.t :=
  WanModelMoe.Make (WanModelMoe.dim self) (WanModelMoe.freq_dim self)
    (WanModelMoe.has_image_input self) (WanModelMoe.patch_size self)
    (WanModelMoe.use_moe self) (WanModelMoe.moe_config self)
    (WanModelMoe.patch_embedding self) (WanModelMoe.text_embedding self)
    (WanModelMoe.time_embedding self) (WanModelMoe.time_projection self)
    (WanModelMoe.modality_to_expert self) (WanModelMoe.top_k self)
    (WanModelMoe.blocks self) (WanModelMoe.head self) (WanModelMoe.freqs self)
    (WanModelMoe.clean_x_embedder self) (Some p)
    (WanModelMoe.nuscenes_processor self) (WanModelMoe.openx_processor self).

(** A small model of width 6 with one head, one block and patch size
    (1, 2, 2), MoE enabled without a configuration, and a processor for
    the label sekai from 12 to 12 features. *)
Definition small_model : WanModelMoe.t :=
  with_sekai_processor
    (WanModelMoe.init 6 1 2 1 2 2 (1 / 1000000)%R (1, 2, 2) 1 1 false true
       None zero_params)
    (ModalityProcessor.init "sekai" 12 12 (λ _ _, 0%R) (λ _, 0%R)).

(** The same model with three experts of width 12 in its block. *)
Definition small_moe_model : WanModelMoe.t :=
  with_sekai_processor
    (WanModelMoe.init 6 1 2 1 2 2 (1 / 1000000)%R (1, 2, 2) 1 1 false true
       (Some {[ "unified_dim" := 12; "num_experts" := 3; "top_k" := 1 ]})
       zero_params)
    (ModalityProcessor.init "sekai" 12 12 (λ _ _, 0%R) (λ _, 0%R)).

(* ================================================================== *)
(** * Part II.  Properties                                             *)
(* ================================================================== *)

#[local] Arguments Nat.div : simpl never.
#[local] Arguments Nat.modulo : simpl never.

(** ** The rotary frequency tables *)

Lemma cnorm2_polar (a : R) : cnorm2 (polar 1 a) = 1%R.
Proof.
  unfold cnorm2, polar. simpl.
  pose proof (sin2_cos2 a) as Hsc. unfold Rsqr in Hsc. lra.
Qed.

Lemma cmul_cconj_unit (a f : C) :
  cnorm2 f = 1%R → cmul (cmul a f) (cconj f) = a.
Proof.
  destruct a as [a1 a2], f as [f1 f2]. unfold cnorm2, cmul, cconj. simpl.
  intros Hf. f_equal.
  - replace ((a1 * f1 - a2 * f2) * f1 - (a1 * f2 + a2 * f1) * - f2)%R
      with (a1 * (f1 * f1 + f2 * f2))%R by ring.
    rewrite Hf. ring.
  - replace ((a1 * f1 - a2 * f2) * - f2 + (a1 * f2 + a2 * f1) * f1)%R
      with (a2 * (f1 * f1 + f2 * f2))%R by ring.
    rewrite Hf. ring.
Qed.

Lemma cnorm2_cmul (a f : C) : cnorm2 (cmul a f) = (cnorm2 a * cnorm2 f)%R.
Proof.
  destruct a as [a1 a2], f as [f1 f2]. unfold cnorm2, cmul. simpl. ring.
Qed.

Lemma precompute_freqs_cis_shape (dim end_ : nat) (theta : R) :
  shape (precompute_freqs_cis dim end_ theta) = [end_; dim / 2].
Proof.
  unfold precompute_freqs_cis, outer, tmap, arange, slice_axis, ix. simpl.
  f_equal; [|f_equal].
  - rewrite Nat.sub_0_r, Nat.add_0_r. apply Nat.div_1_r.
  - replace (dim - 0 + 1) with (dim + 1) by lia.
    assert (dim / 2 ≤ (dim + 1) / 2) by (apply Nat.Div0.div_le_mono; lia).
    lia.
Qed.

Lemma precompute_freqs_cis_item (dim end_ : nat) (theta : R) (p k : nat) :
  item (precompute_freqs_cis dim end_ theta) [p; k]
  = (cos (INR p * Rpower theta (- (2 * INR k / INR dim))),
     sin (INR p * Rpower theta (- (2 * INR k / INR dim))))%R.
Proof.
  unfold precompute_freqs_cis, outer, tmap, arange, slice_axis, ix, polar,
    pow_base. simpl.
  replace (k + 0 + (k + 0 + 0)) with (2 * k) by lia.
  replace (p + 0) with p by lia.
  rewrite mult_INR. change (INR 2) with 2%R.
  rewrite Rpower_Ropp, !Rmult_1_l.
  unfold Rdiv at 1 3. rewrite !Rmult_1_l. reflexivity.
Qed.

Lemma precompute_freqs_cis_unit (dim end_ : nat) (theta : R) (idx : list nat) :
  cnorm2 (item (precompute_freqs_cis dim end_ theta) idx) = 1%R.
Proof. unfold precompute_freqs_cis, tmap. simpl. apply cnorm2_polar. Qed.

(** Claim C7.  For head dimension [d] and maximum extent [E],
    [precompute_freqs_cis_3d] returns three tables built by
    [precompute_freqs_cis] for the axis dimensions [d - 2 * (d / 3)]
    (time), [d / 3] (height) and [d / 3] (width); the table of an axis
    dimension has [E] rows and [axis_dim / 2] columns, and its entry at
    position [p] and slot [k] is the complex number of magnitude one with
    angle [p * theta ^ (- 2 k / axis_dim)]; the default base is 10000 and
    the default extent 1024. *)
Theorem rotary_frequency_table (d E : nat) (theta : R) :
  precompute_freqs_cis_3d d E theta
  = (precompute_freqs_cis (d - 2 * (d / 3)) E theta,
     precompute_freqs_cis (d / 3) E theta,
     precompute_freqs_cis (d / 3) E theta)
  ∧ default_theta = 10000%R
  ∧ default_end = 1024
  ∧ ∀ axis_dim : nat,
      shape (precompute_freqs_cis axis_dim E theta) = [E; axis_dim / 2]
      ∧ ∀ p k : nat,
          item (precompute_freqs_cis axis_dim E theta) [p; k]
          = polar 1 (INR p * Rpower theta (- (2 * INR k / INR axis_dim)))
          ∧ item (precompute_freqs_cis axis_dim E theta) [p; k]
            = (cos (INR p * Rpower theta (- (2 * INR k / INR axis_dim))),
               sin (INR p * Rpower theta (- (2 * INR k / INR axis_dim))))%R
          ∧ cnorm2 (item (precompute_freqs_cis axis_dim E theta) [p; k]) = 1%R.
Proof.
  split; [reflexivity|]. split; [reflexivity|]. split; [reflexivity|].
  intros axis_dim. split; [apply precompute_freqs_cis_shape|].
  intros p k. split; [|split].
  - rewrite precompute_freqs_cis_item. unfold polar.
    by rewrite !Rmult_1_l.
  - apply precompute_freqs_cis_item.
  - apply precompute_freqs_cis_unit.
Qed.

(** ** Broadcasting and index arithmetic *)

Lemma bindex_in_bounds (sh idx : list nat) :
  in_bounds sh idx → bindex sh idx = idx.
Proof.
  unfold in_bounds, bindex. intros Hb.
  rewrite (Forall2_length _ _ _ Hb), Nat.sub_diag, drop_0.
  induction Hb as [|i n idx sh Hlt _ IH]; [reflexivity|].
  simpl. rewrite IH. f_equal.
  destruct (Nat.eqb_spec n 1); [lia | reflexivity].
Qed.

Lemma bindex_heads (b s d i j h q : nat) :
  i < b → j < s → q < d →
  bindex [b; s; 1; d] [i; j; h; q] = [i; j; 0; q].
Proof.
  intros Hi Hj Hq. unfold bindex. simpl.
  repeat match goal with
         | |- context [?n =? 1] => destruct (Nat.eqb_spec n 1)
         end; repeat f_equal; lia.
Qed.

Lemma broadcast_heads (b s n d : nat) :
  broadcast_shapes [b; s; n; d] [b; s; 1; d] = Some [b; s; n; d].
Proof.
  unfold broadcast_shapes. simpl.
  rewrite !Nat.eqb_refl. simpl.
  destruct (n =? 1) eqn:E; simpl.
  - reflexivity.
  - destruct (Nat.eqb_spec n 1); [congruence|]. reflexivity.
Qed.

Lemma unravel_pairs (n p m : nat) :
  unravel [n; p; 2] m = [m / (p * 2); m mod (p * 2) / 2; m mod (p * 2) mod 2].
Proof.
  unfold unravel, numel. simpl.
  rewrite Nat.div_1_r. reflexivity.
Qed.

Lemma pair_index_split (p h q r : nat) :
  q < p → r < 2 →
  let m := h * (2 * p) + 2 * q + r in
  m / (p * 2) = h ∧ m mod (p * 2) / 2 = q ∧ m mod (p * 2) mod 2 = r.
Proof.
  intros Hq Hr m.
  assert (Hm : m = h * (p * 2) + (q * 2 + r)) by (unfold m; lia).
  assert (H1 : m / (p * 2) = h).
  { symmetry. apply (Nat.div_unique _ _ _ (q * 2 + r)); lia. }
  assert (H2 : m mod (p * 2) = q * 2 + r).
  { symmetry. apply (Nat.mod_unique _ _ h); lia. }
  rewrite H1, H2. repeat split.
  - symmetry. apply (Nat.div_unique _ _ _ r); lia.
  - symmetry. apply (Nat.mod_unique _ _ q); lia.
Qed.

Lemma pair_index_join (p m : nat) :
  0 < p →
  m = m / (p * 2) * (2 * p) + 2 * (m mod (p * 2) / 2) + m mod (p * 2) mod 2
  ∧ m mod (p * 2) / 2 < p ∧ m mod (p * 2) mod 2 < 2.
Proof.
  intros Hp.
  pose proof (Nat.div_mod_eq m (p * 2)) as H1.
  pose proof (Nat.div_mod_eq (m mod (p * 2)) 2) as H2.
  pose proof (Nat.mod_upper_bound m (p * 2)) as H3.
  pose proof (Nat.mod_upper_bound (m mod (p * 2)) 2) as H4.
  assert (m mod (p * 2) / 2 < p) by (apply Nat.Div0.div_lt_upper_bound; lia).
  repeat split; [|lia|lia].
  nia.
Qed.

(** ** RoPE application *)

Lemma rope_apply_spec (x : tensor R) (freqs : tensor C) (n b s p : nat) :
  0 < n → 0 < b → 0 < s → 0 < p →
  shape x = [b; s; n * (2 * p)] →
  shape freqs = [b; s; 1; p] →
  ∃ y, rope_apply x freqs n = Ok y
       ∧ shape y = [b; s; n * (2 * p)]
       ∧ ∀ i j h q, i < b → j < s → h < n → q < p →
           let xc := (item x [i; j; h * (2 * p) + 2 * q],
                      item x [i; j; h * (2 * p) + 2 * q + 1]) in
           let z := cmul xc (item freqs [i; j; 0; q]) in
           item y [i; j; h * (2 * p) + 2 * q + 0] = z.1
           ∧ item y [i; j; h * (2 * p) + 2 * q + 1] = z.2.
Proof.
  intros Hn Hb Hs Hp Hx Hf.
  destruct x as [shx fx], freqs as [shf ff]. cbn [shape] in Hx, Hf.
  subst shx shf.
  unfold rope_apply, rearrange_split_heads. cbn [shape item].
  assert (Hmod : (n * (2 * p)) mod n = 0).
  { rewrite Nat.mul_comm. apply Nat.Div0.mod_mul. }
  assert (Hdiv : n * (2 * p) / n = 2 * p).
  { rewrite Nat.mul_comm. apply Nat.div_mul. lia. }
  rewrite Hmod, Hdiv.
  destruct (Nat.ltb_spec 0 n); [|lia]. cbn [andb Nat.eqb mbind result_bind].
  unfold view_as_complex_pairs. cbn [shape item].
  assert (Hnumel : (b * s * n =? 0) = false).
  { apply Nat.eqb_neq. nia. }
  rewrite Hnumel.
  assert (Hmod2 : (2 * p) mod 2 = 0).
  { rewrite Nat.mul_comm. apply Nat.Div0.mod_mul. }
  assert (Hdiv2 : 2 * p / 2 = p).
  { rewrite Nat.mul_comm. apply Nat.div_mul. lia. }
  rewrite Hmod2, Hdiv2. cbn [Nat.eqb mbind result_bind].
  unfold map2. cbn [shape item]. rewrite broadcast_heads.
  cbn [mbind result_bind].
  unfold view_as_real_flatten2. cbn [shape item app length Nat.ltb Nat.leb].
  eexists. split; [reflexivity|]. cbn [shape item take drop app].
  split.
  { unfold numel. cbn [foldr].
    replace (p * (2 * 1)) with (2 * p) by lia. reflexivity. }
  intros i j h q Hi Hj Hh Hq. cbn zeta.
  assert (Hrest : ∀ r, r < 2 →
            unravel [n; p; 2] (h * (2 * p) + 2 * q + r) = [h; q; r]).
  { intros r Hr. rewrite unravel_pairs.
    destruct (pair_index_split p h q r Hq Hr) as (-> & -> & ->). reflexivity. }
  split.
  - unfold ix. cbn [nth]. rewrite (Hrest 0) by lia.
    cbn [length Nat.sub take app nth Nat.eqb].
    rewrite bindex_in_bounds
      by (unfold in_bounds; repeat constructor; assumption).
    rewrite bindex_heads by assumption.
    cbn [nth fst snd]. rewrite ?Nat.add_assoc. reflexivity.
  - unfold ix. cbn [nth]. rewrite (Hrest 1) by lia.
    cbn [length Nat.sub take app nth Nat.eqb].
    rewrite bindex_in_bounds
      by (unfold in_bounds; repeat constructor; assumption).
    rewrite bindex_heads by assumption.
    cbn [nth fst snd]. rewrite ?Nat.add_assoc. reflexivity.
Qed.

Lemma all_unit_conj (freqs : tensor C) :
  (∀ idx, in_bounds (shape freqs) idx → cnorm2 (item freqs idx) = 1%R) →
  ∀ idx, in_bounds (shape (tmap cconj freqs)) idx →
         cnorm2 (item (tmap cconj freqs) idx) = 1%R.
Proof.
  intros Hu idx Hidx. cbn [tmap shape item] in *.
  specialize (Hu idx Hidx). destruct (item freqs idx) as [a c].
  unfold cnorm2, cconj in *. cbn [fst snd] in *. lra.
Qed.

(** Claim C6.  Over the real numbers, for every input [x] and every
    frequency tensor [freqs] with unit-magnitude entries, applying
    [rope_apply] with [freqs] and then with the complex conjugate of
    [freqs] returns a tensor equal to [x] at every position; multiplying
    a complex pair by a unit-magnitude frequency preserves its norm, and
    every entry of a table built by [precompute_freqs_cis] has unit
    magnitude. *)
Theorem rope_round_trip (x : tensor R) (freqs : tensor C) (n b s p : nat) :
  0 < n → 0 < b → 0 < s → 0 < p →
  shape x = [b; s; n * (2 * p)] →
  shape freqs = [b; s; 1; p] →
  (∀ idx, in_bounds (shape freqs) idx → cnorm2 (item freqs idx) = 1%R) →
  (∃ y z, rope_apply x freqs n = Ok y
          ∧ rope_apply y (tmap cconj freqs) n = Ok z
          ∧ tensor_eq z x)
  ∧ (∀ a f : C, cnorm2 f = 1%R → cnorm2 (cmul a f) = cnorm2 a)
  ∧ (∀ (dim end_ : nat) (theta : R) (idx : list nat),
       cnorm2 (item (precompute_freqs_cis dim end_ theta) idx) = 1%R).
Proof.
  intros Hn Hb Hs Hp Hx Hf Hunit.
  split; [|split].
  - destruct (rope_apply_spec x freqs n b s p Hn Hb Hs Hp Hx Hf)
      as (y & Hy & Hshy & Hity).
    destruct (rope_apply_spec y (tmap cconj freqs) n b s p Hn Hb Hs Hp Hshy Hf)
      as (z & Hz & Hshz & Hitz).
    exists y, z. split; [exact Hy|]. split; [exact Hz|].
    split; [congruence|].
    intros idx Hidx. rewrite Hshz in Hidx.
    unfold in_bounds in Hidx.
    destruct idx as [|i [|j [|m [|? ?]]]];
      try (exfalso; apply Forall2_length in Hidx; discriminate).
    apply Forall2_cons_1 in Hidx as [Hi Hidx].
    apply Forall2_cons_1 in Hidx as [Hj Hidx].
    apply Forall2_cons_1 in Hidx as [Hm _].
    destruct (pair_index_join p m Hp) as (Hsplit & Hq & Hr).
    set (h := m / (p * 2)) in *. set (q := m mod (p * 2) / 2) in *.
    set (r := m mod (p * 2) mod 2) in *.
    assert (Hh : h < n).
    { unfold h. apply Nat.Div0.div_lt_upper_bound. lia. }
    destruct (Hity i j h q Hi Hj Hh Hq) as [Hy0 Hy1].
    destruct (Hitz i j h q Hi Hj Hh Hq) as [Hz0 Hz1].
    cbn zeta in *. cbn [tmap item] in Hz0, Hz1.
    rewrite Nat.add_0_r in Hy0, Hz0.
    assert (Hf1 : cnorm2 (item freqs [i; j; 0; q]) = 1%R).
    { apply Hunit. rewrite Hf. unfold in_bounds.
      repeat constructor; try assumption; lia. }
    assert (Hpair :
      cmul (item y [i; j; h * (2 * p) + 2 * q],
            item y [i; j; h * (2 * p) + 2 * q + 1])
           (cconj (item freqs [i; j; 0; q]))
      = (item x [i; j; h * (2 * p) + 2 * q],
         item x [i; j; h * (2 * p) + 2 * q + 1])).
    { rewrite Hy0, Hy1, <- surjective_pairing.
      apply cmul_cconj_unit, Hf1. }
    rewrite Hpair in Hz0, Hz1. cbn [fst snd] in Hz0, Hz1.
    rewrite Hsplit.
    assert (r = 0 ∨ r = 1) as [-> | ->] by lia.
    + rewrite Nat.add_0_r. exact Hz0.
    + exact Hz1.
  - intros a f Hf1. rewrite cnorm2_cmul, Hf1. ring.
  - intros. apply precompute_freqs_cis_unit.
Qed.

Lemma modality_table_lookup (label : string) :
  default 0 (MultiModalMoE.modality_table !! label) = spec_expert_of label.
Proof.
  unfold MultiModalMoE.modality_table, spec_expert_of.
  rewrite !lookup_insert.
  repeat case_decide; subst; try done.
  rewrite lookup_singleton. by case_decide.
Qed.

(** Claim C3.  For every modality label and every input of shape
    [[b; s; d]], [compute_router_decisions] returns weights filled with
    1, indices filled with the expert the Modality-to-Expert Map gives to
    the label (sekai 0, nuscenes 1, openx 2, any other label, "unknown"
    included, 0) and a zero loss; the result depends on the input only
    through its shape. *)
Theorem router_decision_policy {A} `{Scalar A} (self : WanModelMoe.t)
    (x : tensor A) (label : string) (b s d : nat) :
  WanModelMoe.modality_to_expert self = MultiModalMoE.modality_table →
  WanModelMoe.top_k self = 1 →
  shape x = [b; s; d] →
  WanModelMoe.compute_router_decisions self x label
    = Ok (ones [b; s; 1],
          full [b; s; 1] (Z.of_nat (spec_expert_of label)),
          scalar_tensor 0%R)
  ∧ spec_expert_of "sekai" = 0
  ∧ spec_expert_of "nuscenes" = 1
  ∧ spec_expert_of "openx" = 2
  ∧ spec_expert_of "unknown" = 0
  ∧ (label ≠ "sekai" → label ≠ "nuscenes" → label ≠ "openx" →
     spec_expert_of label = 0)
  ∧ ∀ x' : tensor A,
      shape x' = shape x →
      WanModelMoe.compute_router_decisions self x' label
      = WanModelMoe.compute_router_decisions self x label.
Proof.
  intros Hmap Htop Hshape.
  assert (Hrun : ∀ y : tensor A, shape y = [b; s; d] →
            WanModelMoe.compute_router_decisions self y label
            = Ok (ones [b; s; 1],
                  full [b; s; 1] (Z.of_nat (spec_expert_of label)),
                  scalar_tensor 0%R)).
  { intros y Hy. unfold WanModelMoe.compute_router_decisions.
    rewrite Hy, Hmap, Htop, modality_table_lookup. reflexivity. }
  split; [by apply Hrun|].
  repeat split; try reflexivity.
  - intros H1 H2 H3. unfold spec_expert_of. by repeat case_decide.
  - intros x' Hx'. rewrite !Hrun; congruence.
Qed.

Lemma router_decision_policy_witness :
  ∃ r, WanModelMoe.compute_router_decisions
         (WanModelMoe.init 48 16 128 16 32 8 0%R (1, 2, 2) 4 1 false true None
            (λ _ _, 0%R))
         (Tensor [2; 3; 8] (λ _, 0%Q)) "nuscenes" = Ok r
       ∧ item r.1.2 [1; 2; 0] = 1%Z.
Proof.
  eexists. 
  destruct (router_decision_policy
              (WanModelMoe.init 48 16 128 16 32 8 0%R (1, 2, 2) 4 1 false true None
                 (λ _ _, 0%R))
              (Tensor [2; 3; 8] (λ _, 0%Q)) "nuscenes" 2 3 8
              eq_refl eq_refl eq_refl) as [Hrun _].
  split; [exact Hrun | reflexivity].
Defined.

(** Claim C1 (divergence).  In the single-scale scenario, a model built
    with dim 64, 4 heads, ffn_dim 128, one layer, patch size (1, 2, 2),
    no image input and MoE disabled, called with a latent of shape
    [[1; 16; 4; 16; 16]], a context of shape [[1; 10; 4096]], no camera
    embedding, no clean latents and no modality inputs, does not return
    a prediction: [forward] unpacks the result of
    [process_modality_inputs], which is [None] here, and raises a
    [TypeError]. *)
Theorem single_scale_forward_raises (params : init_params) (eps : R)
    (freq_dim : nat) (lat ctx : list nat → R) (timestep : tensor R) :
  WanModelMoe.forward
    (WanModelMoe.init 64 16 128 16 4096 freq_dim eps (1, 2, 2) 4 1 false
       false None params)
    (Tensor [1; 16; 4; 16; 16] lat) timestep None
    None None None None None None None
    None
    (Some (Tensor [1; 10; 4096] ctx))
  = raise TypeError "cannot unpack non-iterable NoneType object".
Proof. reflexivity. Qed.

(** ** The result monad *)

Lemma mapM_Ok {A B} (f : A → result B) (g : A → B) (l : list A) :
  (∀ a, a ∈ l → f a = Ok (g a)) → mapM f l = Ok (g <$> l).
Proof.
  induction l as [|a l IH]; intros Hf; [reflexivity|].
  cbn [mapM]. rewrite Hf by left. cbn [mbind result_bind].
  rewrite IH by (intros; apply Hf; by right). reflexivity.
Qed.

Lemma mapM_is_Ok {A B} (f : A → result B) (l : list A) :
  (∀ a, a ∈ l → ∃ b, f a = Ok b) → ∃ bs, mapM f l = Ok bs.
Proof.
  induction l as [|a l IH]; intros Hf; [by eexists|].
  destruct (Hf a) as [b Hb]; [left|].
  destruct IH as [bs Hbs]; [intros; apply Hf; by right|].
  exists (b :: bs). cbn [mapM]. rewrite Hb. cbn [mbind result_bind].
  rewrite Hbs. reflexivity.
Qed.

Lemma mapM_length {A B} (f : A → result B) (l : list A) (bs : list B) :
  mapM f l = Ok bs → length bs = length l.
Proof.
  revert bs. induction l as [|a l IH]; intros bs; cbn [mapM].
  - intros [= <-]. reflexivity.
  - destruct (f a); cbn [mbind result_bind]; [|discriminate].
    destruct (mapM f l); cbn [mbind result_bind]; [|discriminate].
    intros [= <-]. cbn [length]. f_equal. by apply IH.
Qed.

(** A loop whose second iteration always raises never completes. *)
Lemma foldlM_second_raises {B} (f : B → nat → result B) (n : nat) (b0 : B) :
  (∀ b, is_ok (f b 1) = false) →
  is_ok (foldlM f (seq 0 (S (S n))) b0) = false.
Proof.
  intros Hf. cbn [seq foldlM].
  destruct (f b0 0) as [b1|]; cbn [mbind result_bind is_ok]; [|reflexivity].
  specialize (Hf b1). destruct (f b1 1); [discriminate|reflexivity].
Qed.

(** ** The expert combiner *)

Lemma combine_slot_beyond_router {F} `{Scalar F}
    (expert_outputs expert_weights output : tensor F) (top_k_indices : tensor Z)
    (b s : nat) :
  shape top_k_indices = [b; s; 1] →
  MultiModalMoE.combine_slot expert_outputs expert_weights top_k_indices
    output 1 = Raise slot_error.
Proof.
  intros Hidx. unfold MultiModalMoE.combine_slot, select.
  rewrite Hidx. reflexivity.
Qed.

Lemma moe_forward_top_k_2 {F} `{Scalar F} (self : MultiModalMoE.t F)
    (x expert_weights : tensor F) (top_k_indices : tensor Z)
    (modality_type : string) (b s : nat) :
  2 ≤ MultiModalMoE.top_k self →
  shape top_k_indices = [b; s; 1] →
  is_ok (MultiModalMoE.forward self x expert_weights top_k_indices
           modality_type) = false.
Proof.
  intros Htop Hidx. unfold MultiModalMoE.forward.
  destruct (unpack3 (shape x)) as [[[bs sl] d]|];
    cbn [mbind result_bind is_ok]; [|reflexivity].
  destruct (assert _ _); cbn [mbind result_bind is_ok]; [|reflexivity].
  destruct (getitem _ _); cbn [mbind result_bind is_ok]; [|reflexivity].
  destruct (MultiModalMoE.collect_expert_statistics _ _ _ _ _);
    cbn [mbind result_bind is_ok]; [|reflexivity].
  destruct (mapM _ _); cbn [mbind result_bind is_ok]; [|reflexivity].
  destruct (stack _ _) as [eo|]; cbn [mbind result_bind is_ok]; [|reflexivity].
  destruct (MultiModalMoE.top_k self) as [|[|k]]; [lia|lia|].
  match goal with
  | |- is_ok (mbind _ ?r) = false => assert (Hr : is_ok r = false)
  end.
  { apply foldlM_second_raises. intros out.
    by rewrite (combine_slot_beyond_router _ _ _ _ b s). }
  match goal with
  | |- is_ok (mbind _ ?r) = false => destruct r; [discriminate|reflexivity]
  end.
Qed.

Lemma router_shapes {A} `{Scalar A} (self : WanModelMoe.t) (x : tensor A)
    (label : string) (w : tensor A) (idx : tensor Z) (loss : tensor R) :
  WanModelMoe.compute_router_decisions self x label = Ok (w, idx, loss) →
  ∃ b s, shape w = [b; s; WanModelMoe.top_k self]
         ∧ shape idx = [b; s; WanModelMoe.top_k self].
Proof.
  unfold WanModelMoe.compute_router_decisions.
  destruct (unpack3 (shape x)) as [[[b s] d]|];
    cbn [mbind result_bind]; [|discriminate].
  intros [= <- <- <-]. by exists b, s.
Qed.

Lemma block_moe_of_init (has_image_input : bool) (dim num_heads ffn_dim : nat)
    (eps : R) (cfg : gmap string nat) (params : init_params) :
  cfg ≠ ∅ →
  DiTBlockWithMoE.moe
    (DiTBlockWithMoE.init has_image_input dim num_heads ffn_dim eps true
       (Some cfg) params)
  = Some (MultiModalMoE.init (config_get cfg "unified_dim" 30) 60 (Some dim)
            (config_get cfg "num_experts" 4) (config_get cfg "top_k" 2)
            (λ e j i, params ("moe.experts." +:+ pretty e +:+ ".0.weight") [j; i])
            (λ e j, params ("moe.experts." +:+ pretty e +:+ ".0.bias") [j])).
Proof.
  intros Hcfg. unfold DiTBlockWithMoE.init. cbn [DiTBlockWithMoE.moe].
  unfold dict_truthy. rewrite bool_decide_eq_false_2 by done. reflexivity.
Qed.

(** Claim C10.  The constructor of [WanModelMoe] sets the router's
    [top_k] to 1 whatever [moe_config] says, so the router weights and
    indices have a last axis of size 1; when [moe_config] gives
    [top_k >= 2], every block's combiner is built with that [top_k], and
    its [forward] on router outputs never returns: reading slot 1 of the
    size-1 axis raises an [IndexError]. *)
Theorem router_top_k_mismatch
    (dim in_dim ffn_dim out_dim text_dim freq_dim : nat) (eps : R)
    (patch_size : nat * nat * nat) (num_heads num_layers : nat)
    (has_image_input : bool) (cfg : gmap string nat) (k : nat)
    (params : init_params) :
  cfg !! "top_k" = Some k →
  2 ≤ k →
  let model :=
    WanModelMoe.init dim in_dim ffn_dim out_dim text_dim freq_dim eps
      patch_size num_heads num_layers has_image_input true (Some cfg) params in
  WanModelMoe.top_k model = 1
  ∧ (∀ (x : tensor R) (label : string) w idx loss,
       WanModelMoe.compute_router_decisions model x label = Ok (w, idx, loss) →
       ∃ b s, shape w = [b; s; 1] ∧ shape idx = [b; s; 1])
  ∧ ∀ block, block ∈ WanModelMoe.blocks model →
      ∃ moe, DiTBlockWithMoE.moe block = Some moe
             ∧ MultiModalMoE.top_k moe = k
             ∧ ∀ (x x' : tensor R) (label label' : string) w idx loss,
                 WanModelMoe.compute_router_decisions model x label
                   = Ok (w, idx, loss) →
                 is_ok (MultiModalMoE.forward moe x' w idx label') = false
                 ∧ ∀ expert_outputs output,
                     MultiModalMoE.combine_slot expert_outputs w idx output 1
                     = raise IndexError "index is out of bounds for this dimension".
Proof.
  intros Hk Hk2 model.
  assert (Hcfg : cfg ≠ ∅).
  { intros ->. by rewrite lookup_empty in Hk. }
  split; [reflexivity|]. split.
  - intros x label w idx loss Hr.
    destruct (router_shapes _ _ _ _ _ _ Hr) as (b & s & Hw & Hi).
    by exists b, s.
  - intros block Hblock. unfold model, WanModelMoe.init in Hblock.
    cbn [WanModelMoe.blocks] in Hblock.
    apply list_elem_of_fmap in Hblock as (i & -> & _).
    rewrite block_moe_of_init by done.
    eexists. split; [reflexivity|]. split.
    { unfold MultiModalMoE.init. cbn [MultiModalMoE.top_k].
      unfold config_get. by rewrite Hk. }
    intros x x' label label' w idx loss Hr.
    destruct (router_shapes _ _ _ _ _ _ Hr) as (b & s & _ & Hi).
    change (WanModelMoe.top_k model) with 1 in Hi.
    split.
    + apply (moe_forward_top_k_2 _ _ _ _ _ b s); [|exact Hi].
      unfold MultiModalMoE.init. cbn [MultiModalMoE.top_k].
      unfold config_get. rewrite Hk. exact Hk2.
    + intros eo out. by apply (combine_slot_beyond_router _ _ _ _ b s).
Qed.

Lemma MoE_init_wf {F} `{Scalar F} (unified_dim hidden_dim : nat)
    (output_dim : option nat) (num_experts top_k : nat)
    (w : nat → nat → nat → F) (b : nat → nat → F) :
  MoE_wf (MultiModalMoE.init unified_dim hidden_dim output_dim num_experts
            top_k w b).
Proof.
  unfold MoE_wf, MultiModalMoE.init.
  cbn [MultiModalMoE.experts MultiModalMoE.num_experts
       MultiModalMoE.modality_to_expert MultiModalMoE.unified_dim
       MultiModalMoE.output_dim].
  split; [by rewrite length_fmap, length_seq|]. split; [reflexivity|].
  apply Forall_fmap, Forall_forall. intros e _. by split.
Qed.

Lemma broadcast_same (b s d : nat) :
  broadcast_shapes [b; s; d] [b; s; d] = Some [b; s; d].
Proof.
  unfold broadcast_shapes. simpl. rewrite !Nat.eqb_refl. reflexivity.
Qed.

Lemma broadcast_pair (b n : nat) :
  broadcast_shapes [b; n] [b; n] = Some [b; n].
Proof.
  unfold broadcast_shapes. simpl. rewrite !Nat.eqb_refl. reflexivity.
Qed.

Lemma broadcast_last (b s d : nat) :
  broadcast_shapes [b; s; 1] [b; s; d] = Some [b; s; d].
Proof.
  unfold broadcast_shapes. simpl. rewrite !Nat.eqb_refl.
  destruct d as [|[|d]]; reflexivity.
Qed.

Lemma forallb_fmap_const {A B} (P : B → bool) (f : A → B) (v : B) (l : list A) :
  (∀ a, f a = v) → P v = true → forallb P (f <$> l) = true.
Proof.
  intros Hf Hv. induction l as [|a l IH]; [reflexivity|].
  cbn [fmap list_fmap forallb]. rewrite Hf, Hv. exact IH.
Qed.

Lemma collect_expert_statistics_ok {F} `{Scalar F} (self : MultiModalMoE.t F)
    (expert_weights : tensor F) (top_k_indices : tensor Z)
    (modality_type : string) (target : nat) (b s k : nat) :
  shape expert_weights = [b; s; k] →
  shape top_k_indices = [b; s; k] →
  target < MultiModalMoE.num_experts self →
  ∃ stats,
    MultiModalMoE.collect_expert_statistics self expert_weights top_k_indices
      modality_type target = Ok stats.
Proof.
  intros Hw Hi Ht. unfold MultiModalMoE.collect_expert_statistics.
  match goal with
  | |- context [mapM ?f ?l] => destruct (mapM_is_Ok f l) as [avg Havg]
  end.
  { intros e _. destruct (0 <? _); [|by eexists].
    unfold MultiModalMoE.masked_select. cbn [tmap shape].
    rewrite Hw, Hi. cbn [length take].
    destruct (decide _) as [|Hne]; [|by destruct Hne].
    cbn [mbind result_bind]. by eexists. }
  rewrite Havg. cbn [mbind result_bind].
  unfold MultiModalMoE.mean_dims01. rewrite Hw. cbn [mbind result_bind].
  unfold select. cbn [tmap shape lookup list_lookup].
  destruct (Nat.ltb_spec target (MultiModalMoE.num_experts self)); [|lia].
  cbn [mbind result_bind]. by eexists.
Qed.

(** For a combiner with [top_k = 1], weights all 1 and indices uniformly
    [e] (last axis of size 1), [MultiModalMoE.forward] returns, at every
    position, the output of expert [e]'s linear layer applied to [x],
    provided the target expert of the label exists.  The scalars are any
    type where [0 + y = y] and [1 * y = y]. *)
Lemma moe_top1_weighted_sum {F} `{Scalar F} (m : MultiModalMoE.t F)
    (x : tensor F) (b s e : nat) (modality : string) (expert : Linear.t F) :
  (∀ y : F, fadd fzero y = y) →
  (∀ y : F, fmul fone y = y) →
  MoE_wf m →
  MultiModalMoE.top_k m = 1 →
  shape x = [b; s; MultiModalMoE.unified_dim m] →
  MultiModalMoE.experts m !! e = Some expert →
  spec_expert_of modality < MultiModalMoE.num_experts m →
  ∃ out stats direct,
    MultiModalMoE.forward m x (ones [b; s; 1]) (full [b; s; 1] (Z.of_nat e))
      modality = Ok (out, stats)
    ∧ Linear.forward expert x = Ok direct
    ∧ tensor_eq out direct.
Proof.
  intros Hadd Hmul (Hlen & Hmap & Hexp) Htop Hx He Htarget.
  assert (Hen : e < MultiModalMoE.num_experts m).
  { rewrite <- Hlen. by eapply lookup_lt_Some. }
  set (fwd := λ ex : Linear.t F,
         Tensor ([b; s] ++ [MultiModalMoE.output_dim m])
           (λ idx, Linear.apply_row ex x (take 2 idx) (nth 2 idx 0))).
  assert (Hfwd : ∀ ex, ex ∈ MultiModalMoE.experts m →
            Linear.forward ex x = Ok (fwd ex)).
  { intros ex Hin. rewrite Forall_forall in Hexp.
    destruct (Hexp ex Hin) as [Hin_f Hout_f].
    unfold Linear.forward. rewrite Hx. cbn [last].
    rewrite Hin_f, Nat.eqb_refl. cbn [length Nat.sub take].
    rewrite Hout_f. reflexivity. }
  destruct (collect_expert_statistics_ok m (ones [b; s; 1])
              (full [b; s; 1] (Z.of_nat e)) modality
              (default 0 (MultiModalMoE.modality_to_expert m !! modality))
              b s 1 eq_refl eq_refl) as [stats Hstats].
  { by rewrite Hmap, modality_table_lookup. }
  unfold MultiModalMoE.forward.
  rewrite Hx. cbn [unpack3 mbind result_bind].
  rewrite Nat.eqb_refl. cbn [assert mbind result_bind].
  destruct (MultiModalMoE.experts m) as [|e0 es] eqn:Hes.
  { rewrite lookup_nil in He. discriminate. }
  cbn [getitem lookup list_lookup mbind result_bind].
  rewrite Hstats. cbn [mbind result_bind].
  rewrite (mapM_Ok _ fwd) by exact Hfwd. cbn [mbind result_bind].
  unfold stack. cbn [fmap list_fmap].
  assert (Hall : forallb (λ y : tensor F, bool_decide (shape y = shape (fwd e0)))
                   (fwd e0 :: (fwd <$> es)) = true).
  { change (fwd e0 :: (fwd <$> es)) with (fwd <$> (e0 :: es)).
    clear. induction (e0 :: es) as [|a l IH]; [reflexivity|].
    cbn [fmap list_fmap forallb]. rewrite IH.
    rewrite bool_decide_eq_true_2; reflexivity. }
  rewrite Hall. cbn [mbind result_bind].
  rewrite Htop. cbn [seq foldlM].
  unfold MultiModalMoE.combine_slot.
  unfold select at 1. cbn [full shape lookup list_lookup Nat.ltb Nat.leb].
  cbn [mbind result_bind].
  unfold slice. cbn [ones full shape lookup list_lookup mbind result_bind].
  unfold MultiModalMoE.expand_index. cbn [shape delete list_delete].
  cbn [mbind result_bind].
  assert (Hlen' : length (fwd e0 :: (fwd <$> es)) = MultiModalMoE.num_experts m).
  { rewrite <- Hlen. cbn [length]. by rewrite length_fmap. }
  rewrite Hlen'.
  unfold gather. subst fwd. cbn [shape app insert_at take drop last default
    length Nat.eqb negb zip zip_with delete list_delete forallb fst snd].
  rewrite !Nat.leb_refl. cbn [andb negb].
  unfold to_list. rewrite forallb_fmap_const with (v := Z.of_nat e).
  2:{ intros idx. reflexivity. }
  2:{ cbn [nth]. apply andb_true_intro. split; [apply Z.leb_le|apply Z.ltb_lt]; lia. }
  cbn [mbind result_bind].
  unfold squeeze. cbn [shape lookup list_lookup delete list_delete].
  unfold map2. cbn [slice_axis shape ones full list_insert insert].
  cbn [Nat.add Nat.min Nat.sub]. unfold Datatypes.id. rewrite broadcast_last.
  cbn [mbind result_bind].
  unfold imap2. cbn [zeros full shape]. rewrite broadcast_same.
  destruct (decide _) as [_|Hne]; [|by destruct Hne].
  cbn [mbind result_bind].
  eexists _, stats, _. split; [reflexivity|].
  split; [apply Hfwd; by eapply list_elem_of_lookup_2|].
  split; [reflexivity|].
  cbn [shape item]. intros idx Hidx. unfold in_bounds in Hidx.
  destruct idx as [|i [|j [|c [|? ?]]]];
    try (exfalso; apply Forall2_length in Hidx; discriminate).
  rewrite Hadd, Hmul.
  rewrite !(bindex_in_bounds _ [i; j; c]) by exact Hidx.
  cbn [insert_at take drop app list_insert insert nth delete list_delete].
  cbn [full item]. rewrite Nat2Z.id.
  destruct e as [|e'].
  - injection He as ->. reflexivity.
  - change ((e0 :: es) !! S e') with (es !! e') in He.
    erewrite nth_lookup_Some; [|by rewrite list_lookup_fmap, He].
    reflexivity.
Qed.

(** The statistics read the selection ratio of the target expert: a
    target beyond the last expert is an index error. *)
Lemma collect_expert_statistics_raises {F} `{Scalar F} (self : MultiModalMoE.t F)
    (expert_weights : tensor F) (top_k_indices : tensor Z)
    (modality_type : string) (target : nat) (b s k : nat) :
  shape expert_weights = [b; s; k] →
  shape top_k_indices = [b; s; k] →
  MultiModalMoE.num_experts self ≤ target →
  MultiModalMoE.collect_expert_statistics self expert_weights top_k_indices
    modality_type target
  = raise IndexError "index is out of bounds for this dimension".
Proof.
  intros Hw Hi Ht. unfold MultiModalMoE.collect_expert_statistics.
  match goal with
  | |- context [mapM ?f ?l] => destruct (mapM_is_Ok f l) as [avg Havg]
  end.
  { intros e _. destruct (0 <? _); [|by eexists].
    unfold MultiModalMoE.masked_select. cbn [tmap shape].
    rewrite Hw, Hi. cbn [length take].
    destruct (decide _) as [|Hne]; [|by destruct Hne].
    cbn [mbind result_bind]. by eexists. }
  rewrite Havg. cbn [mbind result_bind].
  unfold MultiModalMoE.mean_dims01. rewrite Hw. cbn [mbind result_bind].
  unfold select. cbn [tmap shape lookup list_lookup].
  destruct (Nat.ltb_spec target (MultiModalMoE.num_experts self)); [lia|].
  reflexivity.
Qed.

(** Claim C5 (divergence).  Under the conditions of the claim, a
    combiner with [top_k = 1], weights all 1 and indices uniformly [e],
    the call raises [IndexError] instead of returning the output of
    expert [e] whenever the label's target expert does not exist (two
    experts and the label openx, one expert and the label nuscenes or
    openx): the statistics are collected before the experts run, and
    they read the selection ratio of the target expert.  Expert [e]
    applied directly to [x] returns. *)
Theorem moe_top1_missing_target {F} `{Scalar F} (m : MultiModalMoE.t F)
    (x : tensor F) (b s e : nat) (modality : string) (expert : Linear.t F) :
  MoE_wf m →
  MultiModalMoE.top_k m = 1 →
  shape x = [b; s; MultiModalMoE.unified_dim m] →
  MultiModalMoE.experts m !! e = Some expert →
  MultiModalMoE.num_experts m ≤ spec_expert_of modality →
  MultiModalMoE.forward m x (ones [b; s; 1]) (full [b; s; 1] (Z.of_nat e))
    modality
  = raise IndexError "index is out of bounds for this dimension"
  ∧ ∃ direct, Linear.forward expert x = Ok direct
              ∧ shape direct = [b; s; MultiModalMoE.output_dim m].
Proof.
  intros (Hlen & Hmap & Hexp) Htop Hx He Htarget. split.
  - unfold MultiModalMoE.forward.
    rewrite Hx. cbn [unpack3 mbind result_bind].
    rewrite Nat.eqb_refl. cbn [assert mbind result_bind].
    destruct (MultiModalMoE.experts m) as [|e0 es] eqn:Hes.
    { rewrite lookup_nil in He. discriminate. }
    cbn [getitem lookup list_lookup mbind result_bind].
    rewrite (collect_expert_statistics_raises m (ones [b; s; 1])
               (full [b; s; 1] (Z.of_nat e)) modality _ b s 1
               eq_refl eq_refl).
    + reflexivity.
    + by rewrite Hmap, modality_table_lookup.
  - rewrite Forall_forall in Hexp.
    destruct (Hexp expert) as [Hin_f Hout_f];
      [by eapply list_elem_of_lookup_2|].
    unfold Linear.forward. rewrite Hx. cbn [last].
    rewrite Hin_f, Nat.eqb_refl. cbn [length Nat.sub take].
    rewrite Hout_f. eexists. split; reflexivity.
Qed.

(** Two experts and the label openx. *)
Lemma moe_top1_missing_target_witness :
  MultiModalMoE.forward two_expert_moe two_token_input
    (ones [1; 2; 1]) (full [1; 2; 1] (Z.of_nat 1)) "openx"
  = raise IndexError "index is out of bounds for this dimension"
  ∧ ∃ direct expert,
      MultiModalMoE.experts two_expert_moe !! 1 = Some expert
      ∧ Linear.forward expert two_token_input = Ok direct
      ∧ shape direct = [1; 2; 3].
Proof.
  destruct (moe_top1_missing_target two_expert_moe two_token_input 1 2 1
              "openx" _ (MoE_init_wf _ _ _ _ _ _ _) eq_refl eq_refl eq_refl
              ltac:(vm_compute; lia)) as [Hraise (direct & Hd & Hs)].
  split; [exact Hraise|]. eexists direct, _.
  split; [reflexivity|]. split; [exact Hd|exact Hs].
Defined.

(** ** The statistics and the numeric output *)

(** Two calls that both return give the same numeric output. *)
Lemma moe_output_independent_of_label {F} `{Scalar F} (m : MultiModalMoE.t F)
    (x w : tensor F) (idx : tensor Z) (l1 l2 : string)
    (o1 o2 : tensor F) (s1 s2 : MultiModalMoE.ExpertStats F) :
  MultiModalMoE.forward m x w idx l1 = Ok (o1, s1) →
  MultiModalMoE.forward m x w idx l2 = Ok (o2, s2) →
  o1 = o2.
Proof.
  unfold MultiModalMoE.forward.
  destruct (unpack3 (shape x)) as [[[bs sl] d]|];
    cbn [mbind result_bind]; [|discriminate].
  destruct (assert _ _); cbn [mbind result_bind]; [|discriminate].
  destruct (getitem _ _); cbn [mbind result_bind]; [|discriminate].
  destruct (MultiModalMoE.collect_expert_statistics m w idx l1 _);
    cbn [mbind result_bind]; [|discriminate].
  destruct (MultiModalMoE.collect_expert_statistics m w idx l2 _);
    cbn [mbind result_bind]; [|discriminate].
  destruct (mapM _ _); cbn [mbind result_bind]; [|discriminate].
  destruct (stack _ _); cbn [mbind result_bind]; [|discriminate].
  destruct (foldlM _ _ _); cbn [mbind result_bind]; [|discriminate].
  intros [= <- _] [= <- _]. reflexivity.
Qed.

(** Statistics collection succeeds for one target exactly when it does
    for any other target that names an existing expert. *)
Lemma collect_expert_statistics_target {F} `{Scalar F}
    (m : MultiModalMoE.t F) (w : tensor F) (idx : tensor Z)
    (l1 l2 : string) (t1 t2 : nat) (s1 : MultiModalMoE.ExpertStats F) :
  MultiModalMoE.collect_expert_statistics m w idx l1 t1 = Ok s1 →
  t2 < MultiModalMoE.num_experts m →
  ∃ s2, MultiModalMoE.collect_expert_statistics m w idx l2 t2 = Ok s2.
Proof.
  unfold MultiModalMoE.collect_expert_statistics. intros H1 Ht2.
  destruct (mapM _ _); cbn [mbind result_bind] in *; [|discriminate].
  destruct (MultiModalMoE.mean_dims01 w); cbn [mbind result_bind] in *;
    [|discriminate].
  unfold select. cbn [tmap shape lookup list_lookup].
  destruct (Nat.ltb_spec t2 (MultiModalMoE.num_experts m)); [|lia].
  cbn [mbind result_bind]. by eexists.
Qed.

Lemma spec_expert_of_le_2 (label : string) : spec_expert_of label ≤ 2.
Proof. unfold spec_expert_of. repeat case_decide; lia. Qed.

(** With at least three experts the label never changes the numeric
    output nor whether the call returns. *)
Lemma moe_label_noninterference {F} `{Scalar F} (m : MultiModalMoE.t F)
    (x w : tensor F) (idx : tensor Z) (l1 l2 : string)
    (o1 : tensor F) (s1 : MultiModalMoE.ExpertStats F) :
  MultiModalMoE.modality_to_expert m = MultiModalMoE.modality_table →
  3 ≤ MultiModalMoE.num_experts m →
  MultiModalMoE.forward m x w idx l1 = Ok (o1, s1) →
  ∃ s2, MultiModalMoE.forward m x w idx l2 = Ok (o1, s2).
Proof.
  intros Hmap Hn. unfold MultiModalMoE.forward.
  destruct (unpack3 (shape x)) as [[[bs sl] d]|];
    cbn [mbind result_bind]; [|discriminate].
  destruct (assert _ _); cbn [mbind result_bind]; [|discriminate].
  destruct (getitem _ _); cbn [mbind result_bind]; [|discriminate].
  destruct (MultiModalMoE.collect_expert_statistics m w idx l1 _) eqn:E1;
    cbn [mbind result_bind]; [|discriminate].
  destruct (collect_expert_statistics_target m w idx l1 l2 _
              (default 0 (MultiModalMoE.modality_to_expert m !! l2)) _ E1)
    as [s2 ->].
  { rewrite Hmap, modality_table_lookup.
    pose proof (spec_expert_of_le_2 l2). lia. }
  cbn [mbind result_bind].
  destruct (mapM _ _); cbn [mbind result_bind]; [|discriminate].
  destruct (stack _ _); cbn [mbind result_bind]; [|discriminate].
  destruct (foldlM _ _ _); cbn [mbind result_bind]; [|discriminate].
  intros [= <- _]. by eexists.
Qed.

(** Claim C8 (divergence).  With two experts, the same input, weights and
    indices give a numeric output under the label "sekai" and an
    [IndexError] under the label "openx": the statistics read the usage
    ratio of the label's target expert 2, which does not exist. *)
Theorem moe_label_decides_outcome :
  ((λ r, Qred <$> to_list r.1)
     <$> MultiModalMoE.forward two_expert_moe two_token_input
           (ones [1; 2; 1]) (full [1; 2; 1] 1%Z) "sekai")
    = Ok [33; 36; 39; 75; 82; 89]%Q
  ∧ MultiModalMoE.forward two_expert_moe two_token_input
      (ones [1; 2; 1]) (full [1; 2; 1] 1%Z) "openx"
    = raise IndexError "index is out of bounds for this dimension".
Proof. split; vm_compute; reflexivity. Qed.

(** ** Cross-attention *)

Lemma Linear_forward_3d (l : Linear.t R) (x : tensor R) (b s d : nat) :
  Linear.in_features l = d →
  shape x = [b; s; d] →
  ∃ y, Linear.forward l x = Ok y ∧ shape y = [b; s; Linear.out_features l].
Proof.
  intros Hin Hx. unfold Linear.forward. rewrite Hx. cbn [last].
  rewrite Hin, Nat.eqb_refl. eexists. split; reflexivity.
Qed.

Lemma broadcast_keepdim (b s d : nat) :
  broadcast_shapes [b; s; d] [b; s; 1] = Some [b; s; d].
Proof.
  unfold broadcast_shapes. simpl. rewrite !Nat.eqb_refl.
  destruct d as [|[|d]]; reflexivity.
Qed.

Lemma broadcast_vector (b s d : nat) :
  broadcast_shapes [b; s; d] [d] = Some [b; s; d].
Proof.
  unfold broadcast_shapes. simpl. rewrite !Nat.eqb_refl. reflexivity.
Qed.

Lemma RMSNorm_forward_3d (n : RMSNorm.t) (x : tensor R) (b s d : nat) :
  shape (RMSNorm.weight n) = [d] →
  shape x = [b; s; d] →
  ∃ y, RMSNorm.forward n x = Ok y ∧ shape y = [b; s; d].
Proof.
  intros Hw Hx. unfold RMSNorm.forward, RMSNorm.norm, map2.
  cbn [mean_last_keepdim tmap shape]. rewrite Hx.
  cbn [length Nat.sub take app]. rewrite broadcast_keepdim.
  cbn [mbind result_bind shape]. rewrite Hw, broadcast_vector.
  eexists. split; reflexivity.
Qed.

Lemma flash_attention_3d (q k v : tensor R) (n b l s d : nat) :
  0 < n → d mod n = 0 →
  shape q = [b; l; d] → shape k = [b; s; d] → shape v = [b; s; d] →
  ∃ y, flash_attention q k v n = Ok y ∧ shape y = [b; l; d].
Proof.
  intros Hn Hd Hq Hk Hv.
  unfold flash_attention, rearrange_to_heads. rewrite Hq, Hk, Hv.
  destruct (Nat.ltb_spec 0 n); [|lia]. rewrite Hd.
  cbn [andb Nat.eqb mbind result_bind].
  unfold scaled_dot_product_attention. cbn [shape].
  rewrite broadcast_pair. cbn [mbind option_bind]. rewrite broadcast_pair.
  rewrite !Nat.eqb_refl. cbn [andb mbind result_bind].
  unfold rearrange_from_heads. cbn [shape]. rewrite Nat.eqb_refl.
  eexists. split; [reflexivity|]. cbn [shape]. do 2 f_equal.
  pose proof (Nat.div_mod_eq d n). f_equal. lia.
Qed.

Lemma slice_tokens (y : tensor R) (b s d lo hi : nat) :
  shape y = [b; s; d] →
  ∃ z, slice 1 lo hi y = Ok z
       ∧ shape z = [b; hi `min` s - lo `min` s; d]
       ∧ ∀ i j c, item z [i; j; c] = item y [i; j + lo `min` s; c].
Proof.
  intros Hy. unfold slice. rewrite Hy. cbn [lookup list_lookup].
  eexists. split; [reflexivity|]. unfold slice_axis. rewrite Hy.
  split; reflexivity.
Qed.

Lemma slice_from_tokens (y : tensor R) (b s d lo : nat) :
  shape y = [b; s; d] →
  ∃ z, slice_from 1 lo y = Ok z
       ∧ shape z = [b; s - lo `min` s; d]
       ∧ ∀ i j c, item z [i; j; c] = item y [i; j + lo `min` s; c].
Proof.
  intros Hy. unfold slice_from. rewrite Hy. cbn [lookup list_lookup].
  eexists. split; [reflexivity|]. unfold slice_axis. rewrite Hy.
  cbn [shape item list_insert insert alter list_alter].
  rewrite Nat.min_id. split; reflexivity.
Qed.

Lemma add_same_shape (x y : tensor R) (sh : list nat) :
  shape x = sh → shape y = sh →
  ∃ z, map2 Rplus x y = Ok z ∧ shape z = sh
       ∧ ∀ idx, in_bounds sh idx → item z idx = (item x idx + item y idx)%R.
Proof.
  intros Hx Hy. unfold map2. rewrite Hx, Hy.
  assert (Hb : broadcast_shapes sh sh = Some sh).
  { unfold broadcast_shapes.
    assert (Hr : ∀ l, broadcast_rev l l = Some l).
    { induction l as [|a l IH]; [reflexivity|].
      cbn [broadcast_rev]. rewrite IH. cbn [mbind option_bind].
      by rewrite Nat.eqb_refl. }
    rewrite Hr. cbn [fmap option_fmap option_map]. by rewrite reverse_involutive. }
  rewrite Hb. eexists. split; [reflexivity|]. split; [reflexivity|].
  intros idx Hidx. cbn [item]. by rewrite bindex_in_bounds.
Qed.

(** Claim C9 (amended).  With image conditioning enabled,
    [CrossAttention.forward] takes the first 257 context tokens (all of
    them when there are fewer) as image context and the tokens from 257
    on (none when there are fewer) as text context, applies the image
    K/V projections and the image RMSNorm to the image context, adds the
    image-branch attention output to the text-branch one and applies the
    output projection; it returns for a context of any length. *)
Theorem cross_attention_image_split (self : CrossAttention.t)
    (x y : tensor R) (b l s : nat) :
  CrossAttention_wf self →
  CrossAttention.has_image_input self = true →
  shape x = [b; l; CrossAttention.dim self] →
  shape y = [b; s; CrossAttention.dim self] →
  ∃ br img ctx xq q ck k v xt ik k_img v_img xi sum out,
    CrossAttention.image self = Some br
    (* the split *)
    ∧ slice 1 0 257 y = Ok img
    ∧ slice_from 1 257 y = Ok ctx
    ∧ shape img = [b; 257 `min` s; CrossAttention.dim self]
    ∧ shape ctx = [b; s - 257; CrossAttention.dim self]
    ∧ (∀ i j c, item img [i; j; c] = item y [i; j; c])
    ∧ (∀ i j c, item ctx [i; j; c] = item y [i; j + 257 `min` s; c])
    (* the text branch *)
    ∧ Linear.forward (CrossAttention.q self) x = Ok xq
    ∧ RMSNorm.forward (CrossAttention.norm_q self) xq = Ok q
    ∧ Linear.forward (CrossAttention.k self) ctx = Ok ck
    ∧ RMSNorm.forward (CrossAttention.norm_k self) ck = Ok k
    ∧ Linear.forward (CrossAttention.v self) ctx = Ok v
    ∧ AttentionModule.forward (CrossAttention.attn self) q k v = Ok xt
    (* the image branch, with its own projections and norm *)
    ∧ Linear.forward (CrossAttention.k_img br) img = Ok ik
    ∧ RMSNorm.forward (CrossAttention.norm_k_img br) ik = Ok k_img
    ∧ Linear.forward (CrossAttention.v_img br) img = Ok v_img
    ∧ flash_attention q k_img v_img (CrossAttention.num_heads self) = Ok xi
    (* added before the output projection *)
    ∧ map2 Rplus xt xi = Ok sum
    ∧ (∀ idx, in_bounds [b; l; CrossAttention.dim self] idx →
              item sum idx = (item xt idx + item xi idx)%R)
    ∧ Linear.forward (CrossAttention.o self) sum = Ok out
    ∧ CrossAttention.forward self x y = Ok out
    ∧ shape out = [b; l; CrossAttention.dim self].
Proof.
  intros (Hn & Hmod & Hattn & [Hqi Hqo] & [Hki Hko] & [Hvi Hvo] & [Hoi Hoo]
          & Hnq & Hnk & Himg) Hflag Hx Hy.
  destruct (Himg Hflag) as (br & Hbr & [Hkii Hkio] & [Hvii Hvio] & Hnki).
  set (d := CrossAttention.dim self) in *.
  destruct (slice_tokens y b s d 0 257 Hy) as (img & Himg1 & Himg2 & Himg3).
  destruct (slice_from_tokens y b s d 257 Hy) as (ctx & Hctx1 & Hctx2 & Hctx3).
  rewrite Nat.min_0_l, Nat.sub_0_r in Himg2.
  replace (s - 257 `min` s) with (s - 257) in Hctx2 by lia.
  destruct (Linear_forward_3d _ x b l d Hqi Hx) as (xq & Hxq & Hxqs).
  rewrite Hqo in Hxqs.
  destruct (RMSNorm_forward_3d _ xq b l d Hnq Hxqs) as (q & Hq & Hqs).
  destruct (Linear_forward_3d _ ctx b (s - 257) d Hki Hctx2) as (ck & Hck & Hcks).
  rewrite Hko in Hcks.
  destruct (RMSNorm_forward_3d _ ck b _ d Hnk Hcks) as (k & Hk & Hks).
  destruct (Linear_forward_3d _ ctx b (s - 257) d Hvi Hctx2) as (v & Hv & Hvs).
  rewrite Hvo in Hvs.
  destruct (flash_attention_3d q k v _ b l _ d Hn Hmod Hqs Hks Hvs)
    as (xt & Hxt & Hxts).
  destruct (Linear_forward_3d _ img b _ d Hkii Himg2) as (ik & Hik & Hiks).
  rewrite Hkio in Hiks.
  destruct (RMSNorm_forward_3d _ ik b _ d Hnki Hiks) as (k_img & Hkimg & Hkimgs).
  destruct (Linear_forward_3d _ img b _ d Hvii Himg2) as (v_img & Hvimg & Hvimgs).
  rewrite Hvio in Hvimgs.
  destruct (flash_attention_3d q k_img v_img _ b l _ d Hn Hmod Hqs Hkimgs Hvimgs)
    as (xi & Hxi & Hxis).
  destruct (add_same_shape xt xi _ Hxts Hxis) as (sum & Hsum & Hsums & Hsumi).
  destruct (Linear_forward_3d _ sum b l d Hoi Hsums) as (out & Hout & Houts).
  rewrite Hoo in Houts.
  assert (Hxt' : AttentionModule.forward (CrossAttention.attn self) q k v = Ok xt).
  { unfold AttentionModule.forward. by rewrite Hattn. }
  exists br, img, ctx, xq, q, ck, k, v, xt, ik, k_img, v_img, xi, sum, out.
  repeat (split; [first [assumption
                        | intros; rewrite ?Himg3, ?Nat.add_0_r; reflexivity]|]).
  split; [|exact Houts].
  unfold CrossAttention.forward, CrossAttention.get_image.
  rewrite Hflag, Himg1, Hctx1. cbn [mbind result_bind].
  rewrite Hxq. cbn [mbind result_bind]. rewrite Hq. cbn [mbind result_bind].
  rewrite Hck. cbn [mbind result_bind]. rewrite Hk. cbn [mbind result_bind].
  rewrite Hv. cbn [mbind result_bind].
  rewrite Hxt'. cbn [mbind result_bind].
  rewrite Hbr. cbn [mbind result_bind].
  rewrite Hik. cbn [mbind result_bind]. rewrite Hkimg. cbn [mbind result_bind].
  rewrite Hvimg. cbn [mbind result_bind]. rewrite Hxi. cbn [mbind result_bind].
  rewrite Hsum. cbn [mbind result_bind]. exact Hout.
Qed.

(** ** Shapes built by the token assembler *)

Lemma mapM_Forall2 {A B} (f : A → result B) (l : list A) (bs : list B) :
  mapM f l = Ok bs → Forall2 (λ a b, f a = Ok b) l bs.
Proof.
  revert bs. induction l as [|a l IH]; intros bs; cbn [mapM].
  - intros [= <-]. constructor.
  - destruct (f a) eqn:Ea; cbn [mbind result_bind]; [|discriminate].
    destruct (mapM f l); cbn [mbind result_bind]; [|discriminate].
    intros [= <-]. constructor; [exact Ea | by apply IH].
Qed.

Lemma length_indices (sh : list nat) : length (indices sh) = numel sh.
Proof.
  induction sh as [|n sh IH]; [reflexivity|].
  cbn [indices numel foldr]. fold (numel sh). rewrite <- IH.
  generalize (indices sh). intros l. generalize 0.
  induction n as [|n IHn]; intros k; [reflexivity|].
  cbn [seq mbind list_bind]. rewrite length_app, length_fmap, IHn. lia.
Qed.

Lemma length_to_list {A} (x : tensor A) : length (to_list x) = numel (shape x).
Proof. unfold to_list. by rewrite length_fmap, length_indices. Qed.

Lemma rearrange_to_tokens_shape {A} (x y : tensor A) :
  rearrange_to_tokens x = Ok y →
  ∃ b c f h w, shape x = [b; c; f; h; w] ∧ shape y = [b; f * h * w; c].
Proof.
  unfold rearrange_to_tokens.
  destruct (shape x) as [|b [|c [|f [|h [|w [|? ?]]]]]]; try discriminate.
  intros [= <-]. by exists b, c, f, h, w.
Qed.

Lemma Conv3d_forward_shape (conv : Conv3d.t) (x y : tensor R) :
  Conv3d.forward conv x = Ok y →
  ∃ b t h w,
    shape x = [b; Conv3d.in_channels conv; t; h; w]
    ∧ shape y = [b; Conv3d.out_channels conv;
                 Conv3d.out_size t (Conv3d.kernel_size conv).1.1;
                 Conv3d.out_size h (Conv3d.kernel_size conv).1.2;
                 Conv3d.out_size w (Conv3d.kernel_size conv).2].
Proof.
  unfold Conv3d.forward. destruct (Conv3d.kernel_size conv) as [[kt kh] kw].
  destruct (shape x) as [|b [|c [|t [|h [|w [|? ?]]]]]]; try discriminate.
  destruct (Nat.eqb_spec c (Conv3d.in_channels conv)) as [->|];
    cbn [negb]; [|discriminate].
  destruct (_ || _); [discriminate|]. destruct (_ || _); [discriminate|].
  intros [= <-]. by exists b, t, h, w.
Qed.

Lemma patchify_shape (self : WanModelMoe.t) (x hs : tensor R) (grid : list nat) :
  WanModelMoe.patchify self x = Ok (hs, grid) →
  ∃ b f h w,
    grid = [f; h; w]
    ∧ shape hs = [b; f * h * w;
                  Conv3d.out_channels (WanModelMoe.patch_embedding self)].
Proof.
  unfold WanModelMoe.patchify.
  destruct (Conv3d.forward _ x) as [y|] eqn:Ey; cbn [mbind result_bind];
    [|discriminate].
  destruct (Conv3d_forward_shape _ _ _ Ey) as (b & t & h & w & _ & Hy).
  destruct (rearrange_to_tokens y) as [z|] eqn:Ez; cbn [mbind result_bind];
    [|discriminate].
  destruct (rearrange_to_tokens_shape _ _ Ez) as (b' & c' & f' & h' & w' & Hy' & Hz).
  intros [= <- <-]. rewrite Hy in Hy'. injection Hy' as <- <- <- <- <-.
  rewrite Hy. cbn [drop]. eexists b, _, _, _. split; [reflexivity|exact Hz].
Qed.

Lemma reshape_infer_last_shape {A} (pre : list nat) (x y : tensor A) :
  reshape_infer_last pre x = Ok y → ∃ F, shape y = pre ++ [F].
Proof.
  unfold reshape_infer_last, reshape.
  destruct (numel pre =? 0); [destruct (_ =? 0); discriminate|].
  destruct (_ mod _ =? 0); [|discriminate].
  destruct (_ =? _); [|discriminate]. intros [= <-]. by eexists.
Qed.

Lemma spatial_freqs_shape (self : WanModelMoe.t) (t_idx : Z) (h w : nat)
    (y : tensor C) :
  WanModelMoe.spatial_freqs self t_idx h w = Ok y → ∃ F, shape y = [h * w; F].
Proof.
  unfold WanModelMoe.spatial_freqs.
  destruct (WanModelMoe.freqs self) as [[f0 f1] f2].
  repeat match goal with
         | |- mbind _ ?r = Ok _ → _ =>
             destruct r; cbn [mbind result_bind]; [|discriminate]
         end.
  apply reshape_infer_last_shape.
Qed.

Lemma cat2_shape {A} (d : nat) (x y z : tensor A) :
  cat2 d x y = Ok z →
  z = cat_axis d x y
  ∧ d < length (shape x)
  ∧ delete d (shape x) = delete d (shape y).
Proof.
  unfold cat2.
  destruct (Nat.ltb_spec d (length (shape x))); cbn [andb]; [|discriminate].
  destruct (d <? length (shape y)); [|discriminate].
  destruct (decide _); [|discriminate]. intros [= <-]. done.
Qed.

Lemma cat2_rows {A} (x y z : tensor A) (a m F : nat) :
  cat2 0 x y = Ok z → shape x = [a; F] → (∃ F', shape y = [m; F']) →
  shape z = [a + m; F].
Proof.
  intros Hz Hx [F' Hy]. apply cat2_shape in Hz as (-> & _ & Hd).
  unfold cat_axis. cbn [shape]. rewrite Hx, Hy. reflexivity.
Qed.

Lemma cat_rows_shape {A} (rest : list (tensor A)) (acc z : tensor A)
    (a m F : nat) :
  foldlM (cat2 0) rest acc = Ok z →
  shape acc = [a; F] →
  Forall (λ r, ∃ F', shape r = [m; F']) rest →
  shape z = [a + length rest * m; F].
Proof.
  revert acc a. induction rest as [|r rest IH]; intros acc a; cbn [foldlM].
  - intros [= <-] Hacc _. rewrite Hacc. cbn [length]. f_equal. lia.
  - destruct (cat2 0 acc r) as [acc'|] eqn:Ec; cbn [mbind result_bind];
      [|discriminate].
    intros Hz Hacc Hall. apply Forall_cons_1 in Hall as [Hr Hall].
    pose proof (cat2_rows _ _ _ a m F Ec Hacc Hr) as Hacc'.
    rewrite (IH _ _ Hz Hacc' Hall). cbn [length]. f_equal. lia.
Qed.

Lemma cat_frames_shape {A} (rows : list (tensor A)) (z : tensor A) (m : nat) :
  cat 0 rows = Ok z →
  Forall (λ r, ∃ F, shape r = [m; F]) rows →
  ∃ F, shape z = [length rows * m; F].
Proof.
  unfold cat. destruct rows as [|r rest]; [discriminate|].
  intros Hz Hall. apply Forall_cons_1 in Hall as [[F Hr] Hall].
  exists F. rewrite (cat_rows_shape _ _ _ m m F Hz Hr Hall).
  cbn [length]. f_equal; lia.
Qed.

Lemma stack0_shape {A} (xs : list (tensor A)) (z : tensor A) :
  stack 0 xs = Ok z →
  ∃ x rest, xs = x :: rest ∧ shape z = length xs :: shape x.
Proof.
  unfold stack. destruct xs as [|x rest]; [discriminate|].
  destruct (forallb _ _); [|discriminate]. intros [= <-].
  by exists x, rest.
Qed.

(** The frequencies of a scale: [B] batches, one [h] by [w] grid per
    frame index. *)
Lemma rope_for_shape (self : WanModelMoe.t) (B : nat)
    (frames : nat → result (list Z)) (h w : nat) (r : tensor C) :
  WanModelMoe.rope_for self B frames h w = Ok r →
  ∃ ts F, frames 0 = Ok ts ∧ 0 < B ∧ shape r = [B; length ts * (h * w); F].
Proof.
  unfold WanModelMoe.rope_for.
  destruct (mapM _ (seq 0 B)) as [pbs|] eqn:Epb; cbn [mbind result_bind];
    [|discriminate].
  intros Hst. apply stack0_shape in Hst as (p0 & rest & -> & Hr).
  pose proof (mapM_length _ _ _ Epb) as Hlen. rewrite length_seq in Hlen.
  destruct B as [|B']; [discriminate|].
  apply mapM_Forall2 in Epb. cbn [seq] in Epb.
  apply Forall2_cons_1 in Epb as [Hp0 _].
  destruct (frames 0) as [ts|]; cbn [mbind result_bind] in Hp0; [|discriminate].
  destruct (mapM _ ts) as [rows|] eqn:Erows; cbn [mbind result_bind] in Hp0;
    [|discriminate].
  assert (Hrows : Forall (λ r, ∃ F, shape r = [h * w; F]) rows).
  { apply mapM_Forall2 in Erows.
    clear -Erows. induction Erows as [|t row ts rows Hrow _ IH]; constructor.
    - by eapply spatial_freqs_shape.
    - exact IH. }
  destruct (cat_frames_shape _ _ _ Hp0 Hrows) as [F Hp0s].
  exists ts, F. split; [reflexivity|]. split; [lia|].
  rewrite Hr, Hp0s, Hlen.
  by rewrite (mapM_length _ _ _ Erows).
Qed.

(** ** The structure of the assembled sequence *)

Lemma prepend_clean_1x_spec (self : WanModelMoe.t) (B h w : nat) (start : Z)
    (cam : option (tensor R)) (cl : option (tensor R)) (idx : option (tensor Z))
    (hs hs' : tensor R) (rope rope' : tensor C) (comb comb' : option (tensor R)) :
  WanModelMoe.prepend_clean_1x self B h w start cam cl idx (hs, rope, comb)
    = Ok (hs', rope', comb') →
  ∃ s, segment_1x self B h w cl idx = Ok s
       ∧ fits s hs rope
       ∧ hs' = prepend_tokens s hs
       ∧ rope' = prepend_freqs s rope.
Proof.
  unfold WanModelMoe.prepend_clean_1x, segment_1x.
  destruct cl as [c|], idx as [i|];
    try (intros [= <- <- <-]; by exists None).
  destruct (WanModelMoe.clean_segment_1x self B h w c i) as [[t r]|];
    cbn [mbind result_bind]; [|discriminate].
  match goal with
  | |- mbind _ ?r = _ → _ => destruct r; cbn [mbind result_bind]; [|discriminate]
  end.
  destruct (cat2 1 t hs) as [hs2|] eqn:Eh; cbn [mbind result_bind]; [|discriminate].
  destruct (cat2 1 r rope) as [rope2|] eqn:Er; cbn [mbind result_bind];
    [|discriminate].
  intros [= <- <- <-].
  apply cat2_shape in Eh as (-> & _ & Hh). apply cat2_shape in Er as (-> & _ & Hr).
  exists (Some (t, r)). done.
Qed.

Lemma prepend_clean_down_spec (self : WanModelMoe.t) (scale : string)
    (kernel : nat * nat * nat) (B : nat) (start : Z)
    (cam : option (tensor R)) (cl : option (tensor R)) (idx : option (tensor Z))
    (hs hs' : tensor R) (rope rope' : tensor C) (comb comb' : option (tensor R)) :
  WanModelMoe.prepend_clean_down self scale kernel B start cam cl idx
    (hs, rope, comb) = Ok (hs', rope', comb') →
  ∃ s, segment_down self scale kernel B cl idx = Ok s
       ∧ fits s hs rope
       ∧ hs' = prepend_tokens s hs
       ∧ rope' = prepend_freqs s rope.
Proof.
  unfold WanModelMoe.prepend_clean_down, segment_down, WanModelMoe.scale_enabled.
  destruct cl as [c|], idx as [i|];
    try (intros [= <- <- <-]; by exists None).
  destruct (_ && _); [|intros [= <- <- <-]; by exists None].
  destruct (WanModelMoe.clean_segment_down self scale kernel B c _)
    as [[[t r] [[cf ch] cw]]|]; cbn [mbind result_bind]; [|discriminate].
  match goal with
  | |- mbind _ ?r = _ → _ => destruct r; cbn [mbind result_bind]; [|discriminate]
  end.
  destruct (cat2 1 t hs) as [hs2|] eqn:Eh; cbn [mbind result_bind]; [|discriminate].
  destruct (cat2 1 r rope) as [rope2|] eqn:Er; cbn [mbind result_bind];
    [|discriminate].
  intros [= <- <- <-].
  apply cat2_shape in Eh as (-> & _ & Hh). apply cat2_shape in Er as (-> & _ & Hr).
  exists (Some (t, r)). done.
Qed.

(** A 2x or 4x scale computes its frequencies from the grid of its own
    embedded latent, so it contributes as many frequencies as tokens. *)
Lemma segment_down_aligned (self : WanModelMoe.t) (scale : string)
    (kernel : nat * nat * nat) (B : nat)
    (cl : option (tensor R)) (idx : option (tensor Z)) (s : segment) :
  segment_down self scale kernel B cl idx = Ok s →
  seg_tokens s = seg_freqs s.
Proof.
  unfold segment_down.
  destruct cl as [c|], idx as [i|]; try (intros [= <-]; reflexivity).
  destruct (WanModelMoe.scale_enabled _ _); [|intros [= <-]; reflexivity].
  unfold WanModelMoe.clean_segment_down.
  destruct (WanModelMoe.pad_for_3d_conv c kernel) as [padded|];
    cbn [mbind result_bind]; [|discriminate].
  destruct (WanModelMoe.get_clean_x_embedder self) as [emb|];
    cbn [mbind result_bind]; [|discriminate].
  destruct (CleanXEmbedder.forward emb padded scale) as [chs|];
    cbn [mbind result_bind]; [|discriminate].
  destruct (shape chs) as [|b [|c0 [|cf [|ch [|cw [|? ?]]]]]] eqn:Hchs;
    cbn [unpack5 mbind result_bind]; try discriminate.
  destruct (rearrange_to_tokens chs) as [tok|] eqn:Etok;
    cbn [mbind result_bind]; [|discriminate].
  destruct (WanModelMoe.rope_for self B _ ch cw) as [rf|] eqn:Erf;
    cbn [mbind result_bind]; [|discriminate].
  intros [= <-]. cbn [seg_tokens seg_freqs fst snd].
  destruct (rearrange_to_tokens_shape _ _ Etok) as (b' & c' & f' & h' & w' & Hx & ->).
  rewrite Hchs in Hx. injection Hx as <- <- <- <- <-.
  destruct (rope_for_shape _ _ _ _ _ _ Erf) as (ts & F & Hts & _ & ->).
  injection Hts as <-. rewrite length_fmap, length_seq.
  unfold ix. cbn [nth]. lia.
Qed.

(** The 1x scale counts one [h] by [w] grid per supplied frame index. *)
Lemma segment_1x_lengths (self : WanModelMoe.t) (B h w : nat)
    (c : tensor R) (i : tensor Z) (t : tensor R) (r : tensor C) :
  segment_1x self B h w (Some c) (Some i) = Ok (Some (t, r)) →
  ∃ emb b tt hh ww ts,
    WanModelMoe.clean_x_embedder self = Some emb
    ∧ shape c = [b; Conv3d.in_channels (CleanXEmbedder.proj emb); tt; hh; ww]
    ∧ WanModelMoe.iter_row i 0 = Ok ts
    ∧ ix (shape t) 1
      = Conv3d.out_size tt (Conv3d.kernel_size (CleanXEmbedder.proj emb)).1.1
        * Conv3d.out_size hh (Conv3d.kernel_size (CleanXEmbedder.proj emb)).1.2
        * Conv3d.out_size ww (Conv3d.kernel_size (CleanXEmbedder.proj emb)).2
    ∧ ix (shape r) 1 = length ts * (h * w).
Proof.
  unfold segment_1x, WanModelMoe.clean_segment_1x,
    WanModelMoe.get_clean_x_embedder.
  destruct (WanModelMoe.clean_x_embedder self) as [emb|];
    cbn [mbind result_bind]; [|discriminate].
  unfold CleanXEmbedder.forward. destruct (decide _) as [_|Hne]; [|by destruct Hne].
  destruct (Conv3d.forward _ c) as [chs|] eqn:Echs; cbn [mbind result_bind];
    [|discriminate].
  destruct (rearrange_to_tokens chs) as [tok|] eqn:Etok;
    cbn [mbind result_bind]; [|discriminate].
  destruct (WanModelMoe.rope_for self B _ h w) as [rf|] eqn:Erf;
    cbn [mbind result_bind]; [|discriminate].
  intros [= <- <-].
  destruct (Conv3d_forward_shape _ _ _ Echs) as (b & tt & hh & ww & Hc & Hchs).
  destruct (rearrange_to_tokens_shape _ _ Etok) as (b' & c' & f' & h' & w' & Hx & ->).
  rewrite Hchs in Hx. injection Hx as <- <- <- <- <-.
  destruct (rope_for_shape _ _ _ _ _ _ Erf) as (ts & F & Hts & _ & ->).
  exists emb, b, tt, hh, ww, ts. done.
Qed.

(** Number of primary tokens and of primary frequencies. *)
Lemma assembly_structure (self : WanModelMoe.t)
    (latents : tensor R) (latent_indices : option (tensor Z))
    (cl1 : option (tensor R)) (i1 : option (tensor Z))
    (cl2 : option (tensor R)) (i2 : option (tensor Z))
    (cl4 : option (tensor R)) (i4 : option (tensor Z))
    (cam : option (tensor R)) (mi : option (list (string * tensor R)))
    (hs : tensor R) (rope : tensor C) (grid : list nat)
    (comb : option (tensor R)) (pm : option modality_dict) :
  WanModelMoe.process_input_hidden_states self latents latent_indices
    cl1 i1 cl2 i2 cl4 i4 cam mi = Ok (hs, rope, grid, comb, pm) →
  ∃ B f h w tp rp ts F s1 s2 s4,
    WanModelMoe.patchify self latents = Ok (tp, grid)
    ∧ grid = [f; h; w]
    ∧ shape tp = [B; f * h * w;
                  Conv3d.out_channels (WanModelMoe.patch_embedding self)]
    ∧ WanModelMoe.rope_for self B
        (WanModelMoe.iter_row (WanModelMoe.default_indices B f latent_indices))
        h w = Ok rp
    ∧ WanModelMoe.iter_row (WanModelMoe.default_indices B f latent_indices) 0
      = Ok ts
    ∧ shape rp = [B; length ts * (h * w); F]
    ∧ segment_1x self B h w cl1 i1 = Ok s1
    ∧ segment_down self "2x" (2, 4, 4) B cl2 i2 = Ok s2
    ∧ segment_down self "4x" (4, 8, 8) B cl4 i4 = Ok s4
    ∧ fits s1 tp rp
    ∧ fits s2 (prepend_tokens s1 tp) (prepend_freqs s1 rp)
    ∧ fits s4 (prepend_tokens s2 (prepend_tokens s1 tp))
              (prepend_freqs s2 (prepend_freqs s1 rp))
    ∧ hs = prepend_tokens s4 (prepend_tokens s2 (prepend_tokens s1 tp))
    ∧ rope = unsqueeze 2
               (prepend_freqs s4 (prepend_freqs s2 (prepend_freqs s1 rp))).
Proof.
  unfold WanModelMoe.process_input_hidden_states.
  destruct (WanModelMoe.patchify self latents) as [[tp g]|] eqn:Ep;
    cbn [mbind result_bind]; [|discriminate].
  destruct (patchify_shape _ _ _ _ Ep) as (B & f & h & w & -> & Htp).
  rewrite Htp. cbn [unpack3 mbind result_bind].
  destruct (WanModelMoe.rope_for self B _ h w) as [rp|] eqn:Erp;
    cbn [mbind result_bind]; [|discriminate].
  destruct (rope_for_shape _ _ _ _ _ _ Erp) as (ts & F & Hts & _ & Hrp).
  match goal with
  | |- mbind _ ?r = _ → _ =>
      destruct r as [start|]; cbn [mbind result_bind]; [|discriminate]
  end.
  match goal with
  | |- mbind _ ?r = _ → _ =>
      destruct r as [comb0|]; cbn [mbind result_bind]; [|discriminate]
  end.
  destruct (WanModelMoe.prepend_clean_1x _ _ _ _ _ _ _ _ _)
    as [[[hs1 rope1] comb1]|] eqn:E1; cbn [mbind result_bind]; [|discriminate].
  destruct (WanModelMoe.prepend_clean_down _ "2x" _ _ _ _ _ _ _)
    as [[[hs2 rope2] comb2]|] eqn:E2; cbn [mbind result_bind]; [|discriminate].
  destruct (WanModelMoe.prepend_clean_down _ "4x" _ _ _ _ _ _ _)
    as [[[hs4 rope4] comb4]|] eqn:E4; cbn [mbind result_bind]; [|discriminate].
  intros [= <- <- <- <- <-].
  apply prepend_clean_1x_spec in E1 as (s1 & Hs1 & Hf1 & -> & ->).
  apply prepend_clean_down_spec in E2 as (s2 & Hs2 & Hf2 & -> & ->).
  apply prepend_clean_down_spec in E4 as (s4 & Hs4 & Hf4 & -> & ->).
  exists B, f, h, w, tp, rp, ts, F, s1, s2, s4. done.
Qed.

Lemma delete1_3d (sh : list nat) (B C' : nat) :
  delete 1 sh = [B; C'] → ∃ k, sh = [B; k; C'].
Proof.
  destruct sh as [|a [|k [|c [|? ?]]]]; cbn [delete list_delete];
    try discriminate.
  intros [= -> ->]. by exists k.
Qed.

Lemma prepend_shapes (s : segment) (hs : tensor R) (rope : tensor C)
    (B n m C' F : nat) :
  fits s hs rope →
  shape hs = [B; n; C'] →
  shape rope = [B; m; F] →
  shape (prepend_tokens s hs) = [B; seg_tokens s + n; C']
  ∧ shape (prepend_freqs s rope) = [B; seg_freqs s + m; F].
Proof.
  destruct s as [[t r]|];
    cbn [fits prepend_tokens prepend_freqs seg_tokens seg_freqs]; [|done].
  intros [Ht Hr] Hhs Hrope. rewrite Hhs in Ht. rewrite Hrope in Hr.
  cbn [delete list_delete] in Ht, Hr.
  apply delete1_3d in Ht as [k Ht]. apply delete1_3d in Hr as [k' Hr].
  unfold cat_axis. cbn [shape]. rewrite Ht, Hr, Hhs, Hrope. done.
Qed.

Lemma prepend_tokens_item (s : segment) (d hs : tensor R) (b i c : nat) :
  item (prepend_tokens s hs) [b; i; c]
  = if i <? seg_tokens s then item (default d (fst <$> s)) [b; i; c]
    else item hs [b; i - seg_tokens s; c].
Proof.
  destruct s as [[t r]|]; cbn [prepend_tokens seg_tokens fmap option_fmap
    option_map default fst].
  - reflexivity.
  - by rewrite Nat.sub_0_r.
Qed.

Lemma prepend_freqs_item (s : segment) (d rope : tensor C) (b i q : nat) :
  item (prepend_freqs s rope) [b; i; q]
  = if i <? seg_freqs s then item (default d (snd <$> s)) [b; i; q]
    else item rope [b; i - seg_freqs s; q].
Proof.
  destruct s as [[t r]|]; cbn [prepend_freqs seg_freqs fmap option_fmap
    option_map default snd].
  - reflexivity.
  - by rewrite Nat.sub_0_r.
Qed.

(** ** The entries of the frequency tensor of a scale *)

Lemma unravel_row (h F y q : nat) :
  q < F → unravel [h; F] (y * F + q) = [y; q].
Proof.
  intros Hq. cbn [unravel numel foldr]. rewrite !Nat.mul_1_r, !Nat.div_1_r.
  rewrite (Nat.add_comm (y * F)), Nat.div_add by lia.
  rewrite Nat.Div0.mod_add. rewrite (Nat.div_small q F), (Nat.mod_small q F) by lia.
  reflexivity.
Qed.

Lemma unravel_grid (h w F pos q : nat) :
  q < F → pos < h * w →
  unravel [1; h; w; F] (pos * F + q) = [0; pos / w; pos mod w; q].
Proof.
  intros Hq Hpos. cbn [unravel numel foldr]. rewrite !Nat.mul_1_r, !Nat.div_1_r.
  assert (Hlt : pos * F + q < h * (w * F)) by nia.
  rewrite (Nat.div_small _ (h * (w * F))), (Nat.mod_small _ (h * (w * F))) by lia.
  assert (Hw : 0 < w) by nia.
  assert (Hdiv : (pos * F + q) / (w * F) = pos / w).
  { rewrite (Nat.mul_comm w F), <- Nat.Div0.div_div.
    rewrite (Nat.add_comm (pos * F)), Nat.div_add by lia.
    by rewrite (Nat.div_small q F), Nat.add_0_l by lia. }
  assert (Hmod : (pos * F + q) mod (w * F) = (pos mod w) * F + q).
  { pose proof (Nat.div_mod_eq (pos * F + q) (w * F)) as H1.
    pose proof (Nat.div_mod_eq pos w) as H2. rewrite Hdiv in H1.
    assert (H3 : pos * F = w * F * (pos / w) + pos mod w * F).
    { rewrite H2 at 1. ring. }
    lia. }
  rewrite Hdiv, Hmod.
  rewrite (Nat.add_comm (pos mod w * F)), Nat.div_add by lia.
  rewrite Nat.Div0.mod_add, (Nat.div_small q F), (Nat.mod_small q F) by lia.
  reflexivity.
Qed.

Lemma reshape_infer_last_inv {A} (pre : list nat) (x y : tensor A) :
  reshape_infer_last pre x = Ok y →
  numel pre ≠ 0
  ∧ y = Tensor (pre ++ [numel (shape x) / numel pre])
          (λ idx, item x (unravel (shape x)
                            (ravel (pre ++ [numel (shape x) / numel pre]) idx))).
Proof.
  unfold reshape_infer_last, reshape.
  destruct (Nat.eqb_spec (numel pre) 0);
    [destruct (_ =? 0); discriminate|].
  destruct (_ mod _ =? 0); [|discriminate].
  destruct (_ =? _); [|discriminate]. intros [= <-]. done.
Qed.

Lemma expand_to_inv {A} (sh : list nat) (x y : tensor A) :
  expand_to sh x = Ok y →
  y = Tensor sh (λ idx, item x (bindex (shape x) idx)).
Proof.
  unfold expand_to. destruct (decide _); [|discriminate]. by intros [= <-].
Qed.

Lemma bindex_small (n i : nat) : i < n → (if n =? 1 then 0 else i) = i.
Proof. intros Hi. destruct (Nat.eqb_spec n 1); lia. Qed.

Lemma spatial_freqs_item (self : WanModelMoe.t) (t : Z) (h w : nat)
    (f0 f1 f2 : tensor C) (E0 E1 E2 F0 F1 F2 : nat) (sf : tensor C) :
  WanModelMoe.freqs self = (f0, f1, f2) →
  shape f0 = [E0; F0] → shape f1 = [E1; F1] → shape f2 = [E2; F2] →
  (0 ≤ t < Z.of_nat E0)%Z → h ≤ E1 → w ≤ E2 →
  WanModelMoe.spatial_freqs self t h w = Ok sf →
  shape sf = [h * w; F0 + F1 + F2]
  ∧ ∀ pos q, pos < h * w →
      (q < F0 → item sf [pos; q] = item f0 [Z.to_nat t; q])
      ∧ (q < F1 → item sf [pos; F0 + q] = item f1 [pos / w; q])
      ∧ (q < F2 → item sf [pos; F0 + F1 + q] = item f2 [pos mod w; q]).
Proof.
  intros Hfreqs Hf0 Hf1 Hf2 Ht Hh Hw.
  unfold WanModelMoe.spatial_freqs. rewrite Hfreqs.
  unfold py_slice, slice. rewrite Hf0, Hf1, Hf2.
  cbn [lookup list_lookup mbind result_bind].
  assert (Hlo : py_bound E0 t = Z.to_nat t).
  { unfold py_bound. destruct (Z.ltb_spec t 0); [lia|reflexivity]. }
  assert (Hhi : py_bound E0 (t + 1) = Z.to_nat t + 1).
  { unfold py_bound. destruct (Z.ltb_spec (t + 1) 0); lia. }
  rewrite Hlo, Hhi.
  set (ff := slice_axis 0 E0 (Z.to_nat t) (Z.to_nat t + 1) f0).
  set (hf := slice_axis 0 E1 0 h f1).
  set (wf := slice_axis 0 E2 0 w f2).
  assert (Hff : shape ff = [1; F0]).
  { unfold ff, slice_axis. cbn [shape]. rewrite Hf0.
    cbn [insert list_insert]. f_equal. lia. }
  assert (Hhf : shape hf = [h; F1]).
  { unfold hf, slice_axis. cbn [shape]. rewrite Hf1.
    cbn [insert list_insert]. f_equal. lia. }
  assert (Hwf : shape wf = [w; F2]).
  { unfold wf, slice_axis. cbn [shape]. rewrite Hf2.
    cbn [insert list_insert]. f_equal. lia. }
  destruct (reshape_infer_last [1; 1; 1] ff) as [fv|] eqn:Efv;
    cbn [mbind result_bind]; [|discriminate].
  apply reshape_infer_last_inv in Efv as (_ & ->).
  rewrite Hff. cbn [numel foldr app shape].
  rewrite !Nat.mul_1_r, !Nat.mul_1_l, Nat.div_1_r in *.
  cbn [ix nth].
  match goal with
  | |- mbind _ (expand_to ?sh ?x) = _ → _ =>
      destruct (expand_to sh x) as [fe|] eqn:Efe; cbn [mbind result_bind];
        [|discriminate]
  end.
  apply expand_to_inv in Efe as ->. cbn [shape].
  destruct (reshape_infer_last [1; h; 1] hf) as [hv|] eqn:Ehv;
    cbn [mbind result_bind]; [|discriminate].
  apply reshape_infer_last_inv in Ehv as (Hp1 & ->).
  rewrite Hhf. cbn [numel foldr app shape] in Hp1 |- *.
  rewrite !Nat.mul_1_r, ?Nat.mul_1_l in *.
  assert (Hh0 : 0 < h) by lia.
  rewrite (Nat.mul_comm h F1), Nat.div_mul by lia.
  cbn [ix nth].
  match goal with
  | |- mbind _ (expand_to ?sh ?x) = _ → _ =>
      destruct (expand_to sh x) as [he|] eqn:Ehe; cbn [mbind result_bind];
        [|discriminate]
  end.
  apply expand_to_inv in Ehe as ->. cbn [shape].
  destruct (reshape_infer_last [1; 1; w] wf) as [wv|] eqn:Ewv;
    cbn [mbind result_bind]; [|discriminate].
  apply reshape_infer_last_inv in Ewv as (Hp2 & ->).
  rewrite Hwf. cbn [numel foldr app shape] in Hp2 |- *.
  rewrite !Nat.mul_1_r, ?Nat.mul_1_l in *.
  assert (Hw0 : 0 < w) by lia.
  rewrite (Nat.mul_comm w F2), Nat.div_mul by lia.
  cbn [ix nth].
  match goal with
  | |- mbind _ (expand_to ?sh ?x) = _ → _ =>
      destruct (expand_to sh x) as [we|] eqn:Ewe; cbn [mbind result_bind];
        [|discriminate]
  end.
  apply expand_to_inv in Ewe as ->. cbn [shape].
  unfold cat. cbn [foldlM].
  match goal with
  | |- mbind _ (mbind _ (cat2 3 ?a ?b)) = _ → _ =>
      destruct (cat2 3 a b) as [c1|] eqn:Ec1; cbn [mbind result_bind];
        [|discriminate]
  end.
  apply cat2_shape in Ec1 as (-> & _ & _).
  match goal with
  | |- mbind _ (mbind _ (cat2 3 ?a ?b)) = _ → _ =>
      destruct (cat2 3 a b) as [c2|] eqn:Ec2; cbn [mbind result_bind];
        [|discriminate]
  end.
  apply cat2_shape in Ec2 as (-> & _ & _).
  intros Hsf. apply reshape_infer_last_inv in Hsf as (Hp3 & ->).
  unfold cat_axis in *. cbn [shape ix nth insert list_insert app] in *.
  cbn [numel foldr] in *. rewrite !Nat.mul_1_r, ?Nat.mul_1_l in *.
  set (Ft := F0 + F1 + F2) in *.
  assert (HFt : h * (w * Ft) / (h * w) = Ft).
  { rewrite Nat.mul_assoc, (Nat.mul_comm (h * w)), Nat.div_mul by lia.
    reflexivity. }
  rewrite HFt. split; [reflexivity|].
  intros pos q Hpos.
  assert (Hy : pos / w < h).
  { apply Nat.Div0.div_lt_upper_bound. lia. }
  assert (Hx : pos mod w < w) by (apply Nat.mod_upper_bound; lia).
  cbn [item ravel numel foldr]. rewrite !Nat.mul_1_r, !Nat.add_0_r.
  split; [|split]; intros Hq.
  - rewrite (unravel_grid h w Ft pos q) by (unfold Ft; lia).
    cbn [ix nth]. destruct (Nat.ltb_spec q (F0 + F1)); [|lia].
    destruct (Nat.ltb_spec q F0); [|lia].
    cbn [bindex length drop Nat.sub zip_with Nat.eqb].
    rewrite (bindex_small F0 q) by lia.
    cbn [ravel numel foldr]. rewrite !Nat.mul_1_r, !Nat.add_0_r.
    match goal with
    | |- context [unravel [1; F0] ?k] => replace k with (0 * F0 + q) by lia
    end.
    rewrite (unravel_row 1 F0 0 q) by lia.
    unfold ff, slice_axis. cbn [item alter list_alter].
    do 2 f_equal. lia.
  - rewrite (unravel_grid h w Ft pos (F0 + q)) by (unfold Ft; lia).
    cbn [ix nth]. destruct (Nat.ltb_spec (F0 + q) (F0 + F1)); [|lia].
    destruct (Nat.ltb_spec (F0 + q) F0); [lia|].
    cbn [insert list_insert].
    cbn [bindex length drop Nat.sub zip_with Nat.eqb].
    rewrite (bindex_small h (pos / w)) by lia.
    replace (F0 + q - F0) with q by lia.
    rewrite (bindex_small F1 q) by lia.
    cbn [ravel numel foldr]. rewrite !Nat.mul_1_r, !Nat.add_0_r.
    match goal with
    | |- context [unravel [h; F1] ?k] =>
        replace k with (pos / w * F1 + q) by lia
    end.
    rewrite (unravel_row h F1 (pos / w) q) by lia.
    unfold hf, slice_axis. cbn [item alter list_alter].
    do 2 f_equal. lia.
  - rewrite (unravel_grid h w Ft pos (F0 + F1 + q)) by (unfold Ft; lia).
    cbn [ix nth]. destruct (Nat.ltb_spec (F0 + F1 + q) (F0 + F1)); [lia|].
    cbn [insert list_insert].
    cbn [bindex length drop Nat.sub zip_with Nat.eqb].
    rewrite (bindex_small w (pos mod w)) by lia.
    replace (F0 + F1 + q - (F0 + F1)) with q by lia.
    rewrite (bindex_small F2 q) by lia.
    cbn [ravel numel foldr]. rewrite !Nat.mul_1_r, !Nat.add_0_r.
    match goal with
    | |- context [unravel [w; F2] ?k] =>
        replace k with (pos mod w * F2 + q) by lia
    end.
    rewrite (unravel_row w F2 (pos mod w) q) by lia.
    unfold wf, slice_axis. cbn [item alter list_alter].
    do 2 f_equal. lia.
Qed.

Lemma cat_rows_item {A} (rest : list (tensor A)) (acc z : tensor A)
    (a m F : nat) :
  foldlM (cat2 0) rest acc = Ok z →
  shape acc = [a; F] →
  Forall (λ r, ∃ F', shape r = [m; F']) rest →
  (∀ i q, i < a → item z [i; q] = item acc [i; q])
  ∧ ∀ j r pos q, rest !! j = Some r → pos < m →
      item z [a + j * m + pos; q] = item r [pos; q].
Proof.
  revert acc a. induction rest as [|r0 rest IH]; intros acc a; cbn [foldlM].
  - intros [= <-] _ _. split; [done|]. intros j r pos q Hj. discriminate.
  - destruct (cat2 0 acc r0) as [acc'|] eqn:Ec; cbn [mbind result_bind];
      [|discriminate].
    intros Hz Hacc Hall. apply Forall_cons_1 in Hall as [Hr0 Hall].
    pose proof (cat2_rows _ _ _ a m F Ec Hacc Hr0) as Hacc'.
    destruct (IH _ _ Hz Hacc' Hall) as [IH1 IH2].
    apply cat2_shape in Ec as (-> & _ & _).
    assert (Hcat : ∀ i q,
              item (cat_axis 0 acc r0) [i; q]
              = if i <? a then item acc [i; q] else item r0 [i - a; q]).
    { intros i q. unfold cat_axis. cbn [item ix nth]. by rewrite Hacc. }
    split.
    + intros i q Hi. rewrite IH1 by lia. rewrite Hcat.
      destruct (Nat.ltb_spec i a); [reflexivity|lia].
    + intros [|j] r pos q Hj Hpos.
      * injection Hj as ->. rewrite IH1 by lia. rewrite Hcat.
        destruct (Nat.ltb_spec (a + 0 * m + pos) a); [lia|].
        f_equal. f_equal. lia.
      * replace (a + S j * m + pos) with (a + m + j * m + pos) by lia.
        by apply IH2.
Qed.

Lemma cat0_item {A} (rows : list (tensor A)) (z : tensor A) (m : nat) :
  cat 0 rows = Ok z →
  Forall (λ r, ∃ F, shape r = [m; F]) rows →
  ∀ j r pos q, rows !! j = Some r → pos < m →
    item z [j * m + pos; q] = item r [pos; q].
Proof.
  unfold cat. destruct rows as [|r0 rest]; [discriminate|].
  intros Hz Hall. apply Forall_cons_1 in Hall as [[F Hr0] Hall].
  destruct (cat_rows_item _ _ _ m m F Hz Hr0 Hall) as [H1 H2].
  intros [|j] r pos q Hj Hpos.
  - injection Hj as ->. cbn [Nat.mul Nat.add]. by apply H1.
  - replace (S j * m + pos) with (m + j * m + pos) by lia. by apply H2.
Qed.

Lemma stack0_item {A} (xs : list (tensor A)) (z x : tensor A) (b : nat)
    (idx : list nat) :
  stack 0 xs = Ok z → xs !! b = Some x → item z (b :: idx) = item x idx.
Proof.
  unfold stack. destruct xs as [|x0 rest]; [discriminate|].
  destruct (forallb _ _); [|discriminate]. intros [= <-] Hb.
  cbn [item delete list_delete]. f_equal.
  destruct b as [|b'].
  - by injection Hb as ->.
  - apply (nth_lookup_Some rest b' x0 x Hb).
Qed.

(** Every position of the frequency tensor of a scale holds the rows of
    the three tables selected by the frame index of the scale and by the
    spatial position. *)
Lemma rope_for_item (self : WanModelMoe.t) (B : nat)
    (frames : nat → result (list Z)) (h w : nat) (r : tensor C)
    (f0 f1 f2 : tensor C) (E0 E1 E2 F0 F1 F2 : nat) :
  WanModelMoe.freqs self = (f0, f1, f2) →
  shape f0 = [E0; F0] → shape f1 = [E1; F1] → shape f2 = [E2; F2] →
  h ≤ E1 → w ≤ E2 →
  WanModelMoe.rope_for self B frames h w = Ok r →
  ∀ b ts j t pos q,
    b < B → frames b = Ok ts → ts !! j = Some t →
    (0 ≤ t < Z.of_nat E0)%Z → pos < h * w →
    (q < F0 → item r [b; j * (h * w) + pos; q] = item f0 [Z.to_nat t; q])
    ∧ (q < F1 →
       item r [b; j * (h * w) + pos; F0 + q] = item f1 [pos / w; q])
    ∧ (q < F2 →
       item r [b; j * (h * w) + pos; F0 + F1 + q] = item f2 [pos mod w; q]).
Proof.
  intros Hfreqs Hf0 Hf1 Hf2 Hh Hw. unfold WanModelMoe.rope_for.
  destruct (mapM _ (seq 0 B)) as [pbs|] eqn:Epb; cbn [mbind result_bind];
    [|discriminate].
  intros Hst b ts j t pos q Hb Hts Hj Ht Hpos.
  apply mapM_Forall2 in Epb.
  assert (Hsb : seq 0 B !! b = Some b) by (by apply lookup_seq_lt).
  destruct (Forall2_lookup_l _ _ _ _ _ Epb Hsb) as (pb & Hpb & Hrun).
  rewrite Hts in Hrun. cbn [mbind result_bind] in Hrun.
  destruct (mapM _ ts) as [rows|] eqn:Erows; cbn [mbind result_bind] in Hrun;
    [|discriminate].
  apply mapM_Forall2 in Erows.
  assert (Hrows : Forall (λ r, ∃ F, shape r = [h * w; F]) rows).
  { clear -Erows. induction Erows as [|t' row ts' rows' Hrow _ IH]; constructor.
    - by eapply spatial_freqs_shape.
    - exact IH. }
  destruct (Forall2_lookup_l _ _ _ _ _ Erows Hj) as (sf & Hsf & Hsfrun).
  destruct (spatial_freqs_item _ _ _ _ _ _ _ _ _ _ _ _ _ _
              Hfreqs Hf0 Hf1 Hf2 Ht Hh Hw Hsfrun) as [_ Hitem].
  destruct (Hitem pos q Hpos) as (H0 & H1 & H2).
  rewrite !(stack0_item _ _ _ _ _ Hst Hpb).
  rewrite !(cat0_item _ _ _ Hrun Hrows _ _ _ _ Hsf Hpos).
  done.
Qed.

Lemma rope_for_frequencies (self : WanModelMoe.t) (B : nat)
    (frames : nat → result (list Z)) (h w : nat) (r : tensor C) :
  WanModelMoe.rope_for self B frames h w = Ok r →
  frequencies_of_frames self B frames h w r.
Proof.
  intros Hr f0 f1 f2 E0 E1 E2 F0 F1 F2 Hfreqs Hf0 Hf1 Hf2 Hh Hw.
  by eapply rope_for_item.
Qed.

(** ** Sequence lengths and the length assertion of [forward] *)

Lemma patchify_input_shape (self : WanModelMoe.t) (x hs : tensor R)
    (grid : list nat) :
  WanModelMoe.patchify self x = Ok (hs, grid) →
  ∃ b c t h w, shape x = [b; c; t; h; w].
Proof.
  unfold WanModelMoe.patchify.
  destruct (Conv3d.forward _ x) as [y|] eqn:Ey; cbn [mbind result_bind];
    [|discriminate].
  destruct (Conv3d_forward_shape _ _ _ Ey) as (b & t & h & w & Hx & _).
  intros _. by eexists b, _, t, h, w.
Qed.

(** Without [latent_indices] the primary frames are counted from the
    patch grid. *)
Lemma default_indices_length (B f : nat) (ts : list Z) :
  WanModelMoe.iter_row (WanModelMoe.default_indices B f None) 0 = Ok ts →
  length ts = f.
Proof.
  unfold WanModelMoe.iter_row, WanModelMoe.default_indices, select.
  cbn [shape lookup list_lookup].
  destruct (0 <? B); cbn [mbind result_bind]; [|discriminate].
  cbn [shape delete list_delete numel foldr]. cbn [Nat.eqb].
  intros [= <-]. rewrite length_to_list. cbn [shape numel foldr]. lia.
Qed.

Lemma assembly_lengths (self : WanModelMoe.t)
    (latents : tensor R) (latent_indices : option (tensor Z))
    (cl1 : option (tensor R)) (i1 : option (tensor Z))
    (cl2 : option (tensor R)) (i2 : option (tensor Z))
    (cl4 : option (tensor R)) (i4 : option (tensor Z))
    (cam : option (tensor R)) (mi : option (list (string * tensor R)))
    (hs : tensor R) (rope : tensor C) (grid : list nat)
    (comb : option (tensor R)) (pm : option modality_dict) :
  WanModelMoe.process_input_hidden_states self latents latent_indices
    cl1 i1 cl2 i2 cl4 i4 cam mi = Ok (hs, rope, grid, comb, pm) →
  ∃ B f h w ts s1 s2 s4,
    grid = [f; h; w]
    ∧ WanModelMoe.iter_row (WanModelMoe.default_indices B f latent_indices) 0
      = Ok ts
    ∧ segment_1x self B h w cl1 i1 = Ok s1
    ∧ segment_down self "2x" (2, 4, 4) B cl2 i2 = Ok s2
    ∧ segment_down self "4x" (4, 8, 8) B cl4 i4 = Ok s4
    ∧ ix (shape hs) 1
      = seg_tokens s4 + (seg_tokens s2 + (seg_tokens s1 + f * h * w))
    ∧ ix (shape rope) 1
      = seg_freqs s4 + (seg_freqs s2 + (seg_freqs s1 + length ts * (h * w))).
Proof.
  intros Hp.
  destruct (assembly_structure _ _ _ _ _ _ _ _ _ _ _ _ _ _ _ _ Hp)
    as (B & f & h & w & tp & rp & ts & F & s1 & s2 & s4 & Hpat & -> & Htp & Hrp
        & Hts & Hrps & Hs1 & Hs2 & Hs4 & Hf1 & Hf2 & Hf4 & -> & ->).
  destruct (prepend_shapes _ _ _ _ _ _ _ _ Hf1 Htp Hrps) as [Ht1 Hr1].
  destruct (prepend_shapes _ _ _ _ _ _ _ _ Hf2 Ht1 Hr1) as [Ht2 Hr2].
  destruct (prepend_shapes _ _ _ _ _ _ _ _ Hf4 Ht2 Hr2) as [Ht4 Hr4].
  exists B, f, h, w, ts, s1, s2, s4.
  repeat (split; [assumption || reflexivity|]).
  rewrite Ht4. unfold unsqueeze. cbn [shape]. rewrite Hr4. done.
Qed.

(** Once the sequence is assembled, [forward] computes the text and time
    embeddings and then checks the two lengths. *)
Lemma forward_length_assertion (self : WanModelMoe.t)
    (latents timestep : tensor R) (cam0 : option (tensor R))
    (latent_indices : option (tensor Z))
    (cl1 : option (tensor R)) (i1 : option (tensor Z))
    (cl2 : option (tensor R)) (i2 : option (tensor Z))
    (cl4 : option (tensor R)) (i4 : option (tensor Z))
    (mi0 : option (list (string * tensor R))) (context : option (tensor R))
    (mi : list (string * tensor R)) (cam : tensor R)
    (hs : tensor R) (rope : tensor C) (grid : list nat)
    (comb : option (tensor R)) (pm : option modality_dict) :
  WanModelMoe.process_modality_inputs self mi0 = Ok (Some (mi, cam)) →
  WanModelMoe.process_input_hidden_states self latents latent_indices
    cl1 i1 cl2 i2 cl4 i4 (Some cam) (Some mi) = Ok (hs, rope, grid, comb, pm) →
  ix (shape rope) 1 ≠ ix (shape hs) 1 →
  WanModelMoe.forward self latents timestep cam0 latent_indices
    cl1 i1 cl2 i2 cl4 i4 mi0 context
  = (_ ← WanModelMoe.embed_conditioning self context timestep;
     raise AssertionError
       (WanModelMoe.rope_mismatch_message (ix (shape rope) 1) (ix (shape hs) 1))).
Proof.
  intros Hm Hp Hne. unfold WanModelMoe.forward.
  rewrite Hm. cbn [mbind result_bind]. rewrite Hp. cbn [mbind result_bind].
  destruct (assembly_structure _ _ _ _ _ _ _ _ _ _ _ _ _ _ _ _ Hp)
    as (B & f & h & w & tp & rp & ts & F & s1 & s2 & s4 & Hpat & _).
  destruct (patchify_input_shape _ _ _ _ Hpat) as (b & c & t & hh & ww & ->).
  cbn [unpack5 mbind result_bind].
  destruct (WanModelMoe.embed_conditioning self context timestep)
    as [[[c' t'] tm]|]; cbn [mbind result_bind]; [|reflexivity].
  apply Nat.eqb_neq in Hne. rewrite Hne. reflexivity.
Qed.

(** A 1x scale that is processed contributes the patch grid of its own
    embedded latent as tokens, and one primary grid per frame index as
    frequencies. *)
Lemma segment_1x_some (self : WanModelMoe.t) (B h w : nat)
    (c : tensor R) (i : tensor Z) (s : segment) :
  segment_1x self B h w (Some c) (Some i) = Ok s →
  ∃ emb b tt hh ww ts,
    WanModelMoe.clean_x_embedder self = Some emb
    ∧ shape c = [b; Conv3d.in_channels (CleanXEmbedder.proj emb); tt; hh; ww]
    ∧ WanModelMoe.iter_row i 0 = Ok ts
    ∧ seg_tokens s
      = Conv3d.out_size tt (Conv3d.kernel_size (CleanXEmbedder.proj emb)).1.1
        * Conv3d.out_size hh (Conv3d.kernel_size (CleanXEmbedder.proj emb)).1.2
        * Conv3d.out_size ww (Conv3d.kernel_size (CleanXEmbedder.proj emb)).2
    ∧ seg_freqs s = length ts * (h * w).
Proof.
  intros Hs. assert (∃ t r, s = Some (t, r)) as (t & r & ->).
  { revert Hs. unfold segment_1x.
    destruct (WanModelMoe.clean_segment_1x self B h w c i) as [[t r]|];
      cbn [mbind result_bind]; [|discriminate].
    intros [= <-]. by exists t, r. }
  exact (segment_1x_lengths _ _ _ _ _ _ _ _ Hs).
Qed.

(** The two lengths on arbitrary inputs.  Whenever
    [process_input_hidden_states] returns,
    for any subset of the clean-latent scales: the 2x and the 4x scale
    contribute as many frequencies as tokens; the token sequence and the
    frequency tensor have equal lengths exactly when the 1x scale and the
    primary latent together do, the 1x scale counting the grid of its own
    embedded latent as tokens but one primary grid per supplied frame
    index as frequencies, and the primary latent counting one grid per
    entry of [latent_indices]; in particular the lengths are equal when
    [latent_indices] is absent and the 1x scale is not supplied.  On a
    mismatch [forward] raises the assertion error that names both
    lengths as soon as the text and time embeddings are computed, and
    never returns a result. *)
Lemma sequence_length_accounting (self : WanModelMoe.t)
    (latents : tensor R) (latent_indices : option (tensor Z))
    (cl1 : option (tensor R)) (i1 : option (tensor Z))
    (cl2 : option (tensor R)) (i2 : option (tensor Z))
    (cl4 : option (tensor R)) (i4 : option (tensor Z))
    (cam : option (tensor R)) (mi : option (list (string * tensor R)))
    (hs : tensor R) (rope : tensor C) (grid : list nat)
    (comb : option (tensor R)) (pm : option modality_dict) :
  WanModelMoe.process_input_hidden_states self latents latent_indices
    cl1 i1 cl2 i2 cl4 i4 cam mi = Ok (hs, rope, grid, comb, pm) →
  (∃ B f h w ts s1 s2 s4,
      grid = [f; h; w]
      ∧ WanModelMoe.iter_row (WanModelMoe.default_indices B f latent_indices) 0
        = Ok ts
      ∧ segment_1x self B h w cl1 i1 = Ok s1
      ∧ segment_down self "2x" (2, 4, 4) B cl2 i2 = Ok s2
      ∧ segment_down self "4x" (4, 8, 8) B cl4 i4 = Ok s4
      ∧ seg_tokens s2 = seg_freqs s2
      ∧ seg_tokens s4 = seg_freqs s4
      ∧ (ix (shape hs) 1 = ix (shape rope) 1
         ↔ seg_tokens s1 + f * h * w = seg_freqs s1 + length ts * (h * w))
      ∧ (latent_indices = None → length ts = f)
      ∧ (∀ c i, cl1 = Some c → i1 = Some i →
         ∃ emb b tt hh ww ts1,
           WanModelMoe.clean_x_embedder self = Some emb
           ∧ shape c
             = [b; Conv3d.in_channels (CleanXEmbedder.proj emb); tt; hh; ww]
           ∧ WanModelMoe.iter_row i 0 = Ok ts1
           ∧ seg_tokens s1
             = Conv3d.out_size tt
                 (Conv3d.kernel_size (CleanXEmbedder.proj emb)).1.1
               * Conv3d.out_size hh
                   (Conv3d.kernel_size (CleanXEmbedder.proj emb)).1.2
               * Conv3d.out_size ww
                   (Conv3d.kernel_size (CleanXEmbedder.proj emb)).2
           ∧ seg_freqs s1 = length ts1 * (h * w))
      ∧ (latent_indices = None → cl1 = None ∨ i1 = None →
         ix (shape hs) 1 = ix (shape rope) 1))
  ∧ (ix (shape rope) 1 ≠ ix (shape hs) 1 →
     ∀ timestep cam0 mi0 context cam' mi',
       cam = Some cam' → mi = Some mi' →
       WanModelMoe.process_modality_inputs self mi0 = Ok (Some (mi', cam')) →
       WanModelMoe.forward self latents timestep cam0 latent_indices
         cl1 i1 cl2 i2 cl4 i4 mi0 context
       = (_ ← WanModelMoe.embed_conditioning self context timestep;
          raise AssertionError
            (WanModelMoe.rope_mismatch_message (ix (shape rope) 1)
               (ix (shape hs) 1)))
       ∧ is_ok (WanModelMoe.forward self latents timestep cam0 latent_indices
                  cl1 i1 cl2 i2 cl4 i4 mi0 context) = false).
Proof.
  intros Hp. split.
  - destruct (assembly_lengths _ _ _ _ _ _ _ _ _ _ _ _ _ _ _ _ Hp)
      as (B & f & h & w & ts & s1 & s2 & s4 & -> & Hts & Hs1 & Hs2 & Hs4
          & Hh & Hr).
    pose proof (segment_down_aligned _ _ _ _ _ _ _ Hs2) as Ha2.
    pose proof (segment_down_aligned _ _ _ _ _ _ _ Hs4) as Ha4.
    exists B, f, h, w, ts, s1, s2, s4.
    repeat (split; [assumption || reflexivity|]).
    split; [rewrite Hh, Hr; lia|]. split; [|split].
    + intros ->. by apply (default_indices_length B).
    + intros c i -> ->. exact (segment_1x_some _ _ _ _ _ _ _ Hs1).
    + intros -> Hno. rewrite Hh, Hr.
      rewrite (default_indices_length B f ts Hts).
      assert (s1 = None) as ->.
      { destruct Hno as [-> | ->]; [|destruct cl1]; by injection Hs1. }
      cbn [seg_tokens seg_freqs]. lia.
  - intros Hne timestep cam0 mi0 context cam' mi' -> -> Hm.
    pose proof (forward_length_assertion self latents timestep cam0
                  latent_indices cl1 i1 cl2 i2 cl4 i4 mi0 context mi' cam'
                  hs rope grid comb pm Hm Hp Hne) as Hf.
    split; [exact Hf|]. rewrite Hf.
    by destruct (WanModelMoe.embed_conditioning self context timestep).
Qed.

Lemma is_ok_inv {A} (r : result A) : is_ok r = true → ∃ a, r = Ok a.
Proof. destruct r as [a|e]; [by exists a|discriminate]. Qed.

(** Inputs outside the valid combinations, on which the assembler
    returns a token sequence and a frequency tensor of different
    lengths. *)
Lemma token_frequency_misaligned :
  (* two clean frames, one clean frame index *)
  sequence_lengths
    (WanModelMoe.process_input_hidden_states (model_with_embedder (1, 2, 2))
       (zeros_like [1; 16; 4; 16; 16]) None
       (Some (zeros_like [1; 16; 2; 16; 16])) (Some (Tensor [1; 1] (λ _, 0%Z)))
       None None None None None None)
  = Ok (384, 320)
  (* one clean frame, one clean frame index, patch size (1, 4, 4) *)
  ∧ sequence_lengths
      (WanModelMoe.process_input_hidden_states (model_with_embedder (1, 4, 4))
         (zeros_like [1; 16; 4; 16; 16]) None
         (Some (zeros_like [1; 16; 1; 16; 16])) (Some (Tensor [1; 1] (λ _, 0%Z)))
         None None None None None None)
    = Ok (128, 80)
  (* no clean latents, three frame indices for four latent frames *)
  ∧ sequence_lengths
      (WanModelMoe.process_input_hidden_states
         (WanModelMoe.init 64 16 128 16 4096 256 (1 / 1000000)%R (1, 2, 2)
            4 1 false false None zero_params)
         (zeros_like [1; 16; 4; 16; 16])
         (Some (Tensor [1; 3] (λ idx, Z.of_nat (ix idx 1))))
         None None None None None None None None)
    = Ok (256, 192).
Proof. repeat split; vm_compute; reflexivity. Qed.

(** ** Instances on concrete inputs *)

Lemma CrossAttention_init_wf (dim num_heads : nat) (eps : R)
    (has_image_input : bool) (params : init_params) :
  0 < num_heads → dim mod num_heads = 0 →
  CrossAttention_wf
    (CrossAttention.init dim num_heads eps has_image_input params).
Proof.
  intros Hn Hd. unfold CrossAttention_wf, CrossAttention.init, Linear_square.
  cbn [CrossAttention.dim CrossAttention.num_heads CrossAttention.attn
       CrossAttention.q CrossAttention.k CrossAttention.v CrossAttention.o
       CrossAttention.norm_q CrossAttention.norm_k
       CrossAttention.has_image_input CrossAttention.image
       AttentionModule.num_heads].
  repeat split; try assumption; try reflexivity.
  intros ->. eexists. repeat split; reflexivity.
Qed.

(** A context of three tokens, fewer than 257, is accepted: the image
    context takes the three tokens and the text context is empty. *)
Lemma short_context_is_accepted :
  is_ok (CrossAttention.forward image_cross_attention
           (Tensor [1; 2; 4] (λ _, 1%R)) (Tensor [1; 3; 4] (λ _, 1%R))) = true
  ∧ (λ out, shape out)
      <$> CrossAttention.forward image_cross_attention
            (Tensor [1; 2; 4] (λ _, 1%R)) (Tensor [1; 3; 4] (λ _, 1%R))
    = Ok [1; 2; 4].
Proof. split; vm_compute; reflexivity. Qed.

Lemma cross_attention_image_split_witness :
  ∃ img ctx out,
    slice 1 0 257 (Tensor [1; 3; 4] (λ _, 1%R)) = Ok img
    ∧ slice_from 1 257 (Tensor [1; 3; 4] (λ _, 1%R)) = Ok ctx
    ∧ shape img = [1; 3; 4]
    ∧ shape ctx = [1; 0; 4]
    ∧ CrossAttention.forward image_cross_attention
        (Tensor [1; 2; 4] (λ _, 1%R)) (Tensor [1; 3; 4] (λ _, 1%R)) = Ok out
    ∧ shape out = [1; 2; 4].
Proof.
  assert (Hwf : CrossAttention_wf image_cross_attention).
  { apply CrossAttention_init_wf; [lia|reflexivity]. }
  destruct (cross_attention_image_split image_cross_attention
              (Tensor [1; 2; 4] (λ _, 1%R)) (Tensor [1; 3; 4] (λ _, 1%R))
              1 2 3 Hwf eq_refl eq_refl eq_refl)
    as (br & img & ctx & xq & q & ck & k & v & xt & ik & k_img & v_img & xi
        & sum & out & _ & Himg & Hctx & Hsi & Hsc & _ & _ & _ & _ & _ & _ & _
        & _ & _ & _ & _ & _ & _ & _ & _ & Hfwd & Hout).
  exists img, ctx, out.
  split; [exact Himg|]. split; [exact Hctx|]. split; [exact Hsi|].
  split; [exact Hsc|]. split; [exact Hfwd|exact Hout].
Defined.

Lemma rope_round_trip_witness :
  ∃ y z,
    rope_apply (Tensor [1; 1; 2] (λ idx, INR (ix idx 2 + 1)))
      (Tensor [1; 1; 1; 1] (λ _, polar 1 2)) 1 = Ok y
    ∧ rope_apply y (tmap cconj (Tensor [1; 1; 1; 1] (λ _, polar 1 2))) 1 = Ok z
    ∧ tensor_eq z (Tensor [1; 1; 2] (λ idx, INR (ix idx 2 + 1))).
Proof.
  destruct (rope_round_trip (Tensor [1; 1; 2] (λ idx, INR (ix idx 2 + 1)))
              (Tensor [1; 1; 1; 1] (λ _, polar 1 2)) 1 1 1 1
              ltac:(lia) ltac:(lia) ltac:(lia) ltac:(lia) eq_refl eq_refl
              (λ _ _, cnorm2_polar 2)) as [(y & z & Hy & Hz & Heq) _].
  exists y, z. split; [exact Hy|]. split; [exact Hz|exact Heq].
Defined.

Lemma Qplus_0_l_eq (y : Q) : fadd fzero y = y.
Proof.
  destruct y as [n d]. cbn [fadd fzero Q_scalar]. unfold Qplus.
  cbn [Qnum Qden]. f_equal; lia.
Qed.

Lemma Qmult_1_l_eq (y : Q) : fmul fone y = y.
Proof.
  destruct y as [n d]. cbn [fmul fone Q_scalar]. unfold Qmult.
  cbn [Qnum Qden]. f_equal; lia.
Qed.

Lemma moe_top1_weighted_sum_witness :
  ∃ expert out stats direct,
    MultiModalMoE.experts two_expert_moe !! 1 = Some expert
    ∧ MultiModalMoE.forward two_expert_moe two_token_input
        (ones [1; 2; 1]) (full [1; 2; 1] 1%Z) "sekai" = Ok (out, stats)
    ∧ Linear.forward expert two_token_input = Ok direct
    ∧ tensor_eq out direct.
Proof.
  eexists.
  destruct (moe_top1_weighted_sum two_expert_moe two_token_input 1 2 1 "sekai"
              _ Qplus_0_l_eq Qmult_1_l_eq (MoE_init_wf _ _ _ _ _ _ _)
              eq_refl eq_refl eq_refl ltac:(vm_compute; lia))
    as (out & stats & direct & Hf & Hd & Heq).
  exists out, stats, direct.
  split; [reflexivity|]. split; [exact Hf|]. split; [exact Hd|exact Heq].
Defined.

Lemma router_top_k_mismatch_witness :
  ({[ "top_k" := 2 ]} : gmap string nat) !! "top_k" = Some 2
  ∧ WanModelMoe.top_k
      (WanModelMoe.init 64 16 128 16 4096 256 (1 / 1000000)%R (1, 2, 2) 4 1
         false true (Some {[ "top_k" := 2 ]}) (λ _ _, 0%R)) = 1
  ∧ ∀ block,
      block ∈ WanModelMoe.blocks
                (WanModelMoe.init 64 16 128 16 4096 256 (1 / 1000000)%R
                   (1, 2, 2) 4 1 false true (Some {[ "top_k" := 2 ]})
                   (λ _ _, 0%R)) →
      ∃ moe, DiTBlockWithMoE.moe block = Some moe
             ∧ MultiModalMoE.top_k moe = 2.
Proof.
  assert (Hk : ({[ "top_k" := 2 ]} : gmap string nat) !! "top_k" = Some 2)
    by (vm_compute; reflexivity).
  split; [exact Hk|].
  destruct (router_top_k_mismatch 64 16 128 16 4096 256 (1 / 1000000)%R
              (1, 2, 2) 4 1 false {[ "top_k" := 2 ]} 2 (λ _ _, 0%R)
              Hk ltac:(lia)) as (Htop & _ & Hblocks).
  split; [exact Htop|].
  intros block Hin. destruct (Hblocks block Hin) as (moe & Hm & Ht & _).
  exists moe. split; [exact Hm|exact Ht].
Defined.

(** ** Modality inputs and attributes that [__init__] does not create *)

(** A loop whose body leaves the loop variable unchanged. *)
Lemma foldlM_unchanged {A B} (f : B → A → result B) (l : list A) (b : B) :
  (∀ a, a ∈ l → f b a = Ok b) → foldlM f l b = Ok b.
Proof.
  induction l as [|a l IH]; intros Hf; [reflexivity|].
  cbn [foldlM]. rewrite Hf by left. cbn [mbind result_bind].
  apply IH. intros a' Ha'. apply Hf. by right.
Qed.

(** When MoE is enabled and the dictionary of modality inputs is not
    empty but none of its labels has a processor (the label is not one of
    sekai, nuscenes, openx, or the model has no such attribute), every
    entry is skipped and the final [return] reads the local [processed]
    that was never assigned: [process_modality_inputs] raises
    [UnboundLocalError]. *)
Theorem process_modality_inputs_unrecognised (self : WanModelMoe.t)
    (modality_inputs : list (string * tensor R)) :
  WanModelMoe.use_moe self = true →
  modality_inputs ≠ [] →
  (∀ kv, kv ∈ modality_inputs → WanModelMoe.processor_for self kv.1 = None) →
  WanModelMoe.process_modality_inputs self (Some modality_inputs)
  = raise UnboundLocalError
      "local variable 'processed' referenced before assignment".
Proof.
  intros Hmoe Hne Hno. unfold WanModelMoe.process_modality_inputs.
  rewrite Hmoe. destruct modality_inputs as [|kv l]; [done|].
  cbn [WanModelMoe.truthy negb orb default].
  rewrite foldlM_unchanged; [reflexivity|].
  intros [k x] Hk. pose proof (Hno _ Hk) as Hp. cbn [fst] in Hp.
  by rewrite Hp.
Qed.

Lemma process_modality_inputs_unrecognised_witness :
  WanModelMoe.process_modality_inputs
    (WanModelMoe.init 64 16 128 16 4096 256 (1 / 1000000)%R (1, 2, 2) 4 1
       false true None zero_params)
    (Some [("lidar", zeros_like [1; 2; 3]); ("sekai", zeros_like [1; 2; 3])])
  = raise UnboundLocalError
      "local variable 'processed' referenced before assignment".
Proof.
  apply process_modality_inputs_unrecognised;
    [reflexivity|discriminate|].
  intros kv Hkv.
  apply elem_of_cons in Hkv as [->|Hkv]; [reflexivity|].
  apply elem_of_cons in Hkv as [->|Hkv]; [reflexivity|].
  by apply elem_of_nil in Hkv.
Defined.

(** A model to which no modality processor has been attached (the state
    in which [__init__] leaves it) never returns from [forward], whatever
    the arguments: with MoE enabled and a non-empty dictionary of modality
    inputs the first statement raises [UnboundLocalError], and otherwise
    it unpacks [None] and raises [TypeError]. *)
Theorem forward_without_processors (self : WanModelMoe.t)
    (latents timestep : tensor R) (cam_emb : option (tensor R))
    (latent_indices : option (tensor Z))
    (cl1 : option (tensor R)) (i1 : option (tensor Z))
    (cl2 : option (tensor R)) (i2 : option (tensor Z))
    (cl4 : option (tensor R)) (i4 : option (tensor Z))
    (modality_inputs : option (list (string * tensor R)))
    (context : option (tensor R)) :
  WanModelMoe.sekai_processor self = None →
  WanModelMoe.nuscenes_processor self = None →
  WanModelMoe.openx_processor self = None →
  WanModelMoe.forward self latents timestep cam_emb latent_indices
    cl1 i1 cl2 i2 cl4 i4 modality_inputs context
  = if WanModelMoe.use_moe self && WanModelMoe.truthy modality_inputs
    then raise UnboundLocalError
           "local variable 'processed' referenced before assignment"
    else raise TypeError "cannot unpack non-iterable NoneType object".
Proof.
  intros Hs Hn Ho.
  assert (Hnone : ∀ label, WanModelMoe.processor_for self label = None).
  { intros label. unfold WanModelMoe.processor_for.
    rewrite Hs, Hn, Ho. by repeat case_decide. }
  unfold WanModelMoe.forward, WanModelMoe.process_modality_inputs.
  destruct (WanModelMoe.use_moe self); cbn [andb negb orb].
  - destruct (WanModelMoe.truthy modality_inputs); cbn [negb orb];
      [|reflexivity].
    rewrite foldlM_unchanged; [reflexivity|].
    intros [k x] _. by rewrite Hnone.
  - rewrite orb_true_r. reflexivity.
Qed.

Lemma forward_without_processors_witness :
  WanModelMoe.forward
    (WanModelMoe.init 64 16 128 16 4096 256 (1 / 1000000)%R (1, 2, 2) 4 1
       false true None zero_params)
    (zeros_like [1; 16; 4; 16; 16]) (zeros_like [1])
    (Some (zeros_like [1; 4; 12])) None None None None None None None
    (Some [("sekai", zeros_like [1; 4; 12])])
    (Some (zeros_like [1; 10; 4096]))
  = raise UnboundLocalError
      "local variable 'processed' referenced before assignment".
Proof.
  apply (forward_without_processors
           (WanModelMoe.init 64 16 128 16 4096 256 (1 / 1000000)%R (1, 2, 2)
              4 1 false true None zero_params));
    reflexivity.
Defined.

(** The loop of [process_modality_inputs], from any state. *)
Lemma process_modality_loop (self : WanModelMoe.t)
    (l : list (string * tensor R)) (d0 d : list (string * tensor R))
    (p0 p : option (tensor R)) :
  foldlM (λ '(d, processed) '(modality_type, input_data),
            match WanModelMoe.processor_for self modality_type with
            | Some proc =>
                p ← ModalityProcessor.forward proc input_data;
                Ok (d ++ [(modality_type, p)], Some p)
            | None => Ok (d, processed)
            end) l (d0, p0) = Ok (d, p) →
  ∃ d',
    d = d0 ++ d'
    ∧ Forall2 (λ out inp,
                 out.1 = inp.1
                 ∧ ∃ proc, WanModelMoe.processor_for self inp.1 = Some proc
                           ∧ ModalityProcessor.forward proc inp.2 = Ok out.2)
        d' (filter (λ kv, is_Some (WanModelMoe.processor_for self kv.1)) l)
    ∧ p = match last d' with Some kp => Some kp.2 | None => p0 end.
Proof.
  revert d0 p0. induction l as [|[k x] l IH]; intros d0 p0.
  - cbn [foldlM]. intros [= <- <-]. exists []. rewrite app_nil_r.
    split; [reflexivity|]. split; [constructor|reflexivity].
  - cbn [foldlM].
    destruct (WanModelMoe.processor_for self k) as [proc|] eqn:Hproc.
    + destruct (ModalityProcessor.forward proc x) as [q|] eqn:Hq;
        cbn [mbind result_bind]; [|discriminate].
      intros Hrest. destruct (IH _ _ Hrest) as (d' & -> & Hall & ->).
      exists ((k, q) :: d'). rewrite <- app_assoc. split; [reflexivity|].
      rewrite filter_cons_True by (cbn [fst]; rewrite Hproc; by eexists).
      split.
      * constructor; [|exact Hall]. cbn [fst snd]. split; [reflexivity|].
        exists proc. by split.
      * destruct d' as [|kp d'']; [reflexivity|]. rewrite last_cons_cons.
        destruct (last (kp :: d'')) eqn:El; [reflexivity|].
        by apply last_None in El.
    + cbn [mbind result_bind]. intros Hrest.
      destruct (IH _ _ Hrest) as (d' & -> & Hall & ->).
      exists d'. split; [reflexivity|].
      rewrite filter_cons_False
        by (cbn [fst]; rewrite Hproc; by intros [? ?]).
      split; [exact Hall|reflexivity].
Qed.

(** When [process_modality_inputs] returns a pair, MoE is enabled, the
    dictionary it returns holds the processed tensor of every entry whose
    label has a processor, in the order of the input, and the second
    component, which [forward] takes as its camera embedding, is the
    tensor of the last such entry. *)
Theorem process_modality_inputs_returns_last (self : WanModelMoe.t)
    (modality_inputs : option (list (string * tensor R)))
    (d : list (string * tensor R)) (cam : tensor R) :
  WanModelMoe.process_modality_inputs self modality_inputs
  = Ok (Some (d, cam)) →
  WanModelMoe.use_moe self = true
  ∧ Forall2 (λ out inp,
               out.1 = inp.1
               ∧ ∃ proc, WanModelMoe.processor_for self inp.1 = Some proc
                         ∧ ModalityProcessor.forward proc inp.2 = Ok out.2)
      d (filter (λ kv, is_Some (WanModelMoe.processor_for self kv.1))
           (default [] modality_inputs))
  ∧ ∃ k, last d = Some (k, cam).
Proof.
  unfold WanModelMoe.process_modality_inputs.
  destruct (WanModelMoe.truthy modality_inputs); cbn [negb orb];
    [|discriminate].
  destruct (WanModelMoe.use_moe self); cbn [negb]; [|discriminate].
  destruct (foldlM _ _ _) as [[d1 p1]|] eqn:Hloop; cbn [mbind result_bind];
    [|discriminate].
  destruct (process_modality_loop _ _ _ _ _ _ Hloop) as (d' & -> & Hall & ->).
  cbn [app]. destruct (last d') as [[k q]|] eqn:Hlast; [|discriminate].
  intros [= <- <-]. split; [reflexivity|]. split; [exact Hall|].
  by exists k.
Qed.

Lemma process_modality_inputs_returns_last_witness :
  ∃ d cam k,
    WanModelMoe.process_modality_inputs small_model
      (Some [("lidar", zeros_like [1; 2; 3]); ("sekai", zeros_like [1; 2; 12])])
    = Ok (Some (d, cam))
    ∧ last d = Some (k, cam).
Proof.
  assert (Hok : is_ok (WanModelMoe.process_modality_inputs small_model
                 (Some [("lidar", zeros_like [1; 2; 3]);
                        ("sekai", zeros_like [1; 2; 12])])) = true)
    by (vm_compute; reflexivity).
  apply is_ok_inv in Hok. destruct Hok as [[[d cam]|] E].
  - destruct (process_modality_inputs_returns_last _ _ _ _ E)
      as (_ & _ & k & Hk).
    exists d, cam, k. split; [exact E|exact Hk].
  - exfalso. revert E. vm_compute. discriminate.
Defined.

(** [forward] of a block reads [self.projector], an attribute that
    [__init__] does not create: a block without it never returns. *)
Theorem block_forward_needs_projector (self : DiTBlockWithMoE.t)
    (x : tensor R) (context : option (tensor R)) (cam_emb : option (tensor R))
    (t_mod : tensor R) (freqs : tensor C)
    (modality_inputs : option modality_dict)
    (router_weights : option (tensor R)) (router_indices : option (tensor Z)) :
  DiTBlockWithMoE.projector self = None →
  is_ok (DiTBlockWithMoE.forward self x context cam_emb t_mod freqs
           modality_inputs router_weights router_indices) = false.
Proof.
  intros Hproj.
  unfold DiTBlockWithMoE.forward.
  do 3 match goal with
       | |- is_ok (mbind _ ?r) = false =>
           destruct r as [?|?]; cbn [mbind result_bind is_ok]; [|reflexivity]
       end.
  repeat match goal with
         | |- is_ok (let '(_, _) := ?p in _) = false => destruct p
         end.
  do 2 match goal with
       | |- is_ok (mbind _ ?r) = false =>
           destruct r as [?|?]; cbn [mbind result_bind is_ok]; [|reflexivity]
       end.
  match goal with
  | |- is_ok (mbind _ ?r) = false =>
      assert (Hstep : ∀ ix s', r = Ok (ix, s') →
                DiTBlockWithMoE.projector s' = None);
      [|destruct r as [[ix s']|]; cbn [mbind result_bind is_ok];
        [|reflexivity]]
  end.
  { intros ix s'.
    repeat match goal with
           | |- (match ?d with _ => _ end) = Ok _ → _ =>
               destruct d; cbn [mbind result_bind]
           | |- mbind _ ?r = Ok _ → _ =>
               destruct r; cbn [mbind result_bind]
           | |- (let '(_, _) := ?p in _) = Ok _ → _ => destruct p
           end;
    try discriminate; intros [= <- <-]; exact Hproj. }
  unfold DiTBlockWithMoE.get_projector.
  rewrite (Hstep ix s' eq_refl). reflexivity.
Qed.

Lemma block_forward_needs_projector_witness :
  is_ok (DiTBlockWithMoE.forward
           (DiTBlockWithMoE.init false 64 4 128 (1 / 1000000)%R false None
              zero_params)
           (zeros_like [1; 8; 64]) None None (zeros_like [1; 6; 64])
           (Tensor [1; 8; 1; 8] (λ _, (0%R, 0%R))) None None None) = false.
Proof.
  apply block_forward_needs_projector. reflexivity.
Defined.

(** ** Padding, strided convolution and patches *)

(** The padded size of an axis is the next multiple of the kernel. *)
Lemma padded_size (n k : nat) :
  0 < k →
  n + (k - n mod k) mod k = (n + k - 1) / k * k.
Proof.
  intros Hk.
  pose proof (Nat.div_mod_eq n k) as Hn.
  pose proof (Nat.mod_upper_bound n k ltac:(lia)) as Hr.
  destruct (Nat.eq_dec (n mod k) 0) as [H0|H0].
  - rewrite H0, Nat.sub_0_r, Nat.Div0.mod_same, Nat.add_0_r.
    replace (n + k - 1) with (n / k * k + (k - 1)) by lia.
    rewrite Nat.div_add_l by lia. rewrite (Nat.div_small (k - 1) k) by lia.
    lia.
  - rewrite (Nat.mod_small (k - n mod k) k) by lia.
    replace (n + k - 1) with ((n / k + 1) * k + (n mod k - 1)) by lia.
    rewrite Nat.div_add_l by lia.
    rewrite (Nat.div_small (n mod k - 1) k) by lia. lia.
Qed.

Lemma ceil_bounds (n k : nat) :
  0 < k → n ≤ (n + k - 1) / k * k < n + k.
Proof.
  intros Hk. pose proof (Nat.div_mod_eq (n + k - 1) k) as H1.
  pose proof (Nat.mod_upper_bound (n + k - 1) k ltac:(lia)) as H2. lia.
Qed.

Theorem pad_for_3d_conv_spec {A} (x : tensor A) (b c t h w pt ph pw : nat) :
  shape x = [b; c; t; h; w] →
  0 < c → 0 < t → 0 < h → 0 < w → 0 < pt → 0 < ph → 0 < pw →
  ∃ y,
    WanModelMoe.pad_for_3d_conv x (pt, ph, pw) = Ok y
    ∧ shape y = [b; c; (t + pt - 1) / pt * pt; (h + ph - 1) / ph * ph;
                 (w + pw - 1) / pw * pw]
    (* at most one kernel of padding *)
    ∧ t ≤ (t + pt - 1) / pt * pt < t + pt
    ∧ h ≤ (h + ph - 1) / ph * ph < h + ph
    ∧ w ≤ (w + pw - 1) / pw * pw < w + pw
    (* the entries of [x] are kept, the border is replicated *)
    ∧ (∀ idx, in_bounds (shape x) idx → item y idx = item x idx)
    ∧ (∀ i j fi hi wi,
         item y [i; j; fi; hi; wi]
         = item x [i; j; fi `min` (t - 1); hi `min` (h - 1); wi `min` (w - 1)]).
Proof.
  intros Hx Hc Ht Hh Hw Hpt Hph Hpw.
  unfold WanModelMoe.pad_for_3d_conv. rewrite Hx.
  destruct (Nat.eqb_spec pt 0); [lia|]. destruct (Nat.eqb_spec ph 0); [lia|].
  destruct (Nat.eqb_spec pw 0); [lia|]. cbn [orb].
  destruct (Nat.eqb_spec c 0); [lia|]. destruct (Nat.eqb_spec t 0); [lia|].
  destruct (Nat.eqb_spec h 0); [lia|]. destruct (Nat.eqb_spec w 0); [lia|].
  cbn [orb]. eexists. split; [reflexivity|]. cbn [shape item].
  rewrite !padded_size by lia.
  split; [reflexivity|].
  split; [by apply ceil_bounds|]. split; [by apply ceil_bounds|].
  split; [by apply ceil_bounds|]. split.
  - intros idx Hidx. unfold in_bounds in Hidx.
    destruct idx as [|i [|j [|fi [|hi [|wi [|? ?]]]]]];
      try (exfalso; apply Forall2_length in Hidx; discriminate).
    repeat match goal with
           | H : Forall2 _ (_ :: _) (_ :: _) |- _ =>
               apply Forall2_cons_1 in H as [? H]
           end.
    unfold ix. cbn [nth]. repeat f_equal; lia.
  - intros. reflexivity.
Qed.

Lemma pad_for_3d_conv_spec_witness :
  ∃ y,
    WanModelMoe.pad_for_3d_conv (zeros_like [1; 16; 3; 5; 6]) (2, 4, 4) = Ok y
    ∧ shape y = [1; 16; 4; 8; 8].
Proof.
  destruct (pad_for_3d_conv_spec (zeros_like [1; 16; 3; 5; 6])
              1 16 3 5 6 2 4 4 eq_refl
              ltac:(lia) ltac:(lia) ltac:(lia) ltac:(lia)
              ltac:(lia) ltac:(lia) ltac:(lia))
    as (y & Hy & Hs & _).
  exists y. split; [exact Hy|exact Hs].
Defined.

Lemma out_size_multiple (q k : nat) :
  0 < k → 0 < q → Conv3d.out_size (q * k) k = q.
Proof.
  intros Hk Hq. unfold Conv3d.out_size.
  replace (q * k - k) with ((q - 1) * k) by nia.
  rewrite Nat.div_mul by lia. lia.
Qed.

Lemma ceil_pos (n k : nat) : 0 < k → 0 < n → 0 < (n + k - 1) / k.
Proof.
  intros Hk Hn. apply Nat.div_str_pos. lia.
Qed.

Lemma pad_for_3d_conv_shape {A} (x : tensor A) (b c t h w pt ph pw : nat) :
  shape x = [b; c; t; h; w] →
  0 < c → 0 < t → 0 < h → 0 < w → 0 < pt → 0 < ph → 0 < pw →
  ∃ y,
    WanModelMoe.pad_for_3d_conv x (pt, ph, pw) = Ok y
    ∧ shape y = [b; c; (t + pt - 1) / pt * pt; (h + ph - 1) / ph * ph;
                 (w + pw - 1) / pw * pw].
Proof.
  intros Hx Hc Ht Hh Hw Hpt Hph Hpw.
  unfold WanModelMoe.pad_for_3d_conv. rewrite Hx.
  destruct (Nat.eqb_spec pt 0); [lia|]. destruct (Nat.eqb_spec ph 0); [lia|].
  destruct (Nat.eqb_spec pw 0); [lia|]. cbn [orb].
  destruct (Nat.eqb_spec c 0); [lia|]. destruct (Nat.eqb_spec t 0); [lia|].
  destruct (Nat.eqb_spec h 0); [lia|]. destruct (Nat.eqb_spec w 0); [lia|].
  cbn [orb]. eexists. split; [reflexivity|]. cbn [shape].
  by rewrite !padded_size by lia.
Qed.

(** Padding for a kernel and then convolving with that kernel as
    stride never fails on the sizes, and gives one output position per
    started kernel window. *)
Theorem pad_then_conv (conv : Conv3d.t) (x : tensor R)
    (b t h w pt ph pw : nat) :
  Conv3d.kernel_size conv = (pt, ph, pw) →
  shape x = [b; Conv3d.in_channels conv; t; h; w] →
  0 < Conv3d.in_channels conv → 0 < t → 0 < h → 0 < w →
  0 < pt → 0 < ph → 0 < pw →
  ∃ y z,
    WanModelMoe.pad_for_3d_conv x (pt, ph, pw) = Ok y
    ∧ Conv3d.forward conv y = Ok z
    ∧ shape z = [b; Conv3d.out_channels conv;
                 (t + pt - 1) / pt; (h + ph - 1) / ph; (w + pw - 1) / pw].
Proof.
  intros Hk Hx Hc Ht Hh Hw Hpt Hph Hpw.
  destruct (pad_for_3d_conv_shape x b _ t h w pt ph pw Hx Hc Ht Hh Hw Hpt Hph Hpw)
    as (y & Hy & Hys).
  exists y. unfold Conv3d.forward. rewrite Hk, Hys, Nat.eqb_refl.
  cbn [negb].
  destruct (Nat.eqb_spec pt 0); [lia|]. destruct (Nat.eqb_spec ph 0); [lia|].
  destruct (Nat.eqb_spec pw 0); [lia|]. cbn [orb].
  pose proof (ceil_pos t pt Hpt Ht). pose proof (ceil_pos h ph Hph Hh).
  pose proof (ceil_pos w pw Hpw Hw).
  destruct (Nat.ltb_spec ((t + pt - 1) / pt * pt) pt); [nia|].
  destruct (Nat.ltb_spec ((h + ph - 1) / ph * ph) ph); [nia|].
  destruct (Nat.ltb_spec ((w + pw - 1) / pw * pw) pw); [nia|].
  cbn [orb]. eexists. split; [exact Hy|]. split; [reflexivity|].
  cbn [shape]. by rewrite !out_size_multiple by lia.
Qed.

Lemma pad_then_conv_witness :
  ∃ y z,
    WanModelMoe.pad_for_3d_conv (zeros_like [1; 16; 3; 5; 6]) (2, 4, 4) = Ok y
    ∧ Conv3d.forward
        (CleanXEmbedder.proj_2x (CleanXEmbedder.init 64 zero_params)) y = Ok z
    ∧ shape z = [1; 64; 2; 2; 2].
Proof.
  destruct (pad_then_conv
              (CleanXEmbedder.proj_2x (CleanXEmbedder.init 64 zero_params))
              (zeros_like [1; 16; 3; 5; 6]) 1 3 5 6 2 4 4 eq_refl eq_refl
              ltac:(cbn; lia) ltac:(lia) ltac:(lia) ltac:(lia)
              ltac:(lia) ltac:(lia) ltac:(lia))
    as (y & z & Hy & Hz & Hs).
  exists y, z. split; [exact Hy|]. split; [exact Hz|exact Hs].
Defined.

Lemma div_mod_block (a k r : nat) :
  r < k → (a * k + r) / k = a ∧ (a * k + r) mod k = r.
Proof.
  intros Hr. rewrite (Nat.add_comm (a * k)).
  rewrite Nat.div_add, Nat.Div0.mod_add by lia.
  rewrite Nat.div_small, Nat.mod_small by lia. done.
Qed.

(** [unpatchify] puts entry [(x, y, z, c)] of the token of patch
    [(f, h, w)] at channel [c] and position
    [(f * px + x, h * py + y, w * pz + z)]. *)
Theorem unpatchify_spec (self : WanModelMoe.t) (x : tensor R)
    (b f h w c px py pz : nat) :
  WanModelMoe.patch_size self = (px, py, pz) →
  0 < px → 0 < py → 0 < pz →
  shape x = [b; f * h * w; px * py * pz * c] →
  ∃ y,
    WanModelMoe.unpatchify self x [f; h; w] = Ok y
    ∧ shape y = [b; c; f * px; h * py; w * pz]
    ∧ ∀ bi ci fi hi wi xi yi zi,
        xi < px → yi < py → zi < pz →
        item y [bi; ci; fi * px + xi; hi * py + yi; wi * pz + zi]
        = item x [bi; (fi * h + hi) * w + wi;
                  ((xi * py + yi) * pz + zi) * c + ci].
Proof.
  intros Hp Hpx Hpy Hpz Hx. unfold WanModelMoe.unpatchify.
  cbn [getitem lookup list_lookup mbind result_bind]. rewrite Hp, Hx.
  rewrite Nat.eqb_refl.
  assert (Hprod : 0 < px * py * pz) by nia.
  destruct (Nat.ltb_spec 0 (px * py * pz)); [|lia].
  rewrite Nat.mul_comm, Nat.Div0.mod_mul, Nat.eqb_refl. cbn [andb].
  rewrite Nat.div_mul by lia.
  eexists. split; [reflexivity|]. split; [reflexivity|].
  intros bi ci fi hi wi xi yi zi Hxi Hyi Hzi. cbn [item]. unfold ix.
  cbn [nth].
  destruct (div_mod_block fi px xi Hxi) as [-> ->].
  destruct (div_mod_block hi py yi Hyi) as [-> ->].
  destruct (div_mod_block wi pz zi Hzi) as [-> ->].
  reflexivity.
Qed.

Lemma unpatchify_spec_witness :
  ∃ y,
    WanModelMoe.unpatchify (model_with_embedder (1, 2, 2))
      (zeros_like [1; 24; 64]) [2; 3; 4] = Ok y
    ∧ shape y = [1; 16; 2; 6; 8].
Proof.
  destruct (unpatchify_spec (model_with_embedder (1, 2, 2))
              (zeros_like [1; 24; 64]) 1 2 3 4 16 1 2 2 eq_refl
              ltac:(lia) ltac:(lia) ltac:(lia) eq_refl)
    as (y & Hy & Hs & _).
  exists y. split; [exact Hy|exact Hs].
Defined.

Lemma out_size_div (n k : nat) : 0 < k → k ≤ n → Conv3d.out_size n k = n / k.
Proof.
  intros Hk Hn. unfold Conv3d.out_size.
  replace n with (n - k + 1 * k) at 2 by lia.
  rewrite Nat.div_add by lia. reflexivity.
Qed.

Lemma Conv3d_forward_sizes (conv : Conv3d.t) (x y : tensor R)
    (kt kh kw : nat) :
  Conv3d.kernel_size conv = (kt, kh, kw) →
  Conv3d.forward conv x = Ok y →
  ∃ b t h w,
    shape x = [b; Conv3d.in_channels conv; t; h; w]
    ∧ 0 < kt ≤ t ∧ 0 < kh ≤ h ∧ 0 < kw ≤ w
    ∧ shape y = [b; Conv3d.out_channels conv; t / kt; h / kh; w / kw].
Proof.
  intros Hk. unfold Conv3d.forward. rewrite Hk.
  destruct (shape x) as [|b [|c [|t [|h [|w [|? ?]]]]]]; try discriminate.
  destruct (Nat.eqb_spec c (Conv3d.in_channels conv)) as [->|];
    cbn [negb]; [|discriminate].
  destruct (Nat.eqb_spec kt 0); cbn [orb]; [discriminate|].
  destruct (Nat.eqb_spec kh 0); cbn [orb]; [discriminate|].
  destruct (Nat.eqb_spec kw 0); cbn [orb]; [discriminate|].
  destruct (Nat.ltb_spec t kt); cbn [orb]; [discriminate|].
  destruct (Nat.ltb_spec h kh); cbn [orb]; [discriminate|].
  destruct (Nat.ltb_spec w kw); cbn [orb]; [discriminate|].
  intros [= <-]. exists b, t, h, w. cbn [shape].
  rewrite !out_size_div by lia. repeat split; lia.
Qed.

Lemma py_bound_neg (n L : nat) :
  0 < L → py_bound n (- Z.of_nat L) = n - L.
Proof. intros HL. unfold py_bound. destruct (Z.ltb_spec (- Z.of_nat L) 0); lia. Qed.

Lemma py_bound_nat (n m : nat) : py_bound n (Z.of_nat m) = m.
Proof. unfold py_bound. destruct (Z.ltb_spec (Z.of_nat m) 0); lia. Qed.

(** The trailing slice of [forward],
    [hidden_states[:, -original_context_length:, :]], taken on the
    assembled sequence, returns the tokens of the primary latent: the
    prepended clean-latent tokens are dropped, whatever scales were
    supplied. *)
Theorem trailing_slice_keeps_primary (self : WanModelMoe.t)
    (latents : tensor R) (latent_indices : option (tensor Z))
    (cl1 : option (tensor R)) (i1 : option (tensor Z))
    (cl2 : option (tensor R)) (i2 : option (tensor Z))
    (cl4 : option (tensor R)) (i4 : option (tensor Z))
    (cam : option (tensor R)) (mi : option (list (string * tensor R)))
    (hs : tensor R) (rope : tensor C) (grid : list nat)
    (comb : option (tensor R)) (pm : option modality_dict)
    (pt p : nat) :
  WanModelMoe.patch_size self = (pt, p, p) →
  Conv3d.kernel_size (WanModelMoe.patch_embedding self) = (pt, p, p) →
  WanModelMoe.process_input_hidden_states self latents latent_indices
    cl1 i1 cl2 i2 cl4 i4 cam mi = Ok (hs, rope, grid, comb, pm) →
  ∃ B C0 T H W tp z,
    shape latents = [B; C0; T; H; W]
    ∧ WanModelMoe.patchify self latents = Ok (tp, grid)
    ∧ grid = [T / pt; H / p; W / p]
    ∧ py_slice 1 (- Z.of_nat (T / pt * (H / p) * (W / p)))
        (Z.of_nat (ix (shape hs) 1)) hs = Ok z
    ∧ shape z = shape tp
    ∧ ∀ b i c, item z [b; i; c] = item tp [b; i; c].
Proof.
  intros Hps Hk Hp.
  destruct (assembly_structure _ _ _ _ _ _ _ _ _ _ _ _ _ _ _ _ Hp)
    as (B & f & h & w & tp & rp & ts & F & s1 & s2 & s4 & Hpat & -> & Htp & Hrp
        & Hts & Hrps & Hs1 & Hs2 & Hs4 & Hf1 & Hf2 & Hf4 & -> & ->).
  assert (Hgrid : ∃ C0 T H W,
            shape latents = [B; C0; T; H; W]
            ∧ 0 < pt ≤ T ∧ 0 < p ≤ H ∧ 0 < p ≤ W
            ∧ f = T / pt ∧ h = H / p ∧ w = W / p).
  { revert Hpat. unfold WanModelMoe.patchify.
    destruct (Conv3d.forward _ latents) as [y|] eqn:Ey;
      cbn [mbind result_bind]; [|discriminate].
    destruct (Conv3d_forward_sizes _ _ _ _ _ _ Hk Ey)
      as (b & T & H & W & Hl & HT & HH & HW & Hy).
    destruct (rearrange_to_tokens y) as [tok|] eqn:Etok;
      cbn [mbind result_bind]; [|discriminate].
    destruct (rearrange_to_tokens_shape _ _ Etok)
      as (b' & c' & f' & h' & w' & Hy' & Htok).
    rewrite Hy in Hy'. injection Hy' as <- <- <- <- <-.
    rewrite Hy. cbn [drop]. intros [= <- <- <- <-].
    rewrite Htok in Htp. injection Htp as <-.
    exists (Conv3d.in_channels (WanModelMoe.patch_embedding self)), T, H, W.
    done. }
  destruct Hgrid as (C0 & T & H & W & Hl & HT & HH & HW & -> & -> & ->).
  destruct (prepend_shapes _ _ _ _ _ _ _ _ Hf1 Htp Hrps) as [Ht1 Hr1].
  destruct (prepend_shapes _ _ _ _ _ _ _ _ Hf2 Ht1 Hr1) as [Ht2 Hr2].
  destruct (prepend_shapes _ _ _ _ _ _ _ _ Hf4 Ht2 Hr2) as [Ht4 Hr4].
  set (L := T / pt * (H / p) * (W / p)) in *.
  assert (HL : 0 < L).
  { unfold L. pose proof (Nat.div_str_pos T pt ltac:(lia)).
    pose proof (Nat.div_str_pos H p ltac:(lia)).
    pose proof (Nat.div_str_pos W p ltac:(lia)). nia. }
  exists B, C0, T, H, W, tp.
  unfold py_slice, slice. rewrite Ht4. cbn [lookup list_lookup ix nth].
  rewrite (py_bound_neg _ L HL), py_bound_nat.
  eexists. split; [exact Hl|]. split; [exact Hpat|]. split; [reflexivity|].
  split; [reflexivity|].
  unfold slice_axis. cbn [shape item]. rewrite Ht4.
  cbn [insert list_insert alter list_alter].
  split.
  { rewrite Htp. f_equal. f_equal. lia. }
  intros b i c.
  match goal with
  | |- context [i + ?k] =>
      replace (i + k)
        with (seg_tokens s4 + (seg_tokens s2 + (seg_tokens s1 + i))) by lia
  end.
  rewrite (prepend_tokens_item _ tp).
  destruct (Nat.ltb_spec (seg_tokens s4 + (seg_tokens s2 + (seg_tokens s1 + i)))
              (seg_tokens s4)); [lia|].
  rewrite (prepend_tokens_item _ tp).
  match goal with
  | |- context [?a <? seg_tokens s2] =>
      destruct (Nat.ltb_spec a (seg_tokens s2)); [lia|]
  end.
  rewrite (prepend_tokens_item _ tp).
  match goal with
  | |- context [?a <? seg_tokens s1] =>
      destruct (Nat.ltb_spec a (seg_tokens s1)); [lia|]
  end.
  match goal with
  | |- item tp [b; ?k; c] = _ => replace k with i by lia
  end.
  reflexivity.
Qed.

Lemma trailing_slice_keeps_primary_witness :
  ∃ hs rope grid comb pm tp z,
    WanModelMoe.process_input_hidden_states (model_with_embedder (1, 2, 2))
      (zeros_like [1; 16; 4; 16; 16]) None
      (Some (zeros_like [1; 16; 2; 16; 16]))
      (Some (Tensor [1; 2] (λ idx, Z.of_nat (ix idx 1))))
      None None None None None None
    = Ok (hs, rope, grid, comb, pm)
    ∧ WanModelMoe.patchify (model_with_embedder (1, 2, 2))
        (zeros_like [1; 16; 4; 16; 16]) = Ok (tp, grid)
    ∧ py_slice 1 (- Z.of_nat (4 * 8 * 8)) (Z.of_nat (ix (shape hs) 1)) hs
      = Ok z
    ∧ shape z = shape tp.
Proof.
  assert (Hok : is_ok (WanModelMoe.process_input_hidden_states
                 (model_with_embedder (1, 2, 2))
                 (zeros_like [1; 16; 4; 16; 16]) None
                 (Some (zeros_like [1; 16; 2; 16; 16]))
                 (Some (Tensor [1; 2] (λ idx, Z.of_nat (ix idx 1))))
                 None None None None None None) = true)
    by (vm_compute; reflexivity).
  apply is_ok_inv in Hok. destruct Hok as [[[[[hs rope] grid] comb] pm] E].
  pose proof (trailing_slice_keeps_primary (model_with_embedder (1, 2, 2))
                _ _ _ _ _ _ _ _ _ _ _ _ _ _ _ 1 2 eq_refl eq_refl E) as HH.
  destruct HH as (B & C0 & T & H & W & tp & z & Hsh & Hp & Hg & Hz & Hs & _).
  injection Hsh as <- <- <- <- <-.
  exists hs, rope, grid, comb, pm, tp, z.
  split; [exact E|]. split; [exact Hp|]. split; [exact Hz|exact Hs].
Defined.

(** ** The sinusoidal time embedding *)

Theorem sinusoidal_embedding_1d_spec (dim : nat) (position : tensor R)
    (n : nat) :
  shape position = [n] →
  ∃ y,
    sinusoidal_embedding_1d dim position = Ok y
    ∧ shape y = [n; dim / 2 + dim / 2]
    ∧ ∀ i k, k < dim / 2 →
        let angle :=
          (item position [i] * Rpower 10000 (- (INR k / INR (dim / 2))))%R in
        item y [i; k] = cos angle
        ∧ item y [i; dim / 2 + k] = sin angle
        ∧ (item y [i; k] * item y [i; k]
           + item y [i; (dim / 2 + k)%nat] * item y [i; (dim / 2 + k)%nat]
           = 1)%R.
Proof.
  intros Hp. unfold sinusoidal_embedding_1d. rewrite Hp.
  cbn [length Nat.eqb]. unfold cat2, outer, arange.
  cbn [tmap shape length Nat.ltb Nat.leb andb delete list_delete ix nth].
  rewrite Hp. cbn [nth].
  destruct (decide _) as [_|Hne]; [|by destruct Hne].
  eexists. split; [reflexivity|]. unfold cat_axis.
  cbn [shape item ix nth insert list_insert].
  replace (dim / 2 - 0 + (1 - 1)) with (dim / 2) by lia.
  rewrite Nat.div_1_r. split; [reflexivity|].
  intros i k Hk. cbn zeta. cbn [tmap shape item ix nth].
  destruct (Nat.ltb_spec k (dim / 2)); [|lia].
  destruct (Nat.ltb_spec (dim / 2 + k) (dim / 2)); [lia|].
  replace (dim / 2 + k - dim / 2) with k by lia.
  unfold pow_base. replace (0 + 1 * k) with k by lia.
  split; [reflexivity|]. split; [reflexivity|].
  set (a := (item position [i] * _)%R).
  pose proof (sin2_cos2 a) as Hsc. unfold Rsqr in Hsc. lra.
Qed.

Lemma sinusoidal_embedding_1d_spec_witness :
  ∃ y,
    sinusoidal_embedding_1d 256 (Tensor [1] (λ _, 500%R)) = Ok y
    ∧ shape y = [1; 256].
Proof.
  destruct (sinusoidal_embedding_1d_spec 256 (Tensor [1] (λ _, 500%R)) 1
              eq_refl) as (y & Hy & Hs & _).
  exists y. split; [exact Hy|exact Hs].
Defined.

Lemma sinusoidal_embedding_1d_shape (dim : nat) (position y : tensor R) :
  sinusoidal_embedding_1d dim position = Ok y →
  ∃ n, shape y = [n; dim / 2 + dim / 2].
Proof.
  unfold sinusoidal_embedding_1d.
  destruct (shape position) as [|n [|? ?]] eqn:Hp; try discriminate.
  cbn [length Nat.eqb]. intros Hy. apply cat2_shape in Hy as (-> & _ & _).
  exists n. unfold cat_axis, outer, arange.
  cbn [tmap shape ix nth insert list_insert]. rewrite Hp. cbn [nth].
  replace (dim / 2 - 0 + (1 - 1)) with (dim / 2) by lia.
  by rewrite Nat.div_1_r.
Qed.

(** The embedding has [2 * (freq_dim // 2)] columns, one fewer than the
    first time-embedding layer expects when [freq_dim] is odd. *)
Theorem odd_freq_dim_rejected (self : WanModelMoe.t)
    (context : option (tensor R)) (timestep : tensor R) :
  Linear.in_features (WanModelMoe.time_embedding self).1
    = WanModelMoe.freq_dim self →
  WanModelMoe.freq_dim self mod 2 = 1 →
  is_ok (WanModelMoe.embed_conditioning self context timestep) = false.
Proof.
  intros Hin Hodd. unfold WanModelMoe.embed_conditioning.
  match goal with
  | |- is_ok (mbind _ ?r) = false =>
      destruct r as [c|]; cbn [mbind result_bind is_ok]; [|reflexivity]
  end.
  destruct (sinusoidal_embedding_1d _ timestep) as [se|] eqn:Ese;
    cbn [mbind result_bind is_ok]; [|reflexivity].
  destruct (sinusoidal_embedding_1d_shape _ _ _ Ese) as [n Hse].
  assert (Hl : is_ok (Linear.forward (WanModelMoe.time_embedding self).1 se)
               = false).
  { unfold Linear.forward. rewrite Hse. cbn [last]. rewrite Hin.
    pose proof (Nat.div_mod_eq (WanModelMoe.freq_dim self) 2) as Hdm.
    destruct (Nat.eqb_spec (WanModelMoe.freq_dim self / 2
                            + WanModelMoe.freq_dim self / 2)
                (WanModelMoe.freq_dim self)); [lia|].
    reflexivity. }
  destruct (Linear.forward (WanModelMoe.time_embedding self).1 se);
    [discriminate|reflexivity].
Qed.

Lemma odd_freq_dim_rejected_witness :
  is_ok (WanModelMoe.embed_conditioning
           (WanModelMoe.init 64 16 128 16 4096 255 (1 / 1000000)%R (1, 2, 2)
              4 1 false false None zero_params)
           None (Tensor [1] (λ _, 500%R))) = false.
Proof.
  apply odd_freq_dim_rejected; reflexivity.
Defined.

(** ** [RMSNorm] *)

Lemma fsum_ext {A} (f g : A → R) (l : list A) :
  (∀ a, a ∈ l → f a = g a) → fsum (f <$> l) = fsum (g <$> l).
Proof.
  induction l as [|a l IH]; intros Hfg; [reflexivity|].
  cbn [fmap list_fmap]. unfold fsum in *. cbn [foldr].
  rewrite Hfg by left. f_equal. apply IH. intros a' Ha'. apply Hfg. by right.
Qed.

Lemma fsum_scale {A} (f : A → R) (k : R) (l : list A) :
  fsum ((λ a, f a * k)%R <$> l) = (fsum (f <$> l) * k)%R.
Proof.
  induction l as [|a l IH]; unfold fsum in *; cbn [fmap list_fmap foldr].
  - cbn. ring.
  - rewrite IH. cbn. ring.
Qed.







(** ** Camera embeddings of the clean latents *)

Lemma foldr_min_le (a : Z) (l : list Z) : (foldr Z.min a l ≤ a)%Z.
Proof. induction l as [|b l IH]; cbn [foldr]; lia. Qed.

Lemma foldr_max_ge (a : Z) (l : list Z) : (a ≤ foldr Z.max a l)%Z.
Proof. induction l as [|b l IH]; cbn [foldr]; lia. Qed.

Lemma tmin_le_tmax (x : tensor Z) (lo hi : Z) :
  WanModelMoe.tmin x = Ok lo → WanModelMoe.tmax x = Ok hi → (lo ≤ hi)%Z.
Proof.
  unfold WanModelMoe.tmin, WanModelMoe.tmax.
  destruct (to_list x) as [|a l]; [discriminate|].
  intros [= <-] [= <-].
  pose proof (foldr_min_le a l). pose proof (foldr_max_ge a l). lia.
Qed.

(** [clean_end] is [max + 1 - start], so it never equals [clean_start]:
    the camera of the 1x clean latents always consists of the two frames
    [clean_start] and [clean_end] of [cam_emb], whatever the number of
    clean frames. *)
Theorem clean_camera_1x_two_frames (h w : nat) (start_indice : Z)
    (cam_emb : tensor R) (clean_latent_indices : tensor Z) (sp : tensor R) :
  WanModelMoe.clean_camera_1x h w start_indice cam_emb clean_latent_indices
    = Ok sp →
  ∃ B n d row lo hi,
    shape cam_emb = [B; n; d]
    ∧ select 0 0 clean_latent_indices = Ok row
    ∧ WanModelMoe.tmin row = Ok lo
    ∧ WanModelMoe.tmax row = Ok hi
    ∧ shape sp = [B; 2 * h * w; d]
    ∧ ∀ b pos k, pos < h * w →
        item sp [b; pos; k]
        = item cam_emb [b; py_bound n (lo - start_indice); k]
        ∧ item sp [b; h * w + pos; k]
          = item cam_emb [b; py_bound n (hi + 1 - start_indice); k].
Proof.
  unfold WanModelMoe.clean_camera_1x.
  destruct (select 0 0 clean_latent_indices) as [row|] eqn:Erow;
    cbn [mbind result_bind]; [|discriminate].
  destruct (WanModelMoe.tmin row) as [lo|] eqn:Elo; cbn [mbind result_bind];
    [|discriminate].
  destruct (WanModelMoe.tmax row) as [hi|] eqn:Ehi; cbn [mbind result_bind];
    [|discriminate].
  pose proof (tmin_le_tmax _ _ _ Elo Ehi) as Hle.
  destruct (Z.eqb_spec (lo - start_indice) (hi + 1 - start_indice)) as [Hc|_];
    [lia|].
  unfold WanModelMoe.camera_index_list.
  destruct (length (shape cam_emb) <? 3) eqn:Hlen; cbn [mbind result_bind];
    [discriminate|].
  cbn [mapM mbind result_bind mret result_ret].
  set (n0 := ix (shape cam_emb) 1).
  destruct ((- Z.of_nat n0 <=? lo - start_indice)%Z
            && (lo - start_indice <? Z.of_nat n0)%Z);
    cbn [mbind result_bind]; [|discriminate].
  destruct ((- Z.of_nat n0 <=? hi + 1 - start_indice)%Z
            && (hi + 1 - start_indice <? Z.of_nat n0)%Z);
    cbn [mbind result_bind]; [|discriminate].
  unfold WanModelMoe.camera_spatial. cbn [shape length].
  subst n0.
  destruct (shape cam_emb) as [|B [|n [|d [|? ?]]]] eqn:Hcam;
    cbn [insert list_insert]; try discriminate.
  unfold rearrange_spatial. cbn [shape]. intros [= <-].
  exists B, n, d, row, lo, hi.
  split; [reflexivity|]. split; [reflexivity|]. split; [exact Elo|].
  split; [exact Ehi|]. cbn [shape length]. split; [reflexivity|].
  intros b pos k Hpos. cbn [item ix nth alter list_alter].
  assert (Hhw : 0 < h * w) by lia.
  rewrite (Nat.div_small pos (h * w)) by lia.
  replace (h * w + pos) with (pos + 1 * (h * w)) by lia.
  rewrite Nat.div_add by lia. rewrite (Nat.div_small pos (h * w)) by lia.
  split; reflexivity.
Qed.

Lemma clean_camera_1x_two_frames_witness :
  ∃ sp,
    WanModelMoe.clean_camera_1x 8 8 0 (zeros_like [1; 6; 12])
      (Tensor [1; 1] (λ _, 0%Z)) = Ok sp
    ∧ shape sp = [1; 2 * 8 * 8; 12].
Proof.
  assert (Hok : is_ok (WanModelMoe.clean_camera_1x 8 8 0
                         (zeros_like [1; 6; 12]) (Tensor [1; 1] (λ _, 0%Z)))
                = true) by (vm_compute; reflexivity).
  apply is_ok_inv in Hok. destruct Hok as [sp E].
  exists sp. split; [exact E|].
  pose proof (clean_camera_1x_two_frames _ _ _ _ _ _ E) as HH.
  destruct HH as (B & n & d & row & lo & hi & Hc & _ & _ & _ & Hs & _).
  injection Hc as <- <- <-. exact Hs.
Defined.

(** ** The prediction returned by [forward] *)

Lemma patchify_grid (self : WanModelMoe.t) (latents tp : tensor R)
    (grid : list nat) (kt kh kw : nat) :
  Conv3d.kernel_size (WanModelMoe.patch_embedding self) = (kt, kh, kw) →
  WanModelMoe.patchify self latents = Ok (tp, grid) →
  ∃ B C0 T H W,
    shape latents = [B; C0; T; H; W]
    ∧ 0 < kt ≤ T ∧ 0 < kh ≤ H ∧ 0 < kw ≤ W
    ∧ grid = [T / kt; H / kh; W / kw].
Proof.
  intros Hk. unfold WanModelMoe.patchify.
  destruct (Conv3d.forward _ latents) as [y|] eqn:Ey;
    cbn [mbind result_bind]; [|discriminate].
  destruct (Conv3d_forward_sizes _ _ _ _ _ _ Hk Ey)
    as (b & T & H & W & Hl & HT & HH & HW & Hy).
  destruct (rearrange_to_tokens y) as [tok|] eqn:Etok;
    cbn [mbind result_bind]; [|discriminate].
  rewrite Hy. cbn [drop]. intros [= <- <-].
  exists b, (Conv3d.in_channels (WanModelMoe.patch_embedding self)), T, H, W.
  done.
Qed.

Lemma Linear_forward_last (l : Linear.t R) (x y : tensor R) :
  Linear.forward l x = Ok y →
  length (shape y) = length (shape x)
  ∧ last (shape y) = Some (Linear.out_features l).
Proof.
  unfold Linear.forward.
  destruct (last (shape x)) as [d|] eqn:Hlast; [|discriminate].
  destruct (d =? Linear.in_features l); [|discriminate].
  intros [= <-]. cbn [shape]. split.
  - rewrite length_app, length_take. cbn [length].
    destruct (shape x); [discriminate|]. cbn [length]. lia.
  - apply last_snoc.
Qed.

Lemma global_router_loss (self : WanModelMoe.t) (pm : option modality_dict)
    (w : option (tensor R)) (i : option (tensor Z)) (loss : tensor R) :
  WanModelMoe.global_router self pm = Ok (w, i, loss) →
  loss = scalar_tensor 0%R.
Proof.
  unfold WanModelMoe.global_router.
  destruct (_ && _); [|by intros [= _ _ <-]].
  destruct (DiTBlockWithMoE.combine_modalities _) as [[[c|] a]|];
    cbn [mbind result_bind]; try discriminate; [|by intros [= _ _ <-]].
  unfold WanModelMoe.compute_router_decisions.
  destruct (unpack3 _) as [[[? ?] ?]|]; cbn [mbind result_bind];
    [|discriminate].
  by intros [= _ _ <-].
Qed.

(** Whenever [forward] returns, the prediction has the five axes of the
    latent: the channels are [out_dim], and frames, height and width are
    those of the latent rounded down to a multiple of the patch size.
    The specialization loss is the constant 0. *)
Theorem forward_output_shape (self : WanModelMoe.t)
    (latents timestep : tensor R) (cam_emb : option (tensor R))
    (latent_indices : option (tensor Z))
    (cl1 : option (tensor R)) (i1 : option (tensor Z))
    (cl2 : option (tensor R)) (i2 : option (tensor Z))
    (cl4 : option (tensor R)) (i4 : option (tensor Z))
    (modality_inputs : option (list (string * tensor R)))
    (context : option (tensor R))
    (y loss : tensor R) (self' : WanModelMoe.t) (pt ph pw out_dim : nat) :
  WanModelMoe.patch_size self = (pt, ph, pw) →
  Conv3d.kernel_size (WanModelMoe.patch_embedding self) = (pt, ph, pw) →
  Linear.out_features (Head.head (WanModelMoe.head self))
    = out_dim * (pt * ph * pw) →
  WanModelMoe.forward self latents timestep cam_emb latent_indices
    cl1 i1 cl2 i2 cl4 i4 modality_inputs context = Ok (y, loss, self') →
  ∃ b B C0 T H W,
    shape latents = [B; C0; T; H; W]
    ∧ shape y = [b; out_dim; T / pt * pt; H / ph * ph; W / pw * pw]
    ∧ T / pt * pt ≤ T ∧ H / ph * ph ≤ H ∧ W / pw * pw ≤ W
    ∧ loss = scalar_tensor 0%R.
Proof.
  intros Hps Hk Hout. unfold WanModelMoe.forward.
  destruct (WanModelMoe.process_modality_inputs self modality_inputs)
    as [[[mi cam]|]|]; cbn [mbind result_bind]; try discriminate.
  destruct (WanModelMoe.process_input_hidden_states _ _ _ _ _ _ _ _ _ _ _)
    as [[[[[hs rope] grid] pcam] pmi]|] eqn:Ep; cbn [mbind result_bind];
    [|discriminate].
  destruct (assembly_structure _ _ _ _ _ _ _ _ _ _ _ _ _ _ _ _ Ep)
    as (B & f & h & w & tp & rp & ts & F & s1 & s2 & s4 & Hpat & Hg & _).
  destruct (patchify_grid _ _ _ _ _ _ _ Hk Hpat)
    as (B' & C0 & T & H & W & Hl & HT & HH & HW & Hgrid).
  rewrite Hl. cbn [unpack5 mbind result_bind].
  destruct (WanModelMoe.embed_conditioning self context timestep)
    as [[[ctx t_] t_mod]|]; cbn [mbind result_bind]; [|discriminate].
  destruct (assert _ _); cbn [mbind result_bind]; [|discriminate].
  destruct (WanModelMoe.global_router self pmi) as [[[rw ri] loss0]|] eqn:Er;
    cbn [mbind result_bind]; [|discriminate].
  apply global_router_loss in Er. subst loss0.
  destruct (foldlM _ _ _) as [[hs' blocks']|]; cbn [mbind result_bind];
    [|discriminate].
  destruct (py_slice _ _ _ _) as [hs2|]; cbn [mbind result_bind];
    [|discriminate].
  destruct (Head.forward _ _ _) as [hh|] eqn:Eh; cbn [mbind result_bind];
    [|discriminate].
  destruct (WanModelMoe.unpatchify self hh grid) as [y0|] eqn:Eu;
    cbn [mbind result_bind]; [|discriminate].
  intros [= <- <- _].
  assert (Hlast : last (shape hh)
                  = Some (Linear.out_features (Head.head (WanModelMoe.head self)))).
  { revert Eh. unfold Head.forward.
    repeat match goal with
           | |- mbind _ ?r = Ok _ → _ =>
               destruct r; cbn [mbind result_bind]; [|discriminate]
           | |- (let '(_, _) := ?p in _) = Ok _ → _ => destruct p
           end.
    intros Eh. by apply Linear_forward_last in Eh as [_ ?]. }
  revert Eu. unfold WanModelMoe.unpatchify. rewrite Hgrid, Hps.
  cbn [getitem lookup list_lookup mbind result_bind].
  destruct (shape hh) as [|b [|l [|d [|? ?]]]] eqn:Hhh; try discriminate.
  cbn [last] in Hlast. injection Hlast as ->.
  destruct (_ && _) eqn:Hc; [|discriminate].
  intros [= <-]. cbn [shape].
  exists b, B', C0, T, H, W. split; [reflexivity|].
  apply andb_prop in Hc as [Hc _]. apply andb_prop in Hc as [_ Hpos].
  apply Nat.ltb_lt in Hpos.
  split.
  { rewrite Hout. rewrite Nat.div_mul by lia. reflexivity. }
  pose proof (Nat.Div0.mul_div_le T pt). pose proof (Nat.Div0.mul_div_le H ph).
  pose proof (Nat.Div0.mul_div_le W pw).
  repeat split; lia.
Qed.

(** ** The layers attached by the training module *)

Lemma fsum_zero {X} (f : X → R) (l : list X) :
  (∀ i, f i = 0%R) → fsum (f <$> l) = 0%R.
Proof.
  intros Hf. induction l as [|a l IH]; [reflexivity|].
  cbn [fmap list_fmap]. unfold fsum in *. cbn [foldr].
  rewrite IH, Hf. cbn [fadd R_scalar]. lra.
Qed.

Lemma fsum_eye_seq (a : nat → R) (j s n : nat) :
  fsum ((λ i, a i * LightningModelForTrain.eye j i)%R <$> seq s n)
  = if (s <=? j) && (j <? s + n) then a j else 0%R.
Proof.
  revert s. induction n as [|n IH]; intros s.
  - cbn [seq fmap list_fmap]. unfold fsum. cbn [foldr fzero R_scalar].
    destruct (Nat.leb_spec s j), (Nat.ltb_spec j (s + 0));
      cbn [andb]; try reflexivity; lia.
  - cbn [seq fmap list_fmap]. unfold fsum in *. cbn [foldr].
    rewrite IH. cbn [fadd R_scalar]. unfold LightningModelForTrain.eye.
    destruct (Nat.eqb_spec j s) as [->|Hne].
    + destruct (Nat.leb_spec (S s) s); [lia|]. cbn [andb].
      destruct (Nat.leb_spec s s); [|lia].
      destruct (Nat.ltb_spec s (s + S n)); [|lia]. cbn [andb]. lra.
    + destruct (Nat.leb_spec (S s) j), (Nat.ltb_spec j (S s + n)),
        (Nat.leb_spec s j), (Nat.ltb_spec j (s + S n));
        cbn [andb]; try lia; lra.
Qed.

Lemma in_bounds_snoc (sh idx : list nat) :
  in_bounds sh idx → sh ≠ [] →
  idx = take (length sh - 1) idx ++ [nth (length sh - 1) idx 0]
  ∧ ∃ d, last sh = Some d ∧ nth (length sh - 1) idx 0 < d.
Proof.
  unfold in_bounds. intros Hb. induction Hb as [|i n idx sh Hi Hb IH];
    [done|]. intros _.
  destruct Hb as [|i' n' idx' sh' Hi' Hb'].
  - cbn. split; [reflexivity|]. by exists n.
  - destruct IH as [IH1 (d & Hd1 & Hd2)]; [done|].
    cbn [length] in *. replace (S (S (length sh')) - 1) with (S (length sh'))
      by lia.
    replace (S (length sh') - 1) with (length sh') in * by lia.
    split; [cbn [take nth app]; f_equal; exact IH1|]. cbn [nth].
    exists d. split; [|exact Hd2]. exact Hd1.
Qed.

(** The shared part of the model is left as it was. *)
Lemma attach_camera_layers_keeps (dit dit' : WanModelMoe.t) :
  LightningModelForTrain.attach_camera_layers dit = Ok dit' →
  WanModelMoe.patch_size dit' = WanModelMoe.patch_size dit
  ∧ WanModelMoe.patch_embedding dit' = WanModelMoe.patch_embedding dit
  ∧ WanModelMoe.head dit' = WanModelMoe.head dit.
Proof.
  unfold LightningModelForTrain.attach_camera_layers.
  destruct (getitem _ 0); cbn [mbind result_bind]; [|discriminate].
  by intros [= <-].
Qed.

(** The loop over the blocks in [__init__] of the training module needs a
    first block, and gives every block a camera encoder that maps every
    camera embedding of width 12 to zero and a projector that returns its
    input: right after construction the camera embedding does not
    contribute and the projector changes nothing. *)
Theorem attach_camera_layers_spec (dit dit' : WanModelMoe.t) :
  LightningModelForTrain.attach_camera_layers dit = Ok dit' →
  ∃ block0,
    WanModelMoe.blocks dit !! 0 = Some block0
    ∧ length (WanModelMoe.blocks dit') = length (WanModelMoe.blocks dit)
    ∧ ∀ block, block ∈ WanModelMoe.blocks dit' →
        ∃ enc proj,
          DiTBlockWithMoE.cam_encoder block = Some enc
          ∧ DiTBlockWithMoE.projector block = Some proj
          ∧ (∀ cam, last (shape cam) = Some 12 →
               ∃ z, Linear.forward enc cam = Ok z
                    ∧ length (shape z) = length (shape cam)
                    ∧ ∀ idx, item z idx = 0%R)
          ∧ (∀ x,
               last (shape x)
               = Some (ix (shape (Linear.weight
                                    (SelfAttention.q
                                       (DiTBlockWithMoE.self_attn block0)))) 0) →
               ∃ z, Linear.forward proj x = Ok z ∧ tensor_eq z x).
Proof.
  unfold LightningModelForTrain.attach_camera_layers, getitem.
  destruct (WanModelMoe.blocks dit !! 0) as [block0|] eqn:Hb0;
    cbn [mbind result_bind]; [|discriminate].
  intros [= <-]. exists block0. split; [reflexivity|].
  cbn [WanModelMoe.set_blocks WanModelMoe.blocks].
  split; [by rewrite length_fmap|].
  intros block Hin. apply list_elem_of_fmap in Hin as (b & -> & _).
  set (dim := ix _ 0).
  eexists _, _. split; [reflexivity|]. split; [reflexivity|]. split.
  - intros cam Hlast. unfold Linear.forward. rewrite Hlast.
    cbn [Linear.init Linear.in_features Linear.out_features Nat.eqb].
    eexists. split; [reflexivity|]. cbn [shape item]. split.
    + rewrite length_app, length_take. cbn [length].
      apply last_Some in Hlast as [l' ->]. rewrite length_app.
      cbn [length]. lia.
    + intros idx. unfold Linear.apply_row, Linear.init.
      cbn [Linear.weight Linear.bias Linear.in_features item].
      rewrite fsum_zero; [cbn [fadd R_scalar]; lra|].
      intros i. cbn [fmul R_scalar]. lra.
  - intros x Hlast. unfold Linear.forward. rewrite Hlast.
    cbn [Linear.init Linear.in_features Linear.out_features].
    rewrite Nat.eqb_refl. eexists. split; [reflexivity|].
    assert (Hne : shape x ≠ []) by (intros E; by rewrite E in Hlast).
    assert (Hsh : take (length (shape x) - 1) (shape x) ++ [dim] = shape x).
    { rewrite <- (take_drop (length (shape x) - 1) (shape x)) at 3.
      f_equal. apply last_Some in Hlast as [l' Hl'].
      rewrite Hl', length_app. cbn [length].
      replace (length l' + 1 - 1) with (length l') by lia.
      by rewrite drop_app_length. }
    split; [exact Hsh|].
    cbn [shape item]. rewrite Hsh. intros idx Hidx'.
      destruct (in_bounds_snoc _ _ Hidx' Hne) as [Hsplit (d & Hd & Hlt)].
      rewrite Hlast in Hd. injection Hd as <-.
      unfold Linear.apply_row, Linear.init.
      cbn [Linear.weight Linear.bias Linear.in_features item nth].
      cbn [fadd fmul R_scalar].
      rewrite (fsum_eye_seq (λ i, item x (take (length (shape x) - 1) idx ++ [i]))).
      destruct (Nat.leb_spec 0 (nth (length (shape x) - 1) idx 0)); [|lia].
      destruct (Nat.ltb_spec (nth (length (shape x) - 1) idx 0) (0 + dim));
        [|lia].
      cbn [andb]. rewrite <- Hsplit. lra.
Qed.

Lemma attach_camera_layers_spec_witness :
  ∃ m,
    LightningModelForTrain.attach_camera_layers small_model = Ok m
    ∧ length (WanModelMoe.blocks m) = 1.
Proof.
  assert (Hok : is_ok (LightningModelForTrain.attach_camera_layers small_model)
                = true) by (vm_compute; reflexivity).
  apply is_ok_inv in Hok. destruct Hok as [m E].
  exists m. split; [exact E|].
  destruct (attach_camera_layers_spec _ _ E) as (b0 & _ & Hlen & _).
  exact Hlen.
Defined.

(** The small model with the layers of the training module attached
    returns a prediction of the shape of its latent. *)
Lemma forward_output_shape_witness :
  ∃ m y loss m',
    LightningModelForTrain.attach_camera_layers small_model = Ok m
    ∧ WanModelMoe.forward m (zeros_like [1; 1; 2; 4; 4]) (zeros_like [1])
        None None None None None None None None
        (Some [("sekai", zeros_like [1; 2; 12])])
        (Some (zeros_like [1; 3; 2])) = Ok (y, loss, m')
    ∧ ∃ b, shape y = [b; 1; 2; 4; 4].
Proof.
  assert (Hok : is_ok (m ← LightningModelForTrain.attach_camera_layers
                             small_model;
                       WanModelMoe.forward m (zeros_like [1; 1; 2; 4; 4])
                         (zeros_like [1])
                         None None None None None None None None
                         (Some [("sekai", zeros_like [1; 2; 12])])
                         (Some (zeros_like [1; 3; 2]))) = true)
    by (vm_compute; reflexivity).
  destruct (LightningModelForTrain.attach_camera_layers small_model)
    as [m|] eqn:Em; [|discriminate Hok].
  cbn [mbind result_bind] in Hok.
  apply is_ok_inv in Hok. destruct Hok as [[[y loss] m'] E].
  destruct (attach_camera_layers_keeps _ _ Em) as (Hp & Hk & Hh).
  pose proof (forward_output_shape m _ _ _ _ _ _ _ _ _ _ _ _ _ _ _ 1 2 2 1
                (eq_trans Hp eq_refl) (eq_trans (f_equal _ Hk) eq_refl)
                (eq_trans (f_equal (λ h, Linear.out_features (Head.head h)) Hh)
                   eq_refl) E) as HH.
  destruct HH as (b & B & C0 & T & H & W & Hl & Hy & _).
  injection Hl as <- <- <- <- <-.
  exists m, y, loss, m'. split; [reflexivity|]. split; [exact E|].
  exists b. exact Hy.
Defined.

(** ** The centre crop of the training step *)

(** A latent that exceeds both targets is cropped to 40 by 70 around its
    centre. *)
Theorem crop_latents_centre {A} (latents : tensor A) (b c t H W : nat) :
  shape latents = [b; c; t; H; W] →
  40 < H → 70 < W →
  ∃ y,
    LightningModelForTrain.crop_latents latents = Ok y
    ∧ shape y = [b; c; t; 40; 70]
    ∧ (H - 40) / 2 + 40 ≤ H ∧ (W - 70) / 2 + 70 ≤ W
    ∧ ∀ i j k r s,
        item y [i; j; k; r; s]
        = item latents [i; j; k; r + (H - 40) / 2; s + (W - 70) / 2].
Proof.
  intros Hs HH HW. unfold LightningModelForTrain.crop_latents.
  replace (length (shape latents) <? 5) with false
    by (rewrite Hs; reflexivity).
  rewrite Hs. cbn [ix nth].
  unfold LightningModelForTrain.target_height,
    LightningModelForTrain.target_width.
  destruct (Nat.ltb_spec 40 H); [|lia]. cbn [orb].
  assert (Hh : ((Z.of_nat H - Z.of_nat 40) / 2)%Z = Z.of_nat ((H - 40) / 2)).
  { rewrite Nat2Z.inj_div, Nat2Z.inj_sub by lia. reflexivity. }
  assert (Hw : ((Z.of_nat W - Z.of_nat 70) / 2)%Z = Z.of_nat ((W - 70) / 2)).
  { rewrite Nat2Z.inj_div, Nat2Z.inj_sub by lia. reflexivity. }
  rewrite Hh, Hw.
  pose proof (Nat.Div0.mul_div_le (H - 40) 2) as Hd1.
  pose proof (Nat.Div0.mul_div_le (W - 70) 2) as Hd2.
  set (hs := (H - 40) / 2) in *. set (ws := (W - 70) / 2) in *.
  unfold py_slice, slice. rewrite Hs. cbn [lookup list_lookup].
  cbn [mbind result_bind]. unfold slice_axis. cbn [shape].
  rewrite Hs. cbn [insert list_insert lookup list_lookup].
  eexists. split; [reflexivity|].
  unfold py_bound.
  destruct (Z.ltb_spec (Z.of_nat hs) 0); [lia|].
  destruct (Z.ltb_spec (Z.of_nat hs + Z.of_nat 40) 0); [lia|].
  destruct (Z.ltb_spec (Z.of_nat ws) 0); [lia|].
  destruct (Z.ltb_spec (Z.of_nat ws + Z.of_nat 70) 0); [lia|].
  rewrite !Nat2Z.id.
  replace (Z.to_nat (Z.of_nat hs + Z.of_nat 40)) with (hs + 40) by lia.
  replace (Z.to_nat (Z.of_nat ws + Z.of_nat 70)) with (ws + 70) by lia.
  cbn [shape item insert list_insert alter list_alter].
  split; [solve [repeat (lia || f_equal)]|].
  split; [lia|]. split; [lia|].
  intros i j k r s. solve [repeat (lia || f_equal)].
Qed.

Lemma crop_latents_centre_witness :
  ∃ y,
    LightningModelForTrain.crop_latents (zeros_like [1; 16; 4; 60; 104])
    = Ok y
    ∧ shape y = [1; 16; 4; 40; 70].
Proof.
  destruct (crop_latents_centre (zeros_like [1; 16; 4; 60; 104])
              1 16 4 60 104 eq_refl ltac:(lia) ltac:(lia))
    as (y & Hy & Hs & _).
  exists y. split; [exact Hy|exact Hs].
Defined.

(** When only the height exceeds its target, the width is sliced as
    well, with a negative start: of a latent narrower than 70 only the
    last [(71 - W) / 2] columns remain (at most [W]), not the whole
    width. *)
Theorem crop_latents_narrow {A} (latents : tensor A) (b c t H W : nat) :
  shape latents = [b; c; t; H; W] →
  40 < H → W < 70 →
  ∃ y,
    LightningModelForTrain.crop_latents latents = Ok y
    ∧ shape y = [b; c; t; 40; W `min` ((71 - W) / 2)]
    ∧ ∀ i j k r s,
        item y [i; j; k; r; s]
        = item latents [i; j; k; r + (H - 40) / 2;
                        s + (W - (71 - W) / 2)].
Proof.
  intros Hs HH HW. unfold LightningModelForTrain.crop_latents.
  replace (length (shape latents) <? 5) with false
    by (rewrite Hs; reflexivity).
  rewrite Hs. cbn [ix nth].
  unfold LightningModelForTrain.target_height,
    LightningModelForTrain.target_width.
  destruct (Nat.ltb_spec 40 H); [|lia]. cbn [orb].
  assert (Hh : ((Z.of_nat H - Z.of_nat 40) / 2)%Z = Z.of_nat ((H - 40) / 2)).
  { rewrite Nat2Z.inj_div, Nat2Z.inj_sub by lia. reflexivity. }
  assert (Hw : ((Z.of_nat W - Z.of_nat 70) / 2)%Z
               = (- Z.of_nat ((71 - W) / 2))%Z).
  { rewrite Nat2Z.inj_div, Nat2Z.inj_sub by lia.
    change (Z.of_nat 71) with 71%Z. change (Z.of_nat 70) with 70%Z.
    change (Z.of_nat 2) with 2%Z.
    pose proof (Z.div_mod (Z.of_nat W - 70) 2 ltac:(lia)).
    pose proof (Z.mod_pos_bound (Z.of_nat W - 70) 2 ltac:(lia)).
    pose proof (Z.div_mod (71 - Z.of_nat W) 2 ltac:(lia)).
    pose proof (Z.mod_pos_bound (71 - Z.of_nat W) 2 ltac:(lia)).
    lia. }
  rewrite Hh, Hw.
  pose proof (Nat.Div0.mul_div_le (H - 40) 2) as Hd1.
  pose proof (Nat.Div0.mul_div_le (71 - W) 2) as Hd2.
  assert (Hk1 : 0 < (71 - W) / 2) by (apply Nat.div_str_pos; lia).
  set (hs := (H - 40) / 2) in *. set (k0 := (71 - W) / 2) in *.
  unfold py_slice, slice. rewrite Hs. cbn [lookup list_lookup].
  cbn [mbind result_bind]. unfold slice_axis. cbn [shape].
  rewrite Hs. cbn [insert list_insert lookup list_lookup].
  eexists. split; [reflexivity|].
  unfold py_bound.
  destruct (Z.ltb_spec (Z.of_nat hs) 0); [lia|].
  destruct (Z.ltb_spec (Z.of_nat hs + Z.of_nat 40) 0); [lia|].
  destruct (Z.ltb_spec (- Z.of_nat k0) 0); [|lia].
  destruct (Z.ltb_spec (- Z.of_nat k0 + Z.of_nat 70) 0); [lia|].
  rewrite !Nat2Z.id.
  replace (Z.to_nat (Z.of_nat hs + Z.of_nat 40)) with (hs + 40) by lia.
  replace (Z.to_nat (- Z.of_nat k0 + Z.of_nat 70)) with (70 - k0) by lia.
  replace (Z.to_nat (Z.of_nat W + - Z.of_nat k0)) with (W - k0) by lia.
  cbn [shape item insert list_insert alter list_alter].
  split; [solve [repeat (lia || f_equal)]|].
  intros i j k r s. solve [repeat (lia || f_equal)].
Qed.

Lemma crop_latents_narrow_witness :
  ∃ y,
    LightningModelForTrain.crop_latents (zeros_like [1; 16; 4; 50; 60])
    = Ok y
    ∧ shape y = [1; 16; 4; 40; 5].
Proof.
  destruct (crop_latents_narrow (zeros_like [1; 16; 4; 50; 60])
              1 16 4 50 60 eq_refl ltac:(lia) ltac:(lia))
    as (y & Hy & Hs & _).
  exists y. split; [exact Hy|exact Hs].
Defined.

(** ** Attention *)

Lemma fsum_pos {X} (f : X → R) (l : list X) :
  l ≠ [] → (∀ a, 0 < f a)%R → (0 < fsum (f <$> l))%R.
Proof.
  intros Hl Hf. destruct l as [|a l]; [done|]. clear Hl.
  revert a. induction l as [|b l IH]; intros a.
  - cbn [fmap list_fmap]. unfold fsum. cbn [foldr fadd fzero R_scalar].
    pose proof (Hf a). lra.
  - specialize (IH b). cbn [fmap list_fmap] in *. unfold fsum in *.
    cbn [foldr] in *. cbn [fadd R_scalar] in *. pose proof (Hf a). lra.
Qed.

(** Every entry of the attention output is a convex combination of the
    entries of [v] in the same column: the weights are positive, sum to
    one over the key positions, and depend on the batch, the head and the
    query position only. *)
Theorem flash_attention_convex (q k v : tensor R) (n b l s d : nat) :
  0 < n → d mod n = 0 → 0 < s →
  shape q = [b; l; d] → shape k = [b; s; d] → shape v = [b; s; d] →
  ∃ y (w : nat → nat → nat → nat → R),
    flash_attention q k v n = Ok y
    ∧ shape y = [b; l; d]
    ∧ (∀ i h a j, (0 < w i h a j)%R)
    ∧ (∀ i h a, fsum (w i h a <$> seq 0 s) = 1%R)
    ∧ ∀ i a c, c < d →
        item y [i; a; c]
        = fsum ((λ j, w i (c / (d / n))%nat a j * item v [i; j; c])%R
                  <$> seq 0 s).
Proof.
  intros Hn Hd Hs Hq Hk Hv.
  unfold flash_attention, rearrange_to_heads. rewrite Hq, Hk, Hv.
  destruct (Nat.ltb_spec 0 n); [|lia]. rewrite Hd.
  cbn [andb Nat.eqb mbind result_bind].
  unfold scaled_dot_product_attention. cbn [shape].
  rewrite broadcast_pair. cbn [mbind option_bind]. rewrite broadcast_pair.
  cbv zeta. rewrite !Nat.eqb_refl. cbn [andb mbind result_bind].
  unfold rearrange_from_heads. cbn [shape]. rewrite Nat.eqb_refl.
  set (score := λ i h a j : nat,
         (fsum ((λ c, item q [i; a; (h * (d / n) + c)%nat]
                      * item k [i; j; (h * (d / n) + c)%nat])%R
                  <$> seq 0 (d / n))
          / sqrt (INR (d / n)))%R).
  set (denom := λ i h a : nat, fsum ((λ j, exp (score i h a j)) <$> seq 0 s)).
  assert (Hden : ∀ i h a, (0 < denom i h a)%R).
  { intros i h a. unfold denom. apply fsum_pos.
    - destruct s; [lia|]. discriminate.
    - intros j. apply exp_pos. }
  eexists. exists (λ i h a j, (exp (score i h a j) / denom i h a)%R).
  split; [reflexivity|]. cbn [shape]. split.
  { do 2 f_equal. pose proof (Nat.div_mod_eq d n). f_equal. lia. }
  split.
  { intros i h a j. apply Rdiv_lt_0_compat; [apply exp_pos|apply Hden]. }
  split.
  { intros i h a. unfold Rdiv.
    rewrite (fsum_scale (λ j, exp (score i h a j)) (/ denom i h a)).
    fold (denom i h a). apply Rinv_r. pose proof (Hden i h a). lra. }
  intros i a c Hc. cbn [item ix nth].
  apply fsum_ext. intros j _.
  assert (Hdn : 0 < d / n).
  { apply Nat.div_str_pos. split; [lia|].
    destruct (Nat.le_gt_cases n d); [assumption|].
    rewrite Nat.mod_small in Hd by lia. lia. }
  replace (c / (d / n) * (d / n) + c mod (d / n)) with c
    by (pose proof (Nat.div_mod_eq c (d / n)); lia).
  reflexivity.
Qed.

Lemma flash_attention_convex_witness :
  ∃ y,
    flash_attention (Tensor [1; 2; 4] (λ idx, INR (ix idx 2)))
      (Tensor [1; 3; 4] (λ idx, INR (ix idx 1)))
      (Tensor [1; 3; 4] (λ idx, INR (ix idx 1 + ix idx 2))) 2 = Ok y
    ∧ shape y = [1; 2; 4].
Proof.
  destruct (flash_attention_convex
              (Tensor [1; 2; 4] (λ idx, INR (ix idx 2)))
              (Tensor [1; 3; 4] (λ idx, INR (ix idx 1)))
              (Tensor [1; 3; 4] (λ idx, INR (ix idx 1 + ix idx 2)))
              2 1 2 3 4 ltac:(lia) eq_refl ltac:(lia) eq_refl eq_refl eq_refl)
    as (y & w & Hy & Hs & _).
  exists y. split; [exact Hy|exact Hs].
Defined.

(** ** Strided down-sampling *)

Lemma ceil_div_lt (i n k : nat) :
  0 < k → i < (n + k - 1) / k → i * k < n.
Proof.
  intros Hk Hi.
  pose proof (Nat.div_mod_eq (n + k - 1) k) as H1.
  pose proof (Nat.mod_upper_bound (n + k - 1) k ltac:(lia)) as H2.
  nia.
Qed.

(** A tensor of five axes is sampled along its last three axes, one
    entry every [st], [sh], [sw] positions starting with the first: the
    sizes are divided by the steps and rounded up, and every entry of the
    result is an entry of the input. *)
Theorem center_down_sample_3d_spec {A} (x : tensor A)
    (b c t h w st sh sw : nat) :
  shape x = [b; c; t; h; w] →
  0 < st → 0 < sh → 0 < sw →
  ∃ y,
    WanModelMoe.center_down_sample_3d x (st, sh, sw) = Ok y
    ∧ shape y = [b; c; (t + st - 1) / st; (h + sh - 1) / sh;
                 (w + sw - 1) / sw]
    ∧ ∀ i j f r s,
        item y [i; j; f; r; s] = item x [i; j; f * st; r * sh; s * sw]
        ∧ (in_bounds (shape y) [i; j; f; r; s] →
           in_bounds (shape x) [i; j; f * st; r * sh; s * sw]).
Proof.
  intros Hx Hst Hsh Hsw. unfold WanModelMoe.center_down_sample_3d.
  rewrite Hx. cbn [length Nat.eqb].
  destruct (Nat.eqb_spec st 0); [lia|].
  destruct (Nat.eqb_spec sh 0); [lia|].
  destruct (Nat.eqb_spec sw 0); [lia|]. cbn [orb].
  eexists. split; [reflexivity|].
  unfold stride_axis. cbn [shape item]. rewrite Hx.
  cbn [Nat.add alter list_alter]. split; [reflexivity|].
  intros i j f r s. split; [reflexivity|].
  unfold in_bounds. intros Hb.
  repeat match goal with
         | H : Forall2 _ (_ :: _) (_ :: _) |- _ =>
             apply Forall2_cons in H; destruct H
         end.
  repeat constructor; try assumption; by apply ceil_div_lt.
Qed.

Lemma center_down_sample_3d_spec_witness :
  ∃ y,
    WanModelMoe.center_down_sample_3d (zeros_like [1; 16; 3; 5; 6]) (2, 4, 4)
    = Ok y
    ∧ shape y = [1; 16; 2; 2; 2].
Proof.
  destruct (center_down_sample_3d_spec (zeros_like [1; 16; 3; 5; 6])
              1 16 3 5 6 2 4 4 eq_refl ltac:(lia) ltac:(lia) ltac:(lia))
    as (y & Hy & Hs & _).
  exists y. split; [exact Hy|exact Hs].
Defined.

(** Down-sampling a latent that was padded for the same kernel gives
    the grid of the strided convolution, one entry per kernel block: the
    first entry of the block, clamped to the last frame, row and column of
    the latent. *)
Theorem pad_then_down_sample {A} (x : tensor A)
    (b c t h w pt ph pw : nat) :
  shape x = [b; c; t; h; w] →
  0 < c → 0 < t → 0 < h → 0 < w → 0 < pt → 0 < ph → 0 < pw →
  ∃ p y,
    WanModelMoe.pad_for_3d_conv x (pt, ph, pw) = Ok p
    ∧ WanModelMoe.center_down_sample_3d p (pt, ph, pw) = Ok y
    ∧ shape y = [b; c; (t + pt - 1) / pt; (h + ph - 1) / ph;
                 (w + pw - 1) / pw]
    ∧ ∀ i j f r s,
        item y [i; j; f; r; s]
        = item x [i; j; (f * pt) `min` (t - 1); (r * ph) `min` (h - 1);
                  (s * pw) `min` (w - 1)].
Proof.
  intros Hx Hc Ht Hh Hw Hpt Hph Hpw.
  unfold WanModelMoe.pad_for_3d_conv. rewrite Hx.
  destruct (Nat.eqb_spec pt 0); [lia|]. destruct (Nat.eqb_spec ph 0); [lia|].
  destruct (Nat.eqb_spec pw 0); [lia|]. cbn [orb].
  destruct (Nat.eqb_spec c 0); [lia|].
  destruct (Nat.eqb_spec t 0); [lia|].
  destruct (Nat.eqb_spec h 0); [lia|].
  destruct (Nat.eqb_spec w 0); [lia|]. cbn [orb].
  rewrite !padded_size by assumption.
  eexists. eexists. split; [reflexivity|].
  unfold WanModelMoe.center_down_sample_3d. cbn [shape length Nat.eqb].
  destruct (Nat.eqb_spec pt 0); [lia|].
  destruct (Nat.eqb_spec ph 0); [lia|].
  destruct (Nat.eqb_spec pw 0); [lia|]. cbn [orb].
  split; [reflexivity|].
  unfold stride_axis. cbn [shape item Nat.add alter list_alter].
  split.
  - assert (Hq : ∀ m k, 0 < k → ((m + k - 1) / k * k + k - 1) / k
                                 = (m + k - 1) / k).
    { intros m k Hk.
      replace ((m + k - 1) / k * k + k - 1)
        with (k - 1 + (m + k - 1) / k * k) by lia.
      rewrite Nat.div_add by lia. rewrite Nat.div_small by lia. lia. }
    rewrite !Hq by assumption. reflexivity.
  - intros i j f r s. cbn [ix nth]. reflexivity.
Qed.

Lemma pad_then_down_sample_witness :
  ∃ p y,
    WanModelMoe.pad_for_3d_conv (zeros_like [1; 16; 3; 5; 6]) (2, 4, 4) = Ok p
    ∧ WanModelMoe.center_down_sample_3d p (2, 4, 4) = Ok y
    ∧ shape y = [1; 16; 2; 2; 2].
Proof.
  destruct (pad_then_down_sample (zeros_like [1; 16; 3; 5; 6])
              1 16 3 5 6 2 4 4 eq_refl ltac:(lia) ltac:(lia) ltac:(lia)
              ltac:(lia) ltac:(lia) ltac:(lia) ltac:(lia))
    as (p & y & Hp & Hy & Hs & _).
  exists p, y. split; [exact Hp|]. split; [exact Hy|exact Hs].
Defined.

(** ** The width of the rotary tables *)

Lemma rotary_width_odd_third (hd : nat) :
  hd mod 2 = 0 → (hd / 3) mod 2 = 1 →
  (hd - 2 * (hd / 3)) / 2 + (hd / 3) / 2 + (hd / 3) / 2 = hd / 2 - 1
  ∧ 1 ≤ hd / 2.
Proof.
  intros H2 H3.
  pose proof (Nat.div_mod_eq hd 2) as E2.
  pose proof (Nat.div_mod_eq hd 3) as E3.
  pose proof (Nat.mod_upper_bound hd 3 ltac:(lia)) as B3.
  pose proof (Nat.div_mod_eq (hd / 3) 2) as Eq.
  pose proof (Nat.div_mod_eq (hd - 2 * (hd / 3)) 2) as Ef.
  pose proof (Nat.mod_upper_bound (hd - 2 * (hd / 3)) 2 ltac:(lia)) as Bf.
  lia.
Qed.

Lemma broadcast_last_mismatch (a1 a2 a3 a4 b1 b2 b3 b4 : nat) :
  a4 ≠ b4 → a4 ≠ 1 → b4 ≠ 1 →
  broadcast_shapes [a1; a2; a3; a4] [b1; b2; b3; b4] = None.
Proof.
  intros Hne Ha Hb. unfold broadcast_shapes.
  cbn [reverse rev_append broadcast_rev].
  match goal with
  | |- reverse <$> (?m ≫= _) = None =>
      destruct m as [r|];
        cbn [mbind option_bind fmap option_fmap option_map]; [|reflexivity]
  end.
  destruct (Nat.eqb_spec a4 b4); [lia|].
  destruct (Nat.eqb_spec a4 1); [lia|].
  destruct (Nat.eqb_spec b4 1); [lia|]. reflexivity.
Qed.

(** When the head width [hd = dim // num_heads] is even and [hd // 3]
    is odd, the three rotary tables of the model hold [hd / 2 - 1]
    frequencies per position, one less than the [hd / 2] complex pairs of
    a head: the frequencies assembled for a frame have that width, and the
    self-attention of every block rejects frequencies of that width with
    a broadcasting error. *)
Theorem odd_third_head_width_rejected
    (dim in_dim ffn_dim out_dim text_dim freq_dim : nat)
    (eps : R) (patch_size : nat * nat * nat) (num_heads num_layers : nat)
    (has_image_input use_moe : bool) (moe_config : option (gmap string nat))
    (params : init_params) :
  let model :=
    WanModelMoe.init dim in_dim ffn_dim out_dim text_dim freq_dim eps
      patch_size num_heads num_layers has_image_input use_moe moe_config
      params in
  let hd := dim / num_heads in
  0 < num_heads → dim mod num_heads = 0 →
  hd mod 2 = 0 → (hd / 3) mod 2 = 1 → 9 ≤ hd →
  (∀ (t : Z) (h w : nat) (sf : tensor C),
     (0 ≤ t < 1024)%Z → h ≤ 1024 → w ≤ 1024 →
     WanModelMoe.spatial_freqs model t h w = Ok sf →
     shape sf = [h * w; hd / 2 - 1])
  ∧ (∀ (block : DiTBlockWithMoE.t) (x : tensor R) (freqs : tensor C)
       (b s bf sf : nat),
       block ∈ WanModelMoe.blocks model →
       0 < b → 0 < s →
       shape x = [b; s; dim] →
       shape freqs = [bf; sf; 1; hd / 2 - 1] →
       SelfAttention.forward (DiTBlockWithMoE.self_attn block) x freqs
       = broadcast_error).
Proof.
  intros model hd Hn Hdiv Heven Hodd Hhd.
  destruct (rotary_width_odd_third hd Heven Hodd) as [Hw Hhalf].
  assert (H4 : 4 ≤ hd / 2).
  { pose proof (Nat.div_mod_eq hd 2) as E2. lia. }
  split.
  - intros t h w sf Ht Hh Hwd Hsf.
    pose proof (spatial_freqs_item model t h w _ _ _ 1024 1024 1024 _ _ _ sf
                  eq_refl
                  (precompute_freqs_cis_shape _ _ _)
                  (precompute_freqs_cis_shape _ _ _)
                  (precompute_freqs_cis_shape _ _ _)
                  Ht Hh Hwd Hsf) as [Hs _].
    rewrite Hs. fold hd. by rewrite Hw.
  - intros block x freqs b s bf sf Hin Hb Hs Hx Hf.
    unfold model, WanModelMoe.init in Hin. cbn [WanModelMoe.blocks] in Hin.
    apply list_elem_of_fmap in Hin as (i & -> & _).
    cbn [DiTBlockWithMoE.init DiTBlockWithMoE.self_attn].
    unfold SelfAttention.forward, SelfAttention.init.
    cbn [SelfAttention.q SelfAttention.k SelfAttention.v SelfAttention.norm_q
         SelfAttention.norm_k SelfAttention.num_heads].
    match goal with
    | |- Linear.forward ?l x ≫= _ = _ =>
        destruct (Linear_forward_3d l x b s dim eq_refl Hx) as (xq & -> & Hxq)
    end.
    cbn [mbind result_bind].
    destruct (RMSNorm_forward_3d (RMSNorm.init dim eps) xq b s dim eq_refl Hxq)
      as (q_ & -> & Hq_).
    cbn [mbind result_bind].
    match goal with
    | |- Linear.forward ?l x ≫= _ = _ =>
        destruct (Linear_forward_3d l x b s dim eq_refl Hx) as (xk & -> & Hxk)
    end.
    cbn [mbind result_bind].
    destruct (RMSNorm_forward_3d (RMSNorm.init dim eps) xk b s dim eq_refl Hxk)
      as (k_ & -> & Hk_).
    cbn [mbind result_bind].
    match goal with
    | |- Linear.forward ?l x ≫= _ = _ =>
        destruct (Linear_forward_3d l x b s dim eq_refl Hx) as (xv & -> & Hxv)
    end.
    cbn [mbind result_bind].
    assert (Hrope : rope_apply q_ freqs num_heads = broadcast_error).
    { unfold rope_apply, rearrange_split_heads. rewrite Hq_.
      destruct (Nat.ltb_spec 0 num_heads); [|lia]. rewrite Hdiv.
      cbn [andb Nat.eqb mbind result_bind].
      unfold view_as_complex_pairs. cbn [shape].
      assert (Hnum : (b * s * num_heads =? 0) = false).
      { apply Nat.eqb_neq. nia. }
      rewrite Hnum. fold hd. rewrite Heven. cbn [Nat.eqb mbind result_bind].
      unfold map2. cbn [shape]. rewrite Hf.
      rewrite broadcast_last_mismatch by lia. reflexivity. }
    rewrite Hrope. reflexivity.
Qed.

Lemma odd_third_head_width_rejected_witness :
  SelfAttention.forward
    (SelfAttention.init 64 4 (1 / 1000000)%R
       (sub_params (λ name, zero_params ("blocks.0." +:+ name)) "self_attn"))
    (zeros_like [1; 256; 64]) (Tensor [1; 256; 1; 7] (λ _, (1%R, 0%R)))
  = broadcast_error.
Proof.
  destruct (odd_third_head_width_rejected 64 16 128 16 4096 256
              (1 / 1000000)%R (1, 2, 2) 4 1 false false None zero_params
              ltac:(lia) eq_refl eq_refl eq_refl ltac:(vm_compute; lia))
    as [_ Hb].
  apply (Hb (DiTBlockWithMoE.init false 64 4 128 (1 / 1000000)%R false None
               (λ name, zero_params ("blocks." +:+ pretty 0 +:+ "." +:+ name)))
            (zeros_like [1; 256; 64]) (Tensor [1; 256; 1; 7] (λ _, (1%R, 0%R)))
            1 256 1 256).
  - apply list_elem_of_here.
  - lia.
  - lia.
  - reflexivity.
  - reflexivity.
Defined.

(** ** The statistics buffers *)

(** A block appends at most one record to its buffer. *)
Lemma block_forward_buffer (self self' : DiTBlockWithMoE.t)
    (x : tensor R) (context : option (tensor R)) (cam_emb : option (tensor R))
    (t_mod : tensor R) (freqs : tensor C)
    (modality_inputs : option modality_dict)
    (router_weights : option (tensor R)) (router_indices : option (tensor Z))
    (y : tensor R) :
  DiTBlockWithMoE.forward self x context cam_emb t_mod freqs
    modality_inputs router_weights router_indices = Ok (y, self') →
  DiTBlockWithMoE.expert_stats_buffer self'
  = DiTBlockWithMoE.expert_stats_buffer self
  ∨ ∃ st,
      DiTBlockWithMoE.expert_stats_buffer self'
      = Some (default [] (DiTBlockWithMoE.expert_stats_buffer self) ++ [st]).
Proof.
  unfold DiTBlockWithMoE.forward.
  do 3 match goal with
       | |- mbind _ ?r = Ok _ → _ =>
           destruct r as [?|?]; cbn [mbind result_bind]; [|discriminate]
       end.
  repeat match goal with
         | |- (let '(_, _) := ?p in _) = Ok _ → _ => destruct p
         end.
  do 2 match goal with
       | |- mbind _ ?r = Ok _ → _ =>
           destruct r as [?|?]; cbn [mbind result_bind]; [|discriminate]
       end.
  match goal with
  | |- mbind _ ?r = Ok _ → _ =>
      assert (Hstep : ∀ ix s', r = Ok (ix, s') →
                DiTBlockWithMoE.expert_stats_buffer s'
                = DiTBlockWithMoE.expert_stats_buffer self
                ∨ ∃ st, DiTBlockWithMoE.expert_stats_buffer s'
                        = Some (default []
                                  (DiTBlockWithMoE.expert_stats_buffer self)
                                ++ [st]));
      [|destruct r as [[ix s']|]; cbn [mbind result_bind]; [|discriminate]]
  end.
  { intros ix s'.
    repeat match goal with
           | |- (match ?d with _ => _ end) = Ok _ → _ =>
               destruct d; cbn [mbind result_bind]
           | |- mbind _ ?r = Ok _ → _ =>
               destruct r; cbn [mbind result_bind]
           | |- (let '(_, _) := ?p in _) = Ok _ → _ => destruct p
           end;
    try discriminate; intros [= <- <-];
    first [by left | right; by eexists]. }
  specialize (Hstep ix s' eq_refl).
  repeat match goal with
         | |- mbind _ ?r = Ok _ → _ =>
             destruct r as [?|?]; cbn [mbind result_bind]; [|discriminate]
         | |- (match ?d with _ => _ end) ≫= _ = Ok _ → _ =>
             destruct d; cbn [mbind result_bind]; try discriminate
         end.
  intros [= _ <-]. exact Hstep.
Qed.

(** The loop of [forward] over the blocks. *)
Lemma blocks_loop_buffers
    (f : tensor R → DiTBlockWithMoE.t → result (tensor R * DiTBlockWithMoE.t))
    (blocks done done' : list DiTBlockWithMoE.t) (hs hs' : tensor R) :
  (∀ x b y b', f x b = Ok (y, b') →
     DiTBlockWithMoE.expert_stats_buffer b'
     = DiTBlockWithMoE.expert_stats_buffer b
     ∨ ∃ st, DiTBlockWithMoE.expert_stats_buffer b'
             = Some (default [] (DiTBlockWithMoE.expert_stats_buffer b)
                     ++ [st])) →
  foldlM (λ '(hidden_states, done) block,
            '(hidden_states, block) ← f hidden_states block;
            Ok (hidden_states, done ++ [block]))
         blocks (hs, done) = Ok (hs', done') →
  ∃ new,
    done' = done ++ new
    ∧ Forall2 (λ b b',
                 DiTBlockWithMoE.expert_stats_buffer b'
                 = DiTBlockWithMoE.expert_stats_buffer b
                 ∨ ∃ st, DiTBlockWithMoE.expert_stats_buffer b'
                         = Some (default []
                                   (DiTBlockWithMoE.expert_stats_buffer b)
                                 ++ [st]))
        blocks new.
Proof.
  intros Hf. revert hs done.
  induction blocks as [|b blocks IH]; intros hs done; cbn [foldlM].
  - intros [= _ <-]. exists []. rewrite app_nil_r. by split.
  - destruct (f hs b) as [[y b']|] eqn:Eb; cbn [mbind result_bind];
      [|discriminate].
    intros Hrest. destruct (IH _ _ Hrest) as (new & -> & Hall).
    exists (b' :: new). rewrite <- app_assoc. split; [reflexivity|].
    constructor; [|exact Hall]. by eapply Hf.
Qed.

(** [forward] empties the statistics buffer of every block that has one
    before the blocks run, and a block appends at most one record: after
    a call that returns, the model has the same number of blocks and no
    buffer holds more than one record, however often [forward] was called
    before. *)
Theorem forward_statistics_buffers (self : WanModelMoe.t)
    (latents timestep : tensor R) (cam_emb : option (tensor R))
    (latent_indices : option (tensor Z))
    (cl1 : option (tensor R)) (i1 : option (tensor Z))
    (cl2 : option (tensor R)) (i2 : option (tensor Z))
    (cl4 : option (tensor R)) (i4 : option (tensor Z))
    (modality_inputs : option (list (string * tensor R)))
    (context : option (tensor R))
    (y loss : tensor R) (self' : WanModelMoe.t) :
  WanModelMoe.forward self latents timestep cam_emb latent_indices
    cl1 i1 cl2 i2 cl4 i4 modality_inputs context = Ok (y, loss, self') →
  length (WanModelMoe.blocks self') = length (WanModelMoe.blocks self)
  ∧ ∀ block, block ∈ WanModelMoe.blocks self' →
      length (default [] (DiTBlockWithMoE.expert_stats_buffer block)) ≤ 1.
Proof.
  unfold WanModelMoe.forward.
  repeat match goal with
         | |- mbind _ (foldlM _ _ _) = Ok _ → _ => fail 1
         | |- mbind _ ?r = Ok _ → _ =>
             destruct r as [?|?]; cbn [mbind result_bind]; [|discriminate]
         | |- (match ?d with _ => _ end) ≫= _ = Ok _ → _ =>
             destruct d; cbn [mbind result_bind]; try discriminate
         | |- (let '(_, _) := ?p in _) = Ok _ → _ => destruct p
         end.
  match goal with
  | |- mbind _ ?r = Ok _ → _ =>
      destruct r as [[hs' blocks']|] eqn:Eloop; cbn [mbind result_bind];
        [|discriminate]
  end.
  apply blocks_loop_buffers in Eloop as (new & -> & Hall);
    [|intros ? ? ? ?; apply block_forward_buffer].
  repeat match goal with
         | |- mbind _ ?r = Ok _ → _ =>
             destruct r as [?|?]; cbn [mbind result_bind]; [|discriminate]
         end.
  intros [= _ _ <-]. cbn [WanModelMoe.set_blocks WanModelMoe.blocks app].
  split.
  - apply Forall2_length in Hall. by rewrite length_fmap in Hall.
  - intros block Hin.
    apply list_elem_of_lookup in Hin as [i Hi].
    destruct (Forall2_lookup_r _ _ _ _ _ Hall Hi) as (b0 & Hb0 & Hrel).
    apply list_lookup_fmap_Some in Hb0 as (b1 & -> & _).
    assert (Hc : length (default []
                  (DiTBlockWithMoE.expert_stats_buffer
                     (WanModelMoe.clear_buffer b1))) = 0).
    { unfold WanModelMoe.clear_buffer.
      destruct (DiTBlockWithMoE.expert_stats_buffer b1) eqn:Eb;
        [reflexivity|]. by rewrite Eb. }
    destruct Hrel as [->|[st ->]]; [lia|].
    set (buf := default [] _) in *.
    change (length (buf ++ [st]) ≤ 1). rewrite length_app, Hc. cbn [length]. lia.
Qed.

Lemma forward_statistics_buffers_witness :
  ∃ m y loss m',
    LightningModelForTrain.attach_camera_layers small_moe_model = Ok m
    ∧ WanModelMoe.forward m (zeros_like [1; 1; 2; 4; 4]) (zeros_like [1])
        None None None None None None None None
        (Some [("sekai", zeros_like [1; 2; 12])])
        (Some (zeros_like [1; 3; 2])) = Ok (y, loss, m')
    ∧ length (WanModelMoe.blocks m') = length (WanModelMoe.blocks m)
    ∧ ∀ block, block ∈ WanModelMoe.blocks m' →
        length (default [] (DiTBlockWithMoE.expert_stats_buffer block)) ≤ 1.
Proof.
  assert (Hok : is_ok (m ← LightningModelForTrain.attach_camera_layers
                             small_moe_model;
                       WanModelMoe.forward m (zeros_like [1; 1; 2; 4; 4])
                         (zeros_like [1])
                         None None None None None None None None
                         (Some [("sekai", zeros_like [1; 2; 12])])
                         (Some (zeros_like [1; 3; 2]))) = true)
    by (vm_compute; reflexivity).
  destruct (LightningModelForTrain.attach_camera_layers small_moe_model)
    as [m|] eqn:Em; [|discriminate Hok].
  cbn [mbind result_bind] in Hok.
  apply is_ok_inv in Hok. destruct Hok as [[[y loss] m'] E].
  exists m, y, loss, m'. split; [reflexivity|]. split; [exact E|].
  exact (forward_statistics_buffers _ _ _ _ _ _ _ _ _ _ _ _ _ _ _ _ E).
Defined.

(** ** The [rope] method *)

Lemma elem_of_indices (sh idx : list nat) :
  idx ∈ indices sh → in_bounds sh idx.
Proof.
  revert idx. induction sh as [|n sh IH]; intros idx; cbn [indices].
  - intros Hin. apply list_elem_of_singleton in Hin as ->. constructor.
  - intros Hin. apply list_elem_of_bind in Hin as (i & Hin & Hi).
    apply list_elem_of_fmap in Hin as (rest & -> & Hrest).
    apply elem_of_seq in Hi. constructor; [lia|]. by apply IH.
Qed.

Lemma broadcast_rev_expand (s t : list nat) :
  Forall2 (λ a b, a = b ∨ a = 1) s t → broadcast_rev s t = Some t.
Proof.
  induction 1 as [|a b s t Hab _ IH]; [reflexivity|].
  cbn [broadcast_rev]. rewrite IH. cbn [mbind option_bind].
  destruct (Nat.eqb_spec a b) as [->|Hne]; [reflexivity|].
  destruct Hab as [Hab| ->]; [done|]. reflexivity.
Qed.

Lemma broadcast_expand (s t : list nat) :
  Forall2 (λ a b, a = b ∨ a = 1) s t → broadcast_shapes s t = Some t.
Proof.
  intros H. unfold broadcast_shapes.
  rewrite broadcast_rev_expand by (by apply Forall2_reverse).
  cbn [fmap option_fmap option_map]. by rewrite reverse_involutive.
Qed.

Lemma expand_to_ok {A} (x : tensor A) (t : list nat) :
  Forall2 (λ a b, a = b ∨ a = 1) (shape x) t →
  expand_to t x = Ok (Tensor t (λ idx, item x (bindex (shape x) idx))).
Proof.
  intros H. unfold expand_to. rewrite (broadcast_expand _ _ H).
  destruct (decide _); [reflexivity|done].
Qed.

Lemma forallb_to_list {A} (P : A → bool) (x : tensor A) :
  (∀ idx, in_bounds (shape x) idx → P (item x idx) = true) →
  forallb P (to_list x) = true.
Proof.
  intros H. apply forallb_forall. intros a Ha.
  apply list_elem_of_In in Ha. unfold to_list in Ha.
  apply list_elem_of_fmap in Ha as (idx & -> & Hidx).
  apply H. by apply elem_of_indices.
Qed.

Ltac expandable :=
  repeat (constructor; [first [left; reflexivity | right; reflexivity]|]);
  constructor.

Lemma expand_positions (B S n : nat) :
  ∃ hp,
    expand [Z.of_nat B; Z.of_nat S; (-1)%Z]
      (unsqueeze 0 (unsqueeze 0 (tmap Z.of_nat (arange 0 n 1)))) = Ok hp
    ∧ shape hp = [B; S; n]
    ∧ ∀ b s y, y < n → item hp [b; s; y] = Z.of_nat y.
Proof.
  unfold expand, unsqueeze, tmap, arange.
  cbn [shape length insert_at take drop app].
  cbn [Nat.ltb Nat.leb Nat.sub seq zip zip_with mapM].
  destruct (Z.eqb_spec (Z.of_nat B) (-1)); [lia|].
  destruct (Z.ltb_spec (Z.of_nat B) (-1)); [lia|].
  destruct (Z.eqb_spec (Z.of_nat S) (-1)); [lia|].
  destruct (Z.ltb_spec (Z.of_nat S) (-1)); [lia|].
  cbn [mbind result_bind Z.eqb Pos.eqb Nat.ltb Nat.leb ix nth Nat.sub].
  rewrite !Nat2Z.id.
  replace ((n - 0 + 0) / 1) with n by (rewrite Nat.div_1_r; lia).
  rewrite expand_to_ok.
  2:{ cbn [shape]. expandable. }
  eexists. split; [reflexivity|]. split; [reflexivity|].
  intros b s y Hy. cbn [shape item bindex length Nat.sub drop zip_with
                        delete list_delete ix nth Nat.eqb].
  rewrite (bindex_small n y Hy). f_equal. lia.
Qed.

Lemma index_rows_ok {A} (table : tensor A) (index : tensor Z) (n : nat)
    (rest : list nat) :
  shape table = n :: rest →
  (∀ idx, in_bounds (shape index) idx →
          (- Z.of_nat n ≤ item index idx < Z.of_nat n)%Z) →
  index_rows table index
  = Ok (Tensor (shape index ++ rest)
          (λ idx, item table
                    (py_bound n (item index (take (length (shape index)) idx))
                       :: drop (length (shape index)) idx))).
Proof.
  intros Hs Hr. unfold index_rows. rewrite Hs.
  rewrite forallb_to_list; [reflexivity|].
  intros idx Hidx. specialize (Hr idx Hidx).
  apply andb_true_intro. split; [apply Z.leb_le|apply Z.ltb_lt]; lia.
Qed.

Lemma expand_grid {A} (x : tensor A) (B S h w F : nat) (s2 s3 : Z) (a2 a3 : nat) :
  shape x = [B; S; a2; a3; F] →
  (s2 = (-1)%Z ∧ a2 = h ∨ s2 = Z.of_nat h ∧ a2 = 1) →
  (s3 = (-1)%Z ∧ a3 = w ∨ s3 = Z.of_nat w ∧ a3 = 1) →
  expand [(-1)%Z; (-1)%Z; s2; s3; (-1)%Z] x
  = Ok (Tensor [B; S; h; w; F] (λ idx, item x (bindex (shape x) idx))).
Proof.
  intros Hx H2 H3. unfold expand. rewrite Hx.
  cbn [length Nat.ltb Nat.leb Nat.sub seq zip zip_with mapM Z.eqb Pos.eqb
       ix nth mbind result_bind].
  assert (E2 : (if (s2 =? -1)%Z then Ok a2
                else if (s2 <? -1)%Z then raise RuntimeError "expand: invalid size"
                     else Ok (Z.to_nat s2)) = Ok h).
  { destruct H2 as [[-> ->]|[-> ->]]; [reflexivity|].
    destruct (Z.eqb_spec (Z.of_nat h) (-1)); [lia|].
    destruct (Z.ltb_spec (Z.of_nat h) (-1)); [lia|]. by rewrite Nat2Z.id. }
  assert (E3 : (if (s3 =? -1)%Z then Ok a3
                else if (s3 <? -1)%Z then raise RuntimeError "expand: invalid size"
                     else Ok (Z.to_nat s3)) = Ok w).
  { destruct H3 as [[-> ->]|[-> ->]]; [reflexivity|].
    destruct (Z.eqb_spec (Z.of_nat w) (-1)); [lia|].
    destruct (Z.ltb_spec (Z.of_nat w) (-1)); [lia|]. by rewrite Nat2Z.id. }
  rewrite E2. cbn [mbind result_bind]. rewrite E3. cbn [mbind result_bind].
  rewrite expand_to_ok; [by rewrite Hx|].
  rewrite Hx. destruct H2 as [[_ ->]|[_ ->]], H3 as [[_ ->]|[_ ->]];
    expandable.
Qed.

Lemma in_bounds_2 (a b : nat) (idx : list nat) :
  in_bounds [a; b] idx → ∃ i j, idx = [i; j] ∧ i < a ∧ j < b.
Proof.
  unfold in_bounds. intros H.
  destruct idx as [|i [|j [|? ?]]];
    repeat match goal with
           | H : Forall2 _ _ _ |- _ => inversion H; subst; clear H
           end.
  by exists i, j.
Qed.

Lemma in_bounds_3_inv (a b c : nat) (idx : list nat) :
  in_bounds [a; b; c] idx → ∃ i j k, idx = [i; j; k] ∧ i < a ∧ j < b ∧ k < c.
Proof.
  unfold in_bounds. intros H.
  destruct idx as [|i [|j [|k [|? ?]]]];
    repeat match goal with
           | H : Forall2 _ _ _ |- _ => inversion H; subst; clear H
           end.
  by exists i, j, k.
Qed.

(** For a batch of frame indices of shape [[B; S]] within the time
    table, and a grid inside the height and width tables, [rope] returns
    the frequencies on the grid [[B; S; height; width]]: the time
    frequencies of the frame (a negative index counts from the end of the
    table), then those of the row, then those of the column. *)
Lemma rope_entries (self : WanModelMoe.t) (frame_indices : tensor Z)
    (height width : nat) (f0 f1 f2 : tensor C)
    (E0 E1 E2 F0 F1 F2 B S : nat) :
  WanModelMoe.freqs self = (f0, f1, f2) →
  shape f0 = [E0; F0] → shape f1 = [E1; F1] → shape f2 = [E2; F2] →
  shape frame_indices = [B; S] →
  (∀ b s, b < B → s < S →
     (- Z.of_nat E0 ≤ item frame_indices [b; s] < Z.of_nat E0)%Z) →
  height ≤ E1 → width ≤ E2 →
  ∃ r,
    WanModelMoe.rope self frame_indices height width = Ok r
    ∧ shape r = [B; S; height; width; F0 + F1 + F2]
    ∧ ∀ b s y x q, b < B → s < S → y < height → x < width →
        (q < F0 →
         item r [b; s; y; x; q]
         = item f0 [py_bound E0 (item frame_indices [b; s]); q])
        ∧ (q < F1 → item r [b; s; y; x; F0 + q] = item f1 [y; q])
        ∧ (q < F2 → item r [b; s; y; x; F0 + F1 + q] = item f2 [x; q]).
Proof.
  intros Hfreqs Hf0 Hf1 Hf2 Hidx Hrange Hh Hw.
  unfold WanModelMoe.rope. rewrite Hfreqs, Hidx.
  cbn [getitem lookup list_lookup mbind result_bind].
  rewrite (index_rows_ok f0 frame_indices E0 [F0] Hf0).
  2:{ rewrite Hidx. intros idx Hb.
      apply in_bounds_2 in Hb as (b & s & -> & Hb & Hs). by apply Hrange. }
  cbn [mbind result_bind].
  destruct (expand_positions B S height) as (hp & -> & Hhp & Hhpi).
  cbn [mbind result_bind].
  destruct (expand_positions B S width) as (wp & -> & Hwp & Hwpi).
  cbn [mbind result_bind].
  rewrite (index_rows_ok f1 hp E1 [F1] Hf1).
  2:{ rewrite Hhp. intros idx Hb.
      apply in_bounds_3_inv in Hb as (b & s & y & -> & Hb & Hs & Hy).
      rewrite Hhpi by assumption. lia. }
  cbn [mbind result_bind].
  rewrite (index_rows_ok f2 wp E2 [F2] Hf2).
  2:{ rewrite Hwp. intros idx Hb.
      apply in_bounds_3_inv in Hb as (b & s & x & -> & Hb & Hs & Hx).
      rewrite Hwpi by assumption. lia. }
  cbn [mbind result_bind].
  rewrite Hidx, Hhp, Hwp. cbn [app length].
  match goal with
  | |- ∃ r, expand _ ?x ≫= _ = _ ∧ _ =>
      rewrite (expand_grid x B S height width F0 _ _ 1 1);
        [|reflexivity|right; done|right; done]
  end.
  cbn [mbind result_bind].
  match goal with
  | |- ∃ r, expand _ ?x ≫= _ = _ ∧ _ =>
      rewrite (expand_grid x B S height width F1 _ _ height 1);
        [|reflexivity|left; done|right; done]
  end.
  cbn [mbind result_bind].
  match goal with
  | |- ∃ r, expand _ ?x ≫= _ = _ ∧ _ =>
      rewrite (expand_grid x B S height width F2 _ _ 1 width);
        [|reflexivity|right; done|left; done]
  end.
  cbn [mbind result_bind shape length Nat.sub].
  unfold cat, cat2. cbn [foldlM shape length Nat.ltb Nat.leb andb].
  cbn [delete list_delete].
  destruct (decide _) as [_|Hne]; [|done]. cbn [mbind result_bind].
  unfold cat_axis at 2 3. cbn [shape length Nat.ltb Nat.leb andb insert
                               list_insert delete list_delete ix nth].
  destruct (decide _) as [_|Hne]; [|done]. cbn [mbind result_bind].
  eexists. split; [reflexivity|].
  unfold cat_axis. cbn [shape insert list_insert ix nth]. split; [reflexivity|].
  intros b s y x q Hb Hs Hy Hx.
  cbn [item ix nth insert list_insert unsqueeze shape insert_at take drop app
       delete list_delete bindex length Nat.sub zip_with].
  rewrite !(bindex_small B b), !(bindex_small S s),
    !(bindex_small height y), !(bindex_small width x) by assumption.
  split; [|split]; intros Hq.
  - destruct (Nat.ltb_spec q (F0 + F1)); [|lia].
    destruct (Nat.ltb_spec q F0); [|lia].
    rewrite (bindex_small F0 q) by assumption. reflexivity.
  - destruct (Nat.ltb_spec (F0 + q) (F0 + F1)); [|lia].
    destruct (Nat.ltb_spec (F0 + q) F0); [lia|].
    replace (F0 + q - F0) with q by lia.
    rewrite (bindex_small F1 q) by assumption.
    rewrite Hhpi by assumption. unfold py_bound.
    destruct (Z.ltb_spec (Z.of_nat y) 0); [lia|]. by rewrite Nat2Z.id.
  - destruct (Nat.ltb_spec (F0 + F1 + q) (F0 + F1)); [lia|].
    replace (F0 + F1 + q - (F0 + F1)) with q by lia.
    rewrite (bindex_small F2 q) by assumption.
    rewrite Hwpi by assumption. unfold py_bound.
    destruct (Z.ltb_spec (Z.of_nat x) 0); [lia|]. by rewrite Nat2Z.id.
Qed.

Lemma indices_1 (n : nat) : indices [n] = (λ i, [i]) <$> seq 0 n.
Proof.
  cbn [indices]. generalize 0. induction n as [|n IH]; intros k;
    [reflexivity|].
  cbn [seq mbind list_bind fmap list_fmap app]. f_equal; apply IH.
Qed.

Lemma iter_row_matrix (index : tensor Z) (B S b : nat) :
  shape index = [B; S] → b < B →
  WanModelMoe.iter_row index b = Ok ((λ s, item index [b; s]) <$> seq 0 S).
Proof.
  intros Hs Hb. unfold WanModelMoe.iter_row, select. rewrite Hs.
  cbn [lookup list_lookup]. destruct (Nat.ltb_spec b B); [|lia].
  cbn [mbind result_bind shape delete list_delete numel foldr Nat.eqb].
  unfold to_list. cbn [shape delete list_delete]. rewrite indices_1.
  rewrite <- list_fmap_compose. reflexivity.
Qed.

(** [rope] and the loops of [process_input_hidden_states] compute the
    same frequencies for frame indices that are not negative: the entry
    of [rope] at frame [s], row [y] and column [x] is the entry of the
    assembled sequence at token [(s * height + y) * width + x]. *)
Theorem rope_agrees_with_assembler (self : WanModelMoe.t)
    (frame_indices : tensor Z) (height width : nat) (f0 f1 f2 : tensor C)
    (E0 E1 E2 F0 F1 F2 B S : nat) (r' : tensor C) :
  WanModelMoe.freqs self = (f0, f1, f2) →
  shape f0 = [E0; F0] → shape f1 = [E1; F1] → shape f2 = [E2; F2] →
  shape frame_indices = [B; S] →
  (∀ b s, b < B → s < S →
     (0 ≤ item frame_indices [b; s] < Z.of_nat E0)%Z) →
  height ≤ E1 → width ≤ E2 →
  WanModelMoe.rope_for self B (WanModelMoe.iter_row frame_indices)
    height width = Ok r' →
  ∃ r,
    WanModelMoe.rope self frame_indices height width = Ok r
    ∧ ∀ b s y x q, b < B → s < S → y < height → x < width →
        q < F0 + F1 + F2 →
        item r [b; s; y; x; q]
        = item r' [b; (s * height + y) * width + x; q].
Proof.
  intros Hfreqs Hf0 Hf1 Hf2 Hidx Hrange Hh Hw Hfor.
  assert (Hrange' : ∀ b s, b < B → s < S →
            (- Z.of_nat E0 ≤ item frame_indices [b; s] < Z.of_nat E0)%Z).
  { intros b s Hb Hs. specialize (Hrange b s Hb Hs). lia. }
  destruct (rope_entries self frame_indices height width f0 f1 f2
              E0 E1 E2 F0 F1 F2 B S Hfreqs Hf0 Hf1 Hf2 Hidx Hrange' Hh Hw)
    as (r & Hr & _ & Hitem).
  exists r. split; [exact Hr|].
  intros b s y x q Hb Hs Hy Hx Hq.
  pose proof (Hrange b s Hb Hs) as Ht.
  assert (Hlook : ((λ s0, item frame_indices [b; s0]) <$> seq 0 S) !! s
                  = Some (item frame_indices [b; s])).
  { rewrite list_lookup_fmap, lookup_seq_lt by assumption. reflexivity. }
  assert (Hpos : y * width + x < height * width) by (clear -Hy Hx; nia).
  assert (Hdiv : (y * width + x) / width = y).
  { rewrite Nat.add_comm, Nat.div_add by (clear -Hx; lia).
    rewrite Nat.div_small by assumption. reflexivity. }
  assert (Hmod : (y * width + x) mod width = x).
  { rewrite Nat.add_comm, Nat.Div0.mod_add. by apply Nat.mod_small. }
  replace ((s * height + y) * width + x)
    with (s * (height * width) + (y * width + x)) by (clear; lia).
  assert (Hpb : py_bound E0 (item frame_indices [b; s])
                = Z.to_nat (item frame_indices [b; s])).
  { unfold py_bound. destruct (Z.ltb_spec (item frame_indices [b; s]) 0);
      [lia|reflexivity]. }
  assert (Hcases : q < F0
                   ∨ (∃ q1, q = F0 + q1 ∧ q1 < F1)
                   ∨ (∃ q2, q = F0 + F1 + q2 ∧ q2 < F2)).
  { clear -Hq. destruct (Nat.lt_ge_cases q F0); [by left|right].
    destruct (Nat.lt_ge_cases q (F0 + F1)).
    - left. exists (q - F0). lia.
    - right. exists (q - F0 - F1). lia. }
  destruct Hcases as [Hq0|[(q1 & -> & Hq1)|(q2 & -> & Hq2)]].
  - destruct (Hitem b s y x q Hb Hs Hy Hx) as (H0 & _ & _).
    destruct (rope_for_item self B _ height width r' f0 f1 f2
                E0 E1 E2 F0 F1 F2
                Hfreqs Hf0 Hf1 Hf2 Hh Hw Hfor b _ s _ (y * width + x) q
                Hb (iter_row_matrix _ _ _ _ Hidx Hb) Hlook Ht Hpos)
      as (G0 & _ & _).
    rewrite (H0 Hq0), (G0 Hq0), Hpb. reflexivity.
  - destruct (Hitem b s y x q1 Hb Hs Hy Hx) as (_ & H1 & _).
    destruct (rope_for_item self B _ height width r' f0 f1 f2
                E0 E1 E2 F0 F1 F2
                Hfreqs Hf0 Hf1 Hf2 Hh Hw Hfor b _ s _ (y * width + x) q1
                Hb (iter_row_matrix _ _ _ _ Hidx Hb) Hlook Ht Hpos)
      as (_ & G1 & _).
    rewrite (H1 Hq1), (G1 Hq1), Hdiv. reflexivity.
  - destruct (Hitem b s y x q2 Hb Hs Hy Hx) as (_ & _ & H2).
    destruct (rope_for_item self B _ height width r' f0 f1 f2
                E0 E1 E2 F0 F1 F2
                Hfreqs Hf0 Hf1 Hf2 Hh Hw Hfor b _ s _ (y * width + x) q2
                Hb (iter_row_matrix _ _ _ _ Hidx Hb) Hlook Ht Hpos)
      as (_ & _ & G2).
    rewrite (H2 Hq2), (G2 Hq2), Hmod. reflexivity.
Qed.

Lemma rope_agrees_with_assembler_witness :
  ∃ r r',
    WanModelMoe.rope_for small_model 1
      (WanModelMoe.iter_row (Tensor [1; 2] (λ idx, Z.of_nat (ix idx 1))))
      2 2 = Ok r'
    ∧ WanModelMoe.rope small_model
        (Tensor [1; 2] (λ idx, Z.of_nat (ix idx 1))) 2 2 = Ok r
    ∧ item r [0; 1; 1; 0; 2] = item r' [0; (1 * 2 + 1) * 2 + 0; 2].
Proof.
  assert (Hok : is_ok (WanModelMoe.rope_for small_model 1
                 (WanModelMoe.iter_row
                    (Tensor [1; 2] (λ idx, Z.of_nat (ix idx 1)))) 2 2) = true)
    by (vm_compute; reflexivity).
  apply is_ok_inv in Hok. destruct Hok as [r' E].
  assert (Hrange : ∀ b s, b < 1 → s < 2 →
            (0 ≤ item (Tensor [1; 2]%nat (λ idx, Z.of_nat (ix idx 1)))
                   [b; s]
             < Z.of_nat 1024)%Z).
  { intros b s Hb Hs. cbn [item ix nth]. lia. }
  destruct (rope_agrees_with_assembler small_model
              (Tensor [1; 2] (λ idx, Z.of_nat (ix idx 1)))
              2 2 _ _ _ 1024 1024 1024 _ _ _ 1 2 r' eq_refl
              (precompute_freqs_cis_shape _ _ _)
              (precompute_freqs_cis_shape _ _ _)
              (precompute_freqs_cis_shape _ _ _) eq_refl
              Hrange ltac:(lia) ltac:(lia) E)
    as (r & Hr & Hitem).
  exists r, r'. split; [exact E|]. split; [exact Hr|].
  apply Hitem; [lia|lia|lia|lia|vm_compute; lia].
Defined.

(** For a batch of frame indices of shape [[B; S]] within the time
    table and a grid inside the height and width tables, [rope] returns a
    tensor of shape [[B; S; height; width; F0 + F1 + F2]].  Its last axis
    holds the time frequencies of the frame, then those of the row, then
    those of the column; a frame index [t < 0] reads row [E0 - |t|] of
    the time table. *)
Theorem rope_spec (self : WanModelMoe.t) (frame_indices : tensor Z)
    (height width : nat) (f0 f1 f2 : tensor C)
    (E0 E1 E2 F0 F1 F2 B S : nat) :
  WanModelMoe.freqs self = (f0, f1, f2) →
  shape f0 = [E0; F0] → shape f1 = [E1; F1] → shape f2 = [E2; F2] →
  shape frame_indices = [B; S] →
  (∀ b s, b < B → s < S →
     (- Z.of_nat E0 ≤ item frame_indices [b; s] < Z.of_nat E0)%Z) →
  height ≤ E1 → width ≤ E2 →
  ∃ r,
    WanModelMoe.rope self frame_indices height width = Ok r
    ∧ shape r = [B; S; height; width; F0 + F1 + F2]
    ∧ ∀ b s y x, b < B → s < S → y < height → x < width →
        let t := item frame_indices [b; s] in
        let row := if (t <? 0)%Z then E0 - Z.to_nat (- t) else Z.to_nat t in
        (∀ q, q < F0 → item r [b; s; y; x; q] = item f0 [row; q])
        ∧ (∀ q, q < F1 → item r [b; s; y; x; F0 + q] = item f1 [y; q])
        ∧ (∀ q, q < F2 → item r [b; s; y; x; F0 + F1 + q] = item f2 [x; q]).
Proof.
  intros Hfreqs Hf0 Hf1 Hf2 Hidx Hrange Hh Hw.
  destruct (rope_entries self frame_indices height width f0 f1 f2
              E0 E1 E2 F0 F1 F2 B S Hfreqs Hf0 Hf1 Hf2 Hidx Hrange Hh Hw)
    as (r & Hr & Hshape & Hitem).
  exists r. split; [exact Hr|]. split; [exact Hshape|].
  intros b s y x Hb Hs Hy Hx t row.
  pose proof (Hrange b s Hb Hs) as Ht. fold t in Ht.
  assert (Hrow : py_bound E0 t = row).
  { unfold py_bound, row. destruct (t <? 0)%Z eqn:Hneg; [|reflexivity].
    apply Z.ltb_lt in Hneg. lia. }
  repeat split; intros q Hq.
  - destruct (Hitem b s y x q Hb Hs Hy Hx) as (H0 & _ & _).
    rewrite (H0 Hq). fold t. by rewrite Hrow.
  - destruct (Hitem b s y x q Hb Hs Hy Hx) as (_ & H1 & _). exact (H1 Hq).
  - destruct (Hitem b s y x q Hb Hs Hy Hx) as (_ & _ & H2). exact (H2 Hq).
Qed.

Lemma rope_spec_witness :
  ∃ r,
    WanModelMoe.rope small_model
      (Tensor [1; 2] (λ idx, (Z.of_nat (ix idx 1) - 1)%Z)) 2 2 = Ok r
    ∧ shape r = [1; 2; 2; 2; 3]
    ∧ item r [0; 0; 1; 1; 0]
      = item (WanModelMoe.freqs small_model).1.1 [1023; 0].
Proof.
  destruct (rope_spec small_model
              (Tensor [1; 2] (λ idx, (Z.of_nat (ix idx 1) - 1)%Z))
              2 2 _ _ _ 1024 1024 1024 _ _ _ 1 2 eq_refl
              (precompute_freqs_cis_shape _ _ _)
              (precompute_freqs_cis_shape _ _ _)
              (precompute_freqs_cis_shape _ _ _) eq_refl)
    as (r & Hr & Hs & Hitem).
  - intros b s Hb Hs. cbn [item ix nth]. lia.
  - lia.
  - lia.
  - exists r. split; [exact Hr|]. split; [exact Hs|].
    destruct (Hitem 0 0 1 1) as (H0 & _ & _); [lia|lia|lia|lia|].
    apply (H0 0). vm_compute. lia.
Defined.

Lemma numel_snoc (pre : list nat) (q : nat) :
  numel (pre ++ [q]) = numel pre * q.
Proof.
  induction pre as [|a pre IH]; cbn [app numel foldr].
  - lia.
  - fold (numel (pre ++ [q])). fold (numel pre). rewrite IH. lia.
Qed.

Lemma reshape_infer_last_ok {A} (pre : list nat) (x : tensor A) :
  numel pre ≠ 0 → numel (shape x) mod numel pre = 0 →
  reshape_infer_last pre x
  = Ok (Tensor (pre ++ [numel (shape x) / numel pre])
          (λ idx, item x (unravel (shape x)
                            (ravel (pre ++ [numel (shape x) / numel pre]) idx)))).
Proof.
  intros Hpre Hmod. unfold reshape_infer_last, reshape.
  destruct (Nat.eqb_spec (numel pre) 0); [done|]. rewrite Hmod.
  cbn [Nat.eqb]. rewrite numel_snoc.
  apply Nat.Div0.div_exact in Hmod. rewrite <- Hmod, Nat.eqb_refl.
  reflexivity.
Qed.

Lemma cat2_ok {A} (d : nat) (x y : tensor A) :
  d < length (shape x) → d < length (shape y) →
  delete d (shape x) = delete d (shape y) →
  cat2 d x y = Ok (cat_axis d x y).
Proof.
  intros Hx Hy Hd. unfold cat2.
  destruct (Nat.ltb_spec d (length (shape x))); [|lia].
  destruct (Nat.ltb_spec d (length (shape y))); [|lia].
  cbn [andb]. destruct (decide _); [reflexivity|done].
Qed.

(** The frequencies of one frame, for any frame index: the slice
    [freqs[0][t:t+1]] has one row when the index is inside the time
    table or at least two rows before its end, and no row otherwise; the
    frame then has no time columns. *)
Lemma spatial_freqs_spec (self : WanModelMoe.t) (t : Z) (h w : nat)
    (f0 f1 f2 : tensor C) (E0 E1 E2 F0 F1 F2 : nat) :
  WanModelMoe.freqs self = (f0, f1, f2) →
  shape f0 = [E0; F0] → shape f1 = [E1; F1] → shape f2 = [E2; F2] →
  0 < h → h ≤ E1 → 0 < w → w ≤ E2 →
  let lo := py_bound E0 t `min` E0 in
  let k := py_bound E0 (t + 1) `min` E0 - lo in
  ∃ sf,
    WanModelMoe.spatial_freqs self t h w = Ok sf
    ∧ shape sf = [h * w; k * F0 + F1 + F2]
    ∧ k ≤ 1
    ∧ ∀ pos q, pos < h * w →
        (q < k * F0 → item sf [pos; q] = item f0 [lo; q])
        ∧ (q < F1 → item sf [pos; k * F0 + q] = item f1 [pos / w; q])
        ∧ (q < F2 → item sf [pos; k * F0 + F1 + q] = item f2 [pos mod w; q]).
Proof.
  intros Hfreqs Hf0 Hf1 Hf2 Hh0 Hh Hw0 Hw lo k.
  assert (Hk : k ≤ 1).
  { unfold k, lo, py_bound.
    destruct (Z.ltb_spec t 0), (Z.ltb_spec (t + 1) 0); lia. }
  unfold WanModelMoe.spatial_freqs. rewrite Hfreqs.
  unfold py_slice, slice. rewrite Hf0, Hf1, Hf2.
  cbn [lookup list_lookup mbind result_bind].
  set (ff := slice_axis 0 E0 (py_bound E0 t) (py_bound E0 (t + 1)) f0).
  set (hf := slice_axis 0 E1 0 h f1).
  set (wf := slice_axis 0 E2 0 w f2).
  assert (Hff : shape ff = [k; F0]).
  { unfold ff, slice_axis. cbn [shape]. rewrite Hf0. reflexivity. }
  assert (Hhf : shape hf = [h; F1]).
  { unfold hf, slice_axis. cbn [shape]. rewrite Hf1.
    cbn [insert list_insert]. f_equal. lia. }
  assert (Hwf : shape wf = [w; F2]).
  { unfold wf, slice_axis. cbn [shape]. rewrite Hf2.
    cbn [insert list_insert]. f_equal. lia. }
  assert (Hn0 : numel (shape ff) / numel [1; 1; 1] = k * F0).
  { rewrite Hff. change (numel [1; 1; 1]) with 1. rewrite Nat.div_1_r.
    cbn [numel foldr]. lia. }
  assert (Hn1 : numel (shape hf) / numel [1; h; 1] = F1).
  { rewrite Hhf. cbn [numel foldr]. rewrite !Nat.mul_1_r, Nat.mul_1_l.
    rewrite (Nat.mul_comm h F1). apply Nat.div_mul. lia. }
  assert (Hn2 : numel (shape wf) / numel [1; 1; w] = F2).
  { rewrite Hwf. cbn [numel foldr]. rewrite !Nat.mul_1_r, !Nat.mul_1_l.
    rewrite (Nat.mul_comm w F2). apply Nat.div_mul. lia. }
  rewrite (reshape_infer_last_ok [1; 1; 1] ff);
    [|cbn [numel foldr]; lia|change (numel [1; 1; 1]) with 1; apply Nat.mod_1_r].
  rewrite Hn0. cbn [mbind result_bind app shape ix nth].
  rewrite expand_to_ok by expandable.
  cbn [mbind result_bind app shape ix nth].
  rewrite (reshape_infer_last_ok [1; h; 1] hf);
    [|cbn [numel foldr]; lia
     |rewrite Hhf; cbn [numel foldr];
      rewrite !Nat.mul_1_r, Nat.mul_1_l, (Nat.mul_comm h F1);
      apply Nat.Div0.mod_mul].
  rewrite Hn1. cbn [mbind result_bind app shape ix nth].
  rewrite expand_to_ok by expandable.
  cbn [mbind result_bind app shape ix nth].
  rewrite (reshape_infer_last_ok [1; 1; w] wf);
    [|cbn [numel foldr]; lia
     |rewrite Hwf; cbn [numel foldr];
      rewrite !Nat.mul_1_r, !Nat.mul_1_l, (Nat.mul_comm w F2);
      apply Nat.Div0.mod_mul].
  rewrite Hn2. cbn [mbind result_bind app shape ix nth].
  rewrite expand_to_ok by expandable.
  cbn [mbind result_bind app shape ix nth].
  unfold cat. cbn [foldlM].
  rewrite cat2_ok by (cbn [shape length delete list_delete]; first [lia|reflexivity]).
  cbn [mbind result_bind].
  rewrite cat2_ok
    by (unfold cat_axis; cbn [shape length delete list_delete insert list_insert];
        first [lia|reflexivity]).
  cbn [mbind result_bind].
  unfold cat_axis. cbn [shape ix nth insert list_insert].
  match goal with
  | |- ∃ sf, reshape_infer_last _ ?c0 = _ ∧ _ => set (c := c0)
  end.
  set (Ft := k * F0 + F1 + F2).
  assert (Hc : shape c = [1; h; w; Ft]) by reflexivity.
  assert (Hnc : numel (shape c) = Ft * (h * w)).
  { rewrite Hc. cbn [numel foldr]. lia. }
  assert (Hpre : numel [h * w] = h * w) by (cbn [numel foldr]; lia).
  rewrite (reshape_infer_last_ok [h * w] c);
    [|rewrite Hpre; nia|rewrite Hnc, Hpre; apply Nat.Div0.mod_mul].
  rewrite Hnc, Hpre, Nat.div_mul by nia.
  eexists. split; [reflexivity|]. cbn [shape app].
  split; [reflexivity|]. split; [exact Hk|].
  intros pos q Hpos.
  assert (Hy : pos / w < h).
  { apply Nat.Div0.div_lt_upper_bound. lia. }
  assert (Hx : pos mod w < w) by (apply Nat.mod_upper_bound; lia).
  cbn [item ravel numel foldr]. rewrite !Nat.mul_1_r, !Nat.add_0_r.
  rewrite Hc.
  split; [|split]; intros Hq.
  - assert (k = 1) as Hk1 by (destruct k as [|[|?]]; [lia|reflexivity|lia]).
    rewrite (unravel_grid h w Ft pos q) by (unfold Ft; lia).
    unfold c. cbn [item ix nth].
    destruct (Nat.ltb_spec q (k * F0 + F1)); [|lia].
    destruct (Nat.ltb_spec q (k * F0)); [|lia].
    cbn [bindex length drop Nat.sub zip_with Nat.eqb].
    rewrite (bindex_small (k * F0) q) by lia.
    cbn [ravel numel foldr]. rewrite !Nat.mul_1_r, !Nat.add_0_r.
    rewrite Hff. subst k. rewrite Hk1 in *. rewrite Nat.mul_1_l in *.
    match goal with
    | |- context [unravel [1; F0] ?j] => replace j with (0 * F0 + q) by lia
    end.
    rewrite (unravel_row 1 F0 0 q) by lia.
    unfold ff, slice_axis. cbn [item alter list_alter].
    reflexivity.
  - rewrite (unravel_grid h w Ft pos (k * F0 + q)) by (unfold Ft; lia).
    unfold c. cbn [item ix nth].
    destruct (Nat.ltb_spec (k * F0 + q) (k * F0 + F1)); [|lia].
    destruct (Nat.ltb_spec (k * F0 + q) (k * F0)); [lia|].
    cbn [insert list_insert].
    cbn [bindex length drop Nat.sub zip_with Nat.eqb].
    rewrite (bindex_small h (pos / w)) by lia.
    replace (k * F0 + q - k * F0) with q by lia.
    rewrite (bindex_small F1 q) by lia.
    cbn [ravel numel foldr]. rewrite !Nat.mul_1_r, !Nat.add_0_r.
    rewrite Hhf.
    match goal with
    | |- context [unravel [h; F1] ?j] =>
        replace j with (pos / w * F1 + q) by lia
    end.
    rewrite (unravel_row h F1 (pos / w) q) by lia.
    unfold hf, slice_axis. cbn [item alter list_alter].
    do 2 f_equal. lia.
  - rewrite (unravel_grid h w Ft pos (k * F0 + F1 + q)) by (unfold Ft; lia).
    unfold c. cbn [item ix nth].
    destruct (Nat.ltb_spec (k * F0 + F1 + q) (k * F0 + F1)); [lia|].
    cbn [insert list_insert].
    cbn [bindex length drop Nat.sub zip_with Nat.eqb].
    rewrite (bindex_small w (pos mod w)) by lia.
    replace (k * F0 + F1 + q - (k * F0 + F1)) with q by lia.
    rewrite (bindex_small F2 q) by lia.
    cbn [ravel numel foldr]. rewrite !Nat.mul_1_r, !Nat.add_0_r.
    rewrite Hwf.
    match goal with
    | |- context [unravel [w; F2] ?j] =>
        replace j with (pos mod w * F2 + q) by lia
    end.
    rewrite (unravel_row w F2 (pos mod w) q) by lia.
    unfold wf, slice_axis. cbn [item alter list_alter].
    do 2 f_equal. lia.
Qed.

(** The frame index -1: [rope] reads the last row of the time table.
    The loops of [process_input_hidden_states] slice the time table,
    [freqs[0][t:t+1]]; for -1, and for every index outside the table,
    the slice is empty and the frame gets no time columns: its block has
    [F1 + F2] columns, the row and column frequencies, instead of
    [F0 + F1 + F2]. *)
Theorem rope_index_minus_one (self : WanModelMoe.t)
    (frame_indices : tensor Z) (height width : nat) (f0 f1 f2 : tensor C)
    (E0 E1 E2 F0 F1 F2 B S b s : nat) :
  WanModelMoe.freqs self = (f0, f1, f2) →
  shape f0 = [E0; F0] → shape f1 = [E1; F1] → shape f2 = [E2; F2] →
  shape frame_indices = [B; S] →
  (∀ b s, b < B → s < S →
     (- Z.of_nat E0 ≤ item frame_indices [b; s] < Z.of_nat E0)%Z) →
  0 < height → height ≤ E1 → 0 < width → width ≤ E2 →
  b < B → s < S → item frame_indices [b; s] = (-1)%Z →
  (∃ r,
     WanModelMoe.rope self frame_indices height width = Ok r
     ∧ ∀ y x q, y < height → x < width → q < F0 →
         item r [b; s; y; x; q] = item f0 [E0 - 1; q])
  ∧ ∀ t, (t = -1 ∨ Z.of_nat E0 ≤ t ∨ t < - Z.of_nat E0)%Z →
      ∃ sf,
        WanModelMoe.spatial_freqs self t height width = Ok sf
        ∧ shape sf = [height * width; F1 + F2]
        ∧ ∀ pos q, pos < height * width →
            (q < F1 → item sf [pos; q] = item f1 [pos / width; q])
            ∧ (q < F2 → item sf [pos; F1 + q] = item f2 [pos mod width; q]).
Proof.
  intros Hfreqs Hf0 Hf1 Hf2 Hidx Hrange Hh0 Hh Hw0 Hw Hb Hs Hneg. split.
  - destruct (rope_entries self frame_indices height width f0 f1 f2
                E0 E1 E2 F0 F1 F2 B S Hfreqs Hf0 Hf1 Hf2 Hidx Hrange Hh Hw)
      as (r & Hr & _ & Hitem).
    exists r. split; [exact Hr|]. intros y x q Hy Hx Hq.
    destruct (Hitem b s y x q Hb Hs Hy Hx) as (H0 & _ & _).
    rewrite (H0 Hq), Hneg. do 2 f_equal. unfold py_bound.
    cbn [Z.ltb Z.compare]. lia.
  - intros t Ht.
    destruct (spatial_freqs_spec self t height width f0 f1 f2 E0 E1 E2 F0 F1 F2
                Hfreqs Hf0 Hf1 Hf2 Hh0 Hh Hw0 Hw)
      as (sf & Hsf & Hshape & _ & Hitem).
    assert (Hk : py_bound E0 (t + 1) `min` E0 - py_bound E0 t `min` E0 = 0).
    { unfold py_bound.
      destruct (Z.ltb_spec t 0), (Z.ltb_spec (t + 1) 0); lia. }
    rewrite Hk in Hshape, Hitem. cbn [Nat.mul Nat.add] in Hshape, Hitem.
    exists sf. split; [exact Hsf|]. split; [exact Hshape|].
    intros pos q Hpos. destruct (Hitem pos q Hpos) as (_ & H1 & H2).
    split; [exact H1|exact H2].
Qed.

Lemma rope_index_minus_one_witness :
  (∃ r,
     WanModelMoe.rope small_model (Tensor [1; 2] (λ idx, (-1)%Z)) 2 2 = Ok r
     ∧ item r [0; 1; 0; 0; 0]
       = item (WanModelMoe.freqs small_model).1.1 [1023; 0])
  ∧ ∃ sf,
      WanModelMoe.spatial_freqs small_model (-1) 2 2 = Ok sf
      ∧ shape sf = [4; 2].
Proof.
  destruct (rope_index_minus_one small_model (Tensor [1; 2] (λ idx, (-1)%Z))
              2 2 _ _ _ 1024 1024 1024 _ _ _ 1 2 0 1 eq_refl
              (precompute_freqs_cis_shape _ _ _)
              (precompute_freqs_cis_shape _ _ _)
              (precompute_freqs_cis_shape _ _ _) eq_refl)
    as ((r & Hr & Hitem) & Hloop).
  - intros b s Hb Hs. cbn [item]. lia.
  - lia.
  - lia.
  - lia.
  - lia.
  - lia.
  - lia.
  - reflexivity.
  - destruct (Hloop (-1)%Z) as (sf & Hsf & Hshape & _); [by left|].
    split.
    + exists r. split; [exact Hr|].
      apply (Hitem 0 0 0); [lia|lia|vm_compute; lia].
    + exists sf. split; [exact Hsf|exact Hshape].
Defined.

(** ** The assembled sequence on valid combinations of inputs *)

Lemma iter_row_length (i : tensor Z) (b : nat) (ts : list Z) :
  WanModelMoe.iter_row i b = Ok ts → length ts = ix (shape i) 1.
Proof.
  unfold WanModelMoe.iter_row, select.
  destruct (shape i) as [|n sh] eqn:Hs; cbn [lookup list_lookup];
    [discriminate|].
  destruct (b <? n); cbn [mbind result_bind]; [|discriminate].
  cbn [shape delete list_delete].
  destruct sh as [|m rest]; [discriminate|].
  destruct (Nat.eqb_spec (numel rest) 1) as [Hr|]; [|discriminate].
  intros [= <-]. rewrite length_to_list. cbn [shape numel foldr].
  fold (numel rest). rewrite Hr. unfold ix. cbn [nth]. lia.
Qed.

Lemma segment_1x_inv (self : WanModelMoe.t) (B h w : nat)
    (c : tensor R) (i : tensor Z) (s : segment) :
  own_embedder self →
  segment_1x self B h w (Some c) (Some i) = Ok s →
  ∃ emb y t r ts b F,
    WanModelMoe.clean_x_embedder self = Some emb
    ∧ Conv3d.forward (CleanXEmbedder.proj emb) c = Ok y
    ∧ rearrange_to_tokens y = Ok t
    ∧ s = Some (t, r)
    ∧ shape t = [b; ix (shape c) 2 * (ix (shape c) 3 / 2)
                      * (ix (shape c) 4 / 2); WanModelMoe.dim self]
    ∧ WanModelMoe.iter_row i 0 = Ok ts
    ∧ shape r = [B; length ts * (h * w); F]
    ∧ frequencies_of_frames self B (WanModelMoe.iter_row i) h w r.
Proof.
  intros Hown. unfold segment_1x, WanModelMoe.clean_segment_1x,
    WanModelMoe.get_clean_x_embedder.
  destruct (WanModelMoe.clean_x_embedder self) as [emb|] eqn:Hemb;
    cbn [mbind result_bind]; [|discriminate].
  destruct (Hown emb Hemb) as [params ->].
  unfold CleanXEmbedder.forward. destruct (decide _) as [_|Hne]; [|by destruct Hne].
  destruct (Conv3d.forward _ c) as [y|] eqn:Ey; cbn [mbind result_bind];
    [|discriminate].
  destruct (rearrange_to_tokens y) as [tok|] eqn:Etok;
    cbn [mbind result_bind]; [|discriminate].
  destruct (WanModelMoe.rope_for self B _ h w) as [rf|] eqn:Erf;
    cbn [mbind result_bind]; [|discriminate].
  intros [= <-].
  destruct (Conv3d_forward_sizes
              (CleanXEmbedder.proj
                 (WanModelMoe.create_clean_x_embedder self params))
              c y 1 2 2 eq_refl Ey)
    as (b & tt & hh & ww & Hc & _ & _ & _ & Hy).
  destruct (rearrange_to_tokens_shape _ _ Etok)
    as (b' & c' & f' & h' & w' & Hy' & Ht).
  rewrite Hy in Hy'. injection Hy' as <- <- <- <- <-.
  destruct (rope_for_shape _ _ _ _ _ _ Erf) as (ts & F & Hts & _ & Hr).
  exists (WanModelMoe.create_clean_x_embedder self params), y, tok, rf, ts, b, F.
  split; [reflexivity|]. split; [exact Ey|]. split; [exact Etok|].
  split; [reflexivity|]. split.
  { rewrite Ht, Hc. unfold ix. cbn [nth]. rewrite Nat.div_1_r. reflexivity. }
  split; [exact Hts|]. split; [exact Hr|].
  by apply rope_for_frequencies.
Qed.

Lemma pad_for_3d_conv_inv {A} (x y : tensor A) (pt ph pw : nat) :
  WanModelMoe.pad_for_3d_conv x (pt, ph, pw) = Ok y →
  ∃ b c t h w,
    shape x = [b; c; t; h; w]
    ∧ 0 < pt ∧ 0 < ph ∧ 0 < pw ∧ 0 < c ∧ 0 < t ∧ 0 < h ∧ 0 < w
    ∧ shape y = [b; c; ceil_div t pt * pt; ceil_div h ph * ph;
                 ceil_div w pw * pw].
Proof.
  unfold WanModelMoe.pad_for_3d_conv.
  destruct (shape x) as [|b [|c [|t [|h [|w [|? [|? ?]]]]]]]; try discriminate.
  destruct (Nat.eqb_spec pt 0); cbn [orb]; [discriminate|].
  destruct (Nat.eqb_spec ph 0); cbn [orb]; [discriminate|].
  destruct (Nat.eqb_spec pw 0); cbn [orb]; [discriminate|].
  destruct (Nat.eqb_spec c 0); cbn [orb]; [discriminate|].
  destruct (Nat.eqb_spec t 0); cbn [orb]; [discriminate|].
  destruct (Nat.eqb_spec h 0); cbn [orb]; [discriminate|].
  destruct (Nat.eqb_spec w 0); cbn [orb]; [discriminate|].
  intros [= <-]. exists b, c, t, h, w. cbn [shape]. unfold ceil_div.
  rewrite !padded_size by lia. repeat split; lia.
Qed.

Lemma coarse_frames_frame_index (i : tensor Z) (cf : nat) :
  WanModelMoe.frame_index (WanModelMoe.valid_indices i) <$> seq 0 cf
  = coarse_frames i cf.
Proof.
  unfold coarse_frames. apply list_fmap_ext. intros _ j _.
  unfold WanModelMoe.frame_index.
  change (WanModelMoe.valid_indices i) with (nonnegative_entries i).
  by destruct (nonnegative_entries i !! j).
Qed.

Lemma scale_enabled_entries (c : tensor R) (i : tensor Z) :
  WanModelMoe.scale_enabled (Some c) (Some i)
  = bool_decide (nonnegative_entries i ≠ []).
Proof.
  unfold WanModelMoe.scale_enabled.
  change (WanModelMoe.valid_indices i) with (nonnegative_entries i).
  pose proof (length_filter (λ z, (0 ≤ z)%Z) (to_list i)) as Hle.
  fold (nonnegative_entries i) in Hle. rewrite length_to_list in Hle.
  destruct (nonnegative_entries i) as [|z l].
  - rewrite andb_false_r. by rewrite bool_decide_eq_false_2 by (intros H; by apply H).
  - cbn [length] in *. rewrite bool_decide_eq_true_2 by done.
    destruct (Nat.ltb_spec 0 (numel (shape i))); [reflexivity|lia].
Qed.

Lemma segment_down_inv (self : WanModelMoe.t) (scale : string)
    (conv : CleanXEmbedder.t → Conv3d.t) (kt kh kw : nat) (B : nat)
    (c : tensor R) (i : tensor Z) (s : segment) :
  own_embedder self →
  (∀ params x,
     CleanXEmbedder.forward (WanModelMoe.create_clean_x_embedder self params)
       x scale
     = Conv3d.forward (conv (WanModelMoe.create_clean_x_embedder self params)) x
     ∧ Conv3d.kernel_size
         (conv (WanModelMoe.create_clean_x_embedder self params))
       = (kt, kh, kw)
     ∧ Conv3d.out_channels
         (conv (WanModelMoe.create_clean_x_embedder self params))
       = WanModelMoe.dim self) →
  segment_down self scale (kt, kh, kw) B (Some c) (Some i) = Ok s →
  if decide (nonnegative_entries i = []) then s = None
  else
    let cf := ceil_div (ix (shape c) 2) kt in
    let ch := ceil_div (ix (shape c) 3) kh in
    let cw := ceil_div (ix (shape c) 4) kw in
    ∃ emb padded y t r b F,
      WanModelMoe.clean_x_embedder self = Some emb
      ∧ WanModelMoe.pad_for_3d_conv c (kt, kh, kw) = Ok padded
      ∧ Conv3d.forward (conv emb) padded = Ok y
      ∧ rearrange_to_tokens y = Ok t
      ∧ s = Some (t, r)
      ∧ shape t = [b; cf * ch * cw; WanModelMoe.dim self]
      ∧ 0 < cf * ch * cw
      ∧ shape r = [B; cf * ch * cw; F]
      ∧ frequencies_of_frames self B (λ _, Ok (coarse_frames i cf)) ch cw r.
Proof.
  intros Hown Hconv. unfold segment_down. rewrite scale_enabled_entries.
  destruct (decide (nonnegative_entries i = [])) as [Hnil|Hnn].
  { rewrite bool_decide_eq_false_2 by (intros H; by apply H).
    by intros [= <-]. }
  rewrite bool_decide_eq_true_2 by exact Hnn.
  unfold WanModelMoe.clean_segment_down.
  destruct (WanModelMoe.pad_for_3d_conv c (kt, kh, kw)) as [padded|] eqn:Epad;
    cbn [mbind result_bind]; [|discriminate].
  unfold WanModelMoe.get_clean_x_embedder.
  destruct (WanModelMoe.clean_x_embedder self) as [emb|] eqn:Hemb;
    cbn [mbind result_bind]; [|discriminate].
  destruct (Hown emb Hemb) as [params ->].
  destruct (Hconv params padded) as (-> & Hker & Hout).
  destruct (Conv3d.forward _ padded) as [y|] eqn:Ey; cbn [mbind result_bind];
    [|discriminate].
  destruct (pad_for_3d_conv_inv _ _ _ _ _ Epad)
    as (b & cc & t & h & w & Hc & Hpt & Hph & Hpw & _ & Ht0 & Hh0 & Hw0 & Hpad).
  destruct (Conv3d_forward_sizes _ _ _ kt kh kw Hker Ey)
    as (b' & t' & h' & w' & Hpad' & _ & _ & _ & Hy).
  rewrite Hpad in Hpad'. injection Hpad' as <- _ <- <- <-.
  rewrite !Nat.div_mul in Hy by lia. rewrite Hout in Hy.
  rewrite Hy. cbn [unpack5 mbind result_bind].
  destruct (rearrange_to_tokens y) as [tok|] eqn:Etok;
    cbn [mbind result_bind]; [|discriminate].
  destruct (WanModelMoe.rope_for self B _ _ _) as [rf|] eqn:Erf;
    cbn [mbind result_bind]; [|discriminate].
  intros [= <-]. cbn [fst].
  destruct (rearrange_to_tokens_shape _ _ Etok)
    as (b' & c' & f' & h' & w' & Hy' & Htok).
  rewrite Hy in Hy'. injection Hy' as <- <- <- <- <-.
  destruct (rope_for_shape _ _ _ _ _ _ Erf) as (ts & F & Hts & _ & Hr).
  injection Hts as <-. rewrite length_fmap, length_seq in Hr.
  rewrite Hc. unfold ix. cbn [nth]. cbn zeta.
  exists (WanModelMoe.create_clean_x_embedder self params), padded, y, tok, rf,
    b, F.
  split; [reflexivity|]. split; [reflexivity|]. split; [exact Ey|].
  split; [exact Etok|]. split; [reflexivity|]. split; [exact Htok|].
  assert (0 < ceil_div t kt ∧ 0 < ceil_div h kh ∧ 0 < ceil_div w kw)
    as (H1 & H2 & H3) by (repeat split; apply ceil_pos; lia).
  split; [nia|]. split.
  { rewrite Hr. do 2 f_equal. lia. }
  rewrite <- coarse_frames_frame_index. by apply rope_for_frequencies.
Qed.

Lemma valid_primary_frames (B f h w : nat) (latent_indices : option (tensor Z))
    (cl1 : option (tensor R)) (i1 : option (tensor Z)) (ts : list Z) :
  valid_combination f h w latent_indices cl1 i1 →
  WanModelMoe.iter_row (WanModelMoe.default_indices B f latent_indices) 0
  = Ok ts →
  length ts = f.
Proof.
  intros [Hli _] Hts. destruct latent_indices as [li|].
  - rewrite (iter_row_length _ _ _ Hts). by apply Hli.
  - by apply (default_indices_length B).
Qed.

(** On a valid combination the 1x scale has as many frequencies as
    tokens. *)
Lemma segment_1x_aligned (self : WanModelMoe.t) (B f h w : nat)
    (latent_indices : option (tensor Z))
    (cl1 : option (tensor R)) (i1 : option (tensor Z)) (s1 : segment) :
  own_embedder self →
  valid_combination f h w latent_indices cl1 i1 →
  segment_1x self B h w cl1 i1 = Ok s1 →
  seg_tokens s1 = seg_freqs s1.
Proof.
  intros Hown [_ H1x] Hs1.
  destruct cl1 as [c|], i1 as [i|];
    try (cbn in Hs1; injection Hs1 as <-; reflexivity).
  destruct (segment_1x_inv _ _ _ _ _ _ _ Hown Hs1)
    as (emb & y & t & r & ts1 & b & F & _ & _ & _ & -> & Ht & Hts1 & Hrs & _).
  destruct (H1x c i eq_refl eq_refl) as (Hn & Hhh & Hww).
  assert (E1 : ix (shape t) 1
               = ix (shape c) 2 * (ix (shape c) 3 / 2) * (ix (shape c) 4 / 2))
    by (rewrite Ht; reflexivity).
  assert (E2 : ix (shape r) 1 = length ts1 * (h * w))
    by (rewrite Hrs; reflexivity).
  cbn [seg_tokens seg_freqs]. rewrite E1, E2, Hhh, Hww.
  rewrite (iter_row_length _ _ _ Hts1), Hn. lia.
Qed.

(** Claim C2.  For every valid combination of inputs, with any subset
    of the 1x, 2x and 4x clean-latent scales, the token sequence and the
    frequency tensor returned by [process_input_hidden_states] have the
    same length.  Whenever the two lengths differ, [forward] computes
    the text and time embeddings and then raises the assertion error
    that names both lengths: it never returns a result. *)
Theorem token_frequency_alignment (self : WanModelMoe.t)
    (latents : tensor R) (latent_indices : option (tensor Z))
    (cl1 : option (tensor R)) (i1 : option (tensor Z))
    (cl2 : option (tensor R)) (i2 : option (tensor Z))
    (cl4 : option (tensor R)) (i4 : option (tensor Z))
    (cam : option (tensor R)) (mi : option (list (string * tensor R)))
    (hs : tensor R) (rope : tensor C) (f h w : nat)
    (comb : option (tensor R)) (pm : option modality_dict) :
  own_embedder self →
  WanModelMoe.process_input_hidden_states self latents latent_indices
    cl1 i1 cl2 i2 cl4 i4 cam mi = Ok (hs, rope, [f; h; w], comb, pm) →
  (valid_combination f h w latent_indices cl1 i1 →
   ix (shape hs) 1 = ix (shape rope) 1)
  ∧ (ix (shape rope) 1 ≠ ix (shape hs) 1 →
     ∀ timestep cam0 mi0 context cam' mi',
       cam = Some cam' → mi = Some mi' →
       WanModelMoe.process_modality_inputs self mi0 = Ok (Some (mi', cam')) →
       WanModelMoe.forward self latents timestep cam0 latent_indices
         cl1 i1 cl2 i2 cl4 i4 mi0 context
       = (_ ← WanModelMoe.embed_conditioning self context timestep;
          raise AssertionError
            (WanModelMoe.rope_mismatch_message (ix (shape rope) 1)
               (ix (shape hs) 1)))
       ∧ is_ok (WanModelMoe.forward self latents timestep cam0 latent_indices
                  cl1 i1 cl2 i2 cl4 i4 mi0 context) = false).
Proof.
  intros Hown Hp. split.
  - intros Hvalid.
    destruct (assembly_lengths _ _ _ _ _ _ _ _ _ _ _ _ _ _ _ _ Hp)
      as (B & f' & h' & w' & ts & s1 & s2 & s4 & Hg & Hts & Hs1 & Hs2 & Hs4
          & Hh & Hr).
    injection Hg as <- <- <-.
    rewrite Hh, Hr.
    rewrite (segment_down_aligned _ _ _ _ _ _ _ Hs2).
    rewrite (segment_down_aligned _ _ _ _ _ _ _ Hs4).
    rewrite (segment_1x_aligned _ _ _ _ _ _ _ _ _ Hown Hvalid Hs1).
    rewrite (valid_primary_frames _ _ _ _ _ _ _ _ Hvalid Hts). lia.
  - intros Hne timestep cam0 mi0 context cam' mi' -> -> Hm.
    pose proof (forward_length_assertion self latents timestep cam0
                  latent_indices cl1 i1 cl2 i2 cl4 i4 mi0 context mi' cam'
                  hs rope [f; h; w] comb pm Hm Hp Hne) as Hf.
    split; [exact Hf|]. rewrite Hf.
    by destruct (WanModelMoe.embed_conditioning self context timestep).
Qed.

Lemma fits_batch (s : segment) (hs : tensor R) (rope : tensor C)
    (t : tensor R) (r : tensor C) (B n C' b k c' : nat) :
  fits s hs rope → s = Some (t, r) →
  shape hs = [B; n; C'] → shape t = [b; k; c'] → b = B.
Proof.
  intros Hf -> Hhs Ht. destruct Hf as [Hd _]. rewrite Hhs, Ht in Hd.
  by injection Hd.
Qed.

Lemma embedder_2x (self : WanModelMoe.t) (params : init_params) (x : tensor R) :
  CleanXEmbedder.forward (WanModelMoe.create_clean_x_embedder self params) x "2x"
  = Conv3d.forward
      (CleanXEmbedder.proj_2x (WanModelMoe.create_clean_x_embedder self params))
      x
  ∧ Conv3d.kernel_size
      (CleanXEmbedder.proj_2x (WanModelMoe.create_clean_x_embedder self params))
    = (2, 4, 4)
  ∧ Conv3d.out_channels
      (CleanXEmbedder.proj_2x (WanModelMoe.create_clean_x_embedder self params))
    = WanModelMoe.dim self.
Proof.
  split; [|split; reflexivity]. unfold CleanXEmbedder.forward.
  destruct (decide _) as [He|_]; [discriminate He|].
  destruct (decide _) as [_|Hne]; [reflexivity|by destruct Hne].
Qed.

Lemma embedder_4x (self : WanModelMoe.t) (params : init_params) (x : tensor R) :
  CleanXEmbedder.forward (WanModelMoe.create_clean_x_embedder self params) x "4x"
  = Conv3d.forward
      (CleanXEmbedder.proj_4x (WanModelMoe.create_clean_x_embedder self params))
      x
  ∧ Conv3d.kernel_size
      (CleanXEmbedder.proj_4x (WanModelMoe.create_clean_x_embedder self params))
    = (4, 8, 8)
  ∧ Conv3d.out_channels
      (CleanXEmbedder.proj_4x (WanModelMoe.create_clean_x_embedder self params))
    = WanModelMoe.dim self.
Proof.
  split; [|split; reflexivity]. unfold CleanXEmbedder.forward.
  destruct (decide _) as [He|_]; [discriminate He|].
  destruct (decide _) as [He|_]; [discriminate He|].
  destruct (decide _) as [_|Hne]; [reflexivity|by destruct Hne].
Qed.

Lemma segment_1x_fine (self : WanModelMoe.t) (B h w n C' : nat)
    (cl : option (tensor R)) (idx : option (tensor Z)) (s : segment)
    (hs : tensor R) (rope : tensor C) :
  own_embedder self →
  segment_1x self B h w cl idx = Ok s →
  fits s hs rope → shape hs = [B; n; C'] →
  fine_segment self B h w cl idx s.
Proof.
  intros Hown Hs Hf Hhs. unfold fine_segment.
  destruct cl as [c|], idx as [i|];
    try (cbn in Hs; by injection Hs as <-).
  destruct (segment_1x_inv _ _ _ _ _ _ _ Hown Hs)
    as (emb & y & t & r & ts & b & F & Hemb & Hy & Ht & -> & Hst & Hts & Hsr
        & Hfr).
  assert (b = B) as -> by (by eapply fits_batch).
  by exists emb, y, t, r, ts, F.
Qed.

Lemma segment_down_coarse (self : WanModelMoe.t) (scale : string)
    (conv : CleanXEmbedder.t → Conv3d.t) (kt kh kw B n C' : nat)
    (cl : option (tensor R)) (idx : option (tensor Z)) (s : segment)
    (hs : tensor R) (rope : tensor C) :
  own_embedder self →
  (∀ params x,
     CleanXEmbedder.forward (WanModelMoe.create_clean_x_embedder self params)
       x scale
     = Conv3d.forward (conv (WanModelMoe.create_clean_x_embedder self params)) x
     ∧ Conv3d.kernel_size
         (conv (WanModelMoe.create_clean_x_embedder self params))
       = (kt, kh, kw)
     ∧ Conv3d.out_channels
         (conv (WanModelMoe.create_clean_x_embedder self params))
       = WanModelMoe.dim self) →
  segment_down self scale (kt, kh, kw) B cl idx = Ok s →
  fits s hs rope → shape hs = [B; n; C'] →
  coarse_segment self conv (kt, kh, kw) B cl idx s.
Proof.
  intros Hown Hconv Hs Hf Hhs. unfold coarse_segment.
  destruct cl as [c|], idx as [i|];
    try (cbn in Hs; by injection Hs as <-).
  pose proof (segment_down_inv _ _ _ _ _ _ _ _ _ _ Hown Hconv Hs) as Hinv.
  destruct (decide (nonnegative_entries i = [])); [exact Hinv|].
  cbn zeta in Hinv |- *. cbn [fst snd].
  destruct Hinv as (emb & padded & y & t & r & b & F & Hemb & Hpad & Hy & Ht
                    & -> & Hst & Hpos & Hsr & Hfr).
  assert (b = B) as -> by (by eapply fits_batch).
  by exists emb, padded, y, t, r, F.
Qed.

(** Claim C4.  On a valid combination of inputs, the sequence returned
    by [process_input_hidden_states] is laid out as
    [4x tokens][2x tokens][1x tokens][primary tokens], a scale that is
    not supplied (or, for 2x and 4x, whose indices are all negative)
    contributing nothing.  The tokens of a scale are those of its
    embedded clean latent and their number is given by the shape of
    that latent; the frequency tensor has the same layout, and at every
    position the token and the frequency come from the same source, at
    the same position inside that source.  The frequencies of a source
    are read from the rotary tables at its own frame indices:
    [latent_indices] for the primary latent, [clean_latent_indices] for
    the 1x scale, the entries that are not negative of the scale's index
    tensor for the 2x and 4x scales. *)
Theorem clean_latent_prepend_order (self : WanModelMoe.t)
    (latents : tensor R) (latent_indices : option (tensor Z))
    (cl1 : option (tensor R)) (i1 : option (tensor Z))
    (cl2 : option (tensor R)) (i2 : option (tensor Z))
    (cl4 : option (tensor R)) (i4 : option (tensor Z))
    (cam : option (tensor R)) (mi : option (list (string * tensor R)))
    (hs : tensor R) (rope : tensor C) (f h w : nat)
    (comb : option (tensor R)) (pm : option modality_dict) :
  own_embedder self →
  WanModelMoe.process_input_hidden_states self latents latent_indices
    cl1 i1 cl2 i2 cl4 i4 cam mi = Ok (hs, rope, [f; h; w], comb, pm) →
  valid_combination f h w latent_indices cl1 i1 →
  ∃ B tp rp s1 s2 s4,
    (* the primary latent *)
    WanModelMoe.patchify self latents = Ok (tp, [f; h; w])
    ∧ WanModelMoe.rope_for self B
        (WanModelMoe.iter_row (WanModelMoe.default_indices B f latent_indices))
        h w = Ok rp
    ∧ frequencies_of_frames self B
        (WanModelMoe.iter_row (WanModelMoe.default_indices B f latent_indices))
        h w rp
    (* what each scale contributes *)
    ∧ fine_segment self B h w cl1 i1 s1
    ∧ coarse_segment self CleanXEmbedder.proj_2x (2, 4, 4) B cl2 i2 s2
    ∧ coarse_segment self CleanXEmbedder.proj_4x (4, 8, 8) B cl4 i4 s4
    ∧ seg_freqs s1 = seg_tokens s1
    ∧ seg_freqs s2 = seg_tokens s2
    ∧ seg_freqs s4 = seg_tokens s4
    (* each one is prepended in front of what was assembled before *)
    ∧ hs = prepend_tokens s4 (prepend_tokens s2 (prepend_tokens s1 tp))
    ∧ rope = unsqueeze 2
               (prepend_freqs s4 (prepend_freqs s2 (prepend_freqs s1 rp)))
    ∧ ix (shape hs) 1
      = seg_tokens s4 + seg_tokens s2 + seg_tokens s1 + f * h * w
    ∧ ix (shape rope) 1
      = seg_tokens s4 + seg_tokens s2 + seg_tokens s1 + f * h * w
    (* position by position *)
    ∧ ∀ b i,
        let p := locate (seg_tokens s4) (seg_tokens s2) (seg_tokens s1) i in
        (∀ c, item hs [b; i; c] = item (tokens_of s4 s2 s1 tp p.1) [b; p.2; c])
        ∧ (∀ q, item rope [b; i; 0; q]
                = item (freqs_of s4 s2 s1 rp p.1) [b; p.2; q]).
Proof.
  intros Hown Hp Hvalid.
  destruct (assembly_structure _ _ _ _ _ _ _ _ _ _ _ _ _ _ _ _ Hp)
    as (B & f' & h' & w' & tp & rp & ts & F & s1 & s2 & s4 & Hpat & Hg & Htp
        & Hrp & Hts & Hrps & Hs1 & Hs2 & Hs4 & Hf1 & Hf2 & Hf4 & -> & ->).
  injection Hg as <- <- <-.
  destruct (prepend_shapes _ _ _ _ _ _ _ _ Hf1 Htp Hrps) as [Ht1 Hr1].
  destruct (prepend_shapes _ _ _ _ _ _ _ _ Hf2 Ht1 Hr1) as [Ht2 Hr2].
  destruct (prepend_shapes _ _ _ _ _ _ _ _ Hf4 Ht2 Hr2) as [Ht4 Hr4].
  pose proof (segment_down_aligned _ _ _ _ _ _ _ Hs2) as Ha2.
  pose proof (segment_down_aligned _ _ _ _ _ _ _ Hs4) as Ha4.
  pose proof (segment_1x_aligned _ _ _ _ _ _ _ _ _ Hown Hvalid Hs1) as Ha1.
  pose proof (valid_primary_frames _ _ _ _ _ _ _ _ Hvalid Hts) as Hlen.
  exists B, tp, rp, s1, s2, s4.
  split; [exact Hpat|]. split; [exact Hrp|].
  split; [by apply rope_for_frequencies|].
  split; [by eapply segment_1x_fine|].
  split; [eapply segment_down_coarse; eauto using embedder_2x|].
  split; [eapply segment_down_coarse; eauto using embedder_4x|].
  split; [done|]. split; [done|]. split; [done|].
  split; [reflexivity|]. split; [reflexivity|].
  split; [rewrite Ht4; unfold ix; cbn [nth]; lia|].
  split.
  { unfold unsqueeze. cbn [shape]. rewrite Hr4. unfold ix, insert_at.
    cbn [take drop app nth].
    rewrite Hlen, Ha1, Ha2, Ha4, Nat.mul_assoc. lia. }
  intros b i. cbn zeta. split.
  - intros c. unfold locate.
    rewrite (prepend_tokens_item _ tp).
    destruct (i <? seg_tokens s4); [reflexivity|].
    rewrite (prepend_tokens_item _ tp).
    destruct (i - seg_tokens s4 <? seg_tokens s2); [reflexivity|].
    rewrite (prepend_tokens_item _ tp).
    destruct (i - seg_tokens s4 - seg_tokens s2 <? seg_tokens s1); reflexivity.
  - intros q. unfold locate. rewrite Ha1, Ha2, Ha4.
    cbn [unsqueeze item delete list_delete].
    rewrite (prepend_freqs_item _ rp).
    destruct (i <? seg_freqs s4); [reflexivity|].
    rewrite (prepend_freqs_item _ rp).
    destruct (i - seg_freqs s4 <? seg_freqs s2); [reflexivity|].
    rewrite (prepend_freqs_item _ rp).
    destruct (i - seg_freqs s4 - seg_freqs s2 <? seg_freqs s1); reflexivity.
Qed.

Lemma model_with_embedder_own (patch_size : nat * nat * nat) :
  own_embedder (model_with_embedder patch_size).
Proof. intros emb [= <-]. by exists zero_params. Qed.

(** The alignment theorem on an input with a 1x and a 2x scale. *)
Lemma token_frequency_alignment_witness :
  ∃ hs rope comb pm,
    WanModelMoe.process_input_hidden_states (model_with_embedder (1, 2, 2))
      (zeros_like [1; 16; 4; 16; 16]) None
      (Some (zeros_like [1; 16; 2; 16; 16]))
      (Some (Tensor [1; 2] (λ idx, Z.of_nat (ix idx 1))))
      (Some (zeros_like [1; 16; 2; 16; 16]))
      (Some (Tensor [1; 2] (λ idx, (2 + Z.of_nat (ix idx 1))%Z)))
      None None None None
    = Ok (hs, rope, [4; 8; 8], comb, pm)
    ∧ ix (shape hs) 1 = ix (shape rope) 1.
Proof.
  assert (Hok : is_ok (WanModelMoe.process_input_hidden_states
                 (model_with_embedder (1, 2, 2))
                 (zeros_like [1; 16; 4; 16; 16]) None
                 (Some (zeros_like [1; 16; 2; 16; 16]))
                 (Some (Tensor [1; 2] (λ idx, Z.of_nat (ix idx 1))))
                 (Some (zeros_like [1; 16; 2; 16; 16]))
                 (Some (Tensor [1; 2] (λ idx, (2 + Z.of_nat (ix idx 1))%Z)))
                 None None None None) = true)
    by (vm_compute; reflexivity).
  apply is_ok_inv in Hok. destruct Hok as [[[[[hs rope] grid] comb] pm] E].
  assert (Hgrid : grid = [4; 8; 8]).
  { destruct (assembly_structure _ _ _ _ _ _ _ _ _ _ _ _ _ _ _ _ E)
      as (B & f & h & w & tp & rp & ts & F & s1 & s2 & s4 & Hpat & _).
    assert (Hg : (snd <$> WanModelMoe.patchify (model_with_embedder (1, 2, 2))
                             (zeros_like [1; 16; 4; 16; 16])) = Ok [4; 8; 8])
      by (vm_compute; reflexivity).
    rewrite Hpat in Hg. by injection Hg. }
  subst grid. exists hs, rope, comb, pm. split; [exact E|].
  apply (token_frequency_alignment _ _ _ _ _ _ _ _ _ _ _ _ _ _ _ _ _ _
           (model_with_embedder_own _) E).
  split; [intros li [=]|].
  intros c i [= <-] [= <-]. repeat split; reflexivity.
Defined.

(** The order theorem on an input with a 1x and a 2x scale, with frame
    indices 0 and 1 for the 1x scale, 2 and 3 for the 2x scale and 0 to
    3 for the primary latent: 16 tokens of the 2x scale, then 128 of the
    1x scale, then 256 primary ones. *)
Lemma clean_latent_prepend_order_witness :
  ∃ hs rope comb pm,
    WanModelMoe.process_input_hidden_states (model_with_embedder (1, 2, 2))
      (zeros_like [1; 16; 4; 16; 16]) None
      (Some (zeros_like [1; 16; 2; 16; 16]))
      (Some (Tensor [1; 2] (λ idx, Z.of_nat (ix idx 1))))
      (Some (zeros_like [1; 16; 2; 16; 16]))
      (Some (Tensor [1; 2] (λ idx, (2 + Z.of_nat (ix idx 1))%Z)))
      None None None None
    = Ok (hs, rope, [4; 8; 8], comb, pm)
    ∧ ix (shape hs) 1 = 16 + 128 + 256
    ∧ ix (shape rope) 1 = 16 + 128 + 256
    ∧ let f0 := (WanModelMoe.freqs (model_with_embedder (1, 2, 2))).1.1 in
      (* a 2x position, a 1x position and a primary position *)
      item rope [0; 0; 0; 0] = item f0 [2; 0]
      ∧ item rope [0; 16 + 64; 0; 0] = item f0 [1; 0]
      ∧ item rope [0; 16 + 128 + 3 * 64; 0; 0] = item f0 [3; 0].
Proof.
  assert (Hok : is_ok (WanModelMoe.process_input_hidden_states
                 (model_with_embedder (1, 2, 2))
                 (zeros_like [1; 16; 4; 16; 16]) None
                 (Some (zeros_like [1; 16; 2; 16; 16]))
                 (Some (Tensor [1; 2] (λ idx, Z.of_nat (ix idx 1))))
                 (Some (zeros_like [1; 16; 2; 16; 16]))
                 (Some (Tensor [1; 2] (λ idx, (2 + Z.of_nat (ix idx 1))%Z)))
                 None None None None) = true)
    by (vm_compute; reflexivity).
  apply is_ok_inv in Hok. destruct Hok as [[[[[hs rope] grid] comb] pm] E].
  assert (Hgrid : grid = [4; 8; 8]).
  { destruct (assembly_structure _ _ _ _ _ _ _ _ _ _ _ _ _ _ _ _ E)
      as (B & f & h & w & tp & rp & ts & F & s1 & s2 & s4 & Hpat & _).
    assert (Hg : (snd <$> WanModelMoe.patchify (model_with_embedder (1, 2, 2))
                             (zeros_like [1; 16; 4; 16; 16])) = Ok [4; 8; 8])
      by (vm_compute; reflexivity).
    rewrite Hpat in Hg. by injection Hg. }
  subst grid. exists hs, rope, comb, pm. split; [exact E|].
  destruct (clean_latent_prepend_order _ _ _ _ _ _ _ _ _ _ _ _ _ _ _ _ _ _
              (model_with_embedder_own _) E)
    as (B & tp & rp & s1 & s2 & s4 & _ & Hrp & Hfp & H1 & H2 & H4 & _ & _ & _
        & _ & _ & Hlh & Hlr & Hpos).
  { split; [intros li [=]|].
    intros c i [= <-] [= <-]. repeat split; reflexivity. }
  destruct (rope_for_shape _ _ _ _ _ _ Hrp) as (_ & _ & _ & HB & _).
  cbn [coarse_segment] in H4. subst s4.
  unfold coarse_segment in H2.
  assert (Hnn : nonnegative_entries
                  (Tensor [1; 2] (λ idx, (2 + Z.of_nat (ix idx 1))%Z))
                = [2; 3]%Z) by (vm_compute; reflexivity).
  destruct (decide _) as [Hnil|_] in H2; [rewrite Hnn in Hnil; discriminate|].
  cbn zeta in H2.
  destruct H2 as (_ & _ & _ & t2 & r2 & F2 & _ & _ & _ & _ & -> & Ht2 & _ & Hr2
                  & Hf2).
  destruct H1 as (_ & _ & t1 & r1 & ts1 & F1 & _ & _ & _ & -> & Ht1 & Hts1 & Hr1
                  & Hf1).
  assert (Hn2 : seg_tokens (Some (t2, r2)) = 16)
    by (cbn [seg_tokens]; rewrite Ht2; reflexivity).
  assert (Hn1 : seg_tokens (Some (t1, r1)) = 128)
    by (cbn [seg_tokens]; rewrite Ht1; reflexivity).
  rewrite Hn2, Hn1 in Hlh, Hlr, Hpos. cbn [seg_tokens] in Hlh, Hlr, Hpos.
  split; [exact Hlh|]. split; [exact Hlr|]. cbn zeta.
  assert (Hts1' : WanModelMoe.iter_row
                    (Tensor [1; 2] (λ idx, Z.of_nat (ix idx 1))) 0
                  = Ok [0; 1]%Z) by (vm_compute; reflexivity).
  assert (Hts0 : WanModelMoe.iter_row (WanModelMoe.default_indices B 4 None) 0
                 = Ok [0; 1; 2; 3]%Z).
  { unfold WanModelMoe.default_indices.
    rewrite (iter_row_matrix (Tensor [B; 4] (λ idx, Z.of_nat (ix idx 1)))
               B 4 0 eq_refl HB). reflexivity. }
  split; [|split].
  - destruct (Hpos 0 0) as [_ Hq]. rewrite (Hq 0).
    change (locate 0 16 128 0) with (Clean2x, 0).
    cbn [fst snd freqs_of fmap option_fmap option_map default].
    apply (Hf2 _ _ _ 1024 1024 1024 _ _ _ eq_refl
             (precompute_freqs_cis_shape _ _ _)
             (precompute_freqs_cis_shape _ _ _)
             (precompute_freqs_cis_shape _ _ _) ltac:(vm_compute; lia)
             ltac:(vm_compute; lia) 0 _ 0 2%Z 0 0 HB eq_refl);
      [vm_compute; reflexivity|lia|vm_compute; lia|vm_compute; lia].
  - destruct (Hpos 0 (16 + 64)) as [_ Hq]. rewrite (Hq 0).
    change (locate 0 16 128 (16 + 64)) with (Clean1x, 64).
    cbn [fst snd freqs_of fmap option_fmap option_map default].
    apply (Hf1 _ _ _ 1024 1024 1024 _ _ _ eq_refl
             (precompute_freqs_cis_shape _ _ _)
             (precompute_freqs_cis_shape _ _ _)
             (precompute_freqs_cis_shape _ _ _) ltac:(lia) ltac:(lia)
             0 _ 1 1%Z 0 0 HB Hts1');
      [reflexivity|lia|lia|vm_compute; lia].
  - destruct (Hpos 0 (16 + 128 + 3 * 64)) as [_ Hq]. rewrite (Hq 0).
    change (locate 0 16 128 (16 + 128 + 3 * 64)) with (Primary, 3 * 64).
    cbn [fst snd freqs_of fmap option_fmap option_map default].
    apply (Hfp _ _ _ 1024 1024 1024 _ _ _ eq_refl
             (precompute_freqs_cis_shape _ _ _)
             (precompute_freqs_cis_shape _ _ _)
             (precompute_freqs_cis_shape _ _ _) ltac:(lia) ltac:(lia)
             0 _ 3 3%Z 0 0 HB Hts0);
      [reflexivity|lia|lia|vm_compute; lia].
Defined.

(** ** The camera embedding of the 2x and 4x clean latents *)

(** The loop that copies camera frames, run on the frames [s], ...,
    [s + m - 1]. *)
Lemma camera_loop (g : tensor R → nat → result (tensor R))
    (cam_emb : tensor R) (valid : list Z) (start : Z)
    (B Bc cf n d m s : nat) (cam : tensor R) :
  (∀ cam frame_idx,
     g cam frame_idx
     = if ((0 <=? WanModelMoe.frame_index valid frame_idx - start)
           && (WanModelMoe.frame_index valid frame_idx - start
               <? Z.of_nat n))%Z
       then WanModelMoe.camera_assign cam cam_emb frame_idx
              (Z.to_nat (WanModelMoe.frame_index valid frame_idx - start))
       else Ok cam) →
  shape cam_emb = [Bc; n; d] → (Bc = B ∨ Bc = 1) →
  shape cam = [B; cf; d] →
  ∃ cam',
    foldlM g (seq s m) cam = Ok cam'
    ∧ shape cam' = [B; cf; d]
    ∧ ∀ b f k,
        item cam' [b; f; k]
        = if (s <=? f) && (f <? s + m)
             && (0 <=? WanModelMoe.frame_index valid f - start)%Z
             && (WanModelMoe.frame_index valid f - start <? Z.of_nat n)%Z
          then item cam_emb [if Bc =? 1 then 0 else b;
                             Z.to_nat (WanModelMoe.frame_index valid f - start);
                             k]
          else item cam [b; f; k].
Proof.
  intros Hg Hemb HB. revert s cam.
  induction m as [|m IH]; intros s cam Hcam.
  - cbn [seq foldlM]. exists cam. split; [reflexivity|]. split; [exact Hcam|].
    intros b f k.
    destruct (Nat.leb_spec s f), (Nat.ltb_spec f (s + 0)); cbn [andb];
      try reflexivity; lia.
  - cbn [seq foldlM]. rewrite Hg.
    set (t := (WanModelMoe.frame_index valid s - start)%Z).
    destruct ((0 <=? t)%Z && (t <? Z.of_nat n)%Z) eqn:Hin.
    + unfold WanModelMoe.camera_assign. rewrite Hcam, Hemb.
      assert (Hc : ((Bc =? B) || (Bc =? 1)) && (d =? d) = true).
      { rewrite Nat.eqb_refl, andb_true_r.
        destruct HB as [->| ->]; [by rewrite Nat.eqb_refl|].
        cbn. apply orb_true_r. }
      rewrite Hc. cbn [mbind result_bind].
      match goal with
      | |- ∃ cam', foldlM g _ ?c = _ ∧ _ =>
          destruct (IH (S s) c eq_refl) as (cam' & Hrun & Hshape & Hitem)
      end.
      exists cam'. split; [exact Hrun|]. split; [exact Hshape|].
      intros b f k. rewrite Hitem. cbn [item ix nth].
      destruct (Nat.eqb_spec f s) as [->|Hne].
      * destruct (Nat.leb_spec (S s) s); [lia|]. cbn [andb].
        destruct (Nat.leb_spec s s); [|lia].
        destruct (Nat.ltb_spec s (s + S m)); [|lia]. cbn [andb].
        fold t. apply andb_prop in Hin as [Ht1 Ht2]. rewrite Ht1, Ht2.
        reflexivity.
      * destruct (Nat.leb_spec (S s) f), (Nat.ltb_spec f (S s + m)),
          (Nat.leb_spec s f), (Nat.ltb_spec f (s + S m));
          cbn [andb]; try reflexivity; lia.
    + cbn [mbind result_bind].
      destruct (IH (S s) cam Hcam) as (cam' & Hrun & Hshape & Hitem).
      exists cam'. split; [exact Hrun|]. split; [exact Hshape|].
      intros b f k. rewrite Hitem.
      destruct (Nat.eqb_spec f s) as [->|Hne].
      * destruct (Nat.leb_spec (S s) s); [lia|]. cbn [andb].
        destruct (Nat.leb_spec s s); [|lia].
        destruct (Nat.ltb_spec s (s + S m)); [|lia]. cbn [andb].
        fold t.
        destruct (0 <=? t)%Z, (t <? Z.of_nat n)%Z; cbn [andb] in *;
          try reflexivity; discriminate.
      * destruct (Nat.leb_spec (S s) f), (Nat.ltb_spec f (S s + m)),
          (Nat.leb_spec s f), (Nat.ltb_spec f (s + S m));
          cbn [andb]; try reflexivity; lia.
Qed.

(** The camera embedding built for a 2x or 4x clean latent has one
    token per position of the grid [[cf; ch; cw]].  A frame with a valid
    index [t] whose camera position [t - start_indice] lies inside
    [cam_emb] carries that camera vector on all its [ch * cw] positions;
    every other frame (no valid index left, or a position outside
    [cam_emb]) carries zeros. *)
Theorem clean_camera_down_spec (B cf ch cw : nat) (start_indice : Z)
    (cam_emb : tensor R) (valid : list Z) (Bc n d : nat) :
  shape cam_emb = [Bc; n; d] → (Bc = B ∨ Bc = 1) →
  ∃ sp,
    WanModelMoe.clean_camera_down B cf ch cw start_indice cam_emb valid
    = Ok sp
    ∧ shape sp = [B; cf * ch * cw; d]
    ∧ ∀ b f pos k, f < cf → pos < ch * cw →
        item sp [b; f * (ch * cw) + pos; k]
        = match valid !! f with
          | Some t =>
              if ((0 <=? t - start_indice)
                  && (t - start_indice <? Z.of_nat n))%Z
              then item cam_emb [if Bc =? 1 then 0 else b;
                                 Z.to_nat (t - start_indice); k]
              else 0%R
          | None => 0%R
          end.
Proof.
  intros Hemb HB. unfold WanModelMoe.clean_camera_down.
  rewrite Hemb. cbn [last mbind result_bind].
  match goal with
  | |- ∃ sp, foldlM ?g _ _ ≫= _ = _ ∧ _ =>
      destruct (camera_loop g cam_emb valid start_indice B Bc cf n d
                  (cf `min` length valid) 0 (zeros [B; cf; d]))
        as (cam' & Hrun & Hshape & Hitem);
        [intros; cbv zeta; try rewrite Hemb; reflexivity
        |exact Hemb|exact HB|reflexivity|]
  end.
  rewrite Hrun. cbn [mbind result_bind].
  unfold WanModelMoe.camera_spatial. rewrite Hshape.
  unfold rearrange_spatial. cbn [shape].
  eexists. split; [reflexivity|]. cbn [shape]. split; [reflexivity|].
  intros b f pos k Hf Hpos. cbn [item ix nth].
  assert (Hdiv : (f * (ch * cw) + pos) / (ch * cw) = f).
  { rewrite Nat.add_comm, Nat.div_add by lia.
    rewrite Nat.div_small by assumption. reflexivity. }
  rewrite Hdiv, Hitem. cbn [Nat.leb andb Nat.add].
  unfold WanModelMoe.frame_index.
  destruct (valid !! f) as [t|] eqn:Hv.
  - apply lookup_lt_Some in Hv.
    destruct (Nat.ltb_spec f (cf `min` length valid)); [|lia]. cbn [andb].
    destruct ((0 <=? t - start_indice)%Z), (t - start_indice <? Z.of_nat n)%Z;
      reflexivity.
  - apply lookup_ge_None in Hv.
    destruct (Nat.ltb_spec f (cf `min` length valid)); [lia|]. cbn [andb].
    reflexivity.
Qed.

Lemma clean_camera_down_spec_witness :
  ∃ sp,
    WanModelMoe.clean_camera_down 1 2 4 4 0%Z
      (Tensor [1; 3; 12] (λ idx, INR (ix idx 1))) [0%Z; 5%Z] = Ok sp
    ∧ shape sp = [1; 2 * 4 * 4; 12]
    ∧ item sp [0; 1 * (4 * 4) + 3; 7] = 0%R.
Proof.
  destruct (clean_camera_down_spec 1 2 4 4 0%Z
              (Tensor [1; 3; 12] (λ idx, INR (ix idx 1))) [0%Z; 5%Z]
              1 3 12 eq_refl (or_introl eq_refl))
    as (sp & Hsp & Hs & Hitem).
  exists sp. split; [exact Hsp|]. split; [exact Hs|].
  exact (Hitem 0 1 3 7 ltac:(lia) ltac:(lia)).
Defined.

(** ** The latents of a training sample *)

(** A sample holds the first [min target_frames Tt] frames of the
    target video followed by the first [min condition_frames Tc] frames
    of the condition video.  When the target video is shorter than
    [target_frames], frame [Tt] of the sample, which lies before
    [target_frames], is the first condition frame. *)
Theorem sample_latents_spec {A} (target_frames condition_frames : nat)
    (lat_tgt_full lat_cond_full : tensor A) (C Tt Tc H W : nat) :
  shape lat_tgt_full = [C; Tt; H; W] →
  shape lat_cond_full = [C; Tc; H; W] →
  ∃ y,
    TensorDataset.sample_latents (Z.of_nat target_frames)
      (Z.of_nat condition_frames) lat_tgt_full lat_cond_full = Ok y
    ∧ shape y = [C; target_frames `min` Tt + condition_frames `min` Tc; H; W]
    ∧ (∀ c k h w, k < target_frames `min` Tt →
         item y [c; k; h; w] = item lat_tgt_full [c; k; h; w])
    ∧ (∀ c k h w,
         item y [c; target_frames `min` Tt + k; h; w]
         = item lat_cond_full [c; k; h; w])
    ∧ (Tt < target_frames →
       ∀ c h w, item y [c; Tt; h; w] = item lat_cond_full [c; 0; h; w]).
Proof.
  intros Ht Hc. unfold TensorDataset.sample_latents. rewrite Ht, Hc.
  cbn [lookup list_lookup mbind result_bind].
  unfold py_slice, slice. rewrite Ht, Hc. cbn [lookup list_lookup].
  cbn [mbind result_bind].
  assert (Hb0 : ∀ n, py_bound n 0 = 0) by reflexivity.
  assert (Hb1 : ∀ n m k, py_bound n (Z.of_nat m `min` Z.of_nat k) = m `min` k).
  { intros n m k. unfold py_bound.
    destruct (Z.ltb_spec (Z.of_nat m `min` Z.of_nat k) 0); lia. }
  rewrite !Hb0, !Hb1.
  unfold cat2, slice_axis. cbn [shape]. rewrite Ht, Hc.
  cbn [insert list_insert length Nat.ltb Nat.leb andb delete list_delete].
  destruct (decide _) as [_|Hne]; [|done].
  eexists. split; [reflexivity|].
  unfold cat_axis. cbn [shape item insert list_insert ix nth alter list_alter].
  rewrite !Nat.min_0_l, !Nat.sub_0_r.
  replace ((target_frames `min` Tt) `min` Tt) with (target_frames `min` Tt)
    by lia.
  replace ((condition_frames `min` Tc) `min` Tc)
    with (condition_frames `min` Tc) by lia.
  split; [reflexivity|]. split; [|split].
  - intros c k h w Hk. destruct (Nat.ltb_spec k (target_frames `min` Tt));
      [|lia].
    by rewrite Nat.add_0_r.
  - intros c k h w.
    destruct (Nat.ltb_spec (target_frames `min` Tt + k)
                (target_frames `min` Tt)); [lia|].
    do 2 f_equal. f_equal. lia.
  - intros Hshort c h w.
    destruct (Nat.ltb_spec Tt (target_frames `min` Tt)); [lia|].
    do 2 f_equal. f_equal. lia.
Qed.

Lemma sample_latents_spec_witness :
  ∃ y,
    TensorDataset.sample_latents 5 10 (zeros_like [16; 3; 40; 70])
      (zeros_like [16; 21; 40; 70]) = Ok y
    ∧ shape y = [16; 13; 40; 70].
Proof.
  destruct (sample_latents_spec 5 10 (zeros_like [16; 3; 40; 70])
              (zeros_like [16; 21; 40; 70]) 16 3 21 40 70 eq_refl eq_refl)
    as (y & Hy & Hs & _).
  exists y. split; [exact Hy|exact Hs].
Defined.

(** ** Renaming the parameters of a diffusers checkpoint *)

Import WanModelStateDictConverter.

Lemma split_dot_nonempty (s : string) : split_dot s ≠ [].
Proof.
  induction s as [|c s IH]; cbn [split_dot]; [done|].
  destruct (is_dot c); [done|]. by destruct (split_dot s).
Qed.

Lemma split_dot_cons (c : Ascii.ascii) (s : string) :
  is_dot c = false →
  ∃ w ws, split_dot s = w :: ws ∧ split_dot (String c s) = String c w :: ws.
Proof.
  intros Hc. cbn [split_dot]. rewrite Hc.
  destruct (split_dot s) as [|w ws] eqn:E; [by apply split_dot_nonempty in E|].
  by exists w, ws.
Qed.

Lemma split_dot_app (a b : string) :
  dotless a → split_dot (a +:+ "." +:+ b) = a :: split_dot b.
Proof.
  unfold dotless. revert b. induction a as [|c a IH]; intros b Ha.
  - reflexivity.
  - change (String c a +:+ "." +:+ b) with (String c (a +:+ "." +:+ b)).
    cbn [split_dot] in *.
    destruct (is_dot c) eqn:Hc.
    + injection Ha as Ha _. discriminate.
    + destruct (split_dot a) as [|w ws] eqn:Ea;
        [by apply split_dot_nonempty in Ea|].
      injection Ha as Hw Hws. subst w ws. rewrite (IH b eq_refl). reflexivity.
Qed.

Lemma join_dot_cons (w : string) (ws : list string) :
  ws ≠ [] → join_dot (w :: ws) = w +:+ "." +:+ join_dot ws.
Proof. destruct ws; [done|reflexivity]. Qed.

Lemma join_split_dot (s : string) : join_dot (split_dot s) = s.
Proof.
  induction s as [|c s IH]; [reflexivity|]. cbn [split_dot].
  destruct (is_dot c) eqn:Hc.
  - rewrite join_dot_cons by apply split_dot_nonempty. rewrite IH.
    unfold is_dot in Hc. apply String.eqb_eq in Hc. injection Hc as ->.
    reflexivity.
  - destruct (split_dot s) as [|w ws] eqn:E;
      [by apply split_dot_nonempty in E|].
    rewrite <- IH. by destruct ws.
Qed.

Lemma append_assoc (a b c : string) : (a +:+ b) +:+ c = a +:+ (b +:+ c).
Proof.
  induction a as [|x a IH]; [reflexivity|].
  change (String x ((a +:+ b) +:+ c) = String x (a +:+ (b +:+ c))).
  f_equal. exact IH.
Qed.

Lemma dict_get_key (d : list (string * string)) (k v : string) :
  dict_get d k = Some v → (k, v) ∈ d.
Proof.
  induction d as [|[k' v'] d IH]; cbn [dict_get]; [discriminate|].
  destruct (String.eqb_spec k' k) as [->|_].
  - intros [= ->]. left.
  - intros H. right. by apply IH.
Qed.

(** Every key of [rename_dict] that starts with [blocks] has the block
    index 0, and so has its value; no key has the form [x.0]. *)
Lemma rename_dict_keys :
  Forall (λ kv,
            match split_dot kv.1 with
            | [_; second] => second ≠ "0"
            | first :: second :: _ =>
                first = "blocks" →
                second = "0"
                ∧ take 2 (split_dot kv.2) = ["blocks"; "0"]
            | _ => True
            end) rename_dict.
Proof.
  unfold rename_dict.
  repeat (constructor; [vm_compute; first [done | by intros [=] | by split]|]).
  constructor.
Qed.

Lemma split_block_key (i r : string) :
  dotless i →
  split_dot ("blocks." +:+ i +:+ "." +:+ r) = "blocks" :: i :: split_dot r.
Proof.
  intros Hi.
  change ("blocks." +:+ i +:+ "." +:+ r)
    with ("blocks" +:+ "." +:+ (i +:+ "." +:+ r)).
  rewrite (split_dot_app "blocks") by reflexivity.
  by rewrite (split_dot_app i).
Qed.

Lemma join_block_key (i r : string) :
  join_dot ("blocks" :: i :: split_dot r) = "blocks." +:+ i +:+ "." +:+ r.
Proof.
  rewrite join_dot_cons by done.
  rewrite join_dot_cons by apply split_dot_nonempty.
  by rewrite join_split_dot.
Qed.

(** The parameter of block [i] is renamed like the parameter of block 0,
    whatever the index [i]: when [rename_dict] maps [blocks.0.rk] to
    [blocks.0.rv], the name [blocks.i.rk] becomes [blocks.i.rv]. *)
Theorem rename_key_block (i rk rv : string) :
  dotless i →
  dict_get rename_dict ("blocks.0." +:+ rk) = Some ("blocks.0." +:+ rv) →
  rename_key ("blocks." +:+ i +:+ "." +:+ rk)
  = Ok (Some ("blocks." +:+ i +:+ "." +:+ rv)).
Proof.
  intros Hi Hget. unfold rename_key.
  destruct (dict_get rename_dict ("blocks." +:+ i +:+ "." +:+ rk))
    as [v|] eqn:Hdirect.
  - pose proof (dict_get_key _ _ _ Hdirect) as Hin.
    pose proof (proj1 (Forall_forall _ _) rename_dict_keys _ Hin) as Hkey.
    cbn [fst snd] in Hkey. rewrite (split_block_key i rk Hi) in Hkey.
    destruct (split_dot rk) as [|w ws] eqn:Erk;
      [by apply split_dot_nonempty in Erk|].
    destruct (Hkey eq_refl) as [-> _].
    change ("blocks." +:+ "0" +:+ "." +:+ rk) with ("blocks.0." +:+ rk)
      in Hdirect.
    rewrite Hget in Hdirect. injection Hdirect as <-. reflexivity.
  - rewrite (split_block_key i rk Hi). cbn [take drop app].
    rewrite drop_0, (join_block_key "0" rk).
    change ("blocks." +:+ "0" +:+ "." +:+ rk) with ("blocks.0." +:+ rk).
    rewrite Hget. cbn [getitem lookup list_lookup mbind result_bind].
    change ("blocks.0." +:+ rv) with ("blocks." +:+ "0" +:+ "." +:+ rv).
    rewrite (split_block_key "0" rv) by reflexivity.
    cbn [take drop app]. by rewrite drop_0, join_block_key.
Qed.

Lemma rename_key_block_witness :
  rename_key "blocks.17.attn1.to_q.weight"
  = Ok (Some "blocks.17.self_attn.q.weight").
Proof.
  apply (rename_key_block "17" "attn1.to_q.weight" "self_attn.q.weight");
    reflexivity.
Defined.

(** [rename_key] never raises: the block index [name.split(".")[1]] is
    read only for names of at least two components, because no key of
    [rename_dict] has the form [x.0]. *)
Lemma rename_key_total (name : string) :
  ∃ r, rename_key name = Ok r.
Proof.
  unfold rename_key.
  destruct (dict_get rename_dict name) as [v|]; [by eexists|].
  destruct (dict_get rename_dict _) as [v|] eqn:Hget; [|by eexists].
  destruct (split_dot name) as [|p0 [|p1 rest]] eqn:Hsplit.
  - by apply split_dot_nonempty in Hsplit.
  - exfalso. cbn [take drop app join_dot] in Hget.
    change (drop 0 (@nil string)) with (@nil string) in Hget.
    cbn [app join_dot] in Hget.
    pose proof (dict_get_key _ _ _ Hget) as Hin.
    pose proof (proj1 (Forall_forall _ _) rename_dict_keys _ Hin) as Hkey.
    cbn [fst snd] in Hkey.
    assert (Hp0 : dotless p0).
    { unfold dotless. rewrite <- Hsplit. f_equal.
      rewrite <- (join_split_dot name), Hsplit. reflexivity. }
    rewrite (split_dot_app p0 "0" Hp0) in Hkey. by apply Hkey.
  - cbn [getitem lookup list_lookup mbind result_bind]. by eexists.
Qed.

(** [from_diffusers] never raises, and every parameter of the
    dictionary it returns is a parameter of the input under its new
    name: nothing is invented, and a parameter whose name has no new name
    is dropped. *)
Theorem from_diffusers_total {V} (hash_state_dict_keys : list (string * V) → string)
    (state_dict : list (string * V)) :
  ∃ state_dict_ config,
    from_diffusers hash_state_dict_keys state_dict = Ok (state_dict_, config)
    ∧ (config = config_14B_t2v ∨ config = [])
    ∧ ∀ k param, state_dict_ !! k = Some param →
        ∃ name, (name, param) ∈ state_dict
                ∧ rename_key name = Ok (Some k).
Proof.
  unfold from_diffusers.
  assert (Hloop : ∀ (l : list (string * V)) (acc : gmap string V),
            ∃ out,
              foldlM (λ (state_dict_ : gmap string V) '(name, param),
                        r ← rename_key name;
                        match r with
                        | Some name_ => Ok (<[name_ := param]> state_dict_)
                        | None => Ok state_dict_
                        end) l acc = Ok out
              ∧ ∀ k param, out !! k = Some param →
                  acc !! k = Some param
                  ∨ ∃ name, (name, param) ∈ l
                            ∧ rename_key name = Ok (Some k)).
  { induction l as [|[name param] l IH]; intros acc; cbn [foldlM].
    - exists acc. split; [reflexivity|]. intros k p Hk. by left.
    - destruct (rename_key_total name) as [r Hr]. rewrite Hr.
      cbn [mbind result_bind]. destruct r as [k0|].
      + destruct (IH (<[k0 := param]> acc)) as (out & Hrun & Hout).
        exists out. split; [exact Hrun|]. intros k p Hk.
        destruct (Hout k p Hk) as [Hacc|(name' & Hin & Hren)].
        * destruct (decide (k0 = k)) as [->|Hne].
          -- rewrite lookup_insert_eq in Hacc. injection Hacc as <-.
             right. exists name. split; [left|exact Hr].
          -- rewrite lookup_insert_ne in Hacc by done. by left.
        * right. exists name'. split; [by right|exact Hren].
      + destruct (IH acc) as (out & Hrun & Hout).
        exists out. split; [exact Hrun|]. intros k p Hk.
        destruct (Hout k p Hk) as [Hacc|(name' & Hin & Hren)]; [by left|].
        right. exists name'. split; [by right|exact Hren]. }
  destruct (Hloop state_dict ∅) as (out & Hrun & Hout).
  rewrite Hrun. cbn [mbind result_bind].
  eexists _, _. split; [reflexivity|]. split.
  - destruct (String.eqb _ _); [by left|by right].
  - intros k p Hk. destruct (Hout k p Hk) as [Hacc|H]; [|exact H].
    by rewrite lookup_empty in Hacc.
Qed.
